(* ===== verification/_CoqProject ===== *)
-Q . S2P
Prelude.v
StringView.v
Crc32.v
Protocol.v
Codec.v
Framer.v
Ring.v
Reassembler.v
Charconv.v
Binary64.v
DoubleBounds.v
LineParser.v
LineSpec.v
Calendar.v
OMap.v
Level.v
Stats.v
Mean.v
SkipReporter.v
CsvBuilder.v
ResultSummary.v
ResultRoundTrip.v
Analysis.v
ParserThread.v
Net.v
Session.v
Exchange.v
SessionInv.v
SessionKeeps.v
Server.v
ServerTimers.v
ServerUploads.v
ServerConfig.v
Logger.v
LogKeeping.v
LogFiles.v
LogPruning.v
ServerApp.v
ServerLife.v
Daemon.v
LogApart.v
ServerMain.v
Handles.v
Effects.v
FileReader.v
ReaderWait.v
ClientUi.v
Window.v
TransferService.v
Client.v
UiRenderer.v
Application.v
ApplicationLife.v
ClientInv.v
ClientSend.v
ClientCommands.v
ClientReceive.v
ClientFlow.v
ClientPump.v
ClientRuns.v
ClientProgress.v
ClientResult.v
EndToEnd.v
