(* ===== verification/Prelude.v ===== *)
(** * log-transfer-analyzer: verification development

    The program is a C++17 client and server.  The client uploads a log file in
    one framed TCP stream; the server checks its size and CRC, analyses its
    lines on a parser thread and sends back a CSV of statistics, which it keeps
    so that an interrupted download can be resumed.  This development models
    both as executable Rocq definitions and proves what makes them correct.

    ** Parts, files, sources

    Foundations.
    - [Prelude]: bytes, machine-width integers, the [outcome] monad ([UB] for an
      access C++ leaves undefined, [NoFuel] for a loop that was not given enough
      iterations), generic lemmas and tactics.
    - [StringView]: what the code uses of std::string_view and std::copy_n.
    - [Charconv]: std::from_chars and std::to_chars on integers and doubles;
      [Binary64], [DoubleBounds]: IEEE binary64 on the standard library's
      SpecFloat and bounds on its results.
    - [Crc32]: common/util/Crc32.cpp.

    The protocol.
    - [Protocol], [Codec]: common/protocol/protocol.h, Codec.cpp: messages,
      encoders, decoders, size probe.
    - [Framer]: common/protocol/Framer.cpp: cutting messages out of a stream.

    The analysis on the server.
    - [Ring]: common/util/SpscRingBuffer: the ring between the event loop and
      the parser thread, byte storage included, with its interleavings; the
      class [ChunkQueue] is what its users rely on and the ring implements it.
    - [Reassembler]: parser/LineReassembler.h: lines out of chunks.
    - [LineParser], [LineSpec], [Calendar]: parser/LogLineParser.cpp, the
      declarative grammar of a clean line, and the calendar.
    - [Stats], [OMap], [Mean]: stats/StatsCollector.cpp on an ordered map.
    - [SkipReporter], [CsvBuilder]: parser/SkipReporter.cpp, csv/CsvBuilder.cpp.
    - [Analysis]: the part of parser/ParserThread.cpp that runs on one thread:
      slots in, result out.
    - [ParserThread]: the thread, one shared access at a time, and the loop's
      operations on it, as a system of interleaved actions.

    The server around it.
    - [Net]: common/net/TcpSocket, Timer, Listener; libuv is the parameter [Uv]
      (the return code of each call).
    - [Session]: session/Session.cpp, every handler, in a state monad over the
      session, its socket, its timer, the parser thread and its observer (the
      class [ISessionObserver]).
    - [Exchange]: the vocabulary of the end-to-end theorems: the upload or the
      request a byte stream starts with, and the replies it justifies.
    - [SessionInv], [SessionKeeps]: the invariant every handler preserves, and
      frame conditions.
    - [Server]: session/SessionManager.cpp composed with the session and the
      parser thread: [Server.fire] is one callback of the event loop or one
      action of the parser thread.
    - [ServerTimers], [ServerUploads]: the timer discipline; the service to a
      client that follows the protocol.

    The server process.
    - [ServerConfig]: app/ServerConfig.cpp and the start of app/main.cpp: the
      command line, the configuration file, their composition.
    - [Level], [Logger]: common/util/Logger: every operation, over a disk
      (directories, names, contents) whose calls may fail; [LogKeeping],
      [LogFiles], [LogPruning]: what is kept, where lines go, what is pruned.
    - [ServerApp]: app/ServerApp.cpp: the start, the pruning timer, signals and
      shutdown, over the handles of the loop (those of the session manager and
      of the parser thread included); [ServerLife]: its properties.
    - [Daemon]: app/Daemon.cpp: the processes that come of a double fork, their
      descriptors and terminal, the pid file; the kernel is the parameter
      [Kernel].  [ServerMain]: app/main.cpp on every path, its processes from
      the start to the exit code; [LogApart]: files the logger never touches.
    - [Handles]: constructors, destructors and close callbacks of common/net:
      who frees a libuv handle, and when.

    The client.
    - [Effects]: the state and error monad of the client and its rules.
    - [FileReader]: service/FileReader.cpp: the reader's operations and its
      thread, one critical section at a time; the file system is the parameter
      [Files].
    - [ReaderWait]: the reader's sleep on its condition variable: when it can be
      trusted, and the wake-up that is lost.
    - [ClientUi]: ui/UiState, service/Command.h, the event pump of
      app/Application.cpp, the address check of ui/PingConsole.h.
    - [Window]: the callbacks of app/Application.cpp and the checks of the
      dialogs (ui/FileDialog.cpp, ui/PingConsole.cpp); what Windows and the user
      answer is part of a press.
    - [TransferService]: service/TransferService.cpp: every command handler,
      socket callback and message handler.
    - [Client]: screen, worker and reader together: [Client.fire] is one action
      of the user, one callback of the worker's loop or one action of the
      reader's thread.
    - [UiRenderer]: ui/UiRenderer.cpp and the frame of app/Application.cpp: a
      frame as its calls of Dear ImGui, whose answers are the parameter [ImGui];
      frames are sequences of the actions of [Client].
    - [Application]: app/Application.cpp and app/main.cpp: start, window
      procedure, frame loop and destructor, the start and stop of the worker and
      its reader, over what Windows, Direct3D, Dear ImGui and libuv hold for the
      process (the parameter [Windows] says which calls succeed);
      [ApplicationLife]: what it holds, it gives back.
    - [ClientInv]: what a client says on a connection ([spoken], [cut]) and the
      invariant of its phases; [ClientSend], [ClientCommands], [ClientReceive]:
      the operations preserve it; [ClientRuns]: so does every run.
    - [ClientFlow], [ClientPump], [ClientProgress]: the count of writes in
      flight, what the pump moves, and that an upload goes on to its end.
    - [ClientResult]: receiving a result, however it is cut.
    - [ResultSummary], [ResultRoundTrip]: service/ResultSummary.cpp.
    - [EndToEnd]: client and server together.

    ** What the theorems show

    - End to end, on the server: over every interleaving of callbacks, parser
      thread, peers and connections, whatever libuv answers, and over any number
      of sessions, what a session has written is determined by what it has read
      ([server_replies_conform]); a complete valid upload, cut in any way, is
      acknowledged and analysed ([valid_upload_served]); a retained result is
      handed out only to its claim ([server_claims_right]); nothing is undefined
      and no loop runs forever ([server_safe]); the timer runs exactly while the
      peer is awaited ([timer_watches_peer]).
    - End to end, on the client: over every interleaving of the user, the
      reader's thread and the worker's callbacks, whatever the server sends, a
      connection carries whole uploads of files the user asked for, requests
      for their results and confirmations, then at most the beginning of one
      more upload ([client_speaks_protocol]); nothing is undefined and every
      callback ends ([client_safe]); the screen always offers a way on
      ([client_never_stuck]); a result arrives whole, or is refused
      ([client_receives_result]); an upload, left to the reader's thread and the
      completions of its writes, reaches its end ([upload_never_stalls]); the
      window does nothing but what these theorems are about
      ([window_refines_client]).
    - The client's process: it gives back every resource it takes, on every path
      ([application_released]), and starts inside the screen
      ([placement_inside]).
    - Both together: what the client sent is what the server analyses, and what
      the client keeps is that analysis ([upload_end_to_end]).
    - The parser thread: each result is the analysis of exactly the slots
      committed in its session, and it arrives.
    - The analysis: it depends only on the concatenated bytes; the parser
      accepts exactly the lines of the grammar; counters, averages, skip report
      and CSV are what they are named after; the CSV fits the client's limit and
      the client reads it back.
    - The server process: a configuration is accepted exactly when it is in its
      grammar, and is then valid ([configure_exact], [config_valid]); exactly
      one process comes out of a double fork and it is detached
      ([daemonize_detaches]); the pid file names the process that serves, until
      it ends ([pid_file_names_daemon]); every handle is closed once and a
      signal ends the loop and main ([main_ends]); no wrapper of a libuv handle is used after it is
      gone and all memory is freed ([handle_never_dangles],
      [handle_all_freed]).
    - The logs: nothing logged is lost by rotation, rollover or failing calls
      ([logs_never_lost]); on a healthy disk a line is the end of its day's file
      ([line_reaches_file]); pruning removes exactly the days beyond the
      retention ([prune_retention]).
    - The protocol: round trips, soundness of decoding, chunk independence and
      memory safety of the framer, CRC-32 against its bitwise definition.

    ** Assumptions and bounds

    - The server theorems are about runs in which no session is cleaned up
      between its trailer and its result ([calmStep]): such a clean-up is a bug
      of the code, shown by [abort_during_analysis_loses_data].
    - The client theorems are about runs ([Client.calm]) in which no chunk enters
      the ring between its emptying and the start of an upload (the code allows
      it: [stale_chunk_sent]) and no upload or request is posted while a
      connection is in the making; uv_write answers zero or an error and
      uv_timer_stop succeeds.
    - A callback of the client's worker is one step, except that the reader may
      run between the emptying of the ring and the start of an upload.  The file
      system does not change while the client runs.  A thread that waits on a
      condition variable runs when its condition holds; [ReaderWait] has the run
      in which the reader's wake-up is lost.
    - Ring counters are 64-bit and assumed not to wrap ([qroom]).
    - Fuel: a loop over [n] bytes gets [n + 1] iterations; each file proves that
      this is enough, as the theorems conclude [Ret].  The loop that sends chunks
      gets nine, one more than the writes in flight; the loop that empties the
      ring one more than the ring has slots; the loop over the commands one more
      than there are commands.
    - The log of a daemon: POSIX files (an open file outlives its name); local
      time is the calendar shifted by an offset that moves by at most eight
      hours ([zoneOk]); a query for a file's existence does not fail.
    - The pid file has no second name; a new process gets a number that no
      process or group has ([freshPids]).
    - A socket is not destroyed or connected again while it connects
      ([Handle.careful]); the program closes it first.
    - C++ floating point is IEEE binary64, round to nearest even.
    - A frame of the client is one step as far as the other threads are concerned;
      Dear ImGui takes no input for a disabled widget ([honours]) and neither
      WM_CLOSE nor WM_DESTROY for itself; coordinates of the screen are below
      2^30.  When the worker's thread has been joined its loop has no handles.

    ** Not modelled

    The log lines of the server's sessions and the copies of the client's lines
    in its log file (the logger itself is modelled): they have no effect on what
    the theorems are about.  The destructor of a server application whose start
    failed.  The conversions between UTF-8 and UTF-16 of the dialogs and the
    layout of what is drawn: they are computed by Windows and Dear ImGui.
    Exceptions of the standard library (no memory, no thread): the code does not
    catch them. *)

From stdpp Require Export base list numbers option.
From Stdlib Require Export ZArith Lia.
From Stdlib Require Import Strings.Byte.
From Stdlib Require Strings.String.
Export Strings.String.StringSyntax.
Export Byte.ByteSyntaxNotations.
Delimit Scope byte_scope with byte.

#[export] Set Default Goal Selector "!".
#[export] Set Warnings "-clear-no-such-hyp".

Open Scope Z_scope.

(** ** Bytes

    A C++ [char] is one of the 256 values of [Init.Byte.byte]; the code only
    ever compares characters, indexes tables by their unsigned value or copies
    them, so the unsigned reading [b2z] is the one every definition uses. *)

Abbreviation byte := Init.Byte.byte.
Abbreviation bytes := (list Init.Byte.byte).

Definition b2z (b : byte) : Z := Z.of_N (Byte.to_N b).

(** [static_cast<char>(v)] / [static_cast<std::uint8_t>(v)]: the low 8 bits. *)
Definition z2b (z : Z) : byte :=
  match Byte.of_N (Z.to_N (z mod 256)) with
  | Some b => b
  | None => Byte.x00
  end.

(** The bytes of a C++ string literal. *)
Definition bs (s : String.string) : bytes := String.list_byte_of_string s.
Arguments bs s%_string_scope.

(** Line feed and carriage return. *)
Abbreviation LF := "010"%byte.
Abbreviation CR := "013"%byte.

#[export] Instance byte_eq_dec : EqDecision byte := Byte.byte_eq_dec.

(** Every byte, for the finite case analyses that are decided by evaluation. *)
Definition all_bytes : bytes := map (fun n => z2b (Z.of_nat n)) (seq 0 256).

Lemma b2z_range b : 0 <= b2z b < 256.
Proof.
  unfold b2z. pose proof (Byte.to_N_bounded b). lia.
Qed.

Lemma b2z_z2b z : b2z (z2b z) = z mod 256.
Proof.
  unfold b2z, z2b.
  pose proof (Z.mod_pos_bound z 256 ltac:(lia)) as Hr.
  destruct (Byte.of_N _) as [b|] eqn:E.
  - apply Byte.to_of_N in E. rewrite E. lia.
  - apply Byte.of_N_None_iff in E. lia.
Qed.

Lemma z2b_b2z b : z2b (b2z b) = b.
Proof.
  unfold z2b. rewrite Z.mod_small by apply b2z_range.
  unfold b2z. rewrite N2Z.id, Byte.of_to_N. done.
Qed.

Lemma b2z_inj a b : b2z a = b2z b -> a = b.
Proof. intros H. rewrite <- (z2b_b2z a), <- (z2b_b2z b). by f_equal. Qed.

#[export] Instance b2z_Inj : Inj (=) (=) b2z.
Proof. intros ??. apply b2z_inj. Qed.

Lemma elem_of_all_bytes b : b ∈ all_bytes.
Proof.
  unfold all_bytes. apply list_elem_of_fmap.
  exists (Z.to_nat (b2z b)). pose proof (b2z_range b). split.
  - rewrite Z2Nat.id by lia. by rewrite z2b_b2z.
  - apply elem_of_seq. lia.
Qed.

(** A boolean property of bytes holds everywhere as soon as it evaluates to
    [true] on the enumeration. *)
Lemma byte_forallb (P : byte -> bool) :
  forallb P all_bytes = true -> forall b, P b = true.
Proof.
  intros H b. eapply forallb_forall in H; [done|].
  apply list_elem_of_In, elem_of_all_bytes.
Qed.

(** ** Machine integers

    A [w]-bit unsigned integer is a [Z] in [[0, 2^w)]; the wrap-around of the
    operations that can overflow is written with [uwrap]. *)

Definition uwrap (w z : Z) : Z := z mod 2 ^ w.
Abbreviation u8 := (uwrap 8).
Abbreviation u16 := (uwrap 16).
Abbreviation u32 := (uwrap 32).
Abbreviation u64 := (uwrap 64).

Definition is_uint (w z : Z) : Prop := 0 <= z < 2 ^ w.

#[export] Instance is_uint_dec w z : Decision (is_uint w z).
Proof. unfold is_uint. apply _. Defined.

Lemma uwrap_range w z : 0 <= w -> is_uint w (uwrap w z).
Proof.
  intros. unfold is_uint, uwrap. apply Z.mod_pos_bound.
  by apply Z.pow_pos_nonneg.
Qed.

Lemma uwrap_small w z : is_uint w z -> uwrap w z = z.
Proof. intros. by apply Z.mod_small. Qed.

(** The length of a buffer as the code's [size_t]. *)
Definition zlen {A} (l : list A) : Z := Z.of_nat (length l).

Lemma zlen_nonneg {A} (l : list A) : 0 <= zlen l.
Proof. unfold zlen. lia. Qed.
Lemma zlen_nil {A} : zlen (@nil A) = 0.
Proof. done. Qed.
Lemma zlen_cons {A} (x : A) l : zlen (x :: l) = 1 + zlen l.
Proof. unfold zlen. simpl length. lia. Qed.
Lemma zlen_app {A} (l k : list A) : zlen (l ++ k) = zlen l + zlen k.
Proof. unfold zlen. rewrite length_app. lia. Qed.
Lemma zlen_take {A} n (l : list A) : zlen (take n l) = Z.min (Z.of_nat n) (zlen l).
Proof. unfold zlen. rewrite length_take. lia. Qed.
Lemma zlen_drop {A} n (l : list A) : zlen (drop n l) = Z.max 0 (zlen l - Z.of_nat n).
Proof. unfold zlen. rewrite length_drop. lia. Qed.
Lemma zlen_0_inv {A} (l : list A) : zlen l <= 0 -> l = [].
Proof. destruct l; [done|]. rewrite zlen_cons. pose proof (zlen_nonneg l). lia. Qed.

(** ** Outcomes of C++ code that can be undefined

    [Ret] is a value; [UB] is an access the C++ standard leaves undefined (an
    index outside a view or an array); [NoFuel] is a loop that was not given
    enough iterations.  The theorems exclude the last two. *)

Inductive outcome (A : Type) : Type :=
| Ret (a : A)
| UB
| NoFuel.
Arguments Ret {A} a.
Arguments UB {A}.
Arguments NoFuel {A}.

Definition obind {A B} (m : outcome A) (k : A -> outcome B) : outcome B :=
  match m with
  | Ret a => k a
  | UB => UB
  | NoFuel => NoFuel
  end.

Lemma obind_Ret {A B} (a : A) (k : A -> outcome B) : obind (Ret a) k = k a.
Proof. done. Qed.

Declare Scope cxx_scope.
Delimit Scope cxx_scope with cxx.
Notation "'let*' p := m 'in' k" := (obind m (fun p => k))
  (at level 10, p as pattern, m at level 200, k at level 200)
   : cxx_scope.
Open Scope cxx_scope.

(** ** Automation *)

Create HintDb cxx discriminated.
#[export] Hint Resolve b2z_range zlen_nonneg uwrap_range : cxx.
Create Rewrite HintDb zlen.
#[export] Hint Rewrite @zlen_nil @zlen_cons @zlen_app @zlen_take @zlen_drop : zlen.

(** Arithmetic on lengths: push [zlen] through list operations, then [lia]. *)
Ltac zlen_lia :=
  autorewrite with zlen in *;
  repeat match goal with
  | H : context [zlen ?l] |- _ =>
      lazymatch goal with
      | _ : 0 <= zlen l |- _ => fail
      | _ => pose proof (zlen_nonneg l)
      end
  | |- context [zlen ?l] =>
      lazymatch goal with
      | _ : 0 <= zlen l |- _ => fail
      | _ => pose proof (zlen_nonneg l)
      end
  end; lia.

(** Split on the boolean comparisons a definition branches on. *)
Ltac bool_cases :=
  repeat match goal with
  | |- context [?a =? ?b] => destruct (Z.eqb_spec a b)
  | |- context [?a <? ?b] => destruct (Z.ltb_spec a b)
  | |- context [?a <=? ?b] => destruct (Z.leb_spec a b)
  end.
