(* ===== verification/StringView.v ===== *)
(** * What the code uses of [std::string_view] and [std::string]

    Views are lists of bytes; positions and lengths are [Z] (the code's
    [size_t]).  [npos] is [None].  Accesses the standard leaves undefined
    (operator[] past the end) or that throw ([substr] past the end) give [UB]. *)

From stdpp Require Import sets.
From S2P Require Import Prelude.

(** [v[off]] *)
Definition vget (v : bytes) (off : Z) : outcome byte :=
  if off <? 0 then UB
  else match v !! Z.to_nat off with
       | Some b => Ret b
       | None => UB
       end.

(** Element access of a [std::vector] or array, with the undefined cases. *)
Definition vat {A} (l : list A) (i : Z) : outcome A :=
  if i <? 0 then UB
  else match l !! Z.to_nat i with
       | Some x => Ret x
       | None => UB
       end.

Definition vset {A} (l : list A) (i : Z) (x : A) : outcome (list A) :=
  if (i <? 0) || (zlen l <=? i) then UB else Ret (<[Z.to_nat i := x]> l).

(** [take]/[drop] with the code's unsigned sizes. *)
Definition ztake {A} (n : Z) (l : list A) : list A := take (Z.to_nat n) l.
Definition zdrop {A} (n : Z) (l : list A) : list A := drop (Z.to_nat n) l.

(** The bytes [v[pos .. pos+n)] that exist. *)
Definition slice {A} (v : list A) (pos n : Z) : list A := ztake n (zdrop pos v).

(** [v.substr(pos, n)]: throws when [pos > v.size()]. *)
Definition substr (v : bytes) (pos n : Z) : outcome bytes :=
  if zlen v <? pos then UB else Ret (slice v pos n).

(** [std::copy_n(v.data() + pos, n, ...)]: reading outside [v] is undefined. *)
Definition copyN (v : bytes) (pos n : Z) : outcome bytes :=
  if (pos <? 0) || (n <? 0) || (zlen v <? pos + n) then UB else Ret (slice v pos n).

(** [v.find(c, pos)], [npos] as [None]. *)
Fixpoint findIn (l : bytes) (c : byte) (i : Z) : option Z :=
  match l with
  | [] => None
  | b :: l => if bool_decide (b = c) then Some i else findIn l c (i + 1)
  end.
Definition vfind (v : bytes) (c : byte) (pos : Z) : option Z := findIn (zdrop pos v) c pos.

(** [v.find(pat, pos)] *)
Fixpoint startsWith (pat l : bytes) : bool :=
  match pat, l with
  | [], _ => true
  | p :: pat, b :: l => bool_decide (b = p) && startsWith pat l
  | _ :: _, [] => false
  end.
Fixpoint findStrIn (l pat : bytes) (i : Z) : option Z :=
  if startsWith pat l then Some i
  else match l with
       | [] => None
       | _ :: l => findStrIn l pat (i + 1)
       end.
Definition vfindStr (v pat : bytes) (pos : Z) : option Z :=
  if zlen v <? pos then None else findStrIn (zdrop pos v) pat pos.

(** [s.append(p, n)] where [p] points at the view [v]: reading past it is undefined. *)
Definition appendN (s v : bytes) (n : Z) : outcome bytes :=
  if zlen v <? n then UB else Ret (s ++ ztake n v).

(** Rows, each closed by a line feed. *)
Definition joinRows (rows : list bytes) : bytes := concat (map (fun r => r ++ [LF]) rows).

(** A row [name,value]. *)
Definition csvRow (name value : bytes) : bytes := name ++ ","%byte :: value.

(** ** Lemmas *)

Lemma joinRows_app a b : joinRows (a ++ b) = joinRows a ++ joinRows b.
Proof. unfold joinRows. by rewrite map_app, concat_app. Qed.

Lemma joinRows_cons r rows : joinRows (r :: rows) = r ++ LF :: joinRows rows.
Proof. unfold joinRows. cbn. by rewrite <- app_assoc. Qed.

Lemma joinRows_length rows : (length rows <= length (joinRows rows))%nat.
Proof. induction rows as [|r rows IH]; [done|]. rewrite joinRows_cons, length_app. cbn. lia. Qed.

Lemma zlen_ztake {A} n (l : list A) : 0 <= n -> zlen (ztake n l) = Z.min n (zlen l).
Proof. intros. unfold ztake. rewrite zlen_take. lia. Qed.

Lemma zlen_zdrop {A} n (l : list A) : 0 <= n -> zlen (zdrop n l) = Z.max 0 (zlen l - n).
Proof. intros. unfold zdrop. rewrite zlen_drop. lia. Qed.

Lemma zlen_slice {A} (l : list A) p n :
  0 <= p -> 0 <= n -> p + n <= zlen l -> zlen (slice l p n) = n.
Proof. intros. unfold slice. rewrite zlen_ztake, zlen_zdrop by done. lia. Qed.

Lemma ztake_zdrop {A} n (l : list A) : ztake n l ++ zdrop n l = l.
Proof. apply take_drop. Qed.

Lemma ztake_app_l {A} n (l k : list A) : n <= zlen l -> ztake n (l ++ k) = ztake n l.
Proof. unfold ztake, zlen. intros. by rewrite take_app_le by lia. Qed.

Lemma ztake_all {A} n (l : list A) : zlen l <= n -> ztake n l = l.
Proof. unfold ztake, zlen. intros. apply take_ge. lia. Qed.

Lemma ztake_length_app {A} (l k : list A) : ztake (zlen l) (l ++ k) = l.
Proof. rewrite ztake_app_l by lia. by apply ztake_all. Qed.

Lemma zdrop_length_app {A} (l k : list A) : zdrop (zlen l) (l ++ k) = k.
Proof. unfold zdrop, zlen. rewrite Nat2Z.id. apply drop_app_length. Qed.

Lemma zdrop_zdrop {A} n m (l : list A) : 0 <= n -> 0 <= m -> zdrop n (zdrop m l) = zdrop (m + n) l.
Proof. intros. unfold zdrop. rewrite drop_drop. f_equal. lia. Qed.

Lemma zdrop_0 {A} (l : list A) : zdrop 0 l = l.
Proof. done. Qed.

Lemma slice_app {A} (l : list A) p n m :
  0 <= p -> 0 <= n -> 0 <= m -> slice l p (n + m) = slice l p n ++ slice l (p + n) m.
Proof.
  intros. unfold slice. rewrite <- zdrop_zdrop by done. unfold ztake, zdrop.
  rewrite Z2Nat.inj_add by done. by rewrite take_take_drop.
Qed.

Lemma slice_prefix {A} (l k : list A) p n :
  0 <= p -> 0 <= n -> p + n <= zlen l -> slice (l ++ k) p n = slice l p n.
Proof.
  intros. unfold slice, ztake, zdrop, zlen in *.
  rewrite drop_app_le by lia. rewrite take_app_le; [done|].
  rewrite length_drop. lia.
Qed.

(** Reading a field out of a message laid out as [pre ++ field ++ post]. *)
Lemma slice_field {A} (pre field post : list A) p n :
  p = zlen pre -> n = zlen field -> slice (pre ++ field ++ post) p n = field.
Proof.
  intros -> ->. unfold slice. by rewrite zdrop_length_app, ztake_length_app.
Qed.

Lemma slice_skip {A} (p l : list A) off n :
  zlen p <= off -> slice (p ++ l) off n = slice l (off - zlen p) n.
Proof.
  intros. unfold slice, ztake, zdrop, zlen in *. rewrite drop_app_ge by lia.
  do 2 f_equal. lia.
Qed.

Lemma slice_head {A} (f l : list A) n : n = zlen f -> slice (f ++ l) 0 n = f.
Proof. intros ->. apply ztake_length_app. Qed.

Lemma slice_head_all {A} (f : list A) n : n = zlen f -> slice f 0 n = f.
Proof. intros ->. by apply ztake_all. Qed.

Lemma vget_lookup v off b :
  0 <= off -> v !! Z.to_nat off = Some b -> vget v off = Ret b.
Proof. intros H E. unfold vget. destruct (Z.ltb_spec off 0); [lia|]. by rewrite E. Qed.

Lemma vget_Ret v off :
  0 <= off < zlen v -> exists b, vget v off = Ret b /\ v !! Z.to_nat off = Some b.
Proof.
  intros H. destruct (lookup_lt_is_Some_2 v (Z.to_nat off)) as [b Hb].
  - unfold zlen in H. lia.
  - exists b. split; [|done]. apply vget_lookup; [lia|done].
Qed.

Lemma vget_Ret_inv v off b :
  vget v off = Ret b -> 0 <= off < zlen v /\ v !! Z.to_nat off = Some b.
Proof.
  unfold vget. destruct (Z.ltb_spec off 0); [done|].
  destruct (v !! Z.to_nat off) as [c|] eqn:E; intros [= <-]. split; [|done].
  apply lookup_lt_Some in E. unfold zlen. lia.
Qed.

Lemma vget_app_l v k off : off < zlen v -> vget (v ++ k) off = vget v off.
Proof.
  intros H. unfold vget. destruct (Z.ltb_spec off 0); [done|].
  rewrite lookup_app_l; [done|]. unfold zlen in H. lia.
Qed.

(** A one-byte slice is what [vget] reads. *)
Lemma slice_one v off b : vget v off = Ret b -> slice v off 1 = [b].
Proof.
  intros [H E]%vget_Ret_inv. unfold slice, ztake, zdrop.
  by rewrite (drop_S _ b) by done.
Qed.

Lemma substr_Ret v p n : p <= zlen v -> substr v p n = Ret (slice v p n).
Proof. intros. unfold substr. destruct (Z.ltb_spec (zlen v) p); [lia|done]. Qed.
Lemma copyN_Ret v pos n : 0 <= pos -> 0 <= n -> pos + n <= zlen v -> copyN v pos n = Ret (slice v pos n).
Proof.
  intros. unfold copyN. rewrite (proj2 (Z.ltb_ge pos 0)), (proj2 (Z.ltb_ge n 0)), (proj2 (Z.ltb_ge (zlen v) (pos + n))) by lia. done.
Qed.

Lemma vat_Some {A} (l : list A) i x : 0 <= i -> l !! Z.to_nat i = Some x -> vat l i = Ret x.
Proof. intros H E. unfold vat. destruct (Z.ltb_spec i 0); [lia|]. by rewrite E. Qed.

Lemma vset_Ret {A} (l : list A) i x :
  0 <= i < zlen l -> vset l i x = Ret (<[Z.to_nat i := x]> l).
Proof.
  intros. unfold vset. destruct (Z.ltb_spec i 0); [lia|].
  by destruct (Z.leb_spec (zlen l) i); [lia|].
Qed.

Lemma findIn_Some l c : forall i n,
  findIn l c i = Some n ->
  exists p q, l = p ++ c :: q /\ ~ c ∈ p /\ n = i + zlen p.
Proof.
  induction l as [|b l IH]; intros i n; cbn [findIn]; [done|].
  destruct (bool_decide_reflect (b = c)) as [->|Hne].
  - intros [= <-]. exists [], l. rewrite (@zlen_nil byte). split_and!; [done|set_solver|lia].
  - intros (p & q & -> & Hp & ->)%IH. exists (b :: p), q. rewrite zlen_cons.
    split_and!; [done|set_solver|lia].
Qed.

Lemma findIn_None l c : forall i, findIn l c i = None -> ~ c ∈ l.
Proof.
  induction l as [|b l IH]; intros i; cbn [findIn]; [set_solver|].
  destruct (bool_decide_reflect (b = c)) as [->|Hne]; [done|].
  intros H%IH. set_solver.
Qed.

Lemma startsWith_spec pat l : startsWith pat l = true <-> exists r, l = pat ++ r.
Proof.
  revert l. induction pat as [|p pat IH]; intros l; cbn; [naive_solver|].
  destruct l as [|b l]; [naive_solver|].
  rewrite andb_true_iff, bool_decide_eq_true, IH. naive_solver.
Qed.

Lemma findStrIn_Some l pat : forall i n,
  findStrIn l pat i = Some n -> exists a r, l = a ++ pat ++ r /\ n = i + zlen a.
Proof.
  induction l as [|b l IH]; intros i n; cbn [findStrIn].
  - destruct (startsWith pat []) eqn:E; [|done]. intros [= <-].
    apply startsWith_spec in E as [r E]. exists [], r. rewrite (@zlen_nil byte). split; [done|lia].
  - destruct (startsWith pat (b :: l)) eqn:E.
    + intros [= <-]. apply startsWith_spec in E as [r ->]. exists [], r.
      rewrite (@zlen_nil byte). split; [done|lia].
    + intros (a & r & -> & ->)%IH. exists (b :: a), r. rewrite zlen_cons. split; [done|lia].
Qed.

Lemma findStrIn_first l pat : forall i n a r,
  findStrIn l pat i = Some n -> l = a ++ pat ++ r -> n <= i + zlen a.
Proof.
  induction l as [|b l IH]; intros i n a r; cbn [findStrIn].
  - destruct (startsWith pat []); [|done]. intros [= <-] _. zlen_lia.
  - destruct (startsWith pat (b :: l)) eqn:E; [intros [= <-] _; zlen_lia|].
    intros Hf Hl. destruct a as [|x a].
    + exfalso. assert (startsWith pat (b :: l) = true) by (apply startsWith_spec; eauto). congruence.
    + injection Hl as -> ->. apply (IH _ _ a r) in Hf; [|done]. rewrite zlen_cons. lia.
Qed.

Lemma findStrIn_absent l pat : forall i a r, findStrIn l pat i = None -> l <> a ++ pat ++ r.
Proof.
  induction l as [|b l IH]; intros i a r; cbn [findStrIn].
  - destruct (startsWith pat []) eqn:E; [done|]. intros _ Hl.
    destruct a, pat; try done.
  - destruct (startsWith pat (b :: l)) eqn:E; [done|]. intros Hf Hl. destruct a as [|x a].
    + assert (startsWith pat (b :: l) = true) by (apply startsWith_spec; eauto). congruence.
    + injection Hl as -> Hl. by apply (IH _ a r) in Hf.
Qed.

Lemma zdrop_app_le {A} (l k : list A) n : 0 <= n <= zlen l -> zdrop n (l ++ k) = zdrop n l ++ k.
Proof. intros H. unfold zdrop, zlen in *. apply drop_app_le. lia. Qed.

(** The first separator splits a text in one way. *)
Lemma app_sep_inj {A} (c : A) a b x y :
  ~ c ∈ a -> ~ c ∈ b -> a ++ c :: x = b ++ c :: y -> a = b /\ x = y.
Proof.
  revert b. induction a as [|e a IH]; intros [|f b] Ha Hb E; cbn in E.
  - by injection E.
  - injection E as -> _. set_solver.
  - injection E as <- _. set_solver.
  - injection E as <- E. destruct (IH b) as [-> ->]; [set_solver|set_solver|done|done].
Qed.

(** *** Reading a text at a known prefix *)

Lemma zdrop_pre {A} (pre l : list A) p : p = zlen pre -> zdrop p (pre ++ l) = l.
Proof. intros ->. apply zdrop_length_app. Qed.

Lemma findIn_app a c r : forall i, ~ c ∈ a -> findIn (a ++ c :: r) c i = Some (i + zlen a).
Proof.
  induction a as [|b a IH]; intros i Hn; cbn [findIn app].
  - rewrite bool_decide_eq_true_2, (@zlen_nil byte) by done. f_equal. lia.
  - rewrite bool_decide_eq_false_2 by set_solver. rewrite IH, zlen_cons by set_solver. f_equal. lia.
Qed.

Lemma findIn_absent a c : forall i, ~ c ∈ a -> findIn a c i = None.
Proof.
  induction a as [|b a IH]; intros i Hn; [done|]. cbn [findIn].
  rewrite bool_decide_eq_false_2 by set_solver. apply IH. set_solver.
Qed.

Lemma vfind_pre pre a c r p :
  p = zlen pre -> ~ c ∈ a -> vfind (pre ++ a ++ c :: r) c p = Some (p + zlen a).
Proof. intros -> Hn. unfold vfind. rewrite zdrop_length_app. by apply findIn_app. Qed.

Lemma vfind_pre_inv pre l c p n :
  p = zlen pre -> vfind (pre ++ l) c p = Some n ->
  exists a r, l = a ++ c :: r /\ ~ c ∈ a /\ n = p + zlen a.
Proof. intros ->. unfold vfind. rewrite zdrop_length_app. apply findIn_Some. Qed.

Lemma vget_pre pre b r p : p = zlen pre -> vget (pre ++ b :: r) p = Ret b.
Proof.
  intros ->. apply vget_lookup; [apply zlen_nonneg|]. unfold zlen. rewrite Nat2Z.id.
  by apply list_lookup_middle.
Qed.

Lemma substr_pre pre a r p n :
  p = zlen pre -> n = zlen a -> substr (pre ++ a ++ r) p n = Ret a.
Proof.
  intros -> ->. rewrite substr_Ret by zlen_lia. f_equal. by apply slice_field.
Qed.

Lemma substr_pre_all pre a p n :
  p = zlen pre -> zlen a <= n -> substr (pre ++ a) p n = Ret a.
Proof.
  intros -> Hn. rewrite substr_Ret by zlen_lia. f_equal. unfold slice.
  rewrite zdrop_length_app. by apply ztake_all.
Qed.

Lemma appendN_Ret s v n : n <= zlen v -> appendN s v n = Ret (s ++ ztake n v).
Proof. intros. unfold appendN. by destruct (Z.ltb_spec (zlen v) n); [lia|]. Qed.

Lemma zdrop_split {A} (l : list A) p n q :
  0 <= p -> 0 <= n -> q = p + n -> zdrop p l = slice l p n ++ zdrop q l.
Proof.
  intros ? ? ->. unfold slice. rewrite <- zdrop_zdrop by done. symmetry. apply ztake_zdrop.
Qed.

(** A write outside a slice leaves it unchanged. *)
Lemma ztake_prefix {A} (a b l : list A) m : a ++ b = ztake m l -> ztake (zlen a) l = a.
Proof.
  intros E. rewrite <- (ztake_zdrop m l), <- E, <- app_assoc. apply ztake_length_app.
Qed.

Lemma slice_insert_ne {A} (l : list A) i x p n :
  0 <= p -> i < p \/ p + n <= i -> 0 <= i -> slice (<[Z.to_nat i := x]> l) p n = slice l p n.
Proof.
  intros Hp Hi Hi0. unfold slice, ztake, zdrop. apply list_eq. intros k.
  destruct (decide (k < Z.to_nat n)%nat); [|by rewrite !lookup_take_ge by lia].
  rewrite !lookup_take_lt, !lookup_drop by done. apply list_lookup_insert_ne. lia.
Qed.

#[export] Hint Rewrite @zlen_ztake @zlen_zdrop @zlen_slice using lia : zlen.
