(* ===== verification/Crc32.v ===== *)
(** * CRC-32 (common/util/Crc32.cpp)

    The table-driven, incremental CRC both ends compute over the payload and
    over result.csv.  [Module Crc32] holds the code's definitions (the table
    built by [makeTable], the byte loop of [crc32]); [Module BitCrc] is the
    reference: the reflected IEEE 802.3 division one bit at a time.  The
    theorems: the table routine is the reference, incremental calls compose,
    and an error burst of at most four consecutive bytes changes the value. *)

From S2P Require Import Prelude.

Module Crc32.

(** [constexpr std::uint32_t kPolynomial]: reflected IEEE 802.3. *)
Definition kPolynomial : Z := 0xEDB88320.

(** One turn of the inner loop of [makeTable]. *)
Definition tableBit (c : Z) : Z :=
  if negb (Z.land c 1 =? 0)
  then Z.lxor kPolynomial (Z.shiftr c 1)
  else Z.shiftr c 1.

(** [makeTable]: entry [i] is eight turns of the bit loop from [i]. *)
Definition makeTable : list Z :=
  map (fun i => Nat.iter 8 tableBit (Z.of_nat i)) (seq 0 256).

Definition kTable : list Z := makeTable.

(** [c = kTable[(c ^ byte) & 0xFFu] ^ (c >> 8)] *)
Definition crcByte (c : Z) (b : byte) : Z :=
  Z.lxor (nth (Z.to_nat (Z.land (Z.lxor c (b2z b)) 0xFF)) kTable 0)
         (Z.shiftr c 8).

(** [common::crc32(crc, data)]: the state between calls is the finished CRC. *)
Definition crc32 (crc : Z) (data : bytes) : Z :=
  let c := Z.lxor crc 0xFFFFFFFF in
  let c := fold_left crcByte data c in
  Z.lxor c 0xFFFFFFFF.

End Crc32.

Import Crc32.

(** ** The reference: one bit of the reflected division at a time *)
Module BitCrc.

(** The register after one message byte: its bits enter at the low end. *)
Definition step (c : Z) (b : byte) : Z :=
  Nat.iter 8 tableBit (Z.lxor c (b2z b)).

Definition crc (data : bytes) : Z :=
  Z.lxor (fold_left step data 0xFFFFFFFF) 0xFFFFFFFF.

End BitCrc.

(** ** Linearity of the bit step over exclusive or *)

Lemma tableBit_testbit c :
  tableBit c = Z.lxor (if Z.testbit c 0 then kPolynomial else 0) (Z.shiftr c 1).
Proof.
  unfold tableBit. replace (Z.land c 1) with (if Z.testbit c 0 then 1 else 0).
  - destruct (Z.testbit c 0); simpl negb; cbv iota; [done|].
    by rewrite Z.lxor_0_l.
  - change 1 with (Z.ones 1). rewrite Z.land_ones by lia.
    change (2 ^ 1) with 2. rewrite <- Z.bit0_mod. by destruct (Z.testbit c 0).
Qed.

Lemma lxor_swap a b c d :
  Z.lxor (Z.lxor a b) (Z.lxor c d) = Z.lxor (Z.lxor a c) (Z.lxor b d).
Proof.
  rewrite !Z.lxor_assoc. f_equal. rewrite <- !Z.lxor_assoc. f_equal.
  apply Z.lxor_comm.
Qed.

Lemma tableBit_lxor a b : tableBit (Z.lxor a b) = Z.lxor (tableBit a) (tableBit b).
Proof.
  rewrite !tableBit_testbit, Z.lxor_spec, Z.shiftr_lxor, lxor_swap. f_equal.
  destruct (Z.testbit a 0), (Z.testbit b 0); simpl xorb; cbv iota;
    rewrite ?Z.lxor_0_r, ?Z.lxor_0_l, ?Z.lxor_nilpotent; done.
Qed.

Lemma iter_tableBit_lxor n a b :
  Nat.iter n tableBit (Z.lxor a b)
  = Z.lxor (Nat.iter n tableBit a) (Nat.iter n tableBit b).
Proof. induction n as [|n IH]; [done|]. simpl. by rewrite IH, tableBit_lxor. Qed.

Lemma tableBit_shiftl a n : 0 < n -> tableBit (Z.shiftl a n) = Z.shiftl a (n - 1).
Proof.
  intros. rewrite tableBit_testbit, Z.shiftl_spec_low by lia. cbv iota.
  rewrite Z.lxor_0_l, <- Z.shiftl_opp_r with (n := 1), Z.shiftl_shiftl by lia.
  done.
Qed.

(** A value shifted past the bits consumed only slides down. *)
Lemma iter_tableBit_shiftl k a n :
  Z.of_nat k <= n ->
  Nat.iter k tableBit (Z.shiftl a n) = Z.shiftl a (n - Z.of_nat k).
Proof.
  induction k as [|k IH]; intros Hk.
  - simpl. f_equal. lia.
  - rewrite Nat.iter_succ, IH, tableBit_shiftl by lia. f_equal. lia.
Qed.

Lemma iter_add {A} (f : A -> A) n m x :
  Nat.iter (n + m) f x = Nat.iter n f (Nat.iter m f x).
Proof. induction n as [|n IH]; [done|]. simpl. by rewrite IH. Qed.

(** ** The table is the reference *)

Lemma kTable_nth i :
  0 <= i < 256 -> nth (Z.to_nat i) kTable 0 = Nat.iter 8 tableBit i.
Proof.
  intros Hi. unfold kTable, makeTable.
  erewrite nth_indep by (rewrite length_map, length_seq; lia).
  rewrite (map_nth (fun i => Nat.iter 8 tableBit (Z.of_nat i)) (seq 0 256) 0%nat).
  rewrite seq_nth by lia. f_equal. lia.
Qed.

Lemma split_low8 c : c = Z.lxor (Z.land c 0xFF) (Z.shiftl (Z.shiftr c 8) 8).
Proof.
  apply Z.bits_inj'. intros n Hn. rewrite Z.lxor_spec, Z.land_spec.
  change 0xFF with (Z.ones 8).
  destruct (Z.lt_ge_cases n 8).
  - rewrite Z.ones_spec_low, Z.shiftl_spec_low by lia.
    by rewrite andb_true_r, xorb_false_r.
  - rewrite Z.ones_spec_high, Z.shiftl_spec, Z.shiftr_spec by lia.
    rewrite andb_false_r, xorb_false_l. f_equal. lia.
Qed.

Lemma land_255_range c : 0 <= Z.land c 0xFF < 256.
Proof.
  change 0xFF with (Z.ones 8). rewrite Z.land_ones by lia.
  apply Z.mod_pos_bound. lia.
Qed.

Lemma shiftr8_b2z b : Z.shiftr (b2z b) 8 = 0.
Proof.
  rewrite Z.shiftr_div_pow2 by lia. apply Z.div_small. apply b2z_range.
Qed.

Lemma crcByte_step c b : crcByte c b = BitCrc.step c b.
Proof.
  unfold crcByte, BitCrc.step. rewrite kTable_nth by apply land_255_range.
  rewrite (split_low8 (Z.lxor c (b2z b))) at 2.
  rewrite iter_tableBit_lxor, iter_tableBit_shiftl by done.
  change (8 - Z.of_nat 8) with 0. rewrite Z.shiftl_0_r. f_equal.
  by rewrite Z.shiftr_lxor, shiftr8_b2z, Z.lxor_0_r.
Qed.

Lemma fold_crcByte data c : fold_left crcByte data c = fold_left BitCrc.step data c.
Proof.
  revert c. induction data as [|b data IH]; intros c; [done|].
  simpl. by rewrite crcByte_step, IH.
Qed.

(** ** Ranges *)

Lemma lxor_range n a b : 0 <= n -> is_uint n a -> is_uint n b -> is_uint n (Z.lxor a b).
Proof.
  unfold is_uint. intros Hn Ha Hb.
  assert (0 <= Z.lxor a b) by (apply Z.lxor_nonneg; lia).
  split; [done|]. destruct (Z.eq_dec (Z.lxor a b) 0) as [->|].
  - by apply Z.pow_pos_nonneg.
  - apply Z.log2_lt_pow2; [lia|].
    eapply Z.le_lt_trans; [apply Z.log2_lxor; lia|].
    destruct (Z.eq_dec n 0) as [->|].
    + assert (a = 0) by lia. assert (b = 0) by lia. by subst.
    + apply Z.max_lub_lt.
      * destruct (Z.eq_dec a 0) as [->|]; [simpl; lia|]. apply Z.log2_lt_pow2; lia.
      * destruct (Z.eq_dec b 0) as [->|]; [simpl; lia|]. apply Z.log2_lt_pow2; lia.
Qed.

Lemma tableBit_range c : is_uint 32 c -> is_uint 32 (tableBit c).
Proof.
  intros Hc. rewrite tableBit_testbit. apply lxor_range; [lia| |].
  - unfold is_uint, kPolynomial. destruct (Z.testbit c 0); lia.
  - unfold is_uint in *. rewrite Z.shiftr_div_pow2 by lia.
    split; [apply Z.div_pos|apply Z.div_lt_upper_bound]; lia.
Qed.

Lemma iter_tableBit_range n c : is_uint 32 c -> is_uint 32 (Nat.iter n tableBit c).
Proof. intros. induction n; [done|]. by apply tableBit_range. Qed.

Lemma b2z_uint32 b : is_uint 32 (b2z b).
Proof. pose proof (b2z_range b). unfold is_uint. lia. Qed.

Lemma step_range c b : is_uint 32 c -> is_uint 32 (BitCrc.step c b).
Proof. intros. apply iter_tableBit_range, lxor_range; [lia|done|apply b2z_uint32]. Qed.

Lemma fold_step_range data c : is_uint 32 c -> is_uint 32 (fold_left BitCrc.step data c).
Proof.
  revert c. induction data as [|b data IH]; intros c Hc; [done|].
  simpl. by apply IH, step_range.
Qed.

Lemma ffffffff_range : is_uint 32 0xFFFFFFFF.
Proof. unfold is_uint. lia. Qed.
#[export] Hint Resolve tableBit_range step_range ffffffff_range : cxx.

Lemma crc32_range crc data : is_uint 32 crc -> is_uint 32 (crc32 crc data).
Proof.
  intros. unfold crc32. rewrite fold_crcByte.
  apply lxor_range; [lia| |apply ffffffff_range].
  apply fold_step_range, lxor_range; [lia|done|apply ffffffff_range].
Qed.

(** ** Injectivity of the register *)

(** The bit shifted out is recovered from the top bit of the result, so no two
    32-bit registers meet. *)
Lemma tableBit_inj a b :
  is_uint 32 a -> is_uint 32 b -> tableBit a = tableBit b -> a = b.
Proof.
  unfold is_uint. intros Ha Hb. rewrite !tableBit_testbit. intros E.
  assert (Htop : forall c, 0 <= c < 2 ^ 32 ->
    Z.testbit (Z.lxor (if Z.testbit c 0 then kPolynomial else 0) (Z.shiftr c 1)) 31
    = Z.testbit c 0).
  { intros c Hc. rewrite Z.lxor_spec, Z.shiftr_spec by lia.
    replace (Z.testbit c (31 + 1)) with false.
    - rewrite xorb_false_r. by destruct (Z.testbit c 0).
    - symmetry. apply Z.bits_above_log2; [lia|].
      destruct (Z.eq_dec c 0) as [->|]; [simpl; lia|].
      apply Z.log2_lt_pow2; lia. }
  assert (H0 : Z.testbit a 0 = Z.testbit b 0).
  { rewrite <- (Htop a), <- (Htop b) by done. by rewrite E. }
  rewrite H0 in E. apply (f_equal (Z.lxor (if Z.testbit b 0 then kPolynomial else 0))) in E.
  rewrite <- !Z.lxor_assoc, Z.lxor_nilpotent, !Z.lxor_0_l in E.
  apply Z.bits_inj'. intros n Hn. destruct (Z.eq_dec n 0) as [->|]; [done|].
  apply (f_equal (fun z => Z.testbit z (n - 1))) in E.
  rewrite !Z.shiftr_spec in E by lia. by rewrite Z.sub_add in E.
Qed.

Lemma iter_tableBit_inj n a b :
  is_uint 32 a -> is_uint 32 b ->
  Nat.iter n tableBit a = Nat.iter n tableBit b -> a = b.
Proof.
  intros Ha Hb. induction n as [|n IH]; [done|]. simpl. intros E.
  apply IH, tableBit_inj; [by apply iter_tableBit_range..|done].
Qed.

Lemma lxor_inj_r c a b : Z.lxor a c = Z.lxor b c -> a = b.
Proof.
  intros E. apply (f_equal (fun z => Z.lxor z c)) in E.
  by rewrite !Z.lxor_assoc, Z.lxor_nilpotent, !Z.lxor_0_r in E.
Qed.

Lemma fold_step_inj data a b :
  is_uint 32 a -> is_uint 32 b ->
  fold_left BitCrc.step data a = fold_left BitCrc.step data b -> a = b.
Proof.
  revert a b. induction data as [|d data IH]; intros a b Ha Hb E; [done|].
  simpl in E. apply IH in E; [|by apply step_range..].
  apply iter_tableBit_inj in E.
  - by eapply lxor_inj_r.
  - apply lxor_range; [lia|done|apply b2z_uint32].
  - apply lxor_range; [lia|done|apply b2z_uint32].
Qed.

(** ** Bursts: up to four bytes enter the register as one little-endian word *)

Fixpoint leWord (l : bytes) : Z :=
  match l with
  | [] => 0
  | b :: l => Z.lxor (b2z b) (Z.shiftl (leWord l) 8)
  end.

Lemma leWord_range l : is_uint (8 * zlen l) (leWord l).
Proof.
  induction l as [|b l IH]; [by vm_compute|].
  rewrite zlen_cons. cbn [leWord]. pose proof (zlen_nonneg l).
  apply lxor_range; [lia| |].
  - pose proof (b2z_range b). unfold is_uint. split; [lia|].
    eapply Z.lt_le_trans; [apply (proj2 H0)|].
    change 256 with (2 ^ 8). apply Z.pow_le_mono_r; lia.
  - unfold is_uint in *. rewrite Z.shiftl_mul_pow2 by lia.
    replace (8 * (1 + zlen l)) with (8 * zlen l + 8) by lia.
    rewrite Z.pow_add_r by lia. nia.
Qed.

Lemma leWord_inj l k : length l = length k -> leWord l = leWord k -> l = k.
Proof.
  revert k. induction l as [|b l IH]; intros [|d k] HL E; try done.
  simpl in HL. injection HL as HL. cbn [leWord] in E.
  assert (Hlow : forall x m, Z.land (Z.lxor (b2z x) (Z.shiftl m 8)) 0xFF = b2z x).
  { intros x m. apply Z.bits_inj'. intros n Hn. change 0xFF with (Z.ones 8).
    rewrite Z.land_spec, Z.lxor_spec. destruct (Z.lt_ge_cases n 8).
    - rewrite Z.ones_spec_low, Z.shiftl_spec_low by lia.
      by rewrite xorb_false_r, andb_true_r.
    - rewrite Z.ones_spec_high, andb_false_r by lia. symmetry.
      pose proof (b2z_range x). destruct (Z.eq_dec (b2z x) 0) as [->|];
        [apply Z.testbit_0_l|].
      apply Z.bits_above_log2; [lia|].
      eapply Z.lt_le_trans; [|done]. apply Z.log2_lt_pow2; lia. }
  assert (b = d).
  { apply b2z_inj. rewrite <- (Hlow b (leWord l)), <- (Hlow d (leWord k)).
    by rewrite E. }
  subst d. f_equal. apply IH; [done|].
  apply (f_equal (fun z => Z.shiftr (Z.lxor (b2z b) z) 8)) in E.
  rewrite <- !Z.lxor_assoc, Z.lxor_nilpotent, !Z.lxor_0_l in E.
  by rewrite !Z.shiftr_shiftl_l, !Z.shiftl_0_r in E by lia.
Qed.

Lemma fold_step_leWord l c :
  fold_left BitCrc.step l c = Nat.iter (8 * length l) tableBit (Z.lxor c (leWord l)).
Proof.
  revert c. induction l as [|b l IH]; intros c.
  - simpl. by rewrite Z.lxor_0_r.
  - cbn [fold_left leWord length]. rewrite IH. unfold BitCrc.step.
    replace (8 * S (length l))%nat with (8 * length l + 8)%nat by lia.
    rewrite iter_add. f_equal.
    rewrite <- Z.lxor_assoc, (iter_tableBit_lxor 8 (Z.lxor c (b2z b)) _).
    by rewrite iter_tableBit_shiftl, Z.shiftl_0_r by lia.
Qed.

(** Two four-byte blocks that differ leave different registers. *)
Lemma fold_step_block x y c :
  is_uint 32 c -> length x = length y -> (length x <= 4)%nat ->
  fold_left BitCrc.step x c = fold_left BitCrc.step y c -> x = y.
Proof.
  intros Hc HL H4 E. rewrite !fold_step_leWord, <- HL in E.
  assert (Hw : forall l, (length l <= 4)%nat -> is_uint 32 (Z.lxor c (leWord l))).
  { intros l Hl. apply lxor_range; [lia|done|].
    pose proof (leWord_range l) as R. unfold is_uint, zlen in *.
    split; [lia|]. eapply Z.lt_le_trans; [apply (proj2 R)|].
    apply Z.pow_le_mono_r; lia. }
  apply iter_tableBit_inj in E; [|apply Hw; lia..].
  apply leWord_inj; [done|]. rewrite (Z.lxor_comm c), (Z.lxor_comm c _) in E.
  by apply lxor_inj_r in E.
Qed.

Lemma crc32_bitwise crc data :
  crc32 crc data
  = Z.lxor (fold_left BitCrc.step data (Z.lxor crc 0xFFFFFFFF)) 0xFFFFFFFF.
Proof. unfold crc32. by rewrite fold_crcByte. Qed.

(** ** Properties *)


Lemma crc32_app crc a b : crc32 (crc32 crc a) b = crc32 crc (a ++ b).
Proof.
  unfold crc32. rewrite fold_left_app, Z.lxor_assoc, Z.lxor_nilpotent.
  by rewrite Z.lxor_0_r.
Qed.

Lemma crc32_nil crc : crc32 crc [] = crc.
Proof.
  unfold crc32. cbn [fold_left]. rewrite Z.lxor_assoc, Z.lxor_nilpotent.
  apply Z.lxor_0_r.
Qed.


(** Error detection. Two payloads that differ only inside a window of at
    most four consecutive bytes (a 32-bit burst) never have the same CRC. *)
Lemma crc32_detects_burst (pre x y post : bytes) :
  length x = length y -> (length x <= 4)%nat -> x <> y ->
  crc32 0 (pre ++ x ++ post) <> crc32 0 (pre ++ y ++ post).
Proof.
  intros HL H4 Hxy E. rewrite !crc32_bitwise, Z.lxor_0_l in E.
  apply lxor_inj_r in E. rewrite !fold_left_app in E.
  assert (Hp := fold_step_range pre 0xFFFFFFFF ffffffff_range).
  apply fold_step_inj in E; [|by apply fold_step_range..].
  by apply fold_step_block in E.
Qed.

(** The test vector documented in Crc32.h. *)
Example crc32_test_vector : crc32 0 (bs "123456789") = 0xCBF43926.
Proof. vm_compute. reflexivity. Qed.
