(* ===== verification/Protocol.v ===== *)
(** * Protocol constants and message types (common/protocol/protocol.h)

    The single definition of the wire constants both programs share: message
    types, Ack status codes, message sizes, value limits and timeouts, and the
    value types the codec converts. *)

From S2P Require Import Prelude.

(** ** Preamble: the first eight bytes of every message *)
Definition kMagic : list Z := [0x42; 0x59; 0x44; 0x41].
Definition kProtocolVersion : Z := 1.
Definition kOffsetMagic : Z := 0.
Definition kOffsetVersion : Z := 4.
Definition kOffsetType : Z := 5.
Definition kOffsetReserved : Z := 6.
Definition kPreambleSize : Z := 8.

(** [enum class MessageType : std::uint8_t]; 6 is reserved and not a type. *)
Module MessageType.
Inductive t :=
| UploadHeader
| UploadTrailer
| Ack
| ResultHeader
| DownloadDone
| ResultRequest.

Definition to_u8 (m : t) : Z :=
  match m with
  | UploadHeader => 1
  | UploadTrailer => 2
  | Ack => 3
  | ResultHeader => 4
  | DownloadDone => 5
  | ResultRequest => 7
  end.

(** [static_cast<MessageType>(byte)] followed by a [switch] over the
    enumerators: [None] is the value no [case] names. *)
Definition of_u8 (z : Z) : option t :=
  if z =? 1 then Some UploadHeader
  else if z =? 2 then Some UploadTrailer
  else if z =? 3 then Some Ack
  else if z =? 4 then Some ResultHeader
  else if z =? 5 then Some DownloadDone
  else if z =? 7 then Some ResultRequest
  else None.

#[global] Instance t_eq_dec : EqDecision t.
Proof. solve_decision. Defined.

Lemma of_to_u8 m : of_u8 (to_u8 m) = Some m.
Proof. by destruct m. Qed.

Lemma to_of_u8 z m : of_u8 z = Some m -> z = to_u8 m.
Proof.
  unfold of_u8. bool_cases; intros [= <-]; done.
Qed.

Lemma to_u8_inj a b : to_u8 a = to_u8 b -> a = b.
Proof. by destruct a, b. Qed.
End MessageType.

(** [enum class AckStatus : std::uint8_t] *)
Module AckStatus.
Inductive t := Ok | CrcMismatch | SizeMismatch | ProtocolError | ServerError | NoSuchResult.

Definition to_u8 (s : t) : Z :=
  match s with
  | Ok => 0
  | CrcMismatch => 1
  | SizeMismatch => 2
  | ProtocolError => 3
  | ServerError => 4
  | NoSuchResult => 5
  end.

(** [static_cast<AckStatus>(status)], used by the codec only after
    [status <= NoSuchResult] has been checked. *)
Definition of_u8 (z : Z) : t :=
  if z =? 0 then Ok
  else if z =? 1 then CrcMismatch
  else if z =? 2 then SizeMismatch
  else if z =? 3 then ProtocolError
  else if z =? 4 then ServerError
  else NoSuchResult.

#[global] Instance t_eq_dec : EqDecision t.
Proof. solve_decision. Defined.

Lemma ack_of_to_u8 s : of_u8 (to_u8 s) = s.
Proof. by destruct s. Qed.

Lemma ack_to_of_u8 z : 0 <= z <= to_u8 NoSuchResult -> to_u8 (of_u8 z) = z.
Proof. simpl. unfold of_u8. intros. bool_cases; simpl; lia. Qed.

Lemma to_u8_range s : 0 <= to_u8 s <= 5.
Proof. destruct s; simpl; lia. Qed.
End AckStatus.

(** ** Message sizes, preamble included *)
Definition kMaxFilenameLen : Z := 255.
Definition kUploadHeaderFixedSize : Z := kPreambleSize + 8 + 2.
Definition kUploadHeaderMaxSize : Z := kUploadHeaderFixedSize + kMaxFilenameLen.
Definition kUploadTrailerSize : Z := kPreambleSize + 4.
Definition kAckSize : Z := kPreambleSize + 1 + 8.
Definition kResultHeaderSize : Z := kPreambleSize + 8 + 4.
Definition kDownloadDoneSize : Z := kPreambleSize.
Definition kResultRequestFixedSize : Z := kPreambleSize + 8 + 4 + 8 + 2.
Definition kResultRequestMaxSize : Z := kResultRequestFixedSize + kMaxFilenameLen.

(** ** Value limits and timeouts *)
Definition kMaxFileSize : Z := 8 * 1024 * 1024 * 1024.
Definition kMaxCsvSize : Z := 4 * 1024 * 1024.
Definition kIdleTimeoutMs : Z := 30000.
Definition kResponseTimeoutMs : Z := 120000.
Definition kDefaultPort : Z := 23507.

(** ** Message values *)
Record UploadHeader := mkUploadHeader { uh_fileSize : Z; uh_filename : bytes }.
Record UploadTrailer := mkUploadTrailer { ut_crc32 : Z }.
Record Ack := mkAck { ack_status : AckStatus.t; ack_receivedBytes : Z }.
Record ResultHeader := mkResultHeader { rh_csvSize : Z; rh_crc32 : Z }.
Record ResultRequest := mkResultRequest {
  rr_fileSize : Z; rr_crc32 : Z; rr_startOffset : Z; rr_filename : bytes }.

(** The default member initialisers. *)
Definition UploadHeader0 : UploadHeader := mkUploadHeader 0 [].
Definition UploadTrailer0 : UploadTrailer := mkUploadTrailer 0.
Definition Ack0 : Ack := mkAck AckStatus.Ok 0.
Definition ResultHeader0 : ResultHeader := mkResultHeader 0 0.
Definition ResultRequest0 : ResultRequest := mkResultRequest 0 0 0 [].
