(* ===== verification/Codec.v ===== *)
(** * Wire codec (common/protocol/Codec.cpp)

    Big-endian field writers and readers, the preamble check, the message-size
    decision the framer uses, and the encode/decode overload of each message.
    [decode] takes the [out] parameter and returns it (assigned only on [Ok]).
    Section by section: the code's definitions, the sum type [Message] that
    names the overload set, byte-order lemmas, and the codec's properties. *)

From S2P Require Import Prelude StringView Protocol.

Module DecodeStatus.
Inductive t := Ok | NeedMoreData | BadMagic | BadVersion | BadType | BadValue.

#[global] Instance t_eq_dec : EqDecision t.
Proof. solve_decision. Defined.
End DecodeStatus.

(** ** Big-endian writers: [out.push_back] one byte per shift *)
Definition putByteAtShift (v : Z) (out : bytes) (shift : Z) : bytes :=
  out ++ [z2b (Z.land (Z.shiftr v shift) 0xFF)].

Definition putU16 (out : bytes) (v : Z) : bytes :=
  (out ++ [z2b (Z.shiftr v 8)]) ++ [z2b (Z.land v 0xFF)].

Definition putU32 (out : bytes) (v : Z) : bytes :=
  fold_left (putByteAtShift v) [24; 16; 8; 0] out.

Definition putU64 (out : bytes) (v : Z) : bytes :=
  fold_left (putByteAtShift v) [56; 48; 40; 32; 24; 16; 8; 0] out.

(** ** Big-endian readers *)
Definition byteAt (buf : bytes) (off : Z) : outcome Z :=
  let* b := vget buf off in Ret (b2z b).

Definition getU16 (buf : bytes) (off : Z) : outcome Z :=
  let* hi := byteAt buf off in
  let* lo := byteAt buf (off + 1) in
  Ret (u16 (Z.lor (Z.shiftl hi 8) lo)).

(** [for (i = 0; i < n; ++i) v = (v << 8) | byteAt(buf, off + i)] on a
    [w]-bit [v]. *)
Fixpoint getLoop (w : Z) (buf : bytes) (off : Z) (n : nat) (v : Z) : outcome Z :=
  match n with
  | O => Ret v
  | S n =>
      let* b := byteAt buf off in
      getLoop w buf (off + 1) n (Z.lor (uwrap w (Z.shiftl v 8)) b)
  end.

Definition getU32 (buf : bytes) (off : Z) : outcome Z := getLoop 32 buf off 4 0.
Definition getU64 (buf : bytes) (off : Z) : outcome Z := getLoop 64 buf off 8 0.

Definition putPreamble (out : bytes) (type : MessageType.t) : bytes :=
  let out := fold_left (fun out b => out ++ [z2b b]) kMagic out in
  let out := out ++ [z2b kProtocolVersion] in
  let out := out ++ [z2b (MessageType.to_u8 type)] in
  let out := out ++ [z2b 0] in
  out ++ [z2b 0].

(** The magic loop shared by [checkPreamble] and [expectedMessageSize]:
    [false] at the first byte that differs. *)
Fixpoint magicOk (buf : bytes) (off : Z) (magic : list Z) : outcome bool :=
  match magic with
  | [] => Ret true
  | m :: magic =>
      let* b := byteAt buf off in
      if negb (b =? m) then Ret false else magicOk buf (off + 1) magic
  end.

Definition checkPreamble (buf : bytes) (expected : MessageType.t) : outcome DecodeStatus.t :=
  if zlen buf <? kPreambleSize then Ret DecodeStatus.NeedMoreData else
  let* ok := magicOk buf kOffsetMagic kMagic in
  if negb ok then Ret DecodeStatus.BadMagic else
  let* version := byteAt buf kOffsetVersion in
  if negb (version =? kProtocolVersion) then Ret DecodeStatus.BadVersion else
  let* type := byteAt buf kOffsetType in
  if negb (type =? MessageType.to_u8 expected) then Ret DecodeStatus.BadType else
  Ret DecodeStatus.Ok.

Definition isForbiddenFilenameByte (ch : byte) : bool :=
  let b := b2z ch in
  (b <=? 0x1F) || (b =? 0x7F) || bool_decide (ch = "/"%byte) || bool_decide (ch = "\"%byte).

Definition isValidFilename (name : bytes) : bool :=
  if (zlen name =? 0) || (kMaxFilenameLen <? zlen name) then false
  else negb (existsb isForbiddenFilenameByte name).

(** The whole size of the message that starts at [buf]; [outSize] is written
    only when the status is [Ok]. *)
Definition expectedMessageSize (buf : bytes) (outSize : Z) : outcome (DecodeStatus.t * Z) :=
  if zlen buf <? kPreambleSize then Ret (DecodeStatus.NeedMoreData, outSize) else
  let* ok := magicOk buf kOffsetMagic kMagic in
  if negb ok then Ret (DecodeStatus.BadMagic, outSize) else
  let* version := byteAt buf kOffsetVersion in
  if negb (version =? kProtocolVersion) then Ret (DecodeStatus.BadVersion, outSize) else
  let* type := byteAt buf kOffsetType in
  match MessageType.of_u8 type with
  | Some MessageType.UploadHeader =>
      if zlen buf <? kUploadHeaderFixedSize then Ret (DecodeStatus.NeedMoreData, outSize) else
      let* n := getU16 buf (kPreambleSize + 8) in
      Ret (DecodeStatus.Ok, kUploadHeaderFixedSize + n)
  | Some MessageType.UploadTrailer => Ret (DecodeStatus.Ok, kUploadTrailerSize)
  | Some MessageType.Ack => Ret (DecodeStatus.Ok, kAckSize)
  | Some MessageType.ResultHeader => Ret (DecodeStatus.Ok, kResultHeaderSize)
  | Some MessageType.DownloadDone => Ret (DecodeStatus.Ok, kDownloadDoneSize)
  | Some MessageType.ResultRequest =>
      if zlen buf <? kResultRequestFixedSize then Ret (DecodeStatus.NeedMoreData, outSize) else
      let* n := getU16 buf (kPreambleSize + 20) in
      Ret (DecodeStatus.Ok, kResultRequestFixedSize + n)
  | None => Ret (DecodeStatus.BadType, outSize)
  end.

(** ** encode *)
Definition encodeUploadHeader (msg : UploadHeader) : bytes :=
  let out := putPreamble [] MessageType.UploadHeader in
  let out := putU64 out (uh_fileSize msg) in
  let out := putU16 out (u16 (zlen (uh_filename msg))) in
  out ++ uh_filename msg.

Definition encodeUploadTrailer (msg : UploadTrailer) : bytes :=
  putU32 (putPreamble [] MessageType.UploadTrailer) (ut_crc32 msg).

Definition encodeAck (msg : Ack) : bytes :=
  let out := putPreamble [] MessageType.Ack in
  let out := out ++ [z2b (AckStatus.to_u8 (ack_status msg))] in
  putU64 out (ack_receivedBytes msg).

Definition encodeResultHeader (msg : ResultHeader) : bytes :=
  let out := putPreamble [] MessageType.ResultHeader in
  let out := putU64 out (rh_csvSize msg) in
  putU32 out (rh_crc32 msg).

Definition encodeResultRequest (msg : ResultRequest) : bytes :=
  let out := putPreamble [] MessageType.ResultRequest in
  let out := putU64 out (rr_fileSize msg) in
  let out := putU32 out (rr_crc32 msg) in
  let out := putU64 out (rr_startOffset msg) in
  let out := putU16 out (u16 (zlen (rr_filename msg))) in
  out ++ rr_filename msg.

Definition encodeDownloadDone : bytes := putPreamble [] MessageType.DownloadDone.

(** ** decode *)
Definition decodeUploadHeader (buf : bytes) (out : UploadHeader)
    : outcome (DecodeStatus.t * UploadHeader) :=
  let* pre := checkPreamble buf MessageType.UploadHeader in
  if negb (bool_decide (pre = DecodeStatus.Ok)) then Ret (pre, out) else
  if zlen buf <? kUploadHeaderFixedSize then Ret (DecodeStatus.NeedMoreData, out) else
  let* fileSize := getU64 buf kPreambleSize in
  let* nameLen := getU16 buf (kPreambleSize + 8) in
  if zlen buf <? kUploadHeaderFixedSize + nameLen then Ret (DecodeStatus.NeedMoreData, out) else
  if kMaxFileSize <? fileSize then Ret (DecodeStatus.BadValue, out) else
  let* name := substr buf kUploadHeaderFixedSize nameLen in
  if negb (isValidFilename name) then Ret (DecodeStatus.BadValue, out) else
  Ret (DecodeStatus.Ok, mkUploadHeader fileSize name).

Definition decodeUploadTrailer (buf : bytes) (out : UploadTrailer)
    : outcome (DecodeStatus.t * UploadTrailer) :=
  let* pre := checkPreamble buf MessageType.UploadTrailer in
  if negb (bool_decide (pre = DecodeStatus.Ok)) then Ret (pre, out) else
  if zlen buf <? kUploadTrailerSize then Ret (DecodeStatus.NeedMoreData, out) else
  let* crc := getU32 buf kPreambleSize in
  Ret (DecodeStatus.Ok, mkUploadTrailer crc).

Definition decodeAck (buf : bytes) (out : Ack) : outcome (DecodeStatus.t * Ack) :=
  let* pre := checkPreamble buf MessageType.Ack in
  if negb (bool_decide (pre = DecodeStatus.Ok)) then Ret (pre, out) else
  if zlen buf <? kAckSize then Ret (DecodeStatus.NeedMoreData, out) else
  let* status := byteAt buf kPreambleSize in
  if AckStatus.to_u8 AckStatus.NoSuchResult <? status then Ret (DecodeStatus.BadValue, out) else
  let* received := getU64 buf (kPreambleSize + 1) in
  Ret (DecodeStatus.Ok, mkAck (AckStatus.of_u8 status) received).

Definition decodeResultHeader (buf : bytes) (out : ResultHeader)
    : outcome (DecodeStatus.t * ResultHeader) :=
  let* pre := checkPreamble buf MessageType.ResultHeader in
  if negb (bool_decide (pre = DecodeStatus.Ok)) then Ret (pre, out) else
  if zlen buf <? kResultHeaderSize then Ret (DecodeStatus.NeedMoreData, out) else
  let* csvSize := getU64 buf kPreambleSize in
  let* crc := getU32 buf (kPreambleSize + 8) in
  Ret (DecodeStatus.Ok, mkResultHeader csvSize crc).

Definition decodeResultRequest (buf : bytes) (out : ResultRequest)
    : outcome (DecodeStatus.t * ResultRequest) :=
  let* pre := checkPreamble buf MessageType.ResultRequest in
  if negb (bool_decide (pre = DecodeStatus.Ok)) then Ret (pre, out) else
  if zlen buf <? kResultRequestFixedSize then Ret (DecodeStatus.NeedMoreData, out) else
  let* fileSize := getU64 buf kPreambleSize in
  let* crc := getU32 buf (kPreambleSize + 8) in
  let* startOffset := getU64 buf (kPreambleSize + 12) in
  let* nameLen := getU16 buf (kPreambleSize + 20) in
  if zlen buf <? kResultRequestFixedSize + nameLen then Ret (DecodeStatus.NeedMoreData, out) else
  if kMaxFileSize <? fileSize then Ret (DecodeStatus.BadValue, out) else
  if kMaxCsvSize <? startOffset then Ret (DecodeStatus.BadValue, out) else
  let* name := substr buf kResultRequestFixedSize nameLen in
  if negb (isValidFilename name) then Ret (DecodeStatus.BadValue, out) else
  Ret (DecodeStatus.Ok, mkResultRequest fileSize crc startOffset name).

Definition decodeDownloadDone (buf : bytes) : outcome DecodeStatus.t :=
  checkPreamble buf MessageType.DownloadDone.

(** ** The overload set as one sum type *)
Inductive Message :=
| MsgUploadHeader (m : UploadHeader)
| MsgUploadTrailer (m : UploadTrailer)
| MsgAck (m : Ack)
| MsgResultHeader (m : ResultHeader)
| MsgDownloadDone
| MsgResultRequest (m : ResultRequest).

Definition typeOf (m : Message) : MessageType.t :=
  match m with
  | MsgUploadHeader _ => MessageType.UploadHeader
  | MsgUploadTrailer _ => MessageType.UploadTrailer
  | MsgAck _ => MessageType.Ack
  | MsgResultHeader _ => MessageType.ResultHeader
  | MsgDownloadDone => MessageType.DownloadDone
  | MsgResultRequest _ => MessageType.ResultRequest
  end.

Definition encodeMessage (m : Message) : bytes :=
  match m with
  | MsgUploadHeader m => encodeUploadHeader m
  | MsgUploadTrailer m => encodeUploadTrailer m
  | MsgAck m => encodeAck m
  | MsgResultHeader m => encodeResultHeader m
  | MsgDownloadDone => encodeDownloadDone
  | MsgResultRequest m => encodeResultRequest m
  end.

(** The overload a receiver that expects type [t] calls, on a
    default-initialised [out]. *)
Definition decodeMessage (t : MessageType.t) (buf : bytes)
    : outcome (DecodeStatus.t * Message) :=
  match t with
  | MessageType.UploadHeader =>
      let* (s, m) := decodeUploadHeader buf UploadHeader0 in Ret (s, MsgUploadHeader m)
  | MessageType.UploadTrailer =>
      let* (s, m) := decodeUploadTrailer buf UploadTrailer0 in Ret (s, MsgUploadTrailer m)
  | MessageType.Ack =>
      let* (s, m) := decodeAck buf Ack0 in Ret (s, MsgAck m)
  | MessageType.ResultHeader =>
      let* (s, m) := decodeResultHeader buf ResultHeader0 in Ret (s, MsgResultHeader m)
  | MessageType.DownloadDone =>
      let* s := decodeDownloadDone buf in Ret (s, MsgDownloadDone)
  | MessageType.ResultRequest =>
      let* (s, m) := decodeResultRequest buf ResultRequest0 in Ret (s, MsgResultRequest m)
  end.

(** What a receiver accepts: fields at their width, value limits respected. *)
Definition validFilename (name : bytes) : Prop :=
  1 <= zlen name <= kMaxFilenameLen /\
  Forall (fun b => 0x1F < b2z b /\ b2z b <> 0x7F /\ b <> "/"%byte /\ b <> "\"%byte) name.

Definition validMessage (m : Message) : Prop :=
  match m with
  | MsgUploadHeader m => 0 <= uh_fileSize m <= kMaxFileSize /\ validFilename (uh_filename m)
  | MsgUploadTrailer m => is_uint 32 (ut_crc32 m)
  | MsgAck m => is_uint 64 (ack_receivedBytes m)
  | MsgResultHeader m => is_uint 64 (rh_csvSize m) /\ is_uint 32 (rh_crc32 m)
  | MsgDownloadDone => True
  | MsgResultRequest m =>
      0 <= rr_fileSize m <= kMaxFileSize /\ is_uint 32 (rr_crc32 m) /\
      0 <= rr_startOffset m <= kMaxCsvSize /\ validFilename (rr_filename m)
  end.

(** ** Byte order *)

(** The value of a big-endian field, and the field of a value. *)
Fixpoint be (l : bytes) : Z :=
  match l with
  | [] => 0
  | b :: l => b2z b * 256 ^ zlen l + be l
  end.

Fixpoint beBytes (n : nat) (v : Z) : bytes :=
  match n with
  | O => []
  | S n => z2b (v / 256 ^ Z.of_nat n) :: beBytes n v
  end.

Lemma length_beBytes n v : length (beBytes n v) = n.
Proof. induction n; simpl; lia. Qed.

Lemma zlen_beBytes n v : zlen (beBytes n v) = Z.of_nat n.
Proof. unfold zlen. by rewrite length_beBytes. Qed.

Lemma be_range l : 0 <= be l < 256 ^ zlen l.
Proof.
  induction l as [|b l IH]; [by vm_compute|]. rewrite zlen_cons. cbn [be].
  rewrite Z.pow_add_r by zlen_lia. pose proof (b2z_range b). nia.
Qed.

Lemma be_beBytes n v : be (beBytes n v) = v mod 256 ^ Z.of_nat n.
Proof.
  induction n as [|n IH]; [by rewrite Z.mod_1_r|].
  cbn [beBytes be]. rewrite IH, zlen_beBytes, b2z_z2b.
  rewrite Nat2Z.inj_succ, Z.pow_succ_r by lia.
  rewrite (Z.mul_comm 256), Z.rem_mul_r by (pose proof (Z.pow_pos_nonneg 256 (Z.of_nat n)); lia).
  lia.
Qed.

Lemma be_inj l k : length l = length k -> be l = be k -> l = k.
Proof.
  revert k. induction l as [|b l IH]; intros [|d k] HL E; try done.
  injection HL as HL. cbn [be] in E.
  assert (Hz : zlen k = zlen l) by (unfold zlen; lia). rewrite Hz in E.
  pose proof (be_range l). pose proof (be_range k). rewrite Hz in *.
  assert (b2z b = b2z d) as Hb by nia.
  apply b2z_inj in Hb as ->. f_equal. apply IH; [done|lia].
Qed.

Lemma beBytes_be l : beBytes (length l) (be l) = l.
Proof.
  apply be_inj; [apply length_beBytes|]. rewrite be_beBytes.
  apply Z.mod_small, be_range.
Qed.

Lemma z2b_mod v : z2b (v mod 256) = z2b v.
Proof. apply b2z_inj. rewrite !b2z_z2b. by rewrite Z.mod_mod. Qed.

Lemma z2b_land_shiftr v s : 0 <= s -> z2b (Z.land (Z.shiftr v s) 0xFF) = z2b (v / 2 ^ s).
Proof.
  intros. change 0xFF with (Z.ones 8). rewrite Z.land_ones by lia.
  change (2 ^ 8) with 256. by rewrite z2b_mod, Z.shiftr_div_pow2.
Qed.

Lemma putU64_eq out v : putU64 out v = out ++ beBytes 8 v.
Proof.
  unfold putU64, putByteAtShift. cbn [fold_left]. rewrite <- !app_assoc.
  by rewrite !z2b_land_shiftr by lia.
Qed.

Lemma putU32_eq out v : putU32 out v = out ++ beBytes 4 v.
Proof.
  unfold putU32, putByteAtShift. cbn [fold_left]. rewrite <- !app_assoc.
  by rewrite !z2b_land_shiftr by lia.
Qed.

Lemma putU16_eq out v : putU16 out v = out ++ beBytes 2 v.
Proof.
  unfold putU16. rewrite <- app_assoc. cbn [beBytes app].
  change (256 ^ Z.of_nat 1) with (2 ^ 8). change (256 ^ Z.of_nat 0) with 1.
  rewrite Z.div_1_r, Z.shiftr_div_pow2 by lia.
  change 0xFF with (Z.ones 8). by rewrite Z.land_ones, z2b_mod by lia.
Qed.

Lemma lor_shiftl8 v b : 0 <= b < 256 -> Z.lor (Z.shiftl v 8) b = v * 256 + b.
Proof.
  intros Hb. assert (E : Z.land (Z.shiftl v 8) b = 0).
  { apply Z.bits_inj'. intros n Hn. rewrite Z.land_spec, Z.testbit_0_l.
    destruct (Z.lt_ge_cases n 8).
    - by rewrite Z.shiftl_spec_low.
    - destruct (Z.eq_dec b 0) as [->|]; [by rewrite Z.testbit_0_l, andb_false_r|].
      rewrite (Z.bits_above_log2 b); [by rewrite andb_false_r|lia|].
      eapply Z.lt_le_trans; [|done]. apply Z.log2_lt_pow2; lia. }
  rewrite <- Z.lxor_lor, <- Z.add_nocarry_lxor by done.
  by rewrite Z.shiftl_mul_pow2.
Qed.

Lemma slice_cons v off b n :
  0 <= n -> vget v off = Ret b -> slice v off (1 + n) = b :: slice v (off + 1) n.
Proof.
  intros Hn Hb. pose proof (vget_Ret_inv _ _ _ Hb) as [? _].
  rewrite slice_app by lia. by rewrite (slice_one _ _ b).
Qed.

(** The reading loop computes the big-endian value as long as the width holds
    what is read. *)
Lemma getLoop_Ret w buf n : forall off v,
  0 <= w -> 0 <= off -> off + Z.of_nat n <= zlen buf ->
  0 <= v -> (v + 1) * 256 ^ Z.of_nat n <= 2 ^ w ->
  getLoop w buf off n v = Ret (v * 256 ^ Z.of_nat n + be (slice buf off (Z.of_nat n))).
Proof.
  induction n as [|n IH]; intros off v Hw Hoff Hlen Hv Hfit.
  - simpl. f_equal. unfold slice, ztake. simpl. lia.
  - destruct (vget_Ret buf off) as (b & Hb & _); [lia|].
    cbn [getLoop]. unfold byteAt. rewrite Hb. cbn [obind].
    pose proof (b2z_range b) as Hr.
    rewrite Nat2Z.inj_succ, Z.pow_succ_r in Hfit by lia.
    assert (0 < 256 ^ Z.of_nat n) by (apply Z.pow_pos_nonneg; lia).
    assert (Hsh : uwrap w (Z.shiftl v 8) = Z.shiftl v 8).
    { apply uwrap_small. unfold is_uint. rewrite Z.shiftl_mul_pow2 by lia. nia. }
    rewrite Hsh, lor_shiftl8, IH by (lia || nia). f_equal.
    replace (Z.of_nat (S n)) with (1 + Z.of_nat n) by lia.
    rewrite (slice_cons buf off b) by (lia || done). cbn [be].
    rewrite zlen_slice by lia. rewrite Z.pow_add_r by lia. lia.
Qed.

Lemma getU64_Ret buf off :
  0 <= off -> off + 8 <= zlen buf -> getU64 buf off = Ret (be (slice buf off 8)).
Proof. intros. unfold getU64. by rewrite getLoop_Ret by (lia || done). Qed.

Lemma getU32_Ret buf off :
  0 <= off -> off + 4 <= zlen buf -> getU32 buf off = Ret (be (slice buf off 4)).
Proof. intros. unfold getU32. by rewrite getLoop_Ret by (lia || done). Qed.

Lemma byteAt_Ret buf off :
  0 <= off < zlen buf -> byteAt buf off = Ret (be (slice buf off 1)).
Proof.
  intros H. destruct (vget_Ret buf off H) as (b & Hb & _). unfold byteAt.
  rewrite Hb, (slice_one _ _ _ Hb). cbn [obind be]. f_equal.
  change (zlen (@nil byte)) with 0. lia.
Qed.

Lemma getU16_Ret buf off :
  0 <= off -> off + 2 <= zlen buf -> getU16 buf off = Ret (be (slice buf off 2)).
Proof.
  intros. destruct (vget_Ret buf off) as (b & Hb & _); [lia|].
  destruct (vget_Ret buf (off + 1)) as (d & Hd & _); [lia|].
  unfold getU16, byteAt. rewrite Hb, Hd. cbn [obind]. f_equal.
  change (slice buf off 2) with (slice buf off (1 + 1)).
  rewrite (slice_cons buf off b), (slice_one _ _ _ Hd) by (lia || done).
  pose proof (b2z_range b). pose proof (b2z_range d).
  rewrite lor_shiftl8 by done. rewrite uwrap_small by (unfold is_uint; lia).
  cbn [be]. change (zlen [d]) with 1. change (zlen (@nil byte)) with 0. lia.
Qed.

(** ** Layouts *)

(** The eight preamble bytes with arbitrary reserved bytes [r6 r7]. *)
Definition preambleWith (t : MessageType.t) (r6 r7 : byte) : bytes :=
  map z2b kMagic ++ [z2b kProtocolVersion; z2b (MessageType.to_u8 t); r6; r7].

Lemma putPreamble_eq t : putPreamble [] t = preambleWith t Byte.x00 Byte.x00.
Proof. done. Qed.

Lemma zlen_preambleWith t r6 r7 : zlen (preambleWith t r6 r7) = 8.
Proof. done. Qed.
#[export] Hint Rewrite zlen_preambleWith zlen_beBytes : zlen.

(** The bytes after the preamble. *)
Definition body (m : Message) : bytes :=
  match m with
  | MsgUploadHeader m =>
      beBytes 8 (uh_fileSize m) ++ beBytes 2 (u16 (zlen (uh_filename m))) ++ uh_filename m
  | MsgUploadTrailer m => beBytes 4 (ut_crc32 m)
  | MsgAck m => z2b (AckStatus.to_u8 (ack_status m)) :: beBytes 8 (ack_receivedBytes m)
  | MsgResultHeader m => beBytes 8 (rh_csvSize m) ++ beBytes 4 (rh_crc32 m)
  | MsgDownloadDone => []
  | MsgResultRequest m =>
      beBytes 8 (rr_fileSize m) ++ beBytes 4 (rr_crc32 m) ++ beBytes 8 (rr_startOffset m) ++
      beBytes 2 (u16 (zlen (rr_filename m))) ++ rr_filename m
  end.

Lemma encodeMessage_eq m :
  encodeMessage m = preambleWith (typeOf m) Byte.x00 Byte.x00 ++ body m.
Proof.
  destruct m as [m|m|m|m| |m]; cbn [encodeMessage typeOf body];
    unfold encodeUploadHeader, encodeUploadTrailer, encodeAck, encodeResultHeader,
      encodeResultRequest, encodeDownloadDone; cbv zeta;
    rewrite ?putPreamble_eq, ?putU64_eq, ?putU32_eq, ?putU64_eq, ?putU16_eq, <- ?app_assoc;
    done.
Qed.

(** The first eight bytes decide [checkPreamble]. *)
Lemma checkPreamble_with t t' r6 r7 l :
  checkPreamble (preambleWith t r6 r7 ++ l) t'
  = Ret (if bool_decide (t = t') then DecodeStatus.Ok else DecodeStatus.BadType).
Proof.
  unfold checkPreamble. destruct (Z.ltb_spec (zlen (preambleWith t r6 r7 ++ l)) kPreambleSize) as [H|_].
  { rewrite zlen_app, zlen_preambleWith in H. unfold kPreambleSize in H. zlen_lia. }
  by destruct t, t'.
Qed.

Lemma checkPreamble_Ok_inv buf t :
  checkPreamble buf t = Ret DecodeStatus.Ok ->
  exists r6 r7 l, buf = preambleWith t r6 r7 ++ l.
Proof.
  unfold checkPreamble. destruct (Z.ltb_spec (zlen buf) kPreambleSize) as [|Hlen]; [done|].
  unfold kPreambleSize in Hlen.
  do 8 (destruct buf as [|? buf]; [exfalso; revert Hlen; rewrite ?zlen_cons, zlen_nil; lia|]).
  unfold kOffsetMagic, kOffsetVersion, kOffsetType, kProtocolVersion, byteAt, vget. simpl.
  repeat match goal with
  | |- context [negb (b2z ?x =? ?k)] =>
      destruct (Z.eqb_spec (b2z x) k) as [?H|?H]; simpl; [|by intros [=]]
  end.
  intros _. exists b5, b6, buf. unfold preambleWith. cbn.
  repeat match goal with
  | H : b2z ?x = ?k |- _ => apply (f_equal z2b) in H; rewrite z2b_b2z in H; subst x
  end. done.
Qed.

(** A status other than [Ok] of the preamble is the decoder's status. *)
Lemma checkPreamble_Ret buf t : exists s, checkPreamble buf t = Ret s.
Proof.
  unfold checkPreamble. destruct (Z.ltb_spec (zlen buf) kPreambleSize) as [|Hlen]; [by eexists|].
  unfold kPreambleSize in Hlen. cbn [magicOk kMagic].
  unfold kOffsetMagic, kOffsetVersion, kOffsetType.
  rewrite !byteAt_Ret by lia. cbn [obind].
  repeat (match goal with |- context [if ?c then _ else _] => destruct c end; cbn; eauto).
Qed.

Lemma isValidFilename_spec name : isValidFilename name = true <-> validFilename name.
Proof.
  unfold isValidFilename, validFilename, kMaxFilenameLen.
  assert (Hx : existsb isForbiddenFilenameByte name = false <->
    Forall (fun b => 0x1F < b2z b /\ b2z b <> 0x7F /\ b <> "/"%byte /\ b <> "\"%byte) name).
  { induction name as [|c name IH]; cbn [existsb]; [split; [constructor|done]|].
    rewrite orb_false_iff, IH, Forall_cons_iff. unfold isForbiddenFilenameByte.
    rewrite !orb_false_iff, Z.leb_gt, Z.eqb_neq, !bool_decide_eq_false. tauto. }
  rewrite <- Hx. pose proof (zlen_nonneg name).
  destruct (Z.eqb_spec (zlen name) 0), (Z.ltb_spec 255 (zlen name)); simpl;
    rewrite ?negb_true_iff; split; intros ?; try done; try lia; naive_solver lia.
Qed.

Lemma be_beBytes_uint n w v :
  w = 8 * Z.of_nat n -> is_uint w v -> be (beBytes n v) = v.
Proof.
  intros -> Hv. rewrite be_beBytes. apply Z.mod_small. unfold is_uint in Hv.
  by rewrite Z.pow_mul_r in Hv by lia.
Qed.

(** ** Running a decoder *)

Ltac proto_consts :=
  cbv [kUploadHeaderFixedSize kUploadHeaderMaxSize kUploadTrailerSize kAckSize
       kResultHeaderSize kDownloadDoneSize kResultRequestFixedSize kResultRequestMaxSize
       kPreambleSize kMaxFilenameLen kOffsetMagic kOffsetVersion kOffsetType] in *.

Ltac decode_unfold :=
  unfold decodeMessage, decodeUploadHeader, decodeUploadTrailer, decodeAck,
    decodeResultHeader, decodeResultRequest, decodeDownloadDone.

(** One step of a decoder: a guard is split, a guarded read is in range. *)
Ltac decode_step :=
  match goal with
  | |- context [if zlen ?b <? ?k then _ else _] => destruct (Z.ltb_spec (zlen b) k)
  | |- context [getU64 ?b ?o] => rewrite (getU64_Ret b o) by zlen_lia
  | |- context [getU32 ?b ?o] => rewrite (getU32_Ret b o) by zlen_lia
  | |- context [getU16 ?b ?o] => rewrite (getU16_Ret b o) by zlen_lia
  | |- context [byteAt ?b ?o] => rewrite (byteAt_Ret b o) by zlen_lia
  | |- context [substr ?b ?p ?n] =>
      rewrite (substr_Ret b p n)
        by (match goal with H : _ <= zlen b |- _ => pose proof (be_range (slice b (p - 2) 2)) end; zlen_lia)
  | |- context [if ?c then _ else _] => destruct c eqn:?
  end; cbn [obind].

Lemma decodeMessage_Ret t buf : exists s m, decodeMessage t buf = Ret (s, m).
Proof.
  destruct t; decode_unfold;
    match goal with |- context [checkPreamble buf ?t] =>
      destruct (checkPreamble_Ret buf t) as [s ->] end;
    proto_consts; cbn [obind]; repeat decode_step; eauto.
Qed.

Lemma beBytes_slice buf p n z :
  z = Z.of_nat n -> 0 <= p -> p + z <= zlen buf ->
  beBytes n (be (slice buf p z)) = slice buf p z.
Proof.
  intros. assert (E : length (slice buf p z) = n).
  { apply Nat2Z.inj. rewrite <- H. apply zlen_slice; lia. }
  rewrite <- E at 1. apply beBytes_be.
Qed.

Lemma be_slice_uint buf p n w :
  0 <= p -> 0 <= n -> p + n <= zlen buf -> w = 8 * n -> is_uint w (be (slice buf p n)).
Proof.
  intros. subst w. pose proof (be_range (slice buf p n)) as H2.
  rewrite zlen_slice in H2 by lia. unfold is_uint.
  rewrite Z.pow_mul_r by lia. done.
Qed.

Lemma slice_preamble t r6 r7 l p n :
  8 <= p -> slice (preambleWith t r6 r7 ++ l) p n = slice l (p - 8) n.
Proof. intros. apply slice_skip. by rewrite zlen_preambleWith. Qed.

(** The offsets of a field relative to the body, as numerals. *)
Ltac norm_slices :=
  rewrite ?slice_preamble in * by lia;
  repeat match goal with
  | H : context [slice ?l (?a - 8) ?n] |- _ =>
      let x := eval vm_compute in (a - 8) in change (a - 8) with x in *
  | |- context [slice ?l (?a - 8) ?n] =>
      let x := eval vm_compute in (a - 8) in change (a - 8) with x in *
  end.

(** A decoder that returned [Ok] saw its own preamble. *)
Lemma decodeMessage_preamble t buf m :
  decodeMessage t buf = Ret (DecodeStatus.Ok, m) ->
  exists r6 r7 l, buf = preambleWith t r6 r7 ++ l.
Proof.
  intros E. apply checkPreamble_Ok_inv.
  destruct (checkPreamble_Ret buf t) as [s Hs]. rewrite Hs. revert E.
  destruct t; decode_unfold; rewrite Hs; cbn [obind];
    (destruct (decide (s = DecodeStatus.Ok)) as [->|Hne]; [done|]);
    rewrite ?bool_decide_eq_false_2 by done; cbn; intros [=]; done.
Qed.

Lemma fields_name (l : bytes) o n :
  0 <= o -> 0 <= n -> o + n <= zlen l -> n = be (slice l (o - 2) 2) ->
  2 <= o -> beBytes 2 (u16 (zlen (slice l o n))) = slice l (o - 2) 2.
Proof.
  intros. rewrite zlen_slice by lia. subst n.
  rewrite uwrap_small by (apply (be_slice_uint _ _ 2); lia).
  apply (beBytes_slice l (o - 2) 2 2); lia.
Qed.

(** Every accepted buffer is a message: the fields are at their width and in
    their range, and the buffer is the encoding up to the reserved bytes. *)
Lemma decodeMessage_sound t buf m :
  decodeMessage t buf = Ret (DecodeStatus.Ok, m) ->
  typeOf m = t /\ validMessage m /\
  exists r6 r7 tail, buf = preambleWith t r6 r7 ++ body m ++ tail.
Proof.
  intros E. destruct (decodeMessage_preamble _ _ _ E) as (r6 & r7 & l & ->). revert E.
  destruct t; decode_unfold; rewrite checkPreamble_with, bool_decide_eq_true_2 by done;
    cbn [obind]; rewrite ?bool_decide_eq_true_2 by done; cbn [negb]; proto_consts;
    repeat decode_step; try (intros [=]; done); norm_slices;
    intros [= <-]; rewrite ?zlen_app, ?zlen_preambleWith in *;
    (split; [done|]); rewrite <- ?and_assoc; cbn [validMessage body uh_fileSize uh_filename
      ut_crc32 ack_status ack_receivedBytes rh_csvSize rh_crc32 rr_fileSize rr_crc32
      rr_startOffset rr_filename];
    repeat match goal with
    | H : negb (isValidFilename _) = false |- _ =>
        apply negb_false_iff, isValidFilename_spec in H
    | H : (?a <? ?b) = false |- _ => apply Z.ltb_ge in H
    end.
  - pose proof (be_range (slice l 0 8)). pose proof (be_range (slice l 8 2)).
    split; [by split; [lia|]|].
    exists r6, r7, (zdrop (10 + be (slice l 8 2)) l). f_equal.
    rewrite (fields_name l 10) by (lia || done). rewrite (beBytes_slice l 0 8 8) by lia.
    rewrite <- (zdrop_0 l) at 1.
    rewrite (zdrop_split l 0 8 8), (zdrop_split l 8 2 10), (zdrop_split l 10 (be (slice l 8 2)) (10 + be (slice l 8 2))) by lia.
    by rewrite <- !app_assoc.
  - split; [apply (be_slice_uint _ _ 4); lia|].
    exists r6, r7, (zdrop 4 l). f_equal. rewrite (beBytes_slice l 0 4 4) by lia.
    by rewrite <- (zdrop_split l 0 4 4) by lia.
  - split; [apply (be_slice_uint _ _ 8); lia|].
    exists r6, r7, (zdrop 9 l). f_equal.
    pose proof (be_range (slice l 0 1)).
    rewrite AckStatus.ack_to_of_u8 by lia.
    change (z2b (be (slice l 0 1)) :: beBytes 8 (be (slice l 1 8)))
      with ([z2b (be (slice l 0 1))] ++ beBytes 8 (be (slice l 1 8))).
    rewrite <- (Z.div_1_r (be (slice l 0 1))) at 1.
    change [z2b (be (slice l 0 1) / 1)] with (beBytes 1 (be (slice l 0 1))).
    rewrite (beBytes_slice l 0 1 1), (beBytes_slice l 1 8 8) by lia.
    rewrite <- app_assoc, <- (zdrop_split l 1 8 9), <- (zdrop_split l 0 1 1) by lia. done.
  - split; [split; [apply (be_slice_uint _ _ 8)|apply (be_slice_uint _ _ 4)]; lia|].
    exists r6, r7, (zdrop 12 l). f_equal.
    rewrite (beBytes_slice l 0 8 8), (beBytes_slice l 8 4 4) by lia.
    rewrite <- app_assoc, <- (zdrop_split l 8 4 12), <- (zdrop_split l 0 8 8) by lia. done.
  - split; [done|]. by exists r6, r7, l.
  - pose proof (be_range (slice l 0 8)). pose proof (be_range (slice l 20 2)).
    pose proof (be_range (slice l 12 8)).
    split; [split_and!; try lia; [apply (be_slice_uint _ _ 4); lia|done]|].
    exists r6, r7, (zdrop (22 + be (slice l 20 2)) l). f_equal.
    rewrite (fields_name l 22) by (lia || done).
    rewrite (beBytes_slice l 0 8 8), (beBytes_slice l 8 4 4), (beBytes_slice l 12 8 8) by lia.
    rewrite <- (zdrop_0 l) at 1.
    rewrite (zdrop_split l 0 8 8), (zdrop_split l 8 4 12), (zdrop_split l 12 8 20),
      (zdrop_split l 20 2 22), (zdrop_split l 22 (be (slice l 20 2)) (22 + be (slice l 20 2))) by lia.
    by rewrite <- !app_assoc.
Qed.

(** ** Reading back what was written *)

Lemma slice_skip_to {A} (f l : list A) p n k q :
  zlen f = k -> q = p - k -> k <= p -> slice (f ++ l) p n = slice l q n.
Proof. intros <- -> ?. by apply slice_skip. Qed.

Ltac skip_field f l p n k Hk :=
  let q := eval vm_compute in (p - k) in
  rewrite (slice_skip_to f l p n k q Hk) by (vm_compute; congruence).

Ltac read_field :=
  match goal with
  | |- context [slice (preambleWith ?t ?a ?b ++ ?l) ?p ?n] =>
      skip_field (preambleWith t a b) l p n 8 (zlen_preambleWith t a b)
  | |- context [slice (?f ++ ?l) 0 ?n] => rewrite (slice_head f l n) by zlen_lia
  | |- context [slice (beBytes ?m ?v ++ ?l) ?p ?n] =>
      let k := eval vm_compute in (Z.of_nat m) in
      skip_field (beBytes m v) l p n k (zlen_beBytes m v)
  | |- context [slice ([?b] ++ ?l) ?p ?n] =>
      skip_field [b] l p n 1 (eq_refl : zlen [b] = 1)
  end.

Lemma validFilename_len name : validFilename name -> u16 (zlen name) = zlen name.
Proof.
  intros [H _]. unfold kMaxFilenameLen in H. apply uwrap_small. unfold is_uint. lia.
Qed.

Lemma fileSize_uint64 z : 0 <= z <= kMaxFileSize -> is_uint 64 z.
Proof. unfold kMaxFileSize, is_uint. lia. Qed.

Lemma csvOffset_uint64 z : 0 <= z <= kMaxCsvSize -> is_uint 64 z.
Proof. unfold kMaxCsvSize, is_uint. lia. Qed.

Ltac skip_guards :=
  repeat match goal with
  | |- context [if zlen ?b <? ?k then _ else _] =>
      destruct (Z.ltb_spec (zlen b) k); [exfalso; zlen_lia|]
  | |- context [if ?a <? ?b then _ else _] => destruct (Z.ltb_spec a b); [exfalso; lia|]
  end.

(** Common start of the per-message lemmas: the preamble is accepted. *)
Ltac decode_start :=
  decode_unfold; rewrite checkPreamble_with, bool_decide_eq_true_2 by done;
  cbn [obind]; rewrite ?bool_decide_eq_true_2 by done; cbn [negb]; proto_consts;
  rewrite <- ?app_assoc.

Ltac run_gets :=
  rewrite ?getU64_Ret, ?getU32_Ret, ?getU16_Ret by zlen_lia; rewrite !obind_Ret.

Lemma decode_encoded_UploadHeader fs fn r6 r7 rest :
  validMessage (MsgUploadHeader (mkUploadHeader fs fn)) ->
  decodeMessage MessageType.UploadHeader
    (preambleWith MessageType.UploadHeader r6 r7 ++
     (beBytes 8 fs ++ beBytes 2 (u16 (zlen fn)) ++ fn) ++ rest)
  = Ret (DecodeStatus.Ok, MsgUploadHeader (mkUploadHeader fs fn)).
Proof.
  intros [Hs Hf]. cbn [uh_fileSize uh_filename] in Hs, Hf. decode_start.
  rewrite validFilename_len by done. pose proof Hf as [Hn _]. proto_consts.
  skip_guards. run_gets. repeat read_field.
  rewrite (be_beBytes_uint 8 64), (be_beBytes_uint 2 16)
    by (done || (apply fileSize_uint64; done) || (unfold is_uint; lia)).
  skip_guards. rewrite substr_Ret by zlen_lia. rewrite obind_Ret. repeat read_field.
  apply isValidFilename_spec in Hf. by rewrite Hf.
Qed.

Lemma decode_encoded_UploadTrailer crc r6 r7 rest :
  is_uint 32 crc ->
  decodeMessage MessageType.UploadTrailer
    (preambleWith MessageType.UploadTrailer r6 r7 ++ beBytes 4 crc ++ rest)
  = Ret (DecodeStatus.Ok, MsgUploadTrailer (mkUploadTrailer crc)).
Proof.
  intros Hv. decode_start. skip_guards. run_gets. repeat read_field.
  by rewrite (be_beBytes_uint 4 32).
Qed.

Lemma be_one b : be [b] = b2z b.
Proof. cbn [be]. change (zlen (@nil byte)) with 0. lia. Qed.

Lemma decode_encoded_Ack st rb r6 r7 rest :
  is_uint 64 rb ->
  decodeMessage MessageType.Ack
    (preambleWith MessageType.Ack r6 r7 ++
     ([z2b (AckStatus.to_u8 st)] ++ beBytes 8 rb) ++ rest)
  = Ret (DecodeStatus.Ok, MsgAck (mkAck st rb)).
Proof.
  intros Hv. decode_start. pose proof (AckStatus.to_u8_range st).
  skip_guards. rewrite byteAt_Ret by zlen_lia. cbn [obind]. do 2 read_field.
  rewrite be_one, b2z_z2b, Z.mod_small by lia.
  change (AckStatus.to_u8 AckStatus.NoSuchResult) with 5. skip_guards.
  run_gets. repeat read_field.
  by rewrite (be_beBytes_uint 8 64), AckStatus.ack_of_to_u8.
Qed.

Lemma decode_encoded_ResultHeader cs cr r6 r7 rest :
  is_uint 64 cs -> is_uint 32 cr ->
  decodeMessage MessageType.ResultHeader
    (preambleWith MessageType.ResultHeader r6 r7 ++ (beBytes 8 cs ++ beBytes 4 cr) ++ rest)
  = Ret (DecodeStatus.Ok, MsgResultHeader (mkResultHeader cs cr)).
Proof.
  intros Hs Hc. decode_start. skip_guards. run_gets. repeat read_field.
  by rewrite (be_beBytes_uint 8 64), (be_beBytes_uint 4 32).
Qed.

Lemma decode_encoded_ResultRequest fs crc off fn r6 r7 rest :
  validMessage (MsgResultRequest (mkResultRequest fs crc off fn)) ->
  decodeMessage MessageType.ResultRequest
    (preambleWith MessageType.ResultRequest r6 r7 ++
     (beBytes 8 fs ++ beBytes 4 crc ++ beBytes 8 off ++ beBytes 2 (u16 (zlen fn)) ++ fn) ++ rest)
  = Ret (DecodeStatus.Ok, MsgResultRequest (mkResultRequest fs crc off fn)).
Proof.
  intros (Hs & Hc & Ho & Hf).
  cbn [rr_fileSize rr_crc32 rr_startOffset rr_filename] in Hs, Hc, Ho, Hf. decode_start.
  rewrite validFilename_len by done. pose proof Hf as [Hn _]. proto_consts.
  skip_guards. run_gets. repeat read_field.
  rewrite (be_beBytes_uint 8 64 fs), (be_beBytes_uint 4 32),
    (be_beBytes_uint 8 64), (be_beBytes_uint 2 16)
    by (done || (apply fileSize_uint64; done) || (apply csvOffset_uint64; done)
        || (unfold is_uint; lia)).
  skip_guards. rewrite substr_Ret by zlen_lia. rewrite obind_Ret. repeat read_field.
  apply isValidFilename_spec in Hf. by rewrite Hf.
Qed.

Lemma decodeMessage_encoded m r6 r7 rest :
  validMessage m ->
  decodeMessage (typeOf m) (preambleWith (typeOf m) r6 r7 ++ body m ++ rest)
  = Ret (DecodeStatus.Ok, m).
Proof.
  destruct m as [[fs fn]|[crc]|[st rb]|[cs cr]| |[fs crc off fn]]; intros Hv.
  - by apply decode_encoded_UploadHeader.
  - by apply decode_encoded_UploadTrailer.
  - by apply decode_encoded_Ack.
  - destruct Hv. by apply decode_encoded_ResultHeader.
  - unfold decodeMessage, typeOf, decodeDownloadDone. by rewrite checkPreamble_with.
  - by apply decode_encoded_ResultRequest.
Qed.

(** ** Message sizes *)

Lemma zlen_body m :
  zlen (body m) =
  match m with
  | MsgUploadHeader m => 10 + zlen (uh_filename m)
  | MsgUploadTrailer _ => 4
  | MsgAck _ => 9
  | MsgResultHeader _ => 12
  | MsgDownloadDone => 0
  | MsgResultRequest m => 22 + zlen (rr_filename m)
  end.
Proof. destruct m; cbn [body]; zlen_lia. Qed.

Lemma zlen_encodeMessage m : zlen (encodeMessage m) = 8 + zlen (body m).
Proof. rewrite encodeMessage_eq. zlen_lia. Qed.

Lemma zlen_kMagic : zlen kMagic = 4.
Proof. done. Qed.
#[export] Hint Rewrite zlen_kMagic : zlen.

Lemma magicOk_Ret buf : forall magic off,
  0 <= off -> off + zlen magic <= zlen buf -> exists b, magicOk buf off magic = Ret b.
Proof.
  induction magic as [|m magic IH]; intros off H1 H2; cbn [magicOk]; [eauto|].
  rewrite zlen_cons in H2. rewrite byteAt_Ret by zlen_lia. rewrite obind_Ret.
  destruct (negb _); [eauto|]. apply IH; lia.
Qed.

Ltac size_step :=
  match goal with
  | |- context [if zlen ?b <? ?k then _ else _] => destruct (Z.ltb_spec (zlen b) k)
  | |- context [getU16 ?b ?o] => rewrite (getU16_Ret b o) by zlen_lia; rewrite obind_Ret
  | |- context [byteAt ?b ?o] => rewrite (byteAt_Ret b o) by zlen_lia; rewrite obind_Ret
  | |- context [if ?c then _ else _] => destruct c eqn:?
  | |- context [match ?c with Some _ => _ | None => _ end] => destruct c as [[]|] eqn:?
  end.

(** The size decision never reads outside the accumulated bytes. *)
Lemma expectedMessageSize_Ret buf o : exists s n, expectedMessageSize buf o = Ret (s, n).
Proof.
  unfold expectedMessageSize. proto_consts. size_step; [eauto|].
  destruct (magicOk_Ret buf kMagic 0) as [b ->]; [lia|zlen_lia|]. rewrite obind_Ret.
  repeat size_step; eauto.
Qed.

(** *** A decision taken on some bytes is not changed by the bytes that follow *)

Lemma byteAt_app buf k off : off < zlen buf -> byteAt (buf ++ k) off = byteAt buf off.
Proof. intros. unfold byteAt. by rewrite vget_app_l. Qed.

Lemma magicOk_app buf k : forall magic off,
  0 <= off -> off + zlen magic <= zlen buf ->
  magicOk (buf ++ k) off magic = magicOk buf off magic.
Proof.
  induction magic as [|m magic IH]; intros off H1 H2; [done|]. cbn [magicOk].
  rewrite zlen_cons in H2. pose proof (zlen_nonneg magic).
  rewrite byteAt_app by lia. destruct (byteAt buf off); try done. cbn.
  destruct (negb _); [done|]. apply IH; lia.
Qed.

Lemma getLoop_app w buf k : forall n off v,
  0 <= off -> off + Z.of_nat n <= zlen buf ->
  getLoop w (buf ++ k) off n v = getLoop w buf off n v.
Proof.
  induction n as [|n IH]; intros off v H1 H2; [done|]. cbn [getLoop].
  rewrite byteAt_app by lia. destruct (byteAt buf off); try done. cbn. apply IH; lia.
Qed.

Lemma getU64_app buf k off :
  0 <= off -> off + 8 <= zlen buf -> getU64 (buf ++ k) off = getU64 buf off.
Proof. intros. apply getLoop_app; lia. Qed.

Lemma getU32_app buf k off :
  0 <= off -> off + 4 <= zlen buf -> getU32 (buf ++ k) off = getU32 buf off.
Proof. intros. apply getLoop_app; lia. Qed.

Lemma getU16_app buf k off :
  0 <= off -> off + 2 <= zlen buf -> getU16 (buf ++ k) off = getU16 buf off.
Proof. intros. unfold getU16. by rewrite !byteAt_app by lia. Qed.

Lemma checkPreamble_app buf k t s :
  checkPreamble buf t = Ret s -> s <> DecodeStatus.NeedMoreData ->
  checkPreamble (buf ++ k) t = Ret s.
Proof.
  unfold checkPreamble. proto_consts. intros E Hs.
  destruct (Z.ltb_spec (zlen buf) 8); [by injection E as <-|].
  destruct (Z.ltb_spec (zlen (buf ++ k)) 8); [zlen_lia|].
  by rewrite magicOk_app, !byteAt_app by zlen_lia.
Qed.

Lemma expectedMessageSize_app buf k o s n :
  expectedMessageSize buf o = Ret (s, n) -> s <> DecodeStatus.NeedMoreData ->
  expectedMessageSize (buf ++ k) o = Ret (s, n).
Proof.
  unfold expectedMessageSize. proto_consts. intros E Hs.
  destruct (Z.ltb_spec (zlen buf) 8); [congruence|].
  destruct (Z.ltb_spec (zlen (buf ++ k)) 8); [zlen_lia|].
  rewrite magicOk_app, !byteAt_app by zlen_lia. revert E.
  destruct (magicOk_Ret buf kMagic 0) as [b ->]; [lia|zlen_lia|]. rewrite !obind_Ret.
  destruct (negb b); [done|]. rewrite !byteAt_Ret by lia. rewrite !obind_Ret.
  destruct (negb _); [done|].
  destruct (MessageType.of_u8 _) as [[]|]; try done.
  - destruct (Z.ltb_spec (zlen buf) (8 + 8 + 2)); [congruence|].
    destruct (Z.ltb_spec (zlen (buf ++ k)) (8 + 8 + 2)); [zlen_lia|].
    by rewrite getU16_app by lia.
  - destruct (Z.ltb_spec (zlen buf) (8 + 8 + 4 + 8 + 2)); [congruence|].
    destruct (Z.ltb_spec (zlen (buf ++ k)) (8 + 8 + 4 + 8 + 2)); [zlen_lia|].
    by rewrite getU16_app by lia.
Qed.

Lemma substr_app buf k p n :
  0 <= p -> 0 <= n -> p + n <= zlen buf -> substr (buf ++ k) p n = substr buf p n.
Proof. intros. rewrite !substr_Ret, slice_prefix by zlen_lia. done. Qed.

(** A guard on the length that let the shorter buffer through lets the longer
    one through; every read behind it is unchanged. *)
Ltac stable_guard buf k :=
  match goal with
  | |- context [if zlen buf <? ?b then _ else _] =>
      destruct (Z.ltb_spec (zlen buf) b); [intros [= <- <-]; congruence|];
      destruct (Z.ltb_spec (zlen (buf ++ k)) b); [zlen_lia|]
  end.

Lemma decodeMessage_app t buf k s m :
  decodeMessage t buf = Ret (s, m) -> s <> DecodeStatus.NeedMoreData ->
  decodeMessage t (buf ++ k) = Ret (s, m).
Proof.
  intros E Hs. revert E.
  destruct t; decode_unfold;
    match goal with |- context [checkPreamble buf ?t] =>
      destruct (checkPreamble_Ret buf t) as [pre Hp]; rewrite Hp; rewrite !obind_Ret;
      destruct (decide (pre = DecodeStatus.NeedMoreData)) as [->|Hpre];
      [intros [= <- <-]; congruence|];
      rewrite (checkPreamble_app buf k t pre Hp Hpre); rewrite !obind_Ret
    end; proto_consts; try done; (destruct (negb _); [done|]); stable_guard buf k;
    rewrite ?getU64_app, ?getU32_app, ?byteAt_app, ?getU16_app by lia; try done;
    rewrite ?getU64_Ret, ?getU32_Ret, ?getU16_Ret by lia; rewrite !obind_Ret;
    stable_guard buf k;
    match goal with |- context [substr buf _ (be ?l)] => pose proof (be_range l) end;
    by rewrite substr_app by lia.
Qed.

Lemma expectedMessageSize_encoded m r6 r7 rest o :
  validMessage m ->
  expectedMessageSize (preambleWith (typeOf m) r6 r7 ++ body m ++ rest) o
  = Ret (DecodeStatus.Ok, 8 + zlen (body m)).
Proof.
  intros Hv. unfold expectedMessageSize. proto_consts. rewrite zlen_body.
  skip_guards.
  replace (magicOk _ 0 kMagic) with (Ret true : outcome bool) by (by destruct m).
  rewrite obind_Ret. cbn [negb].
  replace (byteAt _ 4) with (Ret kProtocolVersion : outcome Z) by (by destruct m).
  rewrite obind_Ret, Z.eqb_refl. cbn [negb].
  replace (byteAt _ 5) with (Ret (MessageType.to_u8 (typeOf m)) : outcome Z) by (by destruct m).
  rewrite obind_Ret, MessageType.of_to_u8.
  destruct m as [[fs fn]|?|?|?| |[fs crc off fn]]; try done;
    cbn [typeOf body uh_filename uh_fileSize rr_fileSize rr_crc32 rr_startOffset rr_filename];
    rewrite <- !app_assoc; skip_guards; run_gets; repeat read_field;
    [destruct Hv as [_ Hf]|destruct Hv as (_ & _ & _ & Hf)]; cbn in Hf;
    rewrite validFilename_len by done; destruct Hf as [Hf _]; proto_consts;
    rewrite (be_beBytes_uint 2 16) by (done || (unfold is_uint; lia)); f_equal; f_equal; lia.
Qed.

(** ** Properties *)

(** C28: encoding then decoding gives the message back, for every message
    whose fields respect the protocol's limits and whatever bytes follow it
    in the stream. *)
Theorem codec_roundtrip m rest :
  validMessage m ->
  decodeMessage (typeOf m) (encodeMessage m ++ rest) = Ret (DecodeStatus.Ok, m).
Proof. intros. rewrite encodeMessage_eq, <- app_assoc. by apply decodeMessage_encoded. Qed.

Definition sampleRequest : Message :=
  MsgResultRequest (mkResultRequest 123456789 0xCBF43926 4096 (bs "run.log")).

Lemma sampleRequest_valid : validMessage sampleRequest.
Proof.
  assert (Hf : validFilename (bs "run.log")) by (apply isValidFilename_spec; by vm_compute).
  repeat apply conj; [by vm_compute..|apply Hf|apply Hf|apply Hf].
Qed.

Lemma codec_roundtrip_witness :
  decodeMessage MessageType.ResultRequest (encodeMessage sampleRequest ++ bs "tail")
  = Ret (DecodeStatus.Ok, sampleRequest).
Proof. apply (codec_roundtrip sampleRequest (bs "tail")). apply sampleRequest_valid. Defined.

(** C29: decoding is total and sound. It never reads outside the buffer; when
    it answers [Ok] the message has the expected type, every field is within
    its limit (file size, resume offset, filename length and forbidden
    characters) and the buffer starts with that message's encoding, the two
    reserved bytes (offsets 6 and 7) excepted. *)
Theorem codec_sound t buf :
  exists s m, decodeMessage t buf = Ret (s, m) /\
  (s = DecodeStatus.Ok ->
     typeOf m = t /\ validMessage m /\
     ztake 6 buf = ztake 6 (encodeMessage m) /\
     slice buf 8 (zlen (encodeMessage m) - 8) = zdrop 8 (encodeMessage m)).
Proof.
  destruct (decodeMessage_Ret t buf) as (s & m & E). exists s, m. split; [done|].
  intros ->. destruct (decodeMessage_sound _ _ _ E) as (Ht & Hv & r6 & r7 & tail & ->).
  split; [done|]. split; [done|]. subst t. rewrite encodeMessage_eq. split.
  - by destruct m.
  - rewrite slice_preamble by lia. rewrite zlen_app, zlen_preambleWith.
    change (zdrop 8 _) with (body m). apply slice_head. lia.
Qed.

(** A message cut anywhere before its end is never mistaken for a complete
    or a bad one: every strict prefix decodes to [NeedMoreData]. *)
Lemma codec_truncated m k :
  validMessage m -> 0 <= k < zlen (encodeMessage m) ->
  exists m', decodeMessage (typeOf m) (ztake k (encodeMessage m))
             = Ret (DecodeStatus.NeedMoreData, m').
Proof.
  intros Hv Hk. destruct (decodeMessage_Ret (typeOf m) (ztake k (encodeMessage m))) as (s & m' & E).
  exists m'. destruct (decide (s = DecodeStatus.NeedMoreData)) as [->|Hs]; [done|]. exfalso.
  pose proof (decodeMessage_app _ _ (zdrop k (encodeMessage m)) _ _ E Hs) as E2.
  rewrite ztake_zdrop, encodeMessage_eq in E2.
  rewrite <- (app_nil_r (body m)), decodeMessage_encoded in E2 by done. injection E2 as <- <-.
  destruct (decodeMessage_sound _ _ _ E) as (_ & _ & r6 & r7 & tail & Heq).
  apply (f_equal zlen) in Heq. rewrite zlen_encodeMessage in Hk.
  revert Heq. rewrite zlen_ztake, zlen_encodeMessage by lia. zlen_lia.
Qed.
