(* ===== verification/Framer.v ===== *)
(** * Message framer (common/protocol/Framer.h, Framer.cpp)

    [Framer.t] is the class with its fixed array: [feed] copies received bytes
    up to the next decision point and stops at the message boundary.  The
    reference [run] decides after every single byte; [feed_run] proves that
    the batched loop computes the same, which makes framing independent of how
    TCP cuts the stream. *)

From S2P Require Import Prelude StringView Protocol Codec.

Definition kFramerBufferSize : Z :=
  if kUploadHeaderMaxSize <? kResultRequestMaxSize then kResultRequestMaxSize
  else kUploadHeaderMaxSize.

Module Framer.
Record t := mk {
  buffer : bytes;           (* std::array<char, kFramerBufferSize> *)
  size : Z;
  expected : MessageType.t;
  alternate : MessageType.t;
  status : DecodeStatus.t }.

(** The two constructors: zeroed array. *)
Definition make2 (expected alternate : MessageType.t) : t :=
  mk (repeat Byte.x00 (Z.to_nat kFramerBufferSize)) 0 expected alternate DecodeStatus.NeedMoreData.
Definition make (expected : MessageType.t) : t := make2 expected expected.

Definition message (f : t) : bytes := slice (buffer f) 0 (size f).

(** [static_cast<MessageType>(_buffer[kOffsetType])]: the raw byte. *)
Definition messageType (f : t) : outcome Z := byteAt (buffer f) kOffsetType.

Definition reset2 (f : t) (expected alternate : MessageType.t) : t :=
  mk (buffer f) 0 expected alternate DecodeStatus.NeedMoreData.
Definition reset (f : t) (expected : MessageType.t) : t := reset2 f expected expected.

Definition fixedSizeFor (type : Z) : Z :=
  match MessageType.of_u8 type with
  | Some MessageType.UploadHeader => kUploadHeaderFixedSize
  | Some MessageType.ResultRequest => kResultRequestFixedSize
  | _ => kPreambleSize
  end.

(** [std::copy_n(src, n, _buffer.data() + off)]: outside the array is undefined. *)
Definition copyIn (buf : bytes) (off : Z) (src : bytes) : outcome bytes :=
  if (off <? 0) || (zlen buf <? off + zlen src) then UB
  else Ret (ztake off buf ++ src ++ zdrop (off + zlen src) buf).

Definition withStatus (f : t) (s : DecodeStatus.t) : t :=
  mk (buffer f) (size f) (expected f) (alternate f) s.

Definition isError (s : DecodeStatus.t) : bool :=
  negb (bool_decide (s = DecodeStatus.Ok)) && negb (bool_decide (s = DecodeStatus.NeedMoreData)).

(** The loop body up to the copy: [inl s] is a [break] with [_status = s],
    [inr target] the size to reach next (steps 1 to 3 and the no-progress
    guard). *)
Definition decide (f : t) : outcome (DecodeStatus.t + Z) :=
  let current := message f in
  let* (sizeStatus, total) := expectedMessageSize current 0 in
  if isError sizeStatus then Ret (inl sizeStatus) else
  let* wrongType :=
    (if kPreambleSize <=? size f then
       let* actual := byteAt (buffer f) kOffsetType in
       Ret (negb (actual =? MessageType.to_u8 (expected f)) &&
            negb (actual =? MessageType.to_u8 (alternate f)))
     else Ret false) in
  if wrongType : bool then Ret (inl DecodeStatus.BadType) else
  let* step :=
    (if bool_decide (sizeStatus = DecodeStatus.Ok) then
       if zlen (buffer f) <? total then Ret (inl DecodeStatus.BadValue)
       else if size f =? total then Ret (inl DecodeStatus.Ok)
       else Ret (inr total)
     else if size f <? kPreambleSize then Ret (inr kPreambleSize)
     else let* type := messageType f in Ret (inr (fixedSizeFor type))) in
  match step with
  | inl s => Ret (inl s)
  | inr target => if target <=? size f then Ret (inl DecodeStatus.BadValue) else Ret (inr target)
  end.

(** [while (true)]: [data] is what is left of the input. *)
Fixpoint loop (fuel : nat) (f : t) (data : bytes) (consumed : Z) : outcome (t * Z) :=
  match fuel with
  | O => NoFuel
  | S fuel =>
      let* step := decide f in
      match step with
      | inl s => Ret (withStatus f s, consumed)
      | inr target =>
          if zlen data =? 0 then Ret (f, consumed) else
          let want := target - size f in
          let n := Z.min want (zlen data) in
          let* buf := copyIn (buffer f) (size f) (ztake n data) in
          loop fuel (mk buf (size f + n) (expected f) (alternate f) (status f))
               (zdrop n data) (consumed + n)
      end
  end.

(** Every iteration that goes on copies at least one byte, so one iteration
    more than there are bytes is enough ([feed_Ret]). *)
Definition feed (f : t) (data : bytes) : outcome (t * (DecodeStatus.t * Z)) :=
  if negb (bool_decide (status f = DecodeStatus.NeedMoreData)) then Ret (f, (status f, 0)) else
  let* (f, consumed) := loop (S (length data)) f data 0 in
  Ret (f, (status f, consumed)).
End Framer.

(** ** Well-formed framers and the byte-at-a-time reference *)

Definition framerWf (f : Framer.t) : Prop :=
  zlen (Framer.buffer f) = kFramerBufferSize /\ 0 <= Framer.size f <= kFramerBufferSize.

(** The decision as a function of the accumulated bytes. *)
Definition judge (exp alt : MessageType.t) (acc : bytes) : DecodeStatus.t + Z :=
  match expectedMessageSize acc 0 with
  | Ret (sizeStatus, total) =>
      if Framer.isError sizeStatus then inl sizeStatus else
      let type := be (slice acc kOffsetType 1) in
      if (kPreambleSize <=? zlen acc) &&
         (negb (type =? MessageType.to_u8 exp) && negb (type =? MessageType.to_u8 alt))
      then inl DecodeStatus.BadType else
      let step :=
        if bool_decide (sizeStatus = DecodeStatus.Ok) then
          if kFramerBufferSize <? total then inl DecodeStatus.BadValue
          else if zlen acc =? total then inl DecodeStatus.Ok
          else inr total
        else if zlen acc <? kPreambleSize then inr kPreambleSize
        else inr (Framer.fixedSizeFor type) in
      match step with
      | inl s => inl s
      | inr target => if target <=? zlen acc then inl DecodeStatus.BadValue else inr target
      end
  | _ => inl DecodeStatus.BadValue
  end.

(** Reference: decide after every byte. *)
Fixpoint run (exp alt : MessageType.t) (acc data : bytes) : DecodeStatus.t * bytes :=
  match judge exp alt acc with
  | inl s => (s, acc)
  | inr _ =>
      match data with
      | [] => (DecodeStatus.NeedMoreData, acc)
      | b :: data => run exp alt (acc ++ [b]) data
      end
  end.

(** ** The loop computes the reference *)

Lemma kFramerBufferSize_eq : kFramerBufferSize = 285.
Proof. done. Qed.

Lemma zlen_message f : framerWf f -> zlen (Framer.message f) = Framer.size f.
Proof. intros [H1 H2]. unfold Framer.message. apply zlen_slice; lia. Qed.

Lemma byteAt_message f :
  framerWf f -> kPreambleSize <= Framer.size f ->
  byteAt (Framer.buffer f) kOffsetType = Ret (be (slice (Framer.message f) kOffsetType 1)).
Proof.
  intros [H1 H2] H3. unfold kPreambleSize, kOffsetType in *. rewrite byteAt_Ret by lia.
  do 2 f_equal. unfold Framer.message, slice, ztake, zdrop. cbn [drop].
  change (Z.to_nat 0) with 0%nat. rewrite drop_0, skipn_firstn_comm, take_take. f_equal. lia.
Qed.

Lemma decide_judge f :
  framerWf f ->
  Framer.decide f = Ret (judge (Framer.expected f) (Framer.alternate f) (Framer.message f)).
Proof.
  intros Hwf. unfold Framer.decide, judge, Framer.messageType.
  destruct (expectedMessageSize_Ret (Framer.message f) 0) as (s & n & ->). rewrite obind_Ret.
  destruct (Framer.isError s); [done|]. rewrite zlen_message by done.
  pose proof (byteAt_message f Hwf) as Hb. pose proof Hwf as [-> _].
  destruct (Z.leb_spec kPreambleSize (Framer.size f)) as [H|H].
  - rewrite Hb by done. rewrite !obind_Ret.
    destruct (Z.ltb_spec (Framer.size f) kPreambleSize); [lia|].
    cbn [andb]. repeat (case_match; simplify_eq/=; try congruence).
  - destruct (Z.ltb_spec (Framer.size f) kPreambleSize); [|lia].
    cbn. repeat (case_match; simplify_eq/=; try congruence).
Qed.

Lemma judge_inr exp alt acc target :
  judge exp alt acc = inr target -> zlen acc < target <= kFramerBufferSize.
Proof.
  unfold judge. rewrite kFramerBufferSize_eq.
  destruct (expectedMessageSize acc 0) as [[s n]| |]; try done.
  destruct (Framer.isError s); [done|]. case_match; [done|].
  repeat case_match; intros; simplify_eq; try lia.
  all: unfold Framer.fixedSizeFor in *; proto_consts; repeat case_match; lia.
Qed.

Lemma isError_false s :
  Framer.isError s = false <-> s = DecodeStatus.Ok \/ s = DecodeStatus.NeedMoreData.
Proof. destruct s; cbn; split; naive_solver. Qed.

Lemma expectedMessageSize_short buf o :
  zlen buf < kPreambleSize -> expectedMessageSize buf o = Ret (DecodeStatus.NeedMoreData, o).
Proof.
  intros. unfold expectedMessageSize. by destruct (Z.ltb_spec (zlen buf) kPreambleSize); [|lia].
Qed.

Lemma expectedMessageSize_need buf k o n :
  kPreambleSize <= zlen buf ->
  expectedMessageSize buf o = Ret (DecodeStatus.NeedMoreData, n) ->
  zlen (buf ++ k) < Framer.fixedSizeFor (be (slice buf kOffsetType 1)) ->
  expectedMessageSize (buf ++ k) o = Ret (DecodeStatus.NeedMoreData, n).
Proof.
  unfold expectedMessageSize, Framer.fixedSizeFor. proto_consts. intros Hl E.
  destruct (Z.ltb_spec (zlen buf) 8); [lia|].
  destruct (Z.ltb_spec (zlen (buf ++ k)) 8); [zlen_lia|].
  rewrite magicOk_app, !byteAt_app by zlen_lia. revert E.
  destruct (magicOk_Ret buf kMagic 0) as [b ->]; [lia|zlen_lia|]. rewrite !obind_Ret.
  destruct (negb b); [done|]. rewrite !byteAt_Ret by lia. rewrite !obind_Ret.
  destruct (negb _); [done|].
  destruct (MessageType.of_u8 _) as [[]|]; try done.
  - intros E Hk. destruct (Z.ltb_spec (zlen (buf ++ k)) (8 + 8 + 2)); [|lia].
    by destruct (Z.ltb_spec (zlen buf) (8 + 8 + 2)); [|zlen_lia].
  - intros E Hk. destruct (Z.ltb_spec (zlen (buf ++ k)) (8 + 8 + 4 + 8 + 2)); [|lia].
    by destruct (Z.ltb_spec (zlen buf) (8 + 8 + 4 + 8 + 2)); [|zlen_lia].
Qed.

(** Evaluate the tests on a known status. *)
Ltac status_simpl :=
  change (Framer.isError DecodeStatus.NeedMoreData) with false;
  change (Framer.isError DecodeStatus.Ok) with false;
  change (bool_decide (DecodeStatus.NeedMoreData = DecodeStatus.Ok)) with false;
  change (bool_decide (DecodeStatus.Ok = DecodeStatus.Ok)) with true;
  cbn [andb negb].

Lemma judge_short exp alt acc :
  zlen acc < kPreambleSize -> judge exp alt acc = inr kPreambleSize.
Proof.
  unfold kPreambleSize. intros H. unfold judge.
  rewrite expectedMessageSize_short by done. unfold kPreambleSize.
  rewrite (proj2 (Z.leb_gt 8 _)), (proj2 (Z.ltb_lt _ 8)) by done. status_simpl.
  by rewrite (proj2 (Z.leb_gt 8 _)) by done.
Qed.

(** Between two decision points nothing is decided: every longer accumulation
    short of the target has the same target. *)
Lemma judge_stable exp alt acc target ext :
  judge exp alt acc = inr target -> zlen (acc ++ ext) < target ->
  judge exp alt (acc ++ ext) = inr target.
Proof.
  intros Hj Hlt. pose proof (judge_inr _ _ _ _ Hj) as Hb. revert Hj.
  destruct (Z.ltb_spec (zlen acc) kPreambleSize) as [Hs|Hs].
  { rewrite judge_short by done. intros [= <-]. by apply judge_short. }
  unfold judge, kPreambleSize, kOffsetType in *.
  destruct (expectedMessageSize_Ret acc 0) as (s & n & E). rewrite E.
  destruct (Framer.isError s) eqn:Herr; [done|].
  destruct (Z.leb_spec 8 (zlen acc)); [|lia]. cbn [andb].
  destruct (negb (_ =? _) && negb (_ =? _)) eqn:Hty; [done|].
  apply isError_false in Herr as [->| ->]; status_simpl.
  - rewrite (expectedMessageSize_app _ ext _ _ _ E) by done. status_simpl.
    rewrite slice_prefix, Hty by lia. rewrite andb_false_r.
    repeat case_match; intros; simplify_eq; try lia; done.
  - destruct (Z.ltb_spec (zlen acc) 8); [lia|].
    destruct (Z.leb_spec (Framer.fixedSizeFor (be (slice acc 5 1))) (zlen acc)); [done|].
    intros [= <-]. rewrite (expectedMessageSize_need _ _ _ n); try done.
    status_simpl. rewrite slice_prefix, Hty by lia.
    rewrite andb_false_r. destruct (Z.ltb_spec (zlen (acc ++ ext)) 8); [zlen_lia|].
    by destruct (Z.leb_spec (Framer.fixedSizeFor (be (slice acc 5 1))) (zlen (acc ++ ext))); [lia|].
Qed.

(** Bytes short of the target are taken without a decision. *)
Lemma run_skip exp alt ext : forall acc target data,
  judge exp alt acc = inr target -> zlen (acc ++ ext) <= target ->
  run exp alt acc (ext ++ data) = run exp alt (acc ++ ext) data.
Proof.
  induction ext as [|b ext IH]; intros acc target data Hj Hl; [by rewrite app_nil_r|].
  change ((b :: ext) ++ data) with (b :: ext ++ data). cbn [run]. rewrite Hj.
  replace (acc ++ b :: ext) with ((acc ++ [b]) ++ ext) by (by rewrite <- app_assoc).
  destruct (decide (ext = [])) as [->|Hne]; [by rewrite app_nil_r|].
  apply (IH _ target); [|by rewrite <- app_assoc].
  apply judge_stable; [done|]. destruct ext; [done|]. zlen_lia.
Qed.

(** The framer after accumulating [acc] instead of its present bytes. *)
Definition accumulated (f : Framer.t) (ext : bytes) (s : DecodeStatus.t) : Framer.t :=
  Framer.mk (ztake (Framer.size f) (Framer.buffer f) ++ ext ++
             zdrop (Framer.size f + zlen ext) (Framer.buffer f))
            (Framer.size f + zlen ext) (Framer.expected f) (Framer.alternate f) s.

Lemma zdrop_app_plus {A} (l k : list A) n : 0 <= n -> zdrop (zlen l + n) (l ++ k) = zdrop n k.
Proof.
  intros. pose proof (zlen_nonneg l). rewrite <- zdrop_zdrop by lia. by rewrite zdrop_length_app.
Qed.

Lemma judge_inl exp alt acc : judge exp alt acc <> inl DecodeStatus.NeedMoreData.
Proof.
  unfold judge. destruct (expectedMessageSize_Ret acc 0) as (s & n & ->).
  repeat (case_match; simplify_eq/=); intros [= ->]; done.
Qed.

Section Accumulate.
Context (f : Framer.t) (Hwf : framerWf f).

Lemma zlen_ztake_size : zlen (ztake (Framer.size f) (Framer.buffer f)) = Framer.size f.
Proof. destruct Hwf. rewrite zlen_ztake by lia. lia. Qed.

Lemma accumulated_nil s : accumulated f [] s = Framer.withStatus f s.
Proof.
  unfold accumulated, Framer.withStatus. change (zlen (@nil byte)) with 0.
  rewrite Z.add_0_r. cbn [app]. by rewrite ztake_zdrop.
Qed.

Lemma message_accumulated ext s :
  Framer.message (accumulated f ext s) = Framer.message f ++ ext.
Proof.
  unfold Framer.message, accumulated. cbn [Framer.buffer Framer.size].
  rewrite app_assoc. rewrite slice_head; [done|].
  rewrite zlen_app, zlen_ztake_size. done.
Qed.

Lemma accumulated_wf ext s :
  Framer.size f + zlen ext <= kFramerBufferSize -> framerWf (accumulated f ext s).
Proof.
  intros H. pose proof zlen_ztake_size as Hz. destruct Hwf as [H1 H2].
  split; cbn; [|zlen_lia]. rewrite !zlen_app, Hz, zlen_zdrop by zlen_lia. lia.
Qed.

Lemma accumulated_app e1 e2 s s' :
  Framer.size f + zlen e1 + zlen e2 <= kFramerBufferSize ->
  accumulated (accumulated f e1 s) e2 s' = accumulated f (e1 ++ e2) s'.
Proof.
  intros H. pose proof zlen_ztake_size as Hz. destruct Hwf as [H1 H2].
  unfold accumulated. cbn [Framer.size Framer.buffer Framer.expected Framer.alternate].
  rewrite zlen_app, Z.add_assoc. f_equal.
  set (A := ztake _ (Framer.buffer f)) in *.
  rewrite (app_assoc A), <- Hz, <- zlen_app, ztake_length_app.
  rewrite zdrop_app_plus, zdrop_zdrop by zlen_lia. by rewrite zlen_app, <- !app_assoc.
Qed.

Lemma copyIn_accumulated ext :
  Framer.size f + zlen ext <= kFramerBufferSize ->
  Framer.copyIn (Framer.buffer f) (Framer.size f) ext
  = Ret (Framer.buffer (accumulated f ext DecodeStatus.NeedMoreData)).
Proof.
  intros H. destruct Hwf as [H1 H2]. unfold Framer.copyIn.
  destruct (Z.ltb_spec (Framer.size f) 0); [lia|].
  by destruct (Z.ltb_spec (zlen (Framer.buffer f)) (Framer.size f + zlen ext)); [lia|].
Qed.
End Accumulate.

(** The batched loop and the reference take the same bytes and the same
    decision, and the loop is within its fuel and its array. *)
Lemma loop_run fuel : forall f data c,
  framerWf f -> Framer.status f = DecodeStatus.NeedMoreData -> (length data < fuel)%nat ->
  exists ext rest s,
    data = ext ++ rest /\
    Framer.loop fuel f data c = Ret (accumulated f ext s, c + zlen ext) /\
    run (Framer.expected f) (Framer.alternate f) (Framer.message f) data
      = (s, Framer.message f ++ ext) /\
    Framer.size f + zlen ext <= kFramerBufferSize /\
    (s = DecodeStatus.NeedMoreData -> rest = []).
Proof.
  induction fuel as [|fuel IH]; intros f data c Hwf Hs Hfuel; [lia|].
  cbn [Framer.loop]. rewrite decide_judge by done. rewrite obind_Ret.
  pose proof (zlen_message f Hwf) as Hm.
  destruct (judge _ _ _) as [s|target] eqn:Hj.
  { exists [], data, s. rewrite (accumulated_nil f), app_nil_r.
    change (zlen (@nil byte)) with 0. destruct Hwf.
    split_and!; try done; try lia; [by rewrite Z.add_0_r| |].
    - destruct data; cbn [run]; by rewrite Hj.
    - intros ->. by apply judge_inl in Hj. }
  pose proof (judge_inr _ _ _ _ Hj) as Ht.
  destruct (Z.eqb_spec (zlen data) 0) as [Hd|Hd].
  { exists [], [], DecodeStatus.NeedMoreData. rewrite (accumulated_nil f), app_nil_r.
    change (zlen (@nil byte)) with 0. rewrite Z.add_0_r.
    assert (data = []) as -> by (apply zlen_0_inv; lia). destruct Hwf.
    split_and!; try done; try lia; [|cbn [run]; by rewrite Hj, app_nil_r].
    by destruct f; cbn in Hs |- *; subst. }
  set (n := Z.min _ _). pose proof (zlen_nonneg data).
  assert (Hn : 0 < n <= zlen data /\ Framer.size f + n <= target) by lia. clearbody n.
  assert (Hk : zlen (ztake n data) = n) by (rewrite zlen_ztake by lia; lia).
  rewrite copyIn_accumulated by (done || lia). rewrite obind_Ret.
  set (f1 := accumulated f (ztake n data) DecodeStatus.NeedMoreData).
  replace (Framer.mk _ _ _ _ _) with f1 by (unfold f1, accumulated; cbn; by rewrite Hk, Hs).
  assert (Hwf1 : framerWf f1) by (apply accumulated_wf; [done|lia]).
  destruct (IH f1 (zdrop n data) (c + n)) as (ext & rest & s & E1 & E2 & E3 & E4 & E5); try done.
  { unfold zdrop. rewrite length_drop. unfold zlen in *. lia. }
  cbn [Framer.size Framer.expected Framer.alternate f1 accumulated] in E3, E4.
  rewrite Hk in E4. unfold f1 in E3. rewrite message_accumulated in E3 by done.
  exists (ztake n data ++ ext), rest, s. rewrite zlen_app, Hk, <- app_assoc, <- E1, ztake_zdrop.
  split_and!; try done; try lia.
  - rewrite E2. unfold f1. by rewrite accumulated_app, Z.add_assoc by (done || lia).
  - rewrite app_assoc, <- E3. rewrite <- (ztake_zdrop n data) at 1.
    apply (run_skip _ _ _ _ target); [done|]. rewrite zlen_app, Hk. lia.
Qed.

(** [feed] by its reference, from a framer that still needs data. *)
Lemma feed_run f data :
  framerWf f -> Framer.status f = DecodeStatus.NeedMoreData ->
  exists ext rest s,
    data = ext ++ rest /\
    Framer.feed f data = Ret (accumulated f ext s, (s, zlen ext)) /\
    run (Framer.expected f) (Framer.alternate f) (Framer.message f) data
      = (s, Framer.message f ++ ext) /\
    Framer.size f + zlen ext <= kFramerBufferSize /\
    (s = DecodeStatus.NeedMoreData -> rest = []).
Proof.
  intros Hwf Hs. unfold Framer.feed. rewrite bool_decide_eq_true_2 by done. cbn [negb].
  destruct (loop_run (S (length data)) f data 0) as (ext & rest & s & E1 & E2 & E3 & E4 & E5);
    try done; [lia|].
  exists ext, rest, s. rewrite E2, obind_Ret. by split_and!.
Qed.

Lemma feed_stopped f data :
  Framer.status f <> DecodeStatus.NeedMoreData ->
  Framer.feed f data = Ret (f, (Framer.status f, 0)).
Proof. intros. unfold Framer.feed. by rewrite bool_decide_eq_false_2. Qed.

(** The reference on a cut stream. *)
Lemma run_app exp alt d1 : forall acc d2 s acc1,
  run exp alt acc d1 = (s, acc1) ->
  run exp alt acc (d1 ++ d2)
  = if bool_decide (s = DecodeStatus.NeedMoreData) then run exp alt acc1 d2 else (s, acc1).
Proof.
  induction d1 as [|b d1 IH]; intros acc d2 s acc1; cbn [run app].
  - destruct (judge exp alt acc) as [s0|] eqn:Hj; intros [= <- <-].
    + rewrite bool_decide_eq_false_2; [|intros ->; by apply judge_inl in Hj].
      destruct d2; cbn [run]; by rewrite Hj.
    + by rewrite bool_decide_eq_true_2.
  - destruct (judge exp alt acc) as [s0|] eqn:Hj; [|apply IH]. intros [= <- <-].
    by rewrite bool_decide_eq_false_2; [|intros ->; by apply judge_inl in Hj].
Qed.


Lemma feed_safe f data :
  framerWf f ->
  exists f' s n,
    Framer.feed f data = Ret (f', (s, n)) /\ framerWf f' /\
    0 <= n <= zlen data /\ Framer.status f' = s /\
    Framer.message f' = Framer.message f ++ ztake n data /\
    (s = DecodeStatus.NeedMoreData -> n = zlen data).
Proof.
  intros Hwf. destruct (decide (Framer.status f = DecodeStatus.NeedMoreData)) as [Hs|Hs].
  - destruct (feed_run f data Hwf Hs) as (ext & rest & s & -> & E2 & E3 & E4 & E5).
    exists (accumulated f ext s), s, (zlen ext). rewrite message_accumulated, ztake_length_app by done.
    pose proof (zlen_nonneg ext). pose proof (zlen_nonneg rest).
    split_and!; try done; try (rewrite zlen_app; lia); [by apply accumulated_wf|].
    intros Hn. rewrite (E5 Hn), app_nil_r. done.
  - exists f, (Framer.status f), 0. rewrite feed_stopped by done.
    pose proof (zlen_nonneg data). change (ztake 0 data) with (@nil byte).
    rewrite app_nil_r. split_and!; try done; lia.
Qed.

(** Once a message is there its type byte is too, and a reset framer is ready. *)
Lemma messageType_Ret f : framerWf f -> exists t, Framer.messageType f = Ret t.
Proof.
  intros [Hb _]. unfold Framer.messageType. eexists. apply byteAt_Ret. rewrite Hb. done.
Qed.

Lemma reset_wf f t : framerWf f -> framerWf (Framer.reset f t).
Proof. intros [Hb _]. split; [done|]. done. Qed.

(** ** Properties *)

(** Feeding any bytes to any framer is safe: the loop ends, the copies stay
    inside the fixed array, no more than the input is consumed, the bytes
    accumulated are exactly the consumed ones, and all of the input is
    consumed unless the message is complete or refused. *)
Lemma framer_feed_safe f data :
  framerWf f ->
  exists f' s n,
    Framer.feed f data = Ret (f', (s, n)) /\ framerWf f' /\
    0 <= n <= zlen data /\ Framer.status f' = s /\
    Framer.message f' = Framer.message f ++ ztake n data /\
    (s = DecodeStatus.NeedMoreData -> n = zlen data).
Proof. apply feed_safe. Qed.

(** C30: framing does not depend on how TCP cuts the stream: feeding two pieces
    one after the other leaves the framer in the state, with the status and
    the total number of consumed bytes, of feeding them at once. *)
Theorem framer_chunk_independent f d1 d2 f1 s1 n1 f2 s2 n2 :
  framerWf f ->
  Framer.feed f d1 = Ret (f1, (s1, n1)) ->
  Framer.feed f1 d2 = Ret (f2, (s2, n2)) ->
  Framer.feed f (d1 ++ d2) = Ret (f2, (s2, n1 + n2)).
Proof.
  intros Hwf F1 F2. destruct (decide (Framer.status f = DecodeStatus.NeedMoreData)) as [Hs|Hs].
  2:{ rewrite feed_stopped in F1 |- * by done. injection F1 as <- <- <-.
      rewrite feed_stopped in F2 by done. by injection F2 as <- <- <-. }
  destruct (feed_run f d1 Hwf Hs) as (e1 & r1 & s & -> & E2 & E3 & E4 & E5).
  rewrite E2 in F1. injection F1 as <- <- <-.
  destruct (feed_run f ((e1 ++ r1) ++ d2) Hwf Hs) as (e & r & s' & G1 & G2 & G3 & G4 & G5).
  rewrite (run_app _ _ _ _ _ _ _ E3) in G3. rewrite G2.
  destruct (decide (s = DecodeStatus.NeedMoreData)) as [->|Hns].
  - rewrite bool_decide_eq_true_2 in G3 by done.
    destruct (feed_run (accumulated f e1 DecodeStatus.NeedMoreData) d2) as
      (e2 & r2 & s2' & -> & K2 & K3 & K4 & K5); [by apply accumulated_wf|done|].
    rewrite K2 in F2. injection F2 as <- <- <-.
    rewrite message_accumulated in K3 by done. cbn in K3. rewrite K3 in G3.
    injection G3 as <- He. rewrite <- app_assoc in He. apply app_inv_head in He as <-.
    cbn in K4. rewrite accumulated_app by (done || lia). by rewrite zlen_app.
  - rewrite bool_decide_eq_false_2 in G3 by done. injection G3 as <- He.
    apply app_inv_head in He as <-.
    rewrite feed_stopped in F2 by done. injection F2 as <- <- <-. by rewrite Z.add_0_r.
Qed.

Lemma expectedMessageSize_need_lt buf o n :
  kPreambleSize <= zlen buf ->
  expectedMessageSize buf o = Ret (DecodeStatus.NeedMoreData, n) ->
  zlen buf < Framer.fixedSizeFor (be (slice buf kOffsetType 1)).
Proof.
  unfold expectedMessageSize, Framer.fixedSizeFor. proto_consts. intros Hl.
  destruct (Z.ltb_spec (zlen buf) 8); [lia|].
  destruct (magicOk_Ret buf kMagic 0) as [b ->]; [lia|zlen_lia|]. rewrite !obind_Ret.
  destruct (negb b); [done|]. rewrite !byteAt_Ret by lia. rewrite !obind_Ret.
  destruct (negb _); [done|].
  destruct (MessageType.of_u8 _) as [[]|]; try done; size_step; try done;
    by rewrite getU16_Ret by lia.
Qed.

Lemma run_until exp alt ext : forall acc rest s,
  (forall p q, ext = p ++ q -> q <> [] -> exists t, judge exp alt (acc ++ p) = inr t) ->
  judge exp alt (acc ++ ext) = inl s ->
  run exp alt acc (ext ++ rest) = (s, acc ++ ext).
Proof.
  induction ext as [|b ext IH]; intros acc rest s Hp Hj.
  - rewrite app_nil_r in *. destruct rest; cbn [app run]; by rewrite Hj.
  - cbn [app run]. destruct (Hp [] (b :: ext)) as [t Ht]; [done..|].
    rewrite app_nil_r in Ht. rewrite Ht, (cons_middle b acc ext), app_assoc. apply IH.
    + intros p q -> Hq. destruct (Hp (b :: p) q) as [t' Ht']; [done..|].
      exists t'. by rewrite <- app_assoc.
    + by rewrite <- app_assoc.
Qed.

Section Encoded.
Context (exp alt : MessageType.t) (m : Message)
        (Hv : validMessage m) (Ht : typeOf m = exp \/ typeOf m = alt).

Lemma encoded_type_byte : be (slice (encodeMessage m) kOffsetType 1) = MessageType.to_u8 (typeOf m).
Proof. clear Ht Hv. rewrite encodeMessage_eq. by destruct m. Qed.

Lemma encoded_type_test :
  negb (MessageType.to_u8 (typeOf m) =? MessageType.to_u8 exp) &&
  negb (MessageType.to_u8 (typeOf m) =? MessageType.to_u8 alt) = false.
Proof.
  destruct Ht as [->| ->]; rewrite Z.eqb_refl; [done|apply andb_false_r].
Qed.

Lemma encoded_size o :
  expectedMessageSize (encodeMessage m) o = Ret (DecodeStatus.Ok, zlen (encodeMessage m)).
Proof.
  rewrite zlen_encodeMessage, encodeMessage_eq, <- (app_nil_r (body m)) at 1.
  by apply expectedMessageSize_encoded.
Qed.

Lemma encoded_bounds : 8 <= zlen (encodeMessage m) <= kFramerBufferSize.
Proof.
  clear Ht. rewrite zlen_encodeMessage, zlen_body, kFramerBufferSize_eq.
  destruct m as [[fs fn]|?|?|?| |[fs crc off fn]]; cbn in Hv |- *; try lia;
    unfold validFilename, kMaxFilenameLen in Hv; lia.
Qed.

Lemma judge_encoded : judge exp alt (encodeMessage m) = inl DecodeStatus.Ok.
Proof.
  unfold judge. rewrite encoded_size. status_simpl.
  rewrite encoded_type_byte, encoded_type_test, andb_false_r. pose proof encoded_bounds.
  destruct (Z.ltb_spec kFramerBufferSize (zlen (encodeMessage m))); [lia|].
  by rewrite Z.eqb_refl.
Qed.

Lemma judge_encoded_prefix p q :
  encodeMessage m = p ++ q -> q <> [] -> exists t, judge exp alt p = inr t.
Proof.
  intros E Hq. assert (Hlt : zlen p < zlen (encodeMessage m)).
  { rewrite E. destruct q; [done|]. zlen_lia. }
  destruct (Z.ltb_spec (zlen p) kPreambleSize) as [Hp|Hp];
    [eexists; by apply judge_short|].
  pose proof encoded_type_byte as Hb. rewrite E, slice_prefix in Hb
    by (unfold kOffsetType, kPreambleSize in *; lia).
  unfold judge. destruct (expectedMessageSize_Ret p 0) as (s & n & Es). rewrite Es.
  rewrite Hb, encoded_type_test, andb_false_r. pose proof encoded_bounds.
  destruct (decide (s = DecodeStatus.NeedMoreData)) as [->|Hs]; status_simpl.
  - pose proof (expectedMessageSize_need_lt _ _ _ Hp Es) as Hl. rewrite Hb in Hl.
    destruct (Z.ltb_spec (zlen p) kPreambleSize); [lia|].
    destruct (Z.leb_spec (Framer.fixedSizeFor (MessageType.to_u8 (typeOf m))) (zlen p)); [lia|eauto].
  - pose proof (expectedMessageSize_app _ q _ _ _ Es Hs) as Es'.
    rewrite <- E, encoded_size in Es'. injection Es' as <- <-. status_simpl.
    destruct (Z.ltb_spec kFramerBufferSize (zlen (encodeMessage m))); [lia|].
    destruct (Z.eqb_spec (zlen p) (zlen (encodeMessage m))); [lia|].
    destruct (Z.leb_spec (zlen (encodeMessage m)) (zlen p)); [lia|eauto].
Qed.

Lemma run_encoded rest :
  run exp alt [] (encodeMessage m ++ rest) = (DecodeStatus.Ok, encodeMessage m).
Proof.
  apply (run_until exp alt (encodeMessage m) []); [|apply judge_encoded].
  intros p q E Hq. by apply (judge_encoded_prefix p q).
Qed.
End Encoded.

(** A reset framer hands over exactly the message that was sent: fed the
    encoding of a valid message of one of its expected types, followed by
    anything (payload, CSV, the next message), it answers [Ok], consumes
    exactly the encoding, and holds it, with the type that arrived. *)
Lemma framer_message_exact f exp alt m rest :
  framerWf f -> validMessage m -> typeOf m = exp \/ typeOf m = alt ->
  exists f', Framer.feed (Framer.reset2 f exp alt) (encodeMessage m ++ rest)
             = Ret (f', (DecodeStatus.Ok, zlen (encodeMessage m))) /\
    Framer.message f' = encodeMessage m /\
    Framer.messageType f' = Ret (MessageType.to_u8 (typeOf m)).
Proof.
  intros Hwf Hv Ht. set (f0 := Framer.reset2 f exp alt).
  assert (Hwf0 : framerWf f0) by (destruct Hwf; split; cbn; rewrite ?kFramerBufferSize_eq in *; lia).
  destruct (feed_run f0 (encodeMessage m ++ rest) Hwf0) as (ext & r & s & E1 & E2 & E3 & E4 & E5);
    [done|].
  assert (Hm0 : Framer.message f0 = []) by done. rewrite Hm0 in E3. cbn [app] in E3.
  change (Framer.expected f0) with exp in E3. change (Framer.alternate f0) with alt in E3.
  rewrite run_encoded in E3 by done. injection E3 as <- <-.
  assert (Hm : Framer.message (accumulated f0 (encodeMessage m) DecodeStatus.Ok) = encodeMessage m)
    by (by rewrite message_accumulated, Hm0).
  eexists. split; [exact E2|]. split; [done|]. unfold Framer.messageType.
  rewrite byteAt_message; [by rewrite Hm, encoded_type_byte|by apply accumulated_wf|].
  cbn. pose proof (encoded_bounds m Hv). unfold kPreambleSize. lia.
Qed.

Definition waitHeaderFramer : Framer.t :=
  Framer.make2 MessageType.UploadHeader MessageType.ResultRequest.

Lemma waitHeaderFramer_wf : framerWf waitHeaderFramer.
Proof. by split. Qed.

(** The message cut after its 11th byte. *)
Lemma framer_chunk_independent_witness :
  exists f2, Framer.feed waitHeaderFramer
               (ztake 11 (encodeMessage sampleRequest) ++ zdrop 11 (encodeMessage sampleRequest))
             = Ret (f2, (DecodeStatus.Ok, 11 + 26)).
Proof.
  eexists. eapply (framer_chunk_independent waitHeaderFramer).
  - apply waitHeaderFramer_wf.
  - vm_compute. reflexivity.
  - vm_compute. reflexivity.
Defined.


(** The framer's own limit is its 285-byte array: an upload header announcing a
    256-byte filename (274 bytes in all) is framed, and refused only by the
    decoder. *)
Example framer_accepts_long_upload_header :
  let wire := preambleWith MessageType.UploadHeader Byte.x00 Byte.x00 ++ beBytes 8 100 ++
              beBytes 2 256 ++ repeat "a"%byte 256 in
  match Framer.feed waitHeaderFramer wire with
  | Ret (f', (status, consumed)) =>
      status = DecodeStatus.Ok /\ consumed = 274 /\
      decodeMessage MessageType.UploadHeader (Framer.message f')
      = Ret (DecodeStatus.BadValue, MsgUploadHeader UploadHeader0)
  | _ => False
  end.
Proof. vm_compute. repeat split. Qed.
