(* ===== verification/Ring.v ===== *)
(** * Single-producer single-consumer ring (common/util/SpscRingBuffer.h, .cpp)

    [Ring] holds the class: slots in one contiguous array, committed sizes per
    slot, and the two monotone 64-bit indices.  [ringRep] is the abstraction
    relation to a FIFO queue of chunks, with one refinement lemma per
    operation.  [Concurrent] is the two-thread program: each atomic load and
    store, each byte written through the lent pointer and each byte read is a
    step of its own, and the producer's and the consumer's steps interleave
    arbitrarily (sequential consistency; the code's acquire/release pairs on
    [_tail] and [_head] order the same accesses). *)

From S2P Require Import Prelude StringView.

Definition kDefaultSlotCount : Z := 64.
Definition kDefaultSlotSize : Z := 64 * 1024.
Definition kRingBudgetBytes : Z := 4 * 1024 * 1024.
Definition kMinSlotCount : Z := 4.

Definition ringSlotCountFor (slotSize : Z) : Z :=
  if slotSize =? 0 then kDefaultSlotCount else
  let withinBudget := kRingBudgetBytes / slotSize in
  if withinBudget <? kMinSlotCount then kMinSlotCount
  else if withinBudget <? kDefaultSlotCount then withinBudget else kDefaultSlotCount.

Module Ring.
Record t := mk {
  slotCount : Z;
  slotSize : Z;
  storage : bytes;
  sizes : list Z;
  head : Z;
  tail : Z }.

Definition make (slotCount slotSize : Z) : t :=
  mk slotCount slotSize (repeat Byte.x00 (Z.to_nat (slotCount * slotSize)))
     (repeat 0 (Z.to_nat slotCount)) 0 0.

(** Where slot number [i] starts in the array. *)
Definition slotOffset (r : t) (i : Z) : Z := (i mod slotCount r) * slotSize r.

(** [Some (offset, capacity)] is the lent slot. *)
Definition tryAcquire (r : t) : option (Z * Z) :=
  if u64 (tail r - head r) =? slotCount r then None
  else Some (slotOffset r (tail r), slotSize r).

Definition setSizes (r : t) (sizes : list Z) : t :=
  mk (slotCount r) (slotSize r) (storage r) sizes (head r) (tail r).
Definition setTail (r : t) (tail : Z) : t :=
  mk (slotCount r) (slotSize r) (storage r) (sizes r) (head r) tail.
Definition setHead (r : t) (head : Z) : t :=
  mk (slotCount r) (slotSize r) (storage r) (sizes r) head (tail r).
Definition setStorage (r : t) (storage : bytes) : t :=
  mk (slotCount r) (slotSize r) storage (sizes r) (head r) (tail r).

Definition commit (r : t) (size : Z) : outcome t :=
  let* sizes := vset (sizes r) (tail r mod slotCount r) size in
  Ret (setTail (setSizes r sizes) (u64 (tail r + 1))).

Definition full (r : t) : bool := u64 (tail r - head r) =? slotCount r.

(** [Some (offset, size)] is the oldest unconsumed slot. *)
Definition tryPeek (r : t) : outcome (option (Z * Z)) :=
  if tail r =? head r then Ret None else
  let* size := vat (sizes r) (head r mod slotCount r) in
  Ret (Some (slotOffset r (head r), size)).

Definition release (r : t) : t := setHead r (u64 (head r + 1)).

Definition empty (r : t) : bool := tail r =? head r.

(** The user of a lent slot stores one byte through the pointer. *)
Definition store (r : t) (pos : Z) (b : byte) : outcome t :=
  let* st := vset (storage r) pos b in Ret (setStorage r st).

(** ... and a block, in order. *)
Fixpoint storeAll (r : t) (pos : Z) (data : bytes) : outcome t :=
  match data with
  | [] => Ret r
  | b :: data => let* r := store r pos b in storeAll r (pos + 1) data
  end.

(** The bytes a reader sees through a view. *)
Definition viewed (r : t) (off size : Z) : bytes := slice (storage r) off size.
End Ring.

(** ** The queue a ring represents *)

(** Slot number [k] holds the chunk [d]. *)
Definition holds (r : Ring.t) (k : Z) (d : bytes) : Prop :=
  zlen d <= Ring.slotSize r /\
  Ring.sizes r !! Z.to_nat (k mod Ring.slotCount r) = Some (zlen d) /\
  Ring.viewed r (Ring.slotOffset r k) (zlen d) = d.

(** [r] holds the chunks [q], oldest first.  [tail < 2^64]: fewer than [2^64]
    commits so far. *)
Definition ringRep (r : Ring.t) (q : list bytes) : Prop :=
  0 < Ring.slotCount r < 2 ^ 64 /\ 0 < Ring.slotSize r /\
  zlen (Ring.storage r) = Ring.slotCount r * Ring.slotSize r /\
  zlen (Ring.sizes r) = Ring.slotCount r /\
  0 <= Ring.head r /\ Ring.tail r = Ring.head r + zlen q /\ Ring.tail r < 2 ^ 64 /\
  zlen q <= Ring.slotCount r /\
  forall i d, q !! i = Some d -> holds r (Ring.head r + Z.of_nat i) d.

(** ** Slot arithmetic *)

Lemma mod_slots_ne n a b : 0 < n -> a < b < a + n -> a mod n <> b mod n.
Proof.
  intros Hn Hab E.
  assert (Hd : (b - a) mod n = 0) by (rewrite Zminus_mod, E, Z.sub_diag; apply Z.mod_0_l; lia).
  rewrite Z.mod_small in Hd; lia.
Qed.

Lemma slotOffset_range r i :
  0 < Ring.slotCount r -> 0 < Ring.slotSize r ->
  0 <= Ring.slotOffset r i /\
  Ring.slotOffset r i + Ring.slotSize r <= Ring.slotCount r * Ring.slotSize r.
Proof.
  intros Hc Hs. unfold Ring.slotOffset. pose proof (Z.mod_pos_bound i (Ring.slotCount r) Hc). nia.
Qed.

(** Different slots do not share a byte. *)
Lemma slotOffset_disjoint r i j :
  0 < Ring.slotCount r -> 0 < Ring.slotSize r -> i < j < i + Ring.slotCount r ->
  Ring.slotOffset r i + Ring.slotSize r <= Ring.slotOffset r j \/
  Ring.slotOffset r j + Ring.slotSize r <= Ring.slotOffset r i.
Proof.
  intros Hc Hs Hij. unfold Ring.slotOffset.
  pose proof (mod_slots_ne (Ring.slotCount r) i j Hc Hij). nia.
Qed.

Lemma mod_index r k : 0 < Ring.slotCount r ->
  0 <= k mod Ring.slotCount r < Ring.slotCount r.
Proof. apply Z.mod_pos_bound. Qed.

(** ** Refinement of the queue, one lemma per operation *)
Section Rep.
Context (r : Ring.t) (q : list bytes) (H : ringRep r q).

Lemma rep_pending : u64 (Ring.tail r - Ring.head r) = zlen q.
Proof.
  destruct H as (?&?&?&?&?& -> &?&?&?). replace (_ + _ - _) with (zlen q) by lia.
  apply uwrap_small. pose proof (zlen_nonneg q). unfold is_uint. lia.
Qed.

Lemma full_eq : Ring.full r = (zlen q =? Ring.slotCount r).
Proof. unfold Ring.full. by rewrite rep_pending. Qed.

Lemma full_spec : Ring.full r = true <-> zlen q = Ring.slotCount r.
Proof. rewrite full_eq. apply Z.eqb_eq. Qed.

Lemma tryAcquire_spec :
  Ring.tryAcquire r =
  if zlen q =? Ring.slotCount r then None
  else Some (Ring.slotOffset r (Ring.head r + zlen q), Ring.slotSize r).
Proof.
  unfold Ring.tryAcquire. rewrite rep_pending. by destruct H as (?&?&?&?&?& -> &?).
Qed.

Lemma empty_spec : Ring.empty r = true <-> q = [].
Proof.
  unfold Ring.empty. destruct H as (?&?&?&?&?& -> &?). rewrite Z.eqb_eq. split.
  - intros. apply zlen_0_inv. lia.
  - intros ->. rewrite (@zlen_nil bytes). lia.
Qed.

Lemma tryPeek_spec :
  match q with
  | [] => Ring.tryPeek r = Ret None
  | d :: _ =>
      Ring.tryPeek r = Ret (Some (Ring.slotOffset r (Ring.head r), zlen d)) /\
      Ring.viewed r (Ring.slotOffset r (Ring.head r)) (zlen d) = d
  end.
Proof.
  unfold Ring.tryPeek. pose proof empty_spec as He. unfold Ring.empty in He.
  destruct q as [|d q'].
  - by rewrite (proj2 He).
  - destruct (_ =? _); [by apply proj1 in He; specialize (He eq_refl)|].
    destruct H as (Hc&?&?&?&?&?&?&?&Hq). destruct (Hq 0%nat d eq_refl) as (_ & E & V).
    rewrite Z.add_0_r in E, V. split; [|done].
    rewrite (vat_Some _ _ (zlen d)); [done| |done]. apply mod_index. lia.
Qed.

Lemma release_spec d q' : q = d :: q' -> ringRep (Ring.release r) q'.
Proof.
  intros ->. destruct H as (Hc&Hs&Hst&Hsz&Hh&Ht&Hlt&Hle&Hq). rewrite zlen_cons in *.
  pose proof (zlen_nonneg q'). unfold ringRep, Ring.release. cbn.
  rewrite (uwrap_small 64) by (unfold is_uint; lia).
  split_and!; try done; try lia. intros i d' Hi.
  specialize (Hq (S i) d' Hi). replace (Ring.head r + 1 + Z.of_nat i) with
    (Ring.head r + Z.of_nat (S i)) by lia. done.
Qed.

(** A byte stored in the acquired slot does not touch the queue. *)
Lemma store_spec i b :
  zlen q < Ring.slotCount r -> 0 <= i < Ring.slotSize r ->
  exists r', Ring.store r (Ring.slotOffset r (Ring.tail r) + i) b = Ret r' /\ ringRep r' q /\
    r' = Ring.setStorage r
           (<[Z.to_nat (Ring.slotOffset r (Ring.tail r) + i) := b]> (Ring.storage r)).
Proof.
  intros Hq Hi. destruct H as (Hc&Hs&Hst&Hsz&Hh&Ht&Hlt&Hle&Hqs).
  pose proof (slotOffset_range r (Ring.tail r) ltac:(lia) Hs) as Ho.
  unfold Ring.store. rewrite vset_Ret by lia. rewrite obind_Ret.
  eexists. split; [done|]. split; [|done]. unfold ringRep. cbn.
  split_and!; try done; try lia; [unfold zlen in *; rewrite length_insert; lia|].
  intros k d Hk. destruct (Hqs k d Hk) as (H1 & H2 & H3). split_and!; try done.
  unfold Ring.viewed in *. rewrite <- H3 at 2. apply lookup_lt_Some in Hk. unfold zlen in Hq, Ht.
  destruct (slotOffset_disjoint r (Ring.head r + Z.of_nat k) (Ring.tail r)) as [Hd|Hd]; try lia.
  - apply slice_insert_ne; [apply slotOffset_range; lia| |lia]. right.
    change (Ring.slotOffset (Ring.setStorage r _)) with (Ring.slotOffset r). lia.
  - apply slice_insert_ne; [apply slotOffset_range; lia| |lia]. left.
    change (Ring.slotOffset (Ring.setStorage r _)) with (Ring.slotOffset r). lia.
Qed.

(** First store of [commit]: the size of the free slot. *)
Lemma setSize_spec size :
  zlen q < Ring.slotCount r ->
  ringRep (Ring.setSizes r
    (<[Z.to_nat (Ring.tail r mod Ring.slotCount r) := size]> (Ring.sizes r))) q.
Proof.
  intros Hq. destruct H as (Hc&Hs&Hst&Hsz&Hh&Ht&Hlt&Hle&Hqs). unfold ringRep. cbn.
  split_and!; try done; try lia; [unfold zlen in *; rewrite length_insert; lia|].
  intros k d Hk. destruct (Hqs k d Hk) as (H1 & H2 & H3). split_and!; try done. cbn.
  rewrite list_lookup_insert_ne; [done|]. apply lookup_lt_Some in Hk. unfold zlen in Hq, Ht.
  pose proof (mod_slots_ne (Ring.slotCount r) (Ring.head r + Z.of_nat k) (Ring.tail r)).
  pose proof (mod_index r (Ring.head r + Z.of_nat k)). pose proof (mod_index r (Ring.tail r)). lia.
Qed.

(** Second store of [commit]: the slot becomes the newest chunk. *)
Lemma setTail_spec size :
  zlen q < Ring.slotCount r -> 0 <= size <= Ring.slotSize r -> Ring.tail r + 1 < 2 ^ 64 ->
  Ring.sizes r !! Z.to_nat (Ring.tail r mod Ring.slotCount r) = Some size ->
  ringRep (Ring.setTail r (u64 (Ring.tail r + 1)))
          (q ++ [Ring.viewed r (Ring.slotOffset r (Ring.tail r)) size]).
Proof.
  intros Hq Hsize Hov Hsi. destruct H as (Hc&Hs&Hst&Hsz&Hh&Ht&Hlt&Hle&Hqs).
  pose proof (zlen_nonneg q).
  pose proof (slotOffset_range r (Ring.tail r) ltac:(lia) Hs) as Ho.
  assert (Hv : zlen (Ring.viewed r (Ring.slotOffset r (Ring.tail r)) size) = size)
    by (apply zlen_slice; lia).
  rewrite (uwrap_small 64) by (unfold is_uint; lia). unfold ringRep. cbn.
  rewrite zlen_app, zlen_cons, (@zlen_nil bytes).
  split_and!; try done; try lia. intros k d [Hk|[Hk Hd]]%lookup_app_Some; [by apply Hqs|].
  destruct (k - length q)%nat eqn:E; [|done]. injection Hd as <-.
  assert (Hkt : Ring.head r + Z.of_nat k = Ring.tail r) by (unfold zlen in Ht; lia).
  rewrite Hkt. change (holds r (Ring.tail r) (Ring.viewed r (Ring.slotOffset r (Ring.tail r)) size)).
  unfold holds. rewrite Hv. by split_and!; [lia|..].
Qed.

End Rep.

Lemma commit_spec r q size :
  ringRep r q ->
  zlen q < Ring.slotCount r -> 0 <= size <= Ring.slotSize r -> Ring.tail r + 1 < 2 ^ 64 ->
  exists r', Ring.commit r size = Ret r' /\
    ringRep r' (q ++ [Ring.viewed r (Ring.slotOffset r (Ring.tail r)) size]).
Proof.
  intros H Hq Hsize Hov. pose proof H as (Hc&Hs&Hst&Hsz&Hh&Ht&Hlt&Hle&Hqs).
  pose proof (mod_index r (Ring.tail r) ltac:(lia)) as Hm.
  unfold Ring.commit. rewrite vset_Ret by lia. rewrite obind_Ret. eexists. split; [done|].
  apply (setTail_spec _ q (setSize_spec r q H size Hq) size); try done.
  cbn. apply list_lookup_insert_eq. unfold zlen in Hsz. lia.
Qed.

(** Filling the acquired slot with a block. *)
Lemma storeAll_spec data : forall r q i,
  ringRep r q -> zlen q < Ring.slotCount r -> 0 <= i -> i + zlen data <= Ring.slotSize r ->
  exists r', Ring.storeAll r (Ring.slotOffset r (Ring.tail r) + i) data = Ret r' /\
    ringRep r' q /\ Ring.tail r' = Ring.tail r /\ Ring.head r' = Ring.head r /\
    Ring.slotCount r' = Ring.slotCount r /\ Ring.slotSize r' = Ring.slotSize r /\
    Ring.viewed r' (Ring.slotOffset r (Ring.tail r)) (i + zlen data)
    = Ring.viewed r (Ring.slotOffset r (Ring.tail r)) i ++ data.
Proof.
  induction data as [|b data IH]; intros r q i H Hq Hi Hle.
  - exists r. cbn [Ring.storeAll]. rewrite (@zlen_nil byte), Z.add_0_r, app_nil_r. by split_and!.
  - cbn [Ring.storeAll]. rewrite zlen_cons in *. pose proof (zlen_nonneg data).
    destruct (store_spec r q H i b) as (r1 & E1 & H1 & Er); [done|lia|].
    rewrite E1, obind_Ret. set (off := Ring.slotOffset r (Ring.tail r)) in *.
    assert (Hoff : Ring.slotOffset r1 (Ring.tail r1) = off) by (by rewrite Er).
    destruct (IH r1 q (i + 1)) as (r' & E2 & H2 & Ht & Hh & Hc & Hs & Hv);
      [done|by rewrite Er|lia|rewrite Er; cbn; lia|].
    rewrite Hoff in E2, Hv. rewrite Z.add_assoc in E2. exists r'.
    split_and!; try done; try (rewrite Er in Ht, Hh, Hc, Hs; done).
    replace (i + (1 + zlen data)) with (i + 1 + zlen data) by lia. rewrite Hv, Er.
    change (b :: data) with ([b] ++ data). rewrite app_assoc. f_equal.
    unfold Ring.viewed. cbn [Ring.storage Ring.setStorage].
    destruct H as (Hc0&Hs0&Hst&_).
    pose proof (slotOffset_range r (Ring.tail r) ltac:(lia) Hs0) as Ho. fold off in Ho.
    rewrite slice_app by lia. rewrite slice_insert_ne by lia. f_equal.
    unfold slice, ztake, zdrop. rewrite (drop_S _ b); [done|].
    apply list_lookup_insert_eq. unfold zlen in Hst. lia.
Qed.

(** ** The ring as a queue

    What a client of the ring relies on, as an interface: a FIFO of chunks.
    The parser thread is verified against this interface. *)
Class ChunkQueue (Q : Type) := {
  queued : Q -> list bytes -> Prop;
  chunkCapacity : Q -> Z;
  qpush : Q -> bytes -> outcome (option Q);
  qpeek : Q -> outcome (option bytes);
  qpop : Q -> Q;
  qempty : Q -> bool;
  qfull : Q -> bool;
  qslots : Q -> nat;           (* how many chunks fit *)
  qroom : Q -> Z -> Prop;      (* the counters do not wrap within that many pushes *)
  qpeek_queued r q : queued r q -> qpeek r = Ret (head q);
  qpop_queued r d q : queued r (d :: q) -> queued (qpop r) q;
  qempty_queued r q : queued r q -> qempty r = bool_decide (q = []);
  qcapacity_pos r q : queued r q -> 0 < chunkCapacity r;
  qpop_capacity r : chunkCapacity (qpop r) = chunkCapacity r;
  qpop_room r n : qroom r n -> qroom (qpop r) n;
  qroom_le r n m : qroom r n -> m <= n -> qroom r m;
  qfull_empty r : queued r [] -> qfull r = false;
  qslots_queued r q : queued r q -> (length q <= qslots r)%nat;
  qpop_full r d q : queued r (d :: q) -> qfull (qpop r) = false;
  qpush_queued r q d :
    queued r q -> qroom r 1 -> zlen d <= chunkCapacity r ->
    if qfull r then qpush r d = Ret None
    else exists r', qpush r d = Ret (Some r') /\ queued r' (q ++ [d]) /\
           chunkCapacity r' = chunkCapacity r /\ forall n, qroom r (n + 1) -> qroom r' n }.

(** [tryAcquire], fill the lent slot, [commit]: how the event loop enqueues. *)
Definition ringPush (r : Ring.t) (d : bytes) : outcome (option Ring.t) :=
  match Ring.tryAcquire r with
  | None => Ret None
  | Some (off, capacity) =>
      let* r := Ring.storeAll r off d in
      let* r := Ring.commit r (zlen d) in
      Ret (Some r)
  end.

(** [tryPeek] and the bytes of the view: how the parser dequeues. *)
Definition ringPeek (r : Ring.t) : outcome (option bytes) :=
  let* v := Ring.tryPeek r in
  match v with
  | None => Ret None
  | Some (off, size) => Ret (Some (Ring.viewed r off size))
  end.

Lemma ringPeek_spec r q : ringRep r q -> ringPeek r = Ret (head q).
Proof.
  intros H. unfold ringPeek. pose proof (tryPeek_spec r q H) as P.
  destruct q as [|d q]; [by rewrite P|]. destruct P as [-> V]. rewrite obind_Ret.
  by rewrite V.
Qed.

Lemma ringPush_spec r q d :
  ringRep r q -> Ring.tail r + 1 < 2 ^ 64 -> zlen d <= Ring.slotSize r ->
  if zlen q =? Ring.slotCount r then ringPush r d = Ret None
  else exists r', ringPush r d = Ret (Some r') /\ ringRep r' (q ++ [d]) /\
       Ring.tail r' = Ring.tail r + 1 /\
       Ring.slotCount r' = Ring.slotCount r /\ Ring.slotSize r' = Ring.slotSize r.
Proof.
  intros H Hov Hd. unfold ringPush. rewrite (tryAcquire_spec r q H).
  destruct (Z.eqb_spec (zlen q) (Ring.slotCount r)) as [|Hne]; [done|].
  pose proof H as (Hc&Hs&Hst&Hsz&Hh&Ht&Hlt&Hle&Hqs). rewrite <- Ht.
  destruct (storeAll_spec d r q 0) as (r1 & E1 & H1 & Ht1 & Hh1 & Hc1 & Hs1 & Hv); try done; try lia.
  rewrite Z.add_0_r in E1. rewrite E1, obind_Ret.
  destruct (commit_spec r1 q (zlen d)) as (r2 & E2 & H2); try done;
    [lia|rewrite Hs1; zlen_lia|lia|].
  rewrite E2, obind_Ret. exists r2.
  assert (Hoff : Ring.slotOffset r1 (Ring.tail r1) = Ring.slotOffset r (Ring.tail r))
    by (unfold Ring.slotOffset; by rewrite Hc1, Hs1, Ht1).
  rewrite Hoff in H2. rewrite Z.add_0_l in Hv. rewrite Hv in H2.
  split; [done|]. split; [done|]. clear H2 Hv. unfold Ring.commit in E2.
  destruct (vset _ _ _); try done. injection E2 as <-. cbn.
  rewrite Ht1, (uwrap_small 64) by (unfold is_uint; zlen_lia). done.
Qed.

#[export, refine] Instance ring_queue : ChunkQueue Ring.t := {
  queued := ringRep;
  chunkCapacity := Ring.slotSize;
  qpush := ringPush;
  qpeek := ringPeek;
  qpop := Ring.release;
  qempty := Ring.empty;
  qfull := Ring.full;
  qslots r := Z.to_nat (Ring.slotCount r);
  qroom r n := Ring.tail r + n < 2 ^ 64 }.
Proof.
  - apply ringPeek_spec.
  - intros r d q H. by apply (release_spec r (d :: q) H d).
  - intros r q H. pose proof (empty_spec r q H) as E. destruct (Ring.empty r).
    + symmetry. apply bool_decide_eq_true. tauto.
    + symmetry. apply bool_decide_eq_false. intros Hq. apply E in Hq. done.
  - by intros r q (_ & Hs & _).
  - done.
  - done.
  - intros r n m. lia.
  - intros r H. rewrite (full_eq r [] H). destruct H as (Hc & _). apply Z.eqb_neq. rewrite zlen_nil. lia.
  - intros r q (_ & _ & _ & _ & _ & _ & _ & Hle & _). unfold zlen in Hle. lia.
  - intros r d q H. pose proof (release_spec r (d :: q) H d q eq_refl) as H'. rewrite (full_eq _ q H').
    destruct H as (_ & _ & _ & _ & _ & _ & _ & Hle & _). rewrite zlen_cons in Hle. apply Z.eqb_neq. cbn. lia.
  - intros r q d H Hr Hd. pose proof (ringPush_spec r q d H Hr Hd) as P. rewrite (full_eq r q H).
    destruct (_ =? _); [done|]. destruct P as (r' & E & Hr' & Ht & Hc & Hs). exists r'.
    split_and!; try done. intros n. rewrite Ht. lia.
Defined.

Lemma ringRep_make n s : 0 < n < 2 ^ 64 -> 0 < s -> ringRep (Ring.make n s) [].
Proof.
  intros Hn Hs. unfold ringRep. cbn -[Z.mul]. unfold zlen. rewrite !repeat_length. cbn.
  split_and!; try done; try lia.
Qed.

(** ** Two threads *)
Module Concurrent.
(** Where the producer is: before [tryAcquire], between its two loads, holding
    a slot, and inside [commit] between the two stores. *)
Inductive producer :=
| PIdle
| PTail (tail : Z)
| PHold (off : Z)
| PSized (tail size : Z).

(** Where the consumer is: before [tryPeek], between its two loads, and reading
    a view ([got] is what it has read so far). *)
Inductive consumer :=
| CIdle
| CHead (head : Z)
| CView (off size : Z) (got : bytes).

(** The shared ring, both program counters, and the history: every published
    chunk, and for every released slot what the consumer read from it ([None]
    for a slot released unread). *)
Record state := mk {
  ring : Ring.t;
  prod : producer;
  cons : consumer;
  committed : list bytes;
  consumed : list (option bytes) }.

Definition init (slotCount slotSize : Z) : state :=
  mk (Ring.make slotCount slotSize) PIdle CIdle [] [].

Inductive step : state -> state -> Prop :=
(* tryAcquire *)
| p_load_tail r c com con :
    step (mk r PIdle c com con) (mk r (PTail (Ring.tail r)) c com con)
| p_full r t c com con :
    u64 (t - Ring.head r) = Ring.slotCount r ->
    step (mk r (PTail t) c com con) (mk r PIdle c com con)
| p_acquire r t c com con :
    u64 (t - Ring.head r) <> Ring.slotCount r ->
    step (mk r (PTail t) c com con) (mk r (PHold (Ring.slotOffset r t)) c com con)
(* a byte written through WriteSlot::data *)
| p_write r r' off i b c com con :
    0 <= i < Ring.slotSize r ->
    Ring.store r (off + i) b = Ret r' ->
    step (mk r (PHold off) c com con) (mk r' (PHold off) c com con)
(* commit *)
| p_size r sizes off size c com con :
    0 <= size <= Ring.slotSize r ->
    vset (Ring.sizes r) (Ring.tail r mod Ring.slotCount r) size = Ret sizes ->
    step (mk r (PHold off) c com con)
         (mk (Ring.setSizes r sizes) (PSized (Ring.tail r) size) c com con)
| p_publish r t size c com con :
    step (mk r (PSized t size) c com con)
         (mk (Ring.setTail r (u64 (t + 1))) PIdle c
             (com ++ [Ring.viewed r (Ring.slotOffset r t) size]) con)
(* tryPeek *)
| c_load_head r p com con :
    step (mk r p CIdle com con) (mk r p (CHead (Ring.head r)) com con)
| c_empty r h p com con :
    Ring.tail r = h ->
    step (mk r p (CHead h) com con) (mk r p CIdle com con)
| c_peek r h size p com con :
    Ring.tail r <> h ->
    vat (Ring.sizes r) (h mod Ring.slotCount r) = Ret size ->
    step (mk r p (CHead h) com con) (mk r p (CView (Ring.slotOffset r h) size []) com con)
(* a byte read through ReadView::data *)
| c_read r off size got b p com con :
    zlen got < size ->
    vget (Ring.storage r) (off + zlen got) = Ret b ->
    step (mk r p (CView off size got) com con) (mk r p (CView off size (got ++ [b])) com con)
(* release, the view read to its end or dropped unread *)
| c_release r off size got p com con :
    zlen got = size ->
    step (mk r p (CView off size got) com con)
         (mk (Ring.release r) p CIdle com (con ++ [Some got]))
| c_discard r off size got p com con :
    step (mk r p (CView off size got) com con)
         (mk (Ring.release r) p CIdle com (con ++ [None])).

Inductive reachable (n s : Z) : state -> Prop :=
| reach_init : reachable n s (init n s)
| reach_step a b : reachable n s a -> step a b -> reachable n s b.

(** *** Invariant *)
Definition pInv (r : Ring.t) (q : list bytes) (p : producer) : Prop :=
  match p with
  | PIdle => True
  | PTail t => t = Ring.tail r
  | PHold off => off = Ring.slotOffset r (Ring.tail r) /\ zlen q < Ring.slotCount r
  | PSized t size =>
      t = Ring.tail r /\ zlen q < Ring.slotCount r /\ 0 <= size <= Ring.slotSize r /\
      Ring.sizes r !! Z.to_nat (Ring.tail r mod Ring.slotCount r) = Some size
  end.

Definition cInv (r : Ring.t) (q : list bytes) (c : consumer) : Prop :=
  match c with
  | CIdle => True
  | CHead h => h = Ring.head r
  | CView off size got =>
      off = Ring.slotOffset r (Ring.head r) /\
      exists d q', q = d :: q' /\ size = zlen d /\ got = ztake (zlen got) d
  end.

Definition readBack (o : option bytes) (d : bytes) : Prop := o = None \/ o = Some d.

Definition pending (s : state) : list bytes := drop (length (consumed s)) (committed s).

Definition Inv (s : state) : Prop :=
  ringRep (ring s) (pending s) /\
  Ring.head (ring s) = zlen (consumed s) /\
  (length (consumed s) <= length (committed s))%nat /\
  Forall2 readBack (consumed s) (take (length (consumed s)) (committed s)) /\
  pInv (ring s) (pending s) (prod s) /\
  cInv (ring s) (pending s) (cons s).

Lemma tail_committed s : Inv s -> Ring.tail (ring s) = zlen (committed s).
Proof.
  intros (H & Hh & Hl & _). destruct H as (_&_&_&_&_&Ht&_). rewrite Ht, Hh.
  unfold pending. rewrite zlen_drop. unfold zlen in *. lia.
Qed.

Lemma Inv_init n s : 0 < n < 2 ^ 64 -> 0 < s -> Inv (init n s).
Proof.
  intros. unfold Inv, pending. cbn -[Ring.make]. split_and!; try done. by apply ringRep_make.
Qed.

(** Consumer steps leave the producer's knowledge true, and conversely. *)
Lemma pInv_release r d q p :
  ringRep r (d :: q) -> pInv r (d :: q) p -> pInv (Ring.release r) q p.
Proof.
  intros _. destruct p; cbn; rewrite ?zlen_cons; intros; try done; naive_solver lia.
Qed.

Lemma cInv_publish r q c t d :
  cInv r q c -> cInv (Ring.setTail r t) (q ++ [d]) c.
Proof.
  destruct c; cbn; try done. intros [-> (d' & q' & -> & -> & Hg)]. split; [done|].
  by exists d', (q' ++ [d]).
Qed.

(** The byte the consumer reads next is the next byte of the oldest chunk. *)
Lemma view_byte r d q k b :
  ringRep r (d :: q) -> 0 <= k < zlen d ->
  vget (Ring.storage r) (Ring.slotOffset r (Ring.head r) + k) = Ret b ->
  d !! Z.to_nat k = Some b.
Proof.
  intros (Hc&Hs&Hst&Hsz&Hh&Ht&Hlt&Hle&Hq) Hk [_ E]%vget_Ret_inv.
  destruct (Hq 0%nat d eq_refl) as (_ & _ & V). rewrite Z.add_0_r in V. rewrite <- V.
  unfold Ring.viewed, slice, ztake, zdrop. rewrite lookup_take_lt, lookup_drop by lia.
  pose proof (slotOffset_range r (Ring.head r) ltac:(lia) Hs).
  rewrite <- E. f_equal. lia.
Qed.

Lemma ztake_snoc {A} (d : list A) (got : list A) b :
  got = ztake (zlen got) d -> d !! Z.to_nat (zlen got) = Some b ->
  got ++ [b] = ztake (zlen (got ++ [b])) d.
Proof.
  intros Hg Hb. rewrite zlen_app, zlen_cons, (@zlen_nil A). unfold ztake, zlen in *.
  replace (Z.to_nat (Z.of_nat (length got) + (1 + 0))) with (S (length got)) by lia.
  rewrite Nat2Z.id in *. erewrite take_S_r by done. by rewrite <- Hg.
Qed.

Lemma release_Inv r p off size got com con o :
  Inv (mk r p (CView off size got) com con) ->
  (forall d, com !! length con = Some d -> readBack o d) ->
  Inv (mk (Ring.release r) p CIdle com (con ++ [o])).
Proof.
  unfold Inv, pending. cbn -[Ring.release]. intros (H & Hh & Hl & HF & Hp & Hoff & d & q' & Eq & Hs & Hg) Ho.
  assert (Hd : com !! length con = Some d).
  { rewrite <- (Nat.add_0_r (length con)), <- lookup_drop, Eq. done. }
  assert (Hlt : (length con < length com)%nat) by (by apply lookup_lt_Some in Hd).
  assert (Hq' : drop (length (con ++ [o])) com = q').
  { rewrite length_app. cbn. rewrite Nat.add_comm. cbn. erewrite drop_S in Eq by done.
    by injection Eq. }
  rewrite Hq'. rewrite Eq in H, Hp. split_and!.
  - by apply (release_spec r (d :: q') H d).
  - pose proof H as (_&_&_&_&?&Ht&Hlt2&_). cbn. rewrite zlen_app, zlen_cons, (@zlen_nil (option bytes)).
    rewrite zlen_cons in Ht. pose proof (zlen_nonneg q').
    rewrite (uwrap_small 64) by (unfold is_uint; lia). lia.
  - rewrite length_app. cbn. lia.
  - rewrite length_app. cbn. rewrite Nat.add_1_r. erewrite take_S_r by done.
    apply Forall2_app; [done|]. constructor; [by apply Ho|constructor].
  - by eapply pInv_release.
  - done.
Qed.

Lemma step_Inv a b :
  Inv a -> step a b -> zlen (committed b) < 2 ^ 64 -> Inv b.
Proof.
  intros Ha Hst Hlen. destruct Hst; cbn [committed] in Hlen.
  - (* p_load_tail *) by destruct Ha as (?&?&?&?&?&?).
  - (* p_full *) by destruct Ha as (?&?&?&?&?&?).
  - (* p_acquire *)
    destruct Ha as (H0&?&?&?&Hp&?). cbn in Hp. subst t. split_and!; try done. split; [done|].
    cbn in H0 |- *. rewrite (rep_pending _ _ H0) in H. destruct H0 as (_&_&_&_&_&_&_&?&_). lia.
  - (* p_write *)
    destruct Ha as (H1&?&?&?&[Hp Hq]&Hc). cbn in *. subst off.
    destruct (store_spec r _ H1 i b) as (r1 & E & Hr & Er); [done|done|].
    rewrite E in H0. injection H0 as <-. split_and!; try done; by rewrite Er.
  - (* p_size *)
    destruct Ha as (H1&?&?&?&[Hp Hq]&Hc). cbn in *. subst off. pose proof H1 as (?&?&?&Hsz&_).
    pose proof (mod_index r (Ring.tail r) ltac:(lia)).
    rewrite vset_Ret in H0 by lia. injection H0 as <-.
    split_and!; try done; [by apply setSize_spec|]. cbn. split_and!; try done; try lia.
    apply list_lookup_insert_eq. unfold zlen in Hsz. lia.
  - (* p_publish *)
    pose proof (tail_committed _ Ha) as Ht. cbn in Ht.
    destruct Ha as (H1&Hh&Hl&HF&(Hp&Hq&Hsz&Hsi)&Hc). cbn in *. subst t.
    unfold Inv, pending in *. cbn in *. rewrite zlen_app, zlen_cons, (@zlen_nil bytes) in Hlen.
    rewrite drop_app_le, take_app_le by done.
    split_and!; try done; [|rewrite length_app; lia|by apply cInv_publish].
    apply setTail_spec; try done. lia.
  - (* c_load_head *) by destruct Ha as (?&?&?&?&?&?).
  - (* c_empty *) by destruct Ha as (?&?&?&?&?&?).
  - (* c_peek *)
    destruct Ha as (H1&?&?&?&?&Hc). cbn in Hc. subst h. split_and!; try done. cbn.
    split; [done|]. cbn in *. unfold pending in *. cbn in *. destruct (drop (length con) com) as [|d q'] eqn:Eq.
    + destruct H1 as (_&_&_&_&_&Ht&_). rewrite (@zlen_nil bytes) in Ht. lia.
    + exists d, q'. split_and!; try done. destruct H1 as (?&_&_&_&_&_&_&_&Hqs).
      destruct (Hqs 0%nat d eq_refl) as (_ & E & _). rewrite Z.add_0_r in E.
      rewrite (vat_Some _ _ (zlen d)) in H0; [by injection H0|apply mod_index; lia|done].
  - (* c_read *)
    destruct Ha as (H1&?&?&?&?&Hc). cbn in Hc. destruct Hc as [-> (d & q' & Eq & -> & Hg)].
    split_and!; try done. cbn. split; [done|]. exists d, q'. split_and!; try done.
    apply ztake_snoc; [done|]. cbn in H1. rewrite Eq in H1.
    eapply view_byte; [done| |done]. zlen_lia.
  - (* c_release *)
    eapply release_Inv; [done|]. intros d Hd. right.
    destruct Ha as (_&_&_&_&_&_&d'&q'&Eq&Hs&Hg). unfold pending in Eq. cbn in Eq.
    rewrite <- (Nat.add_0_r (length con)), <- lookup_drop, Eq in Hd. injection Hd as ->.
    rewrite Hg, H, Hs, ztake_all by lia. done.
  - (* c_discard *) eapply release_Inv; [done|]. by left.
Qed.

Lemma committed_mono a b : step a b -> zlen (committed a) <= zlen (committed b).
Proof. destruct 1; cbn; zlen_lia. Qed.

Lemma reachable_Inv n s st :
  0 < n < 2 ^ 64 -> 0 < s -> reachable n s st -> zlen (committed st) < 2 ^ 64 -> Inv st.
Proof.
  intros Hn Hs. induction 1 as [|a b Ha IH Hst]; intros Hlen; [by apply Inv_init|].
  eapply step_Inv; [|done|done]. apply IH. pose proof (committed_mono _ _ Hst). lia.
Qed.
End Concurrent.

(** ** Properties *)

(** Every operation of the ring implements its FIFO specification.  For a
    ring that holds the chunks [q]: [full] and [tryAcquire] report exactly
    whether [q] has reached the slot count; the enqueue sequence (acquire, fill,
    commit) appends its chunk; [tryPeek] shows the oldest chunk, unaltered;
    [release] removes it; [empty] tells whether there is none. *)
Lemma ring_refines_fifo r q d :
  ringRep r q -> Ring.tail r + 1 < 2 ^ 64 -> zlen d <= Ring.slotSize r ->
  (Ring.full r = true <-> zlen q = Ring.slotCount r) /\
  (Ring.tryAcquire r = None <-> zlen q = Ring.slotCount r) /\
  (zlen q < Ring.slotCount r -> exists r', ringPush r d = Ret (Some r') /\ ringRep r' (q ++ [d])) /\
  ringPeek r = Ret (head q) /\
  (q <> [] -> ringRep (Ring.release r) (drop 1 q)) /\
  (Ring.empty r = true <-> q = []).
Proof.
  intros H Hov Hd. split_and!.
  - by apply full_spec.
  - rewrite (tryAcquire_spec r q H). destruct (Z.eqb_spec (zlen q) (Ring.slotCount r)); naive_solver.
  - intros Hlt. pose proof (ringPush_spec r q d H Hov Hd) as P.
    destruct (Z.eqb_spec (zlen q) (Ring.slotCount r)); [lia|]. destruct P as (r' & E & Hr & _). eauto.
  - by apply ringPeek_spec.
  - destruct q as [|d0 q]; [done|]. intros _. by apply (release_spec r (d0 :: q) H d0).
  - by apply empty_spec.
Qed.




(** An interleaving that publishes one byte in slot 0, then has the producer
    hold slot 1 while the consumer has read that byte. *)
Definition demoRing (b0 : byte) (size0 tail : Z) : Ring.t :=
  Ring.mk 2 4 (b0 :: repeat Byte.x00 7) [size0; 0] 0 tail.

Definition demoState : Concurrent.state :=
  Concurrent.mk (demoRing "a"%byte 1 1) (Concurrent.PHold 4) (Concurrent.CView 0 1 (bs "a")) [bs "a"] [].

Lemma demo_reachable : Concurrent.reachable 2 4 demoState.
Proof.
  eapply (Concurrent.reach_step _ _ (Concurrent.mk (demoRing "a"%byte 1 1) (Concurrent.PHold 4)
            (Concurrent.CView 0 1 []) [bs "a"] []));
    [|by apply (Concurrent.c_read _ 0 1 [] "a"%byte)].
  eapply (Concurrent.reach_step _ _ (Concurrent.mk (demoRing "a"%byte 1 1) (Concurrent.PTail 1)
            (Concurrent.CView 0 1 []) [bs "a"] [])); [|by apply Concurrent.p_acquire].
  eapply (Concurrent.reach_step _ _ (Concurrent.mk (demoRing "a"%byte 1 1) Concurrent.PIdle
            (Concurrent.CView 0 1 []) [bs "a"] [])); [|by apply Concurrent.p_load_tail].
  eapply (Concurrent.reach_step _ _ (Concurrent.mk (demoRing "a"%byte 1 1) Concurrent.PIdle
            (Concurrent.CHead 0) [bs "a"] [])); [|by apply Concurrent.c_peek].
  eapply (Concurrent.reach_step _ _ (Concurrent.mk (demoRing "a"%byte 1 0) (Concurrent.PSized 0 1)
            (Concurrent.CHead 0) [] [])); [|by apply Concurrent.p_publish].
  eapply (Concurrent.reach_step _ _ (Concurrent.mk (demoRing "a"%byte 1 0) (Concurrent.PSized 0 1)
            Concurrent.CIdle [] [])); [|by apply Concurrent.c_load_head].
  eapply (Concurrent.reach_step _ _ (Concurrent.mk (demoRing "a"%byte 0 0) (Concurrent.PHold 0)
            Concurrent.CIdle [] [])); [|by apply (Concurrent.p_size (demoRing "a"%byte 0 0) [1; 0] 0 1)].
  eapply (Concurrent.reach_step _ _ (Concurrent.mk (demoRing Byte.x00 0 0) (Concurrent.PHold 0)
            Concurrent.CIdle [] [])); [|by apply (Concurrent.p_write (demoRing Byte.x00 0 0) _ 0 0 "a"%byte)].
  eapply (Concurrent.reach_step _ _ (Concurrent.mk (demoRing Byte.x00 0 0) (Concurrent.PTail 0)
            Concurrent.CIdle [] [])); [|by apply Concurrent.p_acquire].
  eapply (Concurrent.reach_step _ _ (Concurrent.init 2 4));
    [apply Concurrent.reach_init|by apply Concurrent.p_load_tail].
Qed.



(** The slot count derived from the slot size keeps the ring within its
    memory budget: between 4 and 64 slots, at most 4 MiB in all for every slot
    size up to 1 MiB, and never more than the 4-slot minimum beyond that. *)
Lemma ringSlotCountFor_budget slotSize :
  0 < slotSize ->
  kMinSlotCount <= ringSlotCountFor slotSize <= kDefaultSlotCount /\
  (slotSize <= 1024 * 1024 -> ringSlotCountFor slotSize * slotSize <= kRingBudgetBytes) /\
  (1024 * 1024 < slotSize -> ringSlotCountFor slotSize = kMinSlotCount).
Proof.
  intros Hs. unfold ringSlotCountFor, kMinSlotCount, kDefaultSlotCount, kRingBudgetBytes.
  destruct (Z.eqb_spec slotSize 0); [lia|].
  pose proof (Z.mul_div_le (4 * 1024 * 1024) slotSize Hs) as Hm.
  set (w := _ / _) in *. assert (slotSize <= 1024 * 1024 -> 4 <= w).
  { intros. apply Z.div_le_lower_bound; lia. }
  assert (1024 * 1024 < slotSize -> w < 4) by (intros; apply Z.div_lt_upper_bound; lia).
  clearbody w. destruct (Z.ltb_spec w 4); [split_and!; try lia; intros; lia|].
  destruct (Z.ltb_spec w 64); split_and!; try lia; intros; nia.
Qed.
