(* ===== verification/Reassembler.v ===== *)
(** * Line reassembly (server/src/parser/LineReassembler.h)

    [Reassembler] is the class: [feed] turns a chunk into the lines it
    completes (the callback's arguments, in order) and keeps the unfinished
    tail.  [refByte] is the one-byte-at-a-time reference; [specLines] is what
    the stream as a whole means: split at every newline, with the length
    limit and the carriage-return rule applied to each line. *)

From stdpp Require Import sets.
From S2P Require Import Prelude StringView.

Definition kMaxLineLength : Z := 64 * 1024.

Module Reassembler.
Record Line := mkLine { text : bytes; offset : Z; tooLong : bool }.

Record t := mk {
  fragment : bytes;
  streamOffset : Z;
  lineStart : Z;
  discarding : bool;
  maxLen : Z }.

Definition make (maxLineLength : Z) : t := mk [] 0 0 false maxLineLength.

Definition emitLine (text : bytes) (offset : Z) (tooLong : bool) : Line :=
  if negb tooLong && bool_decide (list.last text = Some CR)
  then mkLine (ztake (zlen text - 1) text) offset tooLong
  else mkLine text offset tooLong.

Definition setFragment (s : t) (fragment : bytes) : t :=
  mk fragment (streamOffset s) (lineStart s) (discarding s) (maxLen s).
Definition setDiscarding (s : t) (d : bool) : t :=
  mk (fragment s) (streamOffset s) (lineStart s) d (maxLen s).
Definition setLineStart (s : t) (o : Z) : t :=
  mk (fragment s) (streamOffset s) o (discarding s) (maxLen s).
Definition setStreamOffset (s : t) (o : Z) : t :=
  mk (fragment s) o (lineStart s) (discarding s) (maxLen s).

Definition appendTail (s : t) (tail : bytes) : outcome (t * list Line) :=
  if maxLen s <? zlen (fragment s) + zlen tail then
    let keep := u64 (maxLen s - zlen (fragment s)) in
    let* frag := appendN (fragment s) tail keep in
    Ret (setDiscarding (setFragment s []) true, [emitLine frag (lineStart s) true])
  else Ret (setFragment s (fragment s ++ tail), []).

(** A complete line: the part of it in this chunk is [piece]. *)
Definition completeLine (s : t) (piece : bytes) : outcome (t * list Line) :=
  if bool_decide (fragment s = []) then
    if maxLen s <? zlen piece then
      let* head := substr piece 0 (maxLen s) in
      Ret (s, [emitLine head (lineStart s) true])
    else Ret (s, [emitLine piece (lineStart s) false])
  else if maxLen s <? zlen (fragment s) + zlen piece then
    let keep := u64 (maxLen s - zlen (fragment s)) in
    let* frag := appendN (fragment s) piece keep in
    Ret (setFragment s [], [emitLine frag (lineStart s) true])
  else
    Ret (setFragment s [], [emitLine (fragment s ++ piece) (lineStart s) false]).

(** The [while (pos < chunk.size())] loop. *)
Fixpoint loop (fuel : nat) (s : t) (chunk : bytes) (base pos : Z) (out : list Line)
    : outcome (t * list Line) :=
  match fuel with
  | O => NoFuel
  | S fuel =>
      if zlen chunk <=? pos then Ret (s, out) else
      let nl := vfind chunk LF pos in
      if discarding s then
        match nl with
        | None => Ret (s, out)
        | Some nl =>
            let pos := nl + 1 in
            loop fuel (setLineStart (setDiscarding s false) (u64 (base + pos))) chunk base pos out
        end
      else
        match nl with
        | None =>
            let* tail := substr chunk pos (zlen chunk) in
            let* (s, lines) := appendTail s tail in
            Ret (s, out ++ lines)
        | Some nl =>
            let* piece := substr chunk pos (nl - pos) in
            let* (s, lines) := completeLine s piece in
            let pos := nl + 1 in
            loop fuel (setLineStart s (u64 (base + pos))) chunk base pos (out ++ lines)
        end
  end.

(** Every iteration moves [pos] forward, so one more than the chunk's bytes is
    enough ([feed_ref]). *)
Definition feed (s : t) (chunk : bytes) : outcome (t * list Line) :=
  let base := streamOffset s in
  let* (s, lines) := loop (S (length chunk)) s chunk base 0 [] in
  Ret (setStreamOffset s (u64 (base + zlen chunk)), lines).

Definition finish (s : t) : t * list Line :=
  (setDiscarding (setFragment s []) false,
   if negb (discarding s) && negb (bool_decide (fragment s = []))
   then [emitLine (fragment s) (lineStart s) false] else []).

Definition reset (s : t) : t := mk [] 0 0 false (maxLen s).
End Reassembler.

(** ** Reference and specification *)

Definition refByte (s : Reassembler.t) (b : byte) : Reassembler.t * list Reassembler.Line :=
  let off := u64 (Reassembler.streamOffset s + 1) in
  let frag := Reassembler.fragment s in
  if bool_decide (b = LF) then
    (Reassembler.mk [] off off false (Reassembler.maxLen s),
     if Reassembler.discarding s then []
     else [Reassembler.emitLine frag (Reassembler.lineStart s) false])
  else if Reassembler.discarding s then (Reassembler.setStreamOffset s off, [])
  else if Reassembler.maxLen s <? zlen frag + 1 then
    (Reassembler.mk [] off (Reassembler.lineStart s) true (Reassembler.maxLen s),
     [Reassembler.emitLine frag (Reassembler.lineStart s) true])
  else (Reassembler.mk (frag ++ [b]) off (Reassembler.lineStart s) false (Reassembler.maxLen s), []).

Fixpoint refFeed (s : Reassembler.t) (data : bytes) : Reassembler.t * list Reassembler.Line :=
  match data with
  | [] => (s, [])
  | b :: data =>
      let '(s, l1) := refByte s b in
      let '(s, l2) := refFeed s data in
      (s, l1 ++ l2)
  end.

(** What a line of the stream is reported as. *)
Definition specLine (maxLen start : Z) (line : bytes) : Reassembler.Line :=
  if maxLen <? zlen line then Reassembler.mkLine (ztake maxLen line) (u64 start) true
  else Reassembler.emitLine line (u64 start) false.

(** The lines of [cur ++ data], [cur] being the unfinished line that started at
    [start]; a last line without newline counts when it is not empty. *)
Fixpoint specLines (maxLen start : Z) (cur data : bytes) : list Reassembler.Line :=
  match data with
  | [] => if bool_decide (cur = []) then [] else [specLine maxLen start cur]
  | b :: data =>
      if bool_decide (b = LF)
      then specLine maxLen start cur :: specLines maxLen (start + zlen cur + 1) [] data
      else specLines maxLen start (cur ++ [b]) data
  end.

(** Feeding a list of chunks, then [finish]. *)
Fixpoint feedAll (s : Reassembler.t) (chunks : list bytes)
    : outcome (Reassembler.t * list Reassembler.Line) :=
  match chunks with
  | [] => Ret (s, [])
  | c :: chunks =>
      let* (s, l1) := Reassembler.feed s c in
      let* (s, l2) := feedAll s chunks in
      Ret (s, l1 ++ l2)
  end.

Definition reassemble (s : Reassembler.t) (chunks : list bytes)
    : outcome (Reassembler.t * list Reassembler.Line) :=
  let* (s, l1) := feedAll s chunks in
  let '(s, l2) := Reassembler.finish s in
  Ret (s, l1 ++ l2).

Definition reasmWf (s : Reassembler.t) : Prop :=
  is_uint 64 (Reassembler.maxLen s) /\
  is_uint 64 (Reassembler.streamOffset s) /\
  zlen (Reassembler.fragment s) <= Reassembler.maxLen s /\
  (Reassembler.discarding s = true -> Reassembler.fragment s = []).

(** ** The chunked loop computes the reference *)

Lemma u64_add_l a b : u64 (u64 a + b) = u64 (a + b).
Proof. apply Zplus_mod_idemp_l. Qed.

Lemma refFeed_app a : forall s b,
  refFeed s (a ++ b) =
  let '(s1, l1) := refFeed s a in
  let '(s2, l2) := refFeed s1 b in (s2, l1 ++ l2).
Proof.
  induction a as [|x a IH]; intros s b; cbn [refFeed app].
  - by destruct (refFeed s b).
  - destruct (refByte s x) as [s1 l1]. rewrite IH. destruct (refFeed s1 a) as [s2 l2].
    destruct (refFeed s2 b) as [s3 l3]. by rewrite app_assoc.
Qed.

Lemma refByte_wf s b : reasmWf s -> reasmWf (refByte s b).1.
Proof.
  intros (Hm & Ho & Hf & Hd). unfold refByte.
  assert (Hu : is_uint 64 (u64 (Reassembler.streamOffset s + 1))) by (by apply uwrap_range).
  unfold is_uint in Hm. case_bool_decide; [|destruct (Reassembler.discarding s) eqn:E;
    [|destruct (Z.ltb_spec (Reassembler.maxLen s) (zlen (Reassembler.fragment s) + 1))]];
    unfold reasmWf; cbn; split_and!; try done; try zlen_lia.
  by rewrite E.
Qed.

Lemma refFeed_wf data : forall s, reasmWf s -> reasmWf (refFeed s data).1.
Proof.
  induction data as [|b data IH]; intros s H; [done|]. cbn [refFeed].
  pose proof (refByte_wf s b H) as H1. destruct (refByte s b) as [s1 l1].
  specialize (IH s1 H1). by destruct (refFeed s1 data) as [s2 l2].
Qed.

(** A run of bytes without newline. *)
Lemma refFeed_discard seg : forall s,
  Reassembler.discarding s = true -> is_uint 64 (Reassembler.streamOffset s) -> ~ LF ∈ seg ->
  refFeed s seg =
  (Reassembler.setStreamOffset s (u64 (Reassembler.streamOffset s + zlen seg)), []).
Proof.
  induction seg as [|b seg IH]; intros s Hd Ho Hn; cbn [refFeed].
  - rewrite (@zlen_nil byte), Z.add_0_r, uwrap_small by done. by destruct s.
  - unfold refByte. rewrite bool_decide_eq_false_2 by set_solver. rewrite Hd.
    rewrite IH; [|done|by apply uwrap_range|set_solver]. cbn. rewrite u64_add_l, zlen_cons.
    do 3 f_equal. lia.
Qed.

Lemma refFeed_seg seg : forall s,
  Reassembler.discarding s = false -> reasmWf s -> ~ LF ∈ seg ->
  let off := u64 (Reassembler.streamOffset s + zlen seg) in
  let frag := Reassembler.fragment s in
  refFeed s seg =
  if Reassembler.maxLen s <? zlen frag + zlen seg then
    (Reassembler.mk [] off (Reassembler.lineStart s) true (Reassembler.maxLen s),
     [Reassembler.emitLine (frag ++ ztake (Reassembler.maxLen s - zlen frag) seg)
        (Reassembler.lineStart s) true])
  else (Reassembler.mk (frag ++ seg) off (Reassembler.lineStart s) false (Reassembler.maxLen s), []).
Proof.
  induction seg as [|b seg IH]; intros s Hd Hwf Hn off frag; pose proof Hwf as (Hm & Ho & Hf & _);
    cbn [refFeed].
  - subst off. rewrite (@zlen_nil byte), !Z.add_0_r, uwrap_small, app_nil_r by done.
    destruct (Z.ltb_spec (Reassembler.maxLen s) (zlen frag)); [subst frag; lia|].
    subst frag. destruct s; cbn in *; by subst.
  - pose proof (refByte_wf s b Hwf) as Hwf1. revert Hwf1. unfold refByte.
    rewrite bool_decide_eq_false_2 by set_solver. rewrite Hd. fold frag.
    rewrite zlen_cons. pose proof (zlen_nonneg seg).
    destruct (Z.ltb_spec (Reassembler.maxLen s) (zlen frag + 1)) as [Hlt|Hlt]; cbn [fst]; intros Hwf1.
    + destruct (Z.ltb_spec (Reassembler.maxLen s) (zlen frag + (1 + zlen seg))); [|lia].
      rewrite refFeed_discard; [|done|by apply uwrap_range|set_solver]. cbn.
      replace (Reassembler.maxLen s - zlen frag) with 0 by (subst frag; lia).
      change (ztake 0 (b :: seg)) with (@nil byte). rewrite app_nil_r.
      subst off. rewrite u64_add_l, zlen_cons, <- Z.add_assoc.
      done.
    + rewrite IH; [|done|done|set_solver]. cbn. subst off. rewrite u64_add_l, zlen_app, !zlen_cons.
      rewrite (@zlen_nil byte).
      replace (zlen frag + (1 + 0) + zlen seg) with (zlen frag + (1 + zlen seg)) by lia.
      replace (Reassembler.streamOffset s + 1 + zlen seg)
        with (Reassembler.streamOffset s + (1 + zlen seg)) by lia.
      destruct (Z.ltb_spec (Reassembler.maxLen s) (zlen frag + (1 + zlen seg)));
        rewrite <- app_assoc; [|done]. do 4 f_equal. cbn. unfold ztake.
      replace (Z.to_nat (Reassembler.maxLen s - zlen frag))
        with (S (Z.to_nat (Reassembler.maxLen s - (zlen frag + (1 + 0))))) by lia. done.
Qed.

Lemma keep_eq s :
  reasmWf s ->
  u64 (Reassembler.maxLen s - zlen (Reassembler.fragment s))
  = Reassembler.maxLen s - zlen (Reassembler.fragment s).
Proof.
  intros (Hm & _ & Hf & _). apply uwrap_small. unfold is_uint in *. zlen_lia.
Qed.

Lemma refByte_LF s :
  let off := u64 (Reassembler.streamOffset s + 1) in
  refByte s LF =
  (Reassembler.mk [] off off false (Reassembler.maxLen s),
   if Reassembler.discarding s then []
   else [Reassembler.emitLine (Reassembler.fragment s) (Reassembler.lineStart s) false]).
Proof. done. Qed.

(** The two ways a chunk's segment is taken, against the reference started at
    the segment's stream offset [o]. *)
Section Segment.
Context (s : Reassembler.t) (o : Z) (Hd : Reassembler.discarding s = false)
        (Hwf : reasmWf s) (Ho : is_uint 64 o).
Let so := Reassembler.setStreamOffset s o.

Lemma so_wf : reasmWf so.
Proof. destruct Hwf as (?&?&?&?). by split_and!. Qed.

Lemma appendTail_ref tail :
  ~ LF ∈ tail ->
  exists s' lines, Reassembler.appendTail s tail = Ret (s', lines) /\
    refFeed so tail = (Reassembler.setStreamOffset s' (u64 (o + zlen tail)), lines).
Proof.
  intros Hn. rewrite refFeed_seg by (done || apply so_wf). unfold Reassembler.appendTail. cbn.
  destruct (Z.ltb_spec (Reassembler.maxLen s) (zlen (Reassembler.fragment s) + zlen tail)).
  - rewrite keep_eq by done. rewrite appendN_Ret by zlen_lia. rewrite obind_Ret. eauto.
  - do 2 eexists. split; [done|]. unfold Reassembler.setStreamOffset, Reassembler.setFragment. cbn.
    by rewrite Hd.
Qed.

Lemma completeLine_ref piece :
  ~ LF ∈ piece ->
  exists lines, Reassembler.completeLine s piece = Ret (Reassembler.setFragment s [], lines) /\
    let off := u64 (o + zlen piece + 1) in
    refFeed so (piece ++ [LF]) = (Reassembler.mk [] off off false (Reassembler.maxLen s), lines).
Proof.
  intros Hn. cbv zeta. rewrite refFeed_app, refFeed_seg by (done || apply so_wf).
  pose proof Hwf as (Hm&_&Hf&_). unfold Reassembler.completeLine.
  cbn [refFeed so Reassembler.setStreamOffset Reassembler.fragment Reassembler.maxLen
       Reassembler.lineStart Reassembler.streamOffset].
  assert (Hs : Reassembler.fragment s = [] -> Reassembler.setFragment s [] = s)
    by (destruct s; cbn; by intros ->).
  case_bool_decide as He.
  - rewrite Hs, He, (@zlen_nil byte), Z.add_0_l, Z.sub_0_r by done.
    destruct (Z.ltb_spec (Reassembler.maxLen s) (zlen piece)).
    + rewrite substr_Ret by apply zlen_nonneg. rewrite obind_Ret. eexists. split; [done|].
      rewrite refByte_LF. cbn. by rewrite u64_add_l.
    + eexists. split; [done|]. rewrite refByte_LF. cbn. by rewrite u64_add_l.
  - destruct (Z.ltb_spec (Reassembler.maxLen s) (zlen (Reassembler.fragment s) + zlen piece)).
    + rewrite keep_eq by done. rewrite appendN_Ret by zlen_lia. rewrite obind_Ret.
      eexists. split; [done|]. rewrite refByte_LF. cbn. by rewrite u64_add_l.
    + eexists. split; [done|]. rewrite refByte_LF. cbn. by rewrite u64_add_l.
Qed.
End Segment.

Lemma zdrop_find chunk pos n :
  0 <= pos <= zlen chunk -> vfind chunk LF pos = Some n ->
  exists piece rest, zdrop pos chunk = piece ++ LF :: rest /\ ~ LF ∈ piece /\
    n = pos + zlen piece /\ slice chunk pos (n - pos) = piece /\ zdrop (n + 1) chunk = rest /\
    n < zlen chunk.
Proof.
  intros Hp (p & q & E & Hp' & ->)%findIn_Some. exists p, q.
  pose proof (zlen_nonneg p). split_and!; try done.
  - unfold slice. rewrite E. replace (pos + zlen p - pos) with (zlen p) by lia. apply ztake_length_app.
  - rewrite <- Z.add_assoc, <- (zdrop_zdrop (zlen p + 1) pos), E by lia.
    rewrite <- zdrop_zdrop by lia. by rewrite zdrop_length_app.
  - apply (f_equal zlen) in E. rewrite zlen_zdrop, zlen_app, zlen_cons in E by lia. zlen_lia.
Qed.

Lemma loop_ref fuel : forall s chunk base pos out,
  0 <= pos <= zlen chunk -> zlen chunk - pos < Z.of_nat fuel ->
  reasmWf s -> Reassembler.streamOffset s = base ->
  exists s' lines,
    Reassembler.loop fuel s chunk base pos out = Ret (s', out ++ lines) /\
    refFeed (Reassembler.setStreamOffset s (u64 (base + pos))) (zdrop pos chunk)
    = (Reassembler.setStreamOffset s' (u64 (base + zlen chunk)), lines) .
Proof.
  induction fuel as [|fuel IH]; intros s chunk base pos out Hpos Hfuel Hwf Hb; [lia|].
  cbn [Reassembler.loop].
  assert (Hwfp : reasmWf (Reassembler.setStreamOffset s (u64 (base + pos)))).
  { destruct Hwf as (?&?&?&?). split_and!; try done. by apply uwrap_range. }
  destruct (Z.leb_spec (zlen chunk) pos) as [Hge|Hlt].
  { assert (pos = zlen chunk) as -> by lia. exists s, [].
    rewrite app_nil_r. split; [done|]. unfold zdrop, zlen. rewrite Nat2Z.id, drop_all. done. }
  destruct (Reassembler.discarding s) eqn:Hd.
  - destruct (vfind chunk LF pos) as [n|] eqn:Hf.
    + destruct (zdrop_find _ _ _ Hpos Hf) as (p & q & E & Hp & Hn & _ & Hq & Hnl).
      pose proof (zlen_nonneg p). set (s1 := Reassembler.setLineStart _ _).
      assert (Hwf1 : reasmWf s1).
      { destruct Hwf as (?&?&?&Hfr). split_and!; try done. }
      destruct (IH s1 chunk base (n + 1) out) as (s' & lines & E1 & E2); try done; try lia.
      exists s', lines. split; [done|]. rewrite E, <- E2, Hq.
      rewrite refFeed_app, refFeed_discard by (done || by apply uwrap_range). cbn [refFeed].
      destruct Hwf as (_ & _ & _ & Hfr). subst s1. rewrite refByte_LF. cbn.
      rewrite Hd, !u64_add_l, <- (Z.add_assoc (u64 _)), u64_add_l.
      unfold Reassembler.setStreamOffset, Reassembler.setLineStart. cbn.
      replace (base + pos + (zlen p + 1)) with (base + (n + 1)) by lia.
      rewrite (Hfr Hd). by destruct (refFeed _ q).
    + exists s, []. rewrite app_nil_r. split; [done|]. apply findIn_None in Hf.
      rewrite refFeed_discard by (done || by apply uwrap_range). cbn.
      rewrite u64_add_l, zlen_zdrop by lia.
      replace (base + pos + Z.max 0 (zlen chunk - pos)) with (base + zlen chunk) by lia. done.
  - destruct (vfind chunk LF pos) as [n|] eqn:Hf.
    + destruct (zdrop_find _ _ _ Hpos Hf) as (p & q & E & Hp & Hn & Hsl & Hq & Hnl).
      pose proof (zlen_nonneg p). rewrite substr_Ret by lia. rewrite obind_Ret, Hsl.
      destruct (completeLine_ref s (u64 (base + pos)) Hd Hwf ltac:(by apply uwrap_range) p Hp)
        as (l1 & Ec & Er).
      rewrite Ec, obind_Ret. set (s1 := Reassembler.setLineStart _ _).
      assert (Hwf1 : reasmWf s1).
      { destruct Hwf as (Hm&?&?&Hfr). split_and!; try done. cbn. unfold is_uint in Hm. zlen_lia. }
      destruct (IH s1 chunk base (n + 1) (out ++ l1)) as (s' & lines & E1 & E2); try done; try lia.
      exists s', (l1 ++ lines). split; [by rewrite app_assoc|].
      rewrite E, cons_middle, app_assoc, refFeed_app, Er. cbn.
      rewrite <- (Z.add_assoc (u64 _)), u64_add_l, <- Hq. revert E2. subst s1.
      unfold Reassembler.setStreamOffset, Reassembler.setLineStart. cbn. rewrite Hd.
      replace (base + pos + (zlen p + 1)) with (base + (n + 1)) by lia. by intros ->.
    + rewrite substr_Ret by lia. rewrite obind_Ret. apply findIn_None in Hf.
      assert (Hsl : slice chunk pos (zlen chunk) = zdrop pos chunk)
        by (apply ztake_all; rewrite zlen_zdrop by lia; lia).
      rewrite Hsl.
      destruct (appendTail_ref s (u64 (base + pos)) Hd Hwf ltac:(by apply uwrap_range) _ Hf)
        as (s' & lines & Ea & Er).
      rewrite Ea, obind_Ret. exists s', lines. split; [done|]. rewrite Er, u64_add_l.
      rewrite zlen_zdrop by lia.
      replace (base + pos + Z.max 0 (zlen chunk - pos)) with (base + zlen chunk) by lia. done.
Qed.

Lemma feed_ref s chunk :
  reasmWf s -> Reassembler.feed s chunk = Ret (refFeed s chunk).
Proof.
  intros Hwf. unfold Reassembler.feed.
  destruct (loop_ref (S (length chunk)) s chunk (Reassembler.streamOffset s) 0 [])
    as (s' & lines & E1 & E2); try done; [zlen_lia|unfold zlen; lia|].
  rewrite E1, obind_Ret. rewrite Z.add_0_r, uwrap_small in E2 by apply Hwf.
  replace (Reassembler.setStreamOffset s (Reassembler.streamOffset s)) with s in E2 by (by destruct s).
  change (zdrop 0 chunk) with chunk in E2. by rewrite E2.
Qed.

Lemma feedAll_ref chunks : forall s,
  reasmWf s -> feedAll s chunks = Ret (refFeed s (concat chunks)).
Proof.
  induction chunks as [|c chunks IH]; intros s Hwf; [done|]. cbn [feedAll concat].
  rewrite feed_ref, refFeed_app by done. pose proof (refFeed_wf c s Hwf) as Hwf1.
  destruct (refFeed s c) as [s1 l1]. rewrite obind_Ret, IH by done.
  by destruct (refFeed s1 (concat chunks)).
Qed.

(** ** The reference implements the specification *)

(** The unfinished line is [cur] and started at [start]. *)
Definition tracks (s : Reassembler.t) (start : Z) (cur : bytes) : Prop :=
  0 <= Reassembler.maxLen s /\
  Reassembler.lineStart s = u64 start /\
  Reassembler.streamOffset s = u64 (start + zlen cur) /\
  if Reassembler.discarding s
  then Reassembler.fragment s = [] /\ Reassembler.maxLen s < zlen cur
  else Reassembler.fragment s = cur /\ zlen cur <= Reassembler.maxLen s.

(** In discard mode the line has been reported already. *)
Definition reported (s : Reassembler.t) (start : Z) (cur : bytes) : list Reassembler.Line :=
  if Reassembler.discarding s then [specLine (Reassembler.maxLen s) start cur] else [].

Lemma specLine_snoc maxLen start cur b :
  0 <= maxLen <= zlen cur -> specLine maxLen start (cur ++ [b])
  = Reassembler.mkLine (ztake maxLen cur) (u64 start) true.
Proof.
  intros H. unfold specLine. rewrite ztake_app_l by lia.
  by destruct (Z.ltb_spec maxLen (zlen (cur ++ [b]))); [|zlen_lia].
Qed.

Lemma refByte_tracks s start cur b :
  tracks s start cur ->
  let '(s1, l1) := refByte s b in
  Reassembler.maxLen s1 = Reassembler.maxLen s /\
  if bool_decide (b = LF)
  then tracks s1 (start + zlen cur + 1) [] /\
       reported s start cur ++ l1 = [specLine (Reassembler.maxLen s) start cur] /\
       Reassembler.discarding s1 = false
  else tracks s1 start (cur ++ [b]) /\
       reported s start cur ++ l1 = reported s1 start (cur ++ [b]).
Proof.
  intros (Hm & Hl & Ho & Hc). unfold refByte, reported. case_bool_decide as Hb.
  - split; [done|]. cbn. rewrite Ho, u64_add_l. split_and!; try done.
    + unfold tracks. cbn. rewrite (@zlen_nil byte), Z.add_0_r. by split_and!.
    + destruct (Reassembler.discarding s); [done|]. destruct Hc as [-> Hle]. unfold specLine.
      rewrite Hl. by destruct (Z.ltb_spec (Reassembler.maxLen s) (zlen cur)); [lia|].
  - destruct (Reassembler.discarding s) eqn:Hd; destruct Hc as [Hf Hc].
    + split; [done|]. cbn. rewrite Hd. split.
      * unfold tracks. cbn. rewrite Hd, Ho, u64_add_l, zlen_app, zlen_cons, (@zlen_nil byte).
        split_and!; try done; [f_equal; lia|lia].
      * rewrite specLine_snoc by lia. unfold specLine.
        by destruct (Z.ltb_spec (Reassembler.maxLen s) (zlen cur)); [|lia].
    + rewrite Hf, Ho, Hl, u64_add_l. unfold tracks.
      destruct (Z.ltb_spec (Reassembler.maxLen s) (zlen cur + 1)); cbn;
        rewrite ?zlen_app, ?zlen_cons, ?(@zlen_nil byte); split_and!; try done; try lia;
        try (f_equal; lia).
      rewrite specLine_snoc by lia. unfold Reassembler.emitLine. cbn.
      rewrite ztake_all by lia. done.
Qed.

Lemma ref_spec data : forall s start cur,
  tracks s start cur ->
  reported s start cur ++ (refFeed s data).2 ++ (Reassembler.finish (refFeed s data).1).2
  = specLines (Reassembler.maxLen s) start cur data.
Proof.
  induction data as [|b data IH]; intros s start cur H.
  - destruct H as (Hm & Hl & Ho & Hc). cbn. unfold reported.
    destruct (Reassembler.discarding s); destruct Hc as [Hf Hc]; cbn.
    + rewrite bool_decide_eq_false_2; [done|]. intros ->. rewrite (@zlen_nil byte) in Hc. lia.
    + rewrite Hf, Hl. case_bool_decide; [done|]. cbn. unfold specLine.
      by destruct (Z.ltb_spec (Reassembler.maxLen s) (zlen cur)); [lia|].
  - cbn [refFeed specLines]. pose proof (refByte_tracks s start cur b H) as P.
    destruct (refByte s b) as [s1 l1]. destruct P as [Hmax P].
    destruct (refFeed s1 data) as [s2 l2] eqn:E. cbn [fst snd].
    case_bool_decide as Hb.
    + destruct P as (Ht & Hr & Hd). rewrite <- app_assoc, app_assoc, Hr. cbn. f_equal.
      rewrite <- Hmax, <- (IH s1) by done. unfold reported. by rewrite Hd, E.
    + destruct P as (Ht & Hr). rewrite <- app_assoc, app_assoc, Hr.
      rewrite <- Hmax, <- (IH s1) by done. by rewrite E.
Qed.

(** ** Properties *)

(** C33: line reassembly is exact and independent of chunking.  From a fresh or
    reset reassembler, whatever the cut of the stream into chunks (ring slots),
    the lines reported over the whole session are exactly the lines of the
    stream: split at every newline, in order, each with the byte offset it
    starts at, one trailing carriage return removed, a line over the limit
    reported once as too long with its first [maxLen] bytes, a last line
    without newline included. *)
Theorem reassembler_refines_lines s chunks :
  is_uint 64 (Reassembler.maxLen s) ->
  exists s', reassemble (Reassembler.reset s) chunks
             = Ret (s', specLines (Reassembler.maxLen s) 0 [] (concat chunks)).
Proof.
  intros Hm. assert (Hwf : reasmWf (Reassembler.reset s)).
  { split_and!; try done. unfold is_uint in Hm. cbn. zlen_lia. }
  unfold reassemble. rewrite feedAll_ref, obind_Ret by done.
  assert (Ht : tracks (Reassembler.reset s) 0 []).
  { unfold is_uint in Hm. unfold tracks. cbn. rewrite (@zlen_nil byte). split_and!; try done; lia. }
  pose proof (ref_spec (concat chunks) _ _ _ Ht) as E. change (reported _ _ _) with (@nil Reassembler.Line) in E.
  destruct (refFeed _ (concat chunks)) as [s1 l1]. cbn in E |- *. rewrite <- E. eauto.
Qed.

Lemma reassembler_refines_lines_witness :
  exists s', reassemble (Reassembler.reset (Reassembler.make 5))
               [bs "abcd"; bs "efgh"; [LF] ++ bs "x"; [CR; LF] ++ bs "tail"]
             = Ret (s', [Reassembler.mkLine (bs "abcde") 0 true;
                         Reassembler.mkLine (bs "x") 9 false;
                         Reassembler.mkLine (bs "tail") 12 false]).
Proof.
  apply (reassembler_refines_lines (Reassembler.make 5)
           [bs "abcd"; bs "efgh"; [LF] ++ bs "x"; [CR; LF] ++ bs "tail"]).
  by vm_compute.
Defined.

Lemma refFeed_maxLen data : forall s, Reassembler.maxLen (refFeed s data).1 = Reassembler.maxLen s.
Proof.
  induction data as [|b data IH]; intros s; [done|]. cbn [refFeed].
  assert (H : Reassembler.maxLen (refByte s b).1 = Reassembler.maxLen s)
    by (unfold refByte; by repeat case_match).
  destruct (refByte s b) as [s1 l1]. specialize (IH s1). destruct (refFeed s1 data). cbn in *. congruence.
Qed.

(** Lines reported by one byte are within the limit. *)
Lemma refFeed_bounded data : forall s,
  reasmWf s ->
  Forall (fun l => zlen (Reassembler.text l) <= Reassembler.maxLen s) (refFeed s data).2.
Proof.
  induction data as [|b data IH]; intros s Hwf; [constructor|]. cbn [refFeed].
  pose proof (refByte_wf s b Hwf) as Hwf1. pose proof Hwf as (Hm & _ & Hf & _).
  assert (He : forall o t, zlen (Reassembler.text (Reassembler.emitLine (Reassembler.fragment s) o t))
                           <= Reassembler.maxLen s).
  { intros o t. unfold Reassembler.emitLine. case_match eqn:E; cbn; [|done].
    destruct (Reassembler.fragment s) as [|x l]; [by rewrite andb_false_r in E|].
    rewrite zlen_ztake; zlen_lia. }
  destruct (refByte s b) as [s1 l1] eqn:Eb. specialize (IH s1 Hwf1).
  destruct (refFeed s1 data) as [s2 l2]. cbn [snd] in *. unfold refByte in Eb.
  assert (Hmax : Reassembler.maxLen s1 = Reassembler.maxLen s /\
                 Forall (fun l => zlen (Reassembler.text l) <= Reassembler.maxLen s) l1).
  { repeat case_match; injection Eb as <- <-; split; try done;
      repeat constructor; rewrite ?H; apply He. }
  destruct Hmax as [Hmax Hl1]. rewrite Hmax in IH. by apply Forall_app.
Qed.

(** Reassembly is safe and bounded in memory whatever it is fed: [feed]
    ends, never reads or appends outside its chunk, keeps its unfinished line
    within [maxLen] bytes (so the reserved buffer never grows), and hands over
    no line longer than [maxLen]. *)
Lemma reassembler_feed_bounded s chunk :
  reasmWf s ->
  exists s' lines, Reassembler.feed s chunk = Ret (s', lines) /\ reasmWf s' /\
    zlen (Reassembler.fragment s') <= Reassembler.maxLen s /\
    Forall (fun l => zlen (Reassembler.text l) <= Reassembler.maxLen s) lines.
Proof.
  intros Hwf. rewrite feed_ref by done. exists (refFeed s chunk).1, (refFeed s chunk).2.
  pose proof (refFeed_wf chunk s Hwf) as Hwf'. split_and!; try done.
  - by destruct (refFeed s chunk).
  - destruct Hwf' as (_ & _ & H & _). by rewrite refFeed_maxLen in H.
  - by apply refFeed_bounded.
Qed.
