(* ===== verification/Charconv.v ===== *)
(** * Decimal text: what the code uses of [<charconv>] and [std::to_string]

    [spanDigits] and [digitsVal] are the reading of a run of decimal digits,
    [fromCharsInt64] and [fromCharsU64] are [std::from_chars] at base 10,
    [to_string] is [std::to_string] of an unsigned value. *)

From S2P Require Import Prelude StringView.

Definition isDigit (b : byte) : bool := (0x30 <=? b2z b) && (b2z b <=? 0x39).
Definition digitVal (b : byte) : Z := b2z b - 0x30.

(** The longest run of digits at the front, and what follows it. *)
Fixpoint spanDigits (s : bytes) : bytes * bytes :=
  match s with
  | [] => ([], [])
  | b :: r => if isDigit b then let '(d, t) := spanDigits r in (b :: d, t) else ([], s)
  end.

Definition digitsVal (s : bytes) : Z := fold_left (fun v b => 10 * v + digitVal b) s 0.

(** [std::errc] of the conversions. *)
Inductive errc := Success | InvalidArgument | ResultOutOfRange.

#[export] Instance errc_eq_dec : EqDecision errc.
Proof. solve_decision. Defined.

(** [std::from_chars(first, last, std::int64_t&)]: an optional minus sign, then
    digits; on overflow all digits are consumed and the error says so.  The
    result is the error, the value (written only on success) and the rest. *)
Definition fromCharsInt64 (s : bytes) (out : Z) : errc * Z * bytes :=
  let '(neg, body) :=
    match s with
    | b :: r => if bool_decide (b = "-"%byte) then (true, r) else (false, s)
    | [] => (false, s)
    end in
  let '(digits, rest) := spanDigits body in
  match digits with
  | [] => (InvalidArgument, out, s)
  | _ =>
      let v := if neg : bool then - digitsVal digits else digitsVal digits in
      if (v <? - 2 ^ 63) || (2 ^ 63 - 1 <? v) then (ResultOutOfRange, out, rest)
      else (Success, v, rest)
  end.

(** [std::from_chars] into an unsigned [w]-bit integer: no sign. *)
Definition fromCharsUint (w : Z) (s : bytes) (out : Z) : errc * Z * bytes :=
  let '(digits, rest) := spanDigits s in
  match digits with
  | [] => (InvalidArgument, out, s)
  | _ =>
      let v := digitsVal digits in
      if 2 ^ w - 1 <? v then (ResultOutOfRange, out, rest) else (Success, v, rest)
  end.

(** [std::to_string(std::uint64_t)]: at most 20 digits. *)
Fixpoint digitsOf (fuel : nat) (n : Z) (acc : bytes) : bytes :=
  match fuel with
  | O => acc
  | S fuel =>
      let acc := z2b (0x30 + n mod 10) :: acc in
      if n <? 10 then acc else digitsOf fuel (n / 10) acc
  end.
Definition to_string (n : Z) : bytes := digitsOf 20 n [].

(** [digits] decimal digits of [v], most significant first: the loop that
    fills positions [digits-1 .. 0] with [v % 10]. *)
Fixpoint fixedDigits (digits : nat) (v : Z) : bytes :=
  match digits with
  | O => []
  | S k => fixedDigits k (v / 10) ++ [z2b (0x30 + v mod 10)]
  end.

(** ** Lemmas *)

Lemma isDigit_range b : isDigit b = true -> 0 <= digitVal b <= 9.
Proof. unfold isDigit, digitVal. rewrite andb_true_iff, !Z.leb_le. lia. Qed.

Lemma digit_of k : 0 <= k <= 9 -> isDigit (z2b (0x30 + k)) = true /\ digitVal (z2b (0x30 + k)) = k.
Proof.
  intros. unfold isDigit, digitVal. rewrite b2z_z2b, Z.mod_small by lia.
  rewrite andb_true_iff, !Z.leb_le. lia.
Qed.

Lemma z2b_digitVal b : z2b (0x30 + digitVal b) = b.
Proof. unfold digitVal. replace (0x30 + (b2z b - 0x30)) with (b2z b) by lia. apply z2b_b2z. Qed.

Lemma spanDigits_app d r :
  forallb isDigit d = true ->
  (forall b r', r = b :: r' -> isDigit b = false) -> spanDigits (d ++ r) = (d, r).
Proof.
  intros Hd Hr. induction d as [|b d IH]; cbn in *.
  - destruct r as [|b r]; [done|]. cbn. by rewrite (Hr b r).
  - apply andb_true_iff in Hd as [-> Hd]. by rewrite IH.
Qed.

Lemma spanDigits_all d : forallb isDigit d = true -> spanDigits d = (d, []).
Proof. intros H. rewrite <- (app_nil_r d) at 1. by apply spanDigits_app. Qed.

Lemma spanDigits_spec s d r :
  spanDigits s = (d, r) -> s = d ++ r /\ forallb isDigit d = true.
Proof.
  revert d r. induction s as [|b s IH]; intros d r; cbn; [by intros [= <- <-]|].
  destruct (isDigit b) eqn:E; [|by intros [= <- <-]].
  destruct (spanDigits s) as [d' r'] eqn:Es. intros [= <- <-].
  destruct (IH d' r' eq_refl) as [-> H]. cbn. by rewrite E.
Qed.

Lemma digitsVal_snoc d b : digitsVal (d ++ [b]) = 10 * digitsVal d + digitVal b.
Proof. unfold digitsVal. by rewrite fold_left_app. Qed.

Lemma digitsVal_range d :
  forallb isDigit d = true -> 0 <= digitsVal d < 10 ^ zlen d.
Proof.
  induction d as [|b d IH] using rev_ind; intros H; [by vm_compute|].
  rewrite forallb_app in H. cbn in H. apply andb_true_iff in H as [Hd Hb].
  rewrite andb_true_r in Hb. apply isDigit_range in Hb. specialize (IH Hd).
  rewrite digitsVal_snoc, zlen_app, zlen_cons, (@zlen_nil byte), Z.pow_add_r by zlen_lia. lia.
Qed.

Lemma fixedDigits_length k : forall v, length (fixedDigits k v) = k.
Proof. induction k; intros v; cbn; [done|]. rewrite length_app, IHk. cbn. lia. Qed.

Lemma zlen_fixedDigits k v : zlen (fixedDigits k v) = Z.of_nat k.
Proof. unfold zlen. by rewrite fixedDigits_length. Qed.

Lemma fixedDigits_digits k : forall v, forallb isDigit (fixedDigits k v) = true.
Proof.
  induction k; intros v; cbn; [done|]. rewrite forallb_app, IHk. cbn.
  rewrite andb_true_r. apply digit_of. pose proof (Z.mod_pos_bound v 10). lia.
Qed.

Lemma fixedDigits_val k : forall v, 0 <= v < 10 ^ Z.of_nat k -> digitsVal (fixedDigits k v) = v.
Proof.
  induction k; intros v Hv; cbn [fixedDigits]; [cbn in *; change (digitsVal []) with 0; lia|].
  rewrite Nat2Z.inj_succ, Z.pow_succ_r in Hv by lia.
  rewrite digitsVal_snoc, IHk by (split; [apply Z.div_pos|apply Z.div_lt_upper_bound]; lia).
  pose proof (Z.mod_pos_bound v 10). rewrite (proj2 (digit_of (v mod 10) ltac:(lia))).
  pose proof (Z.div_mod v 10). lia.
Qed.

Lemma fixedDigits_of k : forall d,
  length d = k -> forallb isDigit d = true -> fixedDigits k (digitsVal d) = d.
Proof.
  induction k; intros d Hl Hd.
  - by destruct d.
  - destruct d as [|b d _] using rev_ind; [done|]. rewrite length_app in Hl. cbn in Hl.
    rewrite forallb_app in Hd. cbn in Hd. apply andb_true_iff in Hd as [Hd Hb].
    rewrite andb_true_r in Hb. apply isDigit_range in Hb. cbn [fixedDigits].
    rewrite digitsVal_snoc, Z.add_comm, (Z.mul_comm 10), Z.div_add, Z.mod_add by lia.
    rewrite Z.div_small, Z.mod_small, Z.add_0_l by lia. rewrite IHk by (done || lia).
    by rewrite z2b_digitVal.
Qed.

(** What [digitsOf] puts in front: [n]'s digits, without leading zero. *)
Lemma digitsOf_spec fuel : forall n acc,
  0 <= n < 10 ^ Z.of_nat fuel -> (0 < fuel)%nat ->
  exists d, digitsOf fuel n acc = d ++ acc /\ forallb isDigit d = true /\ digitsVal d = n /\
            d <> [] /\ (length d <= fuel)%nat /\
            (forall b d', d = b :: d' -> d' <> [] -> 0 < digitVal b).
Proof.
  induction fuel as [|fuel IH]; intros n acc Hn Hf; [lia|]. cbn [digitsOf].
  pose proof (Z.mod_pos_bound n 10 ltac:(lia)) as Hm.
  destruct (digit_of (n mod 10) ltac:(lia)) as [Hd Hv].
  destruct (Z.ltb_spec n 10).
  - exists [z2b (0x30 + n mod 10)]. rewrite Z.mod_small in * by lia. cbn. rewrite Hd.
    split_and!; try done; try lia; try (by intros b d' [= <- <-]).
  - rewrite Nat2Z.inj_succ, Z.pow_succ_r in Hn by lia.
    assert (0 < fuel)%nat by (destruct fuel; [cbn in Hn|]; lia).
    destruct (IH (n / 10) (z2b (0x30 + n mod 10) :: acc)) as (d & E & D & V & N & L & Z0);
      [split; [apply Z.div_pos|apply Z.div_lt_upper_bound]; lia|done|].
    exists (d ++ [z2b (0x30 + n mod 10)]). rewrite E, <- app_assoc, forallb_app, D, digitsVal_snoc, V.
    cbn. rewrite Hd, Hv, length_app. cbn. pose proof (Z.div_mod n 10).
    split_and!; try done; try lia; [by destruct d|].
    intros b d' Hb Hne. destruct d as [|b0 d]; [done|]. injection Hb as <- <-.
    destruct d as [|b1 d]; [|by apply (Z0 b0 (b1 :: d))].
    unfold digitsVal in V. cbn in V. assert (1 <= n / 10) by (apply Z.div_le_lower_bound; lia). lia.
Qed.

Section ToString.
Context (n : Z) (Hn : is_uint 64 n).

Lemma to_string_spec :
  forallb isDigit (to_string n) = true /\ digitsVal (to_string n) = n /\ to_string n <> [] /\
  zlen (to_string n) <= 20.
Proof.
  unfold is_uint in Hn.
  destruct (digitsOf_spec 20 n []) as (d & E & D & V & N & L & _); [split; [lia|]|lia|].
  { apply Z.lt_le_trans with (2 ^ 64); [lia|by vm_compute]. }
  unfold to_string. rewrite E, app_nil_r. split_and!; try done. unfold zlen. lia.
Qed.

(** Parsing what [to_string] printed, whatever non-digit follows. *)
Lemma fromCharsUint_to_string rest out :
  (forall b r, rest = b :: r -> isDigit b = false) ->
  fromCharsUint 64 (to_string n ++ rest) out = (Success, n, rest).
Proof.
  intros Hr. destruct to_string_spec as (D & V & N & _). unfold fromCharsUint.
  rewrite spanDigits_app by done. rewrite V. unfold is_uint in Hn.
  destruct (to_string n); [done|]. by destruct (Z.ltb_spec (2 ^ 64 - 1) n); [lia|].
Qed.
End ToString.
