(* ===== verification/Binary64.v ===== *)
(** * [double] (IEEE 754 binary64)

    The values are the Standard Library's [spec_float]; the operations are its
    binary64 instances, rounding to nearest even.  [fromCharsDouble] is
    [std::from_chars(first, last, double&)] (general format): sign, digits,
    fraction, exponent, [inf] and [nan], out-of-range as an error. *)

From Stdlib Require Import Floats.SpecFloat.
From S2P Require Import Prelude StringView Charconv.

Abbreviation double := spec_float.

Definition dprec : Z := 53.
Definition demax : Z := 1024.

Definition dadd (x y : double) : double := SFadd dprec demax x y.
Definition dsub (x y : double) : double := SFsub dprec demax x y.
Definition dmul (x y : double) : double := SFmul dprec demax x y.
Definition ddiv (x y : double) : double := SFdiv dprec demax x y.
Definition dlt (x y : double) : bool := SFltb x y.
Definition dle (x y : double) : bool := SFleb x y.

Definition dzero : double := S754_zero false.

(** [static_cast<double>(n)]: nearest representable value. *)
Definition doubleOfZ (n : Z) : double := binary_normalize dprec demax n 0 false.

Definition isfinite (x : double) : bool :=
  match x with
  | S754_zero _ | S754_finite _ _ _ => true
  | S754_infinity _ | S754_nan => false
  end.

(** [static_cast<std::uint64_t>(x)]: truncation; undefined when the truncated
    value does not fit. *)
Definition u64OfDouble (x : double) : outcome Z :=
  match x with
  | S754_zero _ => Ret 0
  | S754_finite s m e =>
      let v := if 0 <=? e then Z.pos m * 2 ^ e else Z.pos m / 2 ^ (- e) in
      let v := if s : bool then - v else v in
      if (v <? 0) || (2 ^ 64 <=? v) then UB else Ret v
  | _ => UB
  end.

(** The double nearest to [(-1)^neg * m * 10^e]. *)
Definition doubleOfDecimal (neg : bool) (m e : Z) : double :=
  match m with
  | Z.pos p =>
      if 0 <=? e then
        let v := Z.pos p * 10 ^ e in
        binary_normalize dprec demax (if neg then - v else v) 0 neg
      else
        let '(q, ex, l) := SFdiv_core_binary dprec demax (Z.pos p) 0 (10 ^ (- e)) 0 in
        binary_round_aux dprec demax neg q ex l
  | _ => S754_zero neg
  end.

(** [a / b] to the nearest integer, ties to even. *)
Definition roundDiv (a b : Z) : Z :=
  let q := a / b in
  match Z.compare (2 * (a mod b)) b with
  | Lt => q
  | Gt => q + 1
  | Eq => if Z.even q then q else q + 1
  end.

(** What printf writes for "%.<digits>f": the exact value, rounded. *)
Definition printfFixed (digits : nat) (x : double) : bytes :=
  let sign (s : bool) := if s then bs "-" else [] in
  let text n := digitsOf 330 (n / 10 ^ Z.of_nat digits) [] ++ bs "." ++ fixedDigits digits (n mod 10 ^ Z.of_nat digits) in
  match x with
  | S754_zero s => sign s ++ text 0
  | S754_infinity s => sign s ++ bs "inf"
  | S754_nan => bs "nan"
  | S754_finite s m e =>
      let scaled := Z.pos m * 10 ^ Z.of_nat digits in
      sign s ++ text (if 0 <=? e then scaled * 2 ^ e else roundDiv scaled (2 ^ (- e)))
  end.

(** [std::snprintf] into an array of [size]: the text that fits before the NUL. *)
Definition snprintf (size : Z) (text : bytes) : bytes := ztake (size - 1) text.

Definition toLower (b : byte) : byte :=
  if (0x41 <=? b2z b) && (b2z b <=? 0x5A) then z2b (b2z b + 32) else b.

(** Does [s] start with [pat], letters compared without case? *)
Fixpoint prefixNoCase (pat s : bytes) : option bytes :=
  match pat, s with
  | [], _ => Some s
  | p :: pat, b :: s => if bool_decide (toLower b = p) then prefixNoCase pat s else None
  | _ :: _, [] => None
  end.

Definition isNanChar (b : byte) : bool :=
  isDigit b || bool_decide (b = "_"%byte) ||
  ((0x61 <=? b2z (toLower b)) && (b2z (toLower b) <=? 0x7A)).

Fixpoint dropNanChars (s : bytes) : bytes :=
  match s with
  | b :: r => if isNanChar b then dropNanChars r else s
  | [] => []
  end.

(** [inf], [infinity], [nan], [nan(chars)] *)
Definition infOrNan (neg : bool) (s : bytes) : option (double * bytes) :=
  match prefixNoCase (bs "nan") s with
  | Some r =>
      match r with
      | b :: r' =>
          if bool_decide (b = "("%byte) then
            match dropNanChars r' with
            | c :: r'' => if bool_decide (c = ")"%byte) then Some (S754_nan, r'') else Some (S754_nan, r)
            | [] => Some (S754_nan, r)
            end
          else Some (S754_nan, r)
      | [] => Some (S754_nan, r)
      end
  | None =>
      match prefixNoCase (bs "infinity") s with
      | Some r => Some (S754_infinity neg, r)
      | None =>
          match prefixNoCase (bs "inf") s with
          | Some r => Some (S754_infinity neg, r)
          | None => None
          end
      end
  end.

(** The exponent part, when it has digits: its value and the rest. *)
Definition exponentPart (s : bytes) : Z * bytes :=
  match s with
  | b :: r =>
      if bool_decide (toLower b = "e"%byte) then
        let '(neg, r') :=
          match r with
          | c :: r' =>
              if bool_decide (c = "-"%byte) then (true, r')
              else if bool_decide (c = "+"%byte) then (false, r') else (false, r)
          | [] => (false, r)
          end in
        let '(d, rest) := spanDigits r' in
        match d with
        | [] => (0, s)
        | _ => ((if neg : bool then - digitsVal d else digitsVal d), rest)
        end
      else (0, s)
  | [] => (0, s)
  end.

Fixpoint stripZeros (s : bytes) : bytes :=
  match s with
  | b :: r => if bool_decide (b = "0"%byte) then stripZeros r else s
  | [] => []
  end.

(** [None]: not a number, or out of range ([ec != errc{}]).  A decimal whose
    leading digit stands at [10^310] or above overflows and one below
    [10^-330] underflows, without computing the power of ten. *)
Definition fromCharsDouble (s : bytes) : option (double * bytes) :=
  let '(neg, body) :=
    match s with
    | b :: r => if bool_decide (b = "-"%byte) then (true, r) else (false, s)
    | [] => (false, s)
    end in
  let '(ip, r1) := spanDigits body in
  let '(fp, r2) :=
    match r1 with
    | b :: r => if bool_decide (b = "."%byte) then spanDigits r else ([], r1)
    | [] => ([], r1)
    end in
  match ip ++ fp with
  | [] => infOrNan neg body
  | digits =>
      let '(ex, rest) := exponentPart r2 in
      let m := digitsVal digits in
      let e := ex - zlen fp in
      if m =? 0 then Some (S754_zero neg, rest) else
      let lead := zlen (stripZeros digits) + e in
      if 310 <? lead then None
      else if lead <? -330 then None
      else
        match doubleOfDecimal neg m e with
        | S754_finite _ _ _ as v => Some (v, rest)
        | _ => None
        end
  end.

Example fromCharsDouble_spd :
  fromCharsDouble (bs "137500.000000") = Some (doubleOfZ 137500, []).
Proof. by vm_compute. Qed.

Example fromCharsDouble_half : fromCharsDouble (bs "-2.5e-1x")
  = Some (S754_finite true 4503599627370496 (-54), bs "x").
Proof. by vm_compute. Qed.

Example fromCharsDouble_overflow : fromCharsDouble (bs "1e400") = None.
Proof. by vm_compute. Qed.

Example fromCharsDouble_inf : fromCharsDouble (bs "INFinity") = Some (S754_infinity false, []).
Proof. by vm_compute. Qed.

Example fromCharsDouble_tenth :
  fromCharsDouble (bs "0.1") = Some (S754_finite false 7205759403792794 (-56), []).
Proof. by vm_compute. Qed.
