(* ===== verification/DoubleBounds.v ===== *)
(** * Bounds on binary64 arithmetic

    Rounding is monotone: a result that is at most a representable number
    before rounding is at most that number after it.  From this, upper bounds
    for the sums, products and quotients the statistics compute, and the
    exactness of small integers. *)

From Stdlib Require Import Floats.SpecFloat.
From S2P Require Import Prelude Binary64.

(** Exponents are kept above [-K], so that every value is an integer after
    scaling by [2^K]. *)
Definition K : Z := 4000.
Definition val (m e : Z) : Z := m * 2 ^ (e + K).

Abbreviation demin := (-1074).

Lemma fexp_val e : fexp dprec demax e = Z.max (e - 53) demin.
Proof. done. Qed.

Lemma digits2_bounds p : 2 ^ (Z.pos (digits2_pos p) - 1) <= Z.pos p < 2 ^ Z.pos (digits2_pos p).
Proof.
  induction p as [p IH|p IH|]; cbn [digits2_pos]; [| |done];
    rewrite Pos2Z.inj_succ, Z.pow_succ_r by lia;
    replace (Z.succ (Z.pos (digits2_pos p)) - 1) with (Z.succ (Z.pos (digits2_pos p) - 1)) by lia;
    rewrite Z.pow_succ_r by lia; lia.
Qed.

Lemma Zdigits2_bounds m : 0 < m -> 2 ^ (Zdigits2 m - 1) <= m < 2 ^ Zdigits2 m /\ 0 < Zdigits2 m.
Proof. destruct m as [|p|p]; [lia| |lia]. intros _. split; [apply digits2_bounds|done]. Qed.

Lemma Zdigits2_lt m k : 0 <= k -> 0 <= m < 2 ^ k -> Zdigits2 m <= k.
Proof.
  intros Hk Hm. destruct (Z.eq_dec m 0) as [->|]; [done|].
  destruct (Zdigits2_bounds m ltac:(lia)) as [H ?]. destruct (Z.le_gt_cases (Zdigits2 m) k); [done|].
  assert (2 ^ k <= 2 ^ (Zdigits2 m - 1)) by (apply Z.pow_le_mono_r; lia). lia.
Qed.

Lemma pow_pos k : 0 <= k -> 0 < 2 ^ k.
Proof. intros. by apply Z.pow_pos_nonneg. Qed.

(** ** Shifting *)

(** [mrs] shifted right by [k]: the mantissa is divided, and the record says
    [loc_Exact] exactly when nothing was lost. *)
Definition shifted (k : Z) (mrs mrs' : shr_record) : Prop :=
  shr_m mrs' = shr_m mrs / 2 ^ k /\
  (loc_of_shr_record mrs' = loc_Exact <->
   shr_m mrs = shr_m mrs' * 2 ^ k /\ loc_of_shr_record mrs = loc_Exact).

Lemma shr_1_shifted mrs : 0 <= shr_m mrs -> shifted 1 mrs (shr_1 mrs).
Proof.
  unfold shifted. change (2 ^ 1) with 2. rewrite <- Z.div2_div.
  destruct mrs as [[|[p|p|]|p] r s]; cbn [shr_m]; intros H; [| | | |lia]; cbn; (split; [done|]);
    destruct r, s; cbn; (split; [intros ?; try done; (split; [lia|done])|intros [? ?]; try done; lia]).
Qed.

Lemma shifted_trans i j a b c :
  0 <= i -> 0 <= j -> shifted i a b -> shifted j b c -> shifted (i + j) a c.
Proof.
  intros Hi Hj [H1 H2] [H3 H4]. unfold shifted. rewrite Z.pow_add_r by done.
  pose proof (pow_pos i Hi). pose proof (pow_pos j Hj). split.
  - rewrite H3, H1. rewrite Z.div_div by lia. done.
  - rewrite H4, H2. split.
    + intros (E1 & E2 & E3). split; [|done]. rewrite E2, E1. ring.
    + intros [E1 E2]. assert (Hb : shr_m b = shr_m c * 2 ^ j).
      { rewrite H1, E1. rewrite (Z.mul_comm (2 ^ i)), Z.mul_assoc, Z.div_mul by lia. done. }
      split_and!; [done| |done]. rewrite E1, Hb. ring.
Qed.

Lemma iter_shr_shifted p : forall mrs, 0 <= shr_m mrs -> shifted (Z.pos p) mrs (SpecFloat.iter_pos shr_1 p mrs).
Proof.
  assert (Hn : forall k a b, 0 <= k -> 0 <= shr_m a -> shifted k a b -> 0 <= shr_m b).
  { intros k a b Hk Ha [-> _]. apply Z.div_pos; [done|by apply pow_pos]. }
  induction p as [p IH|p IH|]; intros mrs Hm; cbn [SpecFloat.iter_pos].
  - pose proof (shr_1_shifted mrs Hm) as H1. pose proof (Hn 1 _ _ ltac:(lia) Hm H1) as P1.
    pose proof (IH _ P1) as H2. pose proof (Hn (Z.pos p) _ _ ltac:(lia) P1 H2) as P2. pose proof (IH _ P2) as H3.
    replace (Z.pos p~1) with (1 + (Z.pos p + Z.pos p)) by lia.
    eapply shifted_trans; [done|lia|exact H1|]. by eapply shifted_trans.
  - pose proof (IH _ Hm) as H2. pose proof (Hn (Z.pos p) _ _ ltac:(lia) Hm H2) as P2. pose proof (IH _ P2) as H3.
    replace (Z.pos p~0) with (Z.pos p + Z.pos p) by lia. by eapply shifted_trans.
  - by apply shr_1_shifted.
Qed.

Lemma shr_spec mrs e n :
  0 <= shr_m mrs ->
  exists mrs' k, shr mrs e n = (mrs', e + k) /\ k = Z.max n 0 /\ shifted k mrs mrs'.
Proof.
  intros Hm. destruct n as [|p|p]; cbn [shr].
  1,3: exists mrs, 0; rewrite Z.add_0_r; split_and!; [done|done|];
    unfold shifted; rewrite Z.div_1_r, Z.mul_1_r; tauto.
  exists (SpecFloat.iter_pos shr_1 p mrs), (Z.pos p). split_and!; [done|done|]. by apply iter_shr_shifted.
Qed.

(** ** Rounding *)

(** The stages of [binary_round_aux]: cut to the format, round, cut again. *)
Lemma round_aux_stages sx mx ex lx :
  0 <= mx ->
  let e1 := Z.max ex (fexp dprec demax (Zdigits2 mx + ex)) in
  let m' := mx / 2 ^ (e1 - ex) in
  exists m1, m' <= m1 <= m' + 1 /\
    (m1 = m' \/ lx <> loc_Exact \/ m' * 2 ^ (e1 - ex) < mx) /\
    let e2 := Z.max e1 (fexp dprec demax (Zdigits2 m1 + e1)) in
    let m2 := m1 / 2 ^ (e2 - e1) in
    binary_round_aux dprec demax sx mx ex lx =
    match m2 with
    | Z0 => S754_zero sx
    | Z.pos m => if e2 <=? 971 then S754_finite sx m e2 else S754_infinity sx
    | Z.neg _ => S754_nan
    end.
Proof.
  intros Hm. cbn zeta. unfold binary_round_aux, shr_fexp.
  assert (Hr : forall m l, shr_m (shr_record_of_loc m l) = m /\ loc_of_shr_record (shr_record_of_loc m l) = l)
    by (intros m l; by destruct l as [|[]]).
  destruct (shr_spec (shr_record_of_loc mx lx) ex (fexp dprec demax (Zdigits2 mx + ex) - ex))
    as (r1 & k1 & -> & Hk1 & S1 & X1); [by rewrite (proj1 (Hr mx lx))|].
  destruct (Hr mx lx) as [Em El]. rewrite Em in S1, X1. rewrite El in X1.
  replace (ex + k1) with (Z.max ex (fexp dprec demax (Zdigits2 mx + ex))) by lia.
  set (e1 := Z.max ex _) in *. replace k1 with (e1 - ex) in * by lia.
  assert (Hp : 0 < 2 ^ (e1 - ex)) by (apply pow_pos; lia).
  assert (Hm' : 0 <= shr_m r1) by (rewrite S1; apply Z.div_pos; lia).
  exists (round_nearest_even (shr_m r1) (loc_of_shr_record r1)). rewrite <- S1.
  set (m1 := round_nearest_even _ _).
  assert (H1 : shr_m r1 <= m1 <= shr_m r1 + 1)
    by (subst m1; unfold round_nearest_even; repeat case_match; lia).
  split; [done|]. split.
  - destruct (loc_of_shr_record r1) eqn:Eloc; [by left|right].
    destruct lx; [right|by left].
    assert (shr_m r1 * 2 ^ (e1 - ex) <= mx) by (rewrite S1, Z.mul_comm; apply Z.mul_div_le; lia).
    destruct (Z.eq_dec (shr_m r1 * 2 ^ (e1 - ex)) mx) as [E|]; [|lia].
    pose proof (proj2 X1 (conj (eq_sym E) eq_refl)). congruence.
  - destruct (shr_spec (shr_record_of_loc m1 loc_Exact) e1 (fexp dprec demax (Zdigits2 m1 + e1) - e1))
      as (r2 & k2 & -> & Hk2 & S2 & _); [rewrite (proj1 (Hr m1 loc_Exact)); lia|].
    rewrite (proj1 (Hr m1 loc_Exact)) in S2.
    replace (e1 + k2) with (Z.max e1 (fexp dprec demax (Zdigits2 m1 + e1))) by lia.
    set (e2 := Z.max e1 _) in *. replace k2 with (e2 - e1) in * by lia. by rewrite S2.
Qed.

Lemma val_mono m m' e : m <= m' -> val m e <= val m' e.
Proof. intros H. unfold val. apply Z.mul_le_mono_nonneg_r; [|done]. by apply Z.pow_nonneg. Qed.

Lemma val_shift m e k : 0 <= k -> - K <= e -> val m (e + k) = val (m * 2 ^ k) e.
Proof. intros. unfold val. replace (e + k + K) with (k + (e + K)) by lia. rewrite Z.pow_add_r by lia. ring. Qed.

(** Cutting loses value. *)
Lemma val_div m e e' : - K <= e <= e' -> 0 <= m -> val (m / 2 ^ (e' - e)) e' <= val m e.
Proof.
  intros He Hm. replace e' with (e + (e' - e)) at 2 by lia. rewrite val_shift by lia. apply val_mono.
  rewrite Z.mul_comm. apply Z.mul_div_le. apply pow_pos. lia.
Qed.

(** A number in the format that is above [m'] units of the last place, [m']
    being cut from [mx], is at least one unit above it. *)
Lemma next_representable mx ex b p :
  0 < mx -> - K <= ex -> 0 <= b < 2 ^ 53 -> demin <= p ->
  let e1 := Z.max ex (fexp dprec demax (Zdigits2 mx + ex)) in
  fexp dprec demax (Zdigits2 mx + ex) = e1 ->
  val mx ex <= val b p -> val (mx / 2 ^ (e1 - ex)) e1 < val b p -> val (mx / 2 ^ (e1 - ex) + 1) e1 <= val b p.
Proof.
  cbn zeta. intros Hm Hex Hb Hp He1 Hle Hlt. rewrite fexp_val in *. set (e1 := Z.max ex _) in *.
  destruct (Z.le_gt_cases e1 p) as [Hc|Hc].
  - replace p with (e1 + (p - e1)) in Hlt |- * by lia. rewrite val_shift in Hlt |- * by (unfold K in *; lia).
    apply val_mono. unfold val in Hlt. apply Z.mul_lt_mono_pos_r in Hlt; [lia|]. apply pow_pos. unfold K in *; lia.
  - exfalso. destruct (Zdigits2_bounds mx Hm) as [[Hd _] Hd0].
    assert (E : e1 = Zdigits2 mx + ex - 53) by lia.
    assert (H1 : val b p < val 1 (53 + p)).
    { unfold val. replace (53 + p + K) with (53 + (p + K)) by lia. rewrite (Z.pow_add_r 2 53) by (unfold K; lia).
      rewrite Z.mul_1_l. apply Z.mul_lt_mono_pos_r; [|lia]. apply pow_pos. unfold K; lia. }
    assert (H2 : val 1 (53 + p) <= val 1 (Zdigits2 mx - 1 + ex)).
    { unfold val. rewrite !Z.mul_1_l. apply Z.pow_le_mono_r; lia. }
    assert (H3 : val 1 (Zdigits2 mx - 1 + ex) <= val mx ex).
    { replace (Zdigits2 mx - 1 + ex) with (ex + (Zdigits2 mx - 1)) by lia. rewrite val_shift by lia.
      apply val_mono. lia. }
    lia.
Qed.

Lemma val_lt_exp m e b p :
  0 < m -> - K <= p -> - K <= e -> 0 <= b < 2 ^ 53 -> val m e <= val b p -> e < 53 + p.
Proof.
  intros Hm Hp He Hb H. destruct (Z.le_gt_cases (53 + p) e) as [Hc|]; [exfalso|done].
  assert (val b p < val 1 (53 + p)).
  { unfold val. replace (53 + p + K) with (53 + (p + K)) by lia. rewrite (Z.pow_add_r 2 53) by lia.
    rewrite Z.mul_1_l. apply Z.mul_lt_mono_pos_r; [|lia]. apply pow_pos. lia. }
  assert (val 1 (53 + p) <= val 1 e) by (unfold val; rewrite !Z.mul_1_l; apply Z.pow_le_mono_r; lia).
  pose proof (val_mono 1 m e ltac:(lia)). lia.
Qed.

(** Monotone rounding towards a representable bound [b * 2^p]. *)
Lemma round_aux_le sx mx ex lx b p :
  0 <= mx -> - K <= ex -> 0 <= b < 2 ^ 53 -> demin <= p <= 900 -> val mx ex <= val b p ->
  (lx = loc_Exact \/ ex <= fexp dprec demax (Zdigits2 mx + ex) /\ val mx ex < val b p) ->
  binary_round_aux dprec demax sx mx ex lx = S754_zero sx \/
  exists m e, binary_round_aux dprec demax sx mx ex lx = S754_finite sx m e /\
    demin <= e /\ Z.pos m < 2 ^ 53 /\ val (Z.pos m) e <= val b p.
Proof.
  intros Hm Hex Hb Hp Hle Hl.
  destruct (round_aux_stages sx mx ex lx Hm) as (m1 & H1 & H2 & ->). cbn zeta in *.
  set (e1 := Z.max ex _) in *. set (m' := mx / 2 ^ (e1 - ex)) in *. set (e2 := Z.max e1 _) in *.
  assert (Hcut : val m' e1 <= val mx ex) by (apply val_div; [unfold K in *; lia|done]).
  assert (Hm' : 0 <= m') by (apply Z.div_pos; [done|apply pow_pos; lia]).
  assert (Hv1 : val m1 e1 <= val b p).
  { destruct (Z.eq_dec m1 m') as [->|Hne]; [lia|]. replace m1 with (m' + 1) by lia.
    destruct (Z.eq_dec mx 0) as [->|Hmx].
    - assert (lx <> loc_Exact) by (destruct H2 as [|[|]]; [lia|done|lia]).
      destruct Hl as [|[Hf Hlt]]; [done|]. rewrite fexp_val in Hf.
      assert (He1 : e1 = demin) by (subst e1; rewrite fexp_val; cbn [Zdigits2] in *; lia).
      assert (Hm0 : m' = 0) by (apply Z.div_0_l; pose proof (pow_pos (e1 - ex) ltac:(lia)); lia).
      rewrite Hm0, He1.
      assert (0 < b) by (unfold val in Hlt; nia). etransitivity; [|apply (val_mono 1); lia].
      unfold val. rewrite !Z.mul_1_l. apply Z.pow_le_mono_r; unfold K; lia.
    - assert (Hex1 : fexp dprec demax (Zdigits2 mx + ex) = e1).
      { destruct H2 as [|[Hx|Hx]]; [lia| |].
        - destruct Hl as [|[Hf _]]; [done|]. lia.
        - destruct (Z.le_gt_cases (fexp dprec demax (Zdigits2 mx + ex)) ex); [|lia].
          assert (E0 : e1 - ex = 0) by lia. unfold m' in Hx. rewrite E0 in Hx. change (2 ^ 0) with 1 in Hx.
          rewrite Z.div_1_r in Hx. lia. }
      apply next_representable; try done; try lia. fold e1 m'.
      destruct H2 as [|[Hx|Hx]]; [lia| |].
      + destruct Hl as [|[_ Hlt]]; [done|]. lia.
      + apply Z.lt_le_trans with (val mx ex); [|done].
        replace e1 with (ex + (e1 - ex)) at 1 by lia. rewrite val_shift by lia. unfold val.
        apply Z.mul_lt_mono_pos_r; [|done]. apply pow_pos. lia. }
  assert (Hv2 : val (m1 / 2 ^ (e2 - e1)) e2 <= val b p)
    by (etransitivity; [apply val_div; [unfold K in *; lia|lia]|done]).
  assert (He2 : demin <= e2) by (subst e2; rewrite fexp_val; lia).
  assert (Hm2 : m1 / 2 ^ (e2 - e1) < 2 ^ 53).
  { apply Z.div_lt_upper_bound; [apply pow_pos; lia|]. rewrite <- Z.pow_add_r by lia.
    destruct (Z.eq_dec m1 0) as [->|]; [apply pow_pos; lia|].
    destruct (Zdigits2_bounds m1 ltac:(lia)) as [[_ Hd] ?]. eapply Z.lt_le_trans; [exact Hd|].
    apply Z.pow_le_mono_r; [lia|]. subst e2. rewrite fexp_val. lia. }
  assert (0 <= m1 / 2 ^ (e2 - e1)) by (apply Z.div_pos; [lia|apply pow_pos; lia]).
  destruct (m1 / 2 ^ (e2 - e1)) as [|m|m] eqn:Em; [by left| |lia]. right.
  pose proof (val_lt_exp (Z.pos m) e2 b p ltac:(lia) ltac:(unfold K; lia) ltac:(unfold K; lia) Hb Hv2).
  destruct (Z.leb_spec e2 971); [|lia]. by exists m, e2.
Qed.

(** ** Operations *)

(** A non-negative double of at most [B] (scaled). *)
Definition dposle (x : double) (B : Z) : Prop :=
  match x with
  | S754_zero false => True
  | S754_finite false m e => demin <= e /\ Z.pos m < 2 ^ 53 /\ val (Z.pos m) e <= B
  | _ => False
  end.

(** A representable bound. *)
Definition repr (b p : Z) : Prop := 0 <= b < 2 ^ 53 /\ demin <= p <= 900.

Lemma dposle_mono x A B : A <= B -> dposle x A -> dposle x B.
Proof. intros H. destruct x as [[]|[]| |[] m e]; cbn; try done. intros (? & ? & ?). split_and!; try done. lia. Qed.

Lemma iter_xO m d : Z.pos (Pos.iter xO m d) = Z.pos m * 2 ^ Z.pos d.
Proof.
  induction d as [|d IH] using Pos.peano_ind; [cbn; lia|].
  rewrite Pos.iter_succ, Pos2Z.inj_succ, Z.pow_succ_r by lia. lia.
Qed.

Lemma shl_align_spec mx ex ez :
  exists mz, shl_align mx ex ez = (mz, Z.min ex ez) /\ Z.pos mz = Z.pos mx * 2 ^ (ex - Z.min ex ez).
Proof.
  unfold shl_align. destruct (ez - ex) as [|d|d] eqn:E.
  - exists mx. replace (Z.min ex ez) with ex by lia. rewrite Z.sub_diag, Z.mul_1_r. done.
  - exists mx. replace (Z.min ex ez) with ex by lia. rewrite Z.sub_diag, Z.mul_1_r. done.
  - exists (Pos.iter xO mx d). replace (Z.min ex ez) with ez by lia. split; [done|].
    rewrite iter_xO. do 2 f_equal. lia.
Qed.

Lemma shl_align_val mx ex ez mz :
  - K <= Z.min ex ez -> Z.pos mz = Z.pos mx * 2 ^ (ex - Z.min ex ez) -> val (Z.pos mz) (Z.min ex ez) = val (Z.pos mx) ex.
Proof.
  intros Hk ->. rewrite <- val_shift by lia. f_equal. lia.
Qed.

Lemma normalize_le m e b p :
  0 <= m -> - K <= e -> repr b p -> val m e <= val b p ->
  dposle (binary_normalize dprec demax m e false) (val b p).
Proof.
  intros Hm He [Hb Hp] Hv. destruct m as [|m|m]; [done| |lia]. cbn [binary_normalize]. unfold binary_round.
  destruct (shl_align_spec m e (fexp dprec demax (Z.pos (digits2_pos m) + e))) as (mz & -> & Ez).
  assert (- K <= Z.min e (fexp dprec demax (Z.pos (digits2_pos m) + e))) by (rewrite fexp_val; unfold K in *; lia).
  pose proof (shl_align_val _ _ _ _ H Ez) as Hz.
  destruct (round_aux_le false (Z.pos mz) (Z.min e (fexp dprec demax (Z.pos (digits2_pos m) + e))) loc_Exact b p)
    as [->|(m' & e' & -> & ?)]; try done; try lia; [by left].
Qed.

Lemma dadd_le x y A B b p :
  dposle x A -> dposle y B \/ y = S754_zero true -> 0 <= A -> 0 <= B -> repr b p -> A + B <= val b p ->
  dposle (dadd x y) (val b p).
Proof.
  intros Hx Hy HA HB Hr Hv. unfold dadd, SFadd.
  destruct x as [[]|[]| |[] mx ex]; cbn in Hx; try done.
  - destruct Hy as [Hy| ->]; [|done]. destruct y as [[]|[]| |[] my ey]; cbn in Hy; try done.
    apply (dposle_mono _ B); [lia|done].
  - destruct Hy as [Hy| ->]; [|apply (dposle_mono _ A); [lia|done]].
    destruct y as [[]|[]| |[] my ey]; cbn in Hy; try done; [apply (dposle_mono _ A); [lia|done]|].
    destruct Hx as (Hex & _ & Hvx), Hy as (Hey & _ & Hvy). cbn [cond_Zopp].
    destruct (shl_align_spec mx ex (Z.min ex ey)) as (mz & -> & Ez).
    destruct (shl_align_spec my ey (Z.min ex ey)) as (nz & -> & En). cbn [fst].
    replace (Z.min ex (Z.min ex ey)) with (Z.min ex ey) in Ez by lia.
    replace (Z.min ey (Z.min ex ey)) with (Z.min ex ey) in En by lia.
    apply normalize_le; [lia|unfold K; lia|done|].
    assert (H1 : val (Z.pos mz) (Z.min ex ey) = val (Z.pos mx) ex).
    { rewrite Ez, <- val_shift by (unfold K; lia). f_equal. lia. }
    assert (H2 : val (Z.pos nz) (Z.min ex ey) = val (Z.pos my) ey).
    { rewrite En, <- val_shift by (unfold K; lia). f_equal. lia. }
    unfold val in *. rewrite Z.mul_add_distr_r. lia.
Qed.

Lemma dmul_le x y A B b p :
  dposle x A -> dposle y B -> 0 <= A -> 0 <= B -> repr b p -> A * B <= val b p * 2 ^ K ->
  dposle (dmul x y) (val b p).
Proof.
  intros Hx Hy HA HB [Hb Hp] Hv. unfold dmul, SFmul.
  destruct x as [[]|[]| |[] mx ex]; cbn in Hx; try done.
  - by destruct y as [[]|[]| |[] my ey].
  - destruct y as [[]|[]| |[] my ey]; cbn in Hy; try done. cbn [xorb].
    destruct Hx as (Hex & _ & Hvx), Hy as (Hey & _ & Hvy).
    destruct (round_aux_le false (Z.pos (mx * my)) (ex + ey) loc_Exact b p)
      as [->|(m' & e' & -> & ?)]; try done; try lia; [unfold K; lia| |by left].
    assert (E : val (Z.pos (mx * my)) (ex + ey) * 2 ^ K = val (Z.pos mx) ex * val (Z.pos my) ey).
    { unfold val. rewrite Pos2Z.inj_mul.
      replace (ex + ey + K) with ((ex + K) + (ey + K) - K) by lia.
      rewrite <- !Z.mul_assoc, <- Z.pow_add_r by (unfold K; lia).
      replace (ex + K + (ey + K) - K + K) with ((ex + K) + (ey + K)) by lia.
      rewrite Z.pow_add_r by (unfold K; lia). ring. }
    assert (0 <= val (Z.pos mx) ex) by (unfold val; nia).
    assert (0 <= val (Z.pos my) ey) by (unfold val; nia).
    apply (Zmult_le_reg_r _ _ (2 ^ K)); [|rewrite E; nia].
    apply Z.lt_gt, pow_pos. done.
Qed.

Lemma Zdigits2_ge m k : 0 <= k -> 2 ^ (k - 1) <= m -> 0 <= m -> k <= Zdigits2 m.
Proof.
  intros Hk Hm Hm0. destruct (Z.eq_dec k 0) as [->|]; [by destruct m|].
  assert (0 < m) by (pose proof (pow_pos (k - 1) ltac:(lia)); lia).
  destruct (Zdigits2_bounds m ltac:(lia)) as [[_ H1] ?].
  destruct (Z.le_gt_cases k (Zdigits2 m)) as [|Hc]; [done|exfalso].
  assert (2 ^ Zdigits2 m <= 2 ^ (k - 1)) by (apply Z.pow_le_mono_r; lia). lia.
Qed.

(** The integer quotient of the division core keeps enough digits. *)
Lemma div_digits m1 m2 s :
  0 < m1 -> 0 < m2 -> 0 <= s -> Zdigits2 m1 + s - Zdigits2 m2 <= Zdigits2 (m1 * 2 ^ s / m2).
Proof.
  intros H1 H2 Hs. destruct (Zdigits2_bounds m1 H1) as [[D1 _] P1]. destruct (Zdigits2_bounds m2 H2) as [[_ D2] P2].
  assert (Hq : 0 <= m1 * 2 ^ s / m2) by (apply Z.div_pos; [|done]; pose proof (pow_pos s Hs); nia).
  destruct (Z.le_gt_cases (Zdigits2 m1 + s - Zdigits2 m2) 0).
  { destruct (m1 * 2 ^ s / m2) as [|p|p]; cbn; lia. }
  apply Zdigits2_ge; [lia| |done]. apply Z.div_le_lower_bound; [done|].
  transitivity (2 ^ (Zdigits2 m1 - 1) * 2 ^ s); [|apply Z.mul_le_mono_nonneg_r; [apply Z.pow_nonneg; lia|done]].
  rewrite <- Z.pow_add_r by lia.
  transitivity (2 ^ Zdigits2 m2 * 2 ^ (Zdigits2 m1 + s - Zdigits2 m2 - 1)).
  - apply Z.mul_le_mono_nonneg_r; [apply Z.pow_nonneg; lia|lia].
  - rewrite <- Z.pow_add_r by lia. apply Z.pow_le_mono_r; lia.
Qed.

Lemma ddiv_le x m2 e2 n b p :
  dposle x (n * val b p) -> -2000 <= e2 <= 971 -> val (Z.pos m2) e2 = n * 2 ^ K -> repr b p ->
  dposle (ddiv x (S754_finite false m2 e2)) (val b p).
Proof.
  intros Hx He2 Hy [Hb Hp]. unfold ddiv, SFdiv. destruct x as [[]|[]| |[] m1 e1]; cbn in Hx; try done.
  destruct Hx as (He1 & _ & Hv). cbn [xorb]. unfold SFdiv_core_binary.
  set (e' := Z.min _ _). set (s := e1 - e2 - e').
  assert (Hs : 0 <= s) by lia.
  assert (He' : - K <= e') by (subst e'; rewrite fexp_val; unfold K in *; lia).
  replace (match s with 0 => Z.pos m1 | Z.pos _ => Z.shiftl (Z.pos m1) s | Z.neg _ => 0 end)
    with (Z.pos m1 * 2 ^ s) by (destruct s; [lia|by rewrite Z.shiftl_mul_pow2|lia]).
  pose proof (div_digits (Z.pos m1) (Z.pos m2) s ltac:(done) ltac:(done) Hs) as Hd.
  pose proof (Z_div_mod (Z.pos m1 * 2 ^ s) (Z.pos m2) ltac:(done)) as Hqr. unfold Z.div in Hd.
  destruct (Z.div_eucl (Z.pos m1 * 2 ^ s) (Z.pos m2)) as [q r]. destruct Hqr as [Hq Hr].
  assert (Hq0 : 0 <= q).
  { assert (0 < Z.pos m1 * 2 ^ s) by (pose proof (pow_pos s Hs); lia).
    destruct (Z.le_gt_cases 0 q); [done|]. assert (Z.pos m2 * q <= Z.pos m2 * -1) by (apply Z.mul_le_mono_nonneg_l; lia). lia. }
  assert (Hscale : val q e' * val (Z.pos m2) e2 + r * 2 ^ (e' + e2 + 2 * K) = val (Z.pos m1) e1 * 2 ^ K).
  { unfold val. transitivity (Z.pos m1 * 2 ^ s * 2 ^ (e' + e2 + 2 * K)).
    - rewrite Hq. replace (e' + e2 + 2 * K) with ((e' + K) + (e2 + K)) by lia.
      rewrite (Z.pow_add_r 2 (e' + K) (e2 + K)) by (unfold K in *; lia). ring.
    - rewrite <- !Z.mul_assoc, <- !Z.pow_add_r by (unfold K in *; lia). do 2 f_equal. lia. }
  assert (Hpk : 0 < 2 ^ (e' + e2 + 2 * K)) by (apply pow_pos; unfold K in *; lia).
  assert (HK : 0 < 2 ^ K) by (by apply pow_pos).
  assert (Hy0 : 0 < val (Z.pos m2) e2) by (unfold val; pose proof (pow_pos (e2 + K) ltac:(unfold K in *; lia)); lia).
  rewrite Hy in Hscale, Hy0.
  assert (Hle : val q e' <= val b p /\ (r <> 0 -> val q e' < val b p)) by (split; nia).
  destruct (round_aux_le false q e' (new_location (Z.pos m2) r) b p) as [->|(m' & ex' & -> & ?)]; try done; [tauto|].
  destruct (Z.eq_dec r 0) as [->|Hr0].
  { left. unfold new_location, new_location_even, new_location_odd. by case_match. }
  right. split; [|tauto]. transitivity (fexp dprec demax (Zdigits2 (Z.pos m1) + e1 - (Zdigits2 (Z.pos m2) + e2))).
  - lia.
  - rewrite !fexp_val. cbn [fst] in Hd. lia.
Qed.

(** ** Small integers are exact *)

Lemma doubleOfZ_exact n :
  0 < n < 2 ^ 53 ->
  exists m e, doubleOfZ n = S754_finite false m e /\ -53 <= e <= 0 /\ Z.pos m < 2 ^ 53 /\
    Z.pos m = n * 2 ^ (- e).
Proof.
  intros Hn. destruct n as [|n|n]; [lia| |lia]. unfold doubleOfZ, binary_normalize, binary_round.
  destruct (digits2_bounds n) as [Hd1 Hd2]. set (d := Z.pos (digits2_pos n)) in *.
  assert (Hd : 0 < d <= 53).
  { split; [done|]. pose proof (Zdigits2_lt (Z.pos n) 53 ltac:(done) ltac:(lia)). done. }
  replace (fexp dprec demax (d + 0)) with (d - 53) by (rewrite fexp_val; lia).
  destruct (shl_align_spec n 0 (d - 53)) as (mz & -> & Ez). replace (Z.min 0 (d - 53)) with (d - 53) in * by lia.
  replace (0 - (d - 53)) with (53 - d) in Ez by lia.
  assert (Hp : 0 < 2 ^ (53 - d)) by (apply pow_pos; lia).
  assert (Hz : 2 ^ 52 <= Z.pos mz < 2 ^ 53).
  { rewrite Ez. split.
    - replace 52 with (d - 1 + (53 - d)) by lia. rewrite Z.pow_add_r by lia. nia.
    - replace 53 with (d + (53 - d)) at 2 by lia. rewrite Z.pow_add_r by lia. nia. }
  assert (Hdz : Zdigits2 (Z.pos mz) = 53).
  { pose proof (Zdigits2_lt (Z.pos mz) 53 ltac:(done) ltac:(lia)).
    pose proof (Zdigits2_ge (Z.pos mz) 53 ltac:(done) ltac:(lia) ltac:(lia)). lia. }
  destruct (round_aux_stages false (Z.pos mz) (d - 53) loc_Exact ltac:(done)) as (m1 & H1 & H2 & ->).
  cbn zeta in *. rewrite Hdz in *. replace (Z.max (d - 53) (fexp dprec demax (53 + (d - 53)))) with (d - 53) in *
    by (rewrite fexp_val; lia).
  rewrite Z.sub_diag in *. change (2 ^ 0) with 1 in *. rewrite Z.div_1_r, Z.mul_1_r in *.
  assert (m1 = Z.pos mz) as -> by (destruct H2 as [|[|]]; [done|done|lia]). rewrite Hdz.
  replace (Z.max (d - 53) (fexp dprec demax (53 + (d - 53)))) with (d - 53) by (rewrite fexp_val; lia).
  rewrite Z.sub_diag. change (2 ^ 0) with 1. rewrite Z.div_1_r.
  destruct (Z.leb_spec (d - 53) 971); [|lia]. exists mz, (d - 53). split_and!; [done|lia|lia|lia|].
  rewrite Ez. do 2 f_equal. lia.
Qed.

Lemma doubleOfZ_val n m e : Z.pos m = n * 2 ^ (- e) -> -53 <= e <= 0 -> val (Z.pos m) e = n * 2 ^ K.
Proof.
  intros -> He. unfold val. rewrite <- Z.mul_assoc, <- Z.pow_add_r by (unfold K; lia). do 2 f_equal. lia.
Qed.

Lemma doubleOfZ_le n : 0 <= n < 2 ^ 53 -> dposle (doubleOfZ n) (n * 2 ^ K).
Proof.
  intros Hn. destruct (Z.eq_dec n 0) as [->|]; [done|].
  destruct (doubleOfZ_exact n ltac:(lia)) as (m & e & -> & He & Hm & Ev). cbn.
  split_and!; [lia|done|]. rewrite (doubleOfZ_val n m e Ev He). lia.
Qed.

(** ** Truncation *)

(** The truncated value [w] satisfies [w <= x < w + 1]. *)
Lemma u64OfDouble_spec x B :
  dposle x (val B 0) -> 0 <= B < 2 ^ 64 ->
  exists w, u64OfDouble x = Ret w /\ 0 <= w <= B /\
    (forall m e, x = S754_finite false m e -> w * 2 ^ K <= val (Z.pos m) e < (w + 1) * 2 ^ K).
Proof.
  intros Hx HB. destruct x as [[]|[]| |[] m e]; cbn in Hx; try done.
  { exists 0. split_and!; [done|lia|lia|done]. }
  destruct Hx as (He & Hm & Hv). unfold u64OfDouble. set (w := if 0 <=? e then _ else _).
  assert (HK : 0 < 2 ^ K) by (by apply pow_pos).
  assert (Hw : w * 2 ^ K <= val (Z.pos m) e < (w + 1) * 2 ^ K).
  { subst w. unfold val. destruct (Z.leb_spec 0 e).
    - rewrite Z.pow_add_r by (unfold K; lia). rewrite Z.mul_assoc. lia.
    - pose proof (pow_pos (- e) ltac:(lia)) as Hp. pose proof (Z_div_mod_eq_full (Z.pos m) (2 ^ (- e))) as E.
      pose proof (Z.mod_pos_bound (Z.pos m) (2 ^ (- e)) Hp) as R.
      assert (Epk : 2 ^ K = 2 ^ (- e) * 2 ^ (e + K)) by (rewrite <- Z.pow_add_r by (unfold K; lia); f_equal; lia).
      rewrite Epk. pose proof (pow_pos (e + K) ltac:(unfold K; lia)). nia. }
  unfold val at 1 in Hv. unfold val in Hv. rewrite Z.add_0_l in Hv.
  assert (Hwb : 0 <= w <= B).
  { split; [|unfold val in Hw; nia]. subst w. destruct (Z.leb_spec 0 e); [|apply Z.div_pos; [lia|apply pow_pos; lia]].
    pose proof (Z.pow_nonneg 2 e ltac:(lia)). lia. }
  exists w. destruct (Z.ltb_spec w 0), (Z.leb_spec (2 ^ 64) w); try lia. cbn [orb].
  split_and!; try done; try lia. by intros m' e' [= <- <-].
Qed.

(** ** Every conversion yields a double of the format *)

Definition dcanonical (x : double) : Prop :=
  match x with S754_finite _ m e => demin <= e /\ Z.pos m < 2 ^ 53 | _ => True end.

Lemma round_aux_canonical sx mx ex lx : 0 <= mx -> dcanonical (binary_round_aux dprec demax sx mx ex lx).
Proof.
  intros Hm. destruct (round_aux_stages sx mx ex lx Hm) as (m1 & H1 & _ & ->). cbn zeta in *.
  set (e1 := Z.max ex _) in *. set (e2 := Z.max e1 _) in *.
  assert (Hm' : 0 <= mx / 2 ^ (e1 - ex)) by (apply Z.div_pos; [done|apply pow_pos; lia]).
  assert (Hm2 : m1 / 2 ^ (e2 - e1) < 2 ^ 53).
  { apply Z.div_lt_upper_bound; [apply pow_pos; lia|]. rewrite <- Z.pow_add_r by lia.
    destruct (Z.eq_dec m1 0) as [->|]; [apply pow_pos; lia|].
    destruct (Zdigits2_bounds m1 ltac:(lia)) as [[_ Hd] ?]. eapply Z.lt_le_trans; [exact Hd|].
    apply Z.pow_le_mono_r; [lia|]. subst e2. rewrite fexp_val. lia. }
  destruct (m1 / 2 ^ (e2 - e1)) as [|m|m]; [done| |done]. destruct (e2 <=? 971); [|done].
  cbn. split; [|done]. subst e2. rewrite fexp_val. lia.
Qed.

Lemma normalize_canonical m e s : dcanonical (binary_normalize dprec demax m e s).
Proof.
  destruct m as [|m|m]; [done| |]; cbn [binary_normalize]; unfold binary_round;
    destruct (shl_align _ _ _) as [mz ez]; by apply round_aux_canonical.
Qed.

Lemma doubleOfDecimal_canonical neg m e : dcanonical (doubleOfDecimal neg m e).
Proof.
  unfold doubleOfDecimal. destruct m as [|m|m]; [done| |done].
  destruct (Z.leb_spec 0 e) as [|He]; [apply normalize_canonical|].
  unfold SFdiv_core_binary. set (s := Z.sub _ _). set (m' := match s with 0 => _ | Z.pos _ => _ | Z.neg _ => _ end).
  assert (0 <= m').
  { subst m'. destruct s as [|p|p]; [done| |done]. rewrite Z.shiftl_mul_pow2 by done.
    pose proof (pow_pos (Z.pos p) ltac:(done)). lia. }
  assert (H10 : 0 < 10 ^ (- e)) by (apply Z.pow_pos_nonneg; lia).
  pose proof (Z.div_pos m' (10 ^ (- e)) ltac:(done) H10) as Hq. unfold Z.div in Hq.
  destruct (Z.div_eucl m' (10 ^ (- e))) as [q r]. by apply round_aux_canonical.
Qed.

Lemma fromCharsDouble_canonical s v r : fromCharsDouble s = Some (v, r) -> dcanonical v.
Proof.
  unfold fromCharsDouble, infOrNan. intros H.
  repeat (case_match; simplify_eq; try done);
  match goal with E : doubleOfDecimal ?n ?m ?e = _ |- _ => pose proof (doubleOfDecimal_canonical n m e) as C; by rewrite E in C end.
Qed.

(** ** The fractional part *)

Lemma dsub_frac m e w :
  demin <= e -> Z.pos m < 2 ^ 53 -> 0 <= w < 2 ^ 53 -> w * 2 ^ K <= val (Z.pos m) e < (w + 1) * 2 ^ K ->
  dposle (dsub (S754_finite false m e) (doubleOfZ w)) (val 1 0).
Proof.
  intros He Hm Hw Hv. assert (E1 : val 1 0 = 2 ^ K) by (unfold val; by rewrite Z.mul_1_l).
  destruct (Z.eq_dec w 0) as [->|Hw0].
  { cbn. split_and!; [done|done|]. lia. }
  destruct (doubleOfZ_exact w ltac:(lia)) as (mw & ew & -> & Hew & Hmw & Evw).
  pose proof (doubleOfZ_val w mw ew Evw Hew) as Hvw. unfold dsub, SFsub. cbn [cond_Zopp].
  destruct (shl_align_spec m e (Z.min e ew)) as (mz & -> & Ez).
  destruct (shl_align_spec mw ew (Z.min e ew)) as (nz & -> & En). cbn [fst].
  replace (Z.min e (Z.min e ew)) with (Z.min e ew) in Ez by lia.
  replace (Z.min ew (Z.min e ew)) with (Z.min e ew) in En by lia.
  assert (H1 : val (Z.pos mz) (Z.min e ew) = val (Z.pos m) e).
  { rewrite Ez, <- val_shift by (unfold K; lia). f_equal. lia. }
  assert (H2 : val (Z.pos nz) (Z.min e ew) = w * 2 ^ K).
  { rewrite <- Hvw, En, <- val_shift by (unfold K; lia). f_equal. lia. }
  assert (Hd : val (Z.pos mz - Z.pos nz) (Z.min e ew) = val (Z.pos m) e - w * 2 ^ K)
    by (rewrite <- H1, <- H2; unfold val; ring).
  apply normalize_le; [|unfold K; lia|done|lia].
  unfold val in Hd at 1. pose proof (pow_pos (Z.min e ew + K) ltac:(unfold K; lia)). nia.
Qed.
