(* ===== verification/LineParser.v ===== *)
(** * Line validation (server/src/parser/LogLineParser.h, .cpp)

    [parse] is the default-deny pipeline: bytes, frame
    [[ts][pid][tid][sess] BYDA::module: message], timestamp and session range,
    header numbers, brackets, module whitelist, per-module fields, spd.  Each
    stage is one definition; [let?] is the code's early [return skip(reason)].
    [CleanLine] is the specification of an acceptable line, stated on the text
    as a whole. *)

From stdpp Require Import sets.
From S2P Require Import Prelude StringView Charconv Binary64.

Module SkipReason.
Inductive t :=
| LineTooLong | Empty | CtrlChar | BadFrame | BadBracket | BadTimestamp | TsOutOfRange
| BadNumber | NumOutOfRange | UnknownModule | MapLimit.

#[global] Instance t_eq_dec : EqDecision t.
Proof. solve_decision. Defined.

(** The enumerators in order; [kSkipReasonCount] is their number. *)
Definition all : list t :=
  [LineTooLong; Empty; CtrlChar; BadFrame; BadBracket; BadTimestamp; TsOutOfRange;
   BadNumber; NumOutOfRange; UnknownModule; MapLimit].

(** [static_cast<std::size_t>(reason)] *)
Definition index (r : t) : Z :=
  match r with
  | LineTooLong => 0 | Empty => 1 | CtrlChar => 2 | BadFrame => 3 | BadBracket => 4
  | BadTimestamp => 5 | TsOutOfRange => 6 | BadNumber => 7 | NumOutOfRange => 8
  | UnknownModule => 9 | MapLimit => 10
  end.
End SkipReason.

Definition skipReasonCode (reason : SkipReason.t) : bytes :=
  match reason with
  | SkipReason.LineTooLong => bs "LINE_TOO_LONG"
  | SkipReason.Empty => bs "EMPTY"
  | SkipReason.CtrlChar => bs "CTRL_CHAR"
  | SkipReason.BadFrame => bs "BAD_FRAME"
  | SkipReason.BadBracket => bs "BAD_BRACKET"
  | SkipReason.BadTimestamp => bs "BAD_TIMESTAMP"
  | SkipReason.TsOutOfRange => bs "TS_OUT_OF_RANGE"
  | SkipReason.BadNumber => bs "BAD_NUMBER"
  | SkipReason.NumOutOfRange => bs "NUM_OUT_OF_RANGE"
  | SkipReason.UnknownModule => bs "UNKNOWN_MODULE"
  | SkipReason.MapLimit => bs "MAP_LIMIT"
  end.

Module ModuleId.
Inductive t :=
| RadarTrackNodeState | AntennaProfileSpec | BeamSteerCtrlUnitImpl
| DetectionTaskRunner | SectorSchedulerRTS.

#[global] Instance t_eq_dec : EqDecision t.
Proof. solve_decision. Defined.

Definition all : list t :=
  [RadarTrackNodeState; AntennaProfileSpec; BeamSteerCtrlUnitImpl; DetectionTaskRunner;
   SectorSchedulerRTS].

Definition index (m : t) : Z :=
  match m with
  | RadarTrackNodeState => 0 | AntennaProfileSpec => 1 | BeamSteerCtrlUnitImpl => 2
  | DetectionTaskRunner => 3 | SectorSchedulerRTS => 4
  end.
End ModuleId.

(** [struct ModuleSpec] and the table [kModules], row by row. *)
Record ModuleSpec := mkSpec {
  spec_id : ModuleId.t;             (* static_cast<ModuleId>(i) of the row *)
  spec_name : bytes;
  spec_intFields : list bytes;      (* an empty name marks an unused entry *)
  spec_arrowField : bytes }.

Definition kModules : list ModuleSpec :=
  [mkSpec ModuleId.RadarTrackNodeState (bs "RadarTrackNodeState") [bs "nodeUID"; bs "rfLane"] (bs "lockState");
   mkSpec ModuleId.AntennaProfileSpec (bs "AntennaProfileSpec") [bs "sectorID"; []] [];
   mkSpec ModuleId.BeamSteerCtrlUnitImpl (bs "BeamSteerCtrlUnitImpl") [bs "unitAddr"; []] [];
   mkSpec ModuleId.DetectionTaskRunner (bs "DetectionTaskRunner") [bs "jobID"; []] [];
   mkSpec ModuleId.SectorSchedulerRTS (bs "SectorSchedulerRTS") [bs "jobID"; bs "gatedFlag"] []].

Definition moduleName (id : ModuleId.t) : bytes :=
  match id with
  | ModuleId.RadarTrackNodeState => bs "RadarTrackNodeState"
  | ModuleId.AntennaProfileSpec => bs "AntennaProfileSpec"
  | ModuleId.BeamSteerCtrlUnitImpl => bs "BeamSteerCtrlUnitImpl"
  | ModuleId.DetectionTaskRunner => bs "DetectionTaskRunner"
  | ModuleId.SectorSchedulerRTS => bs "SectorSchedulerRTS"
  end.

Definition kSpdMin : double := dzero.
Definition kSpdMax : double := doubleOfZ 10000000.
Definition kTsRangeHours : Z := 48.

Record ParsedLine := mkLine {
  pl_module : ModuleId.t;
  pl_year : Z; pl_month : Z; pl_day : Z; pl_hour : Z;
  pl_hasSpd : bool; pl_spdInRange : bool; pl_spd : double }.

(** [LogLineParser::Result] *)
Inductive Result :=
| Parsed (line : ParsedLine)
| Skip (reason : SkipReason.t).

(** A step that may leave the function with [return skip(reason)]. *)
Definition checked (A : Type) : Type := outcome (SkipReason.t + A).
Definition pass {A} (a : A) : checked A := Ret (inr a).
Definition skip {A} (r : SkipReason.t) : checked A := Ret (inl r).
Definition cbind {A B} (m : checked A) (k : A -> checked B) : checked B :=
  let* x := m in
  match x with
  | inl r => skip r
  | inr a => k a
  end.
Notation "'let?' p := m 'in' k" := (cbind m (fun p => k))
  (at level 10, p as pattern, m at level 200, k at level 200) : cxx_scope.

(** ** Numbers *)

Definition parseInt64Field (token : bytes) : checked Z :=
  match token with
  | [] => skip SkipReason.BadNumber
  | b :: _ =>
      if negb (isDigit b) then skip SkipReason.BadNumber else
      let '(ec, out, rest) := fromCharsInt64 token 0 in
      match ec with
      | ResultOutOfRange => skip SkipReason.NumOutOfRange
      | InvalidArgument => skip SkipReason.BadNumber
      | Success => if zlen rest =? 0 then pass out else skip SkipReason.BadNumber
      end
  end.

Definition parseDoubleField (token : bytes) : option double :=
  match token with
  | [] => None
  | _ =>
      match fromCharsDouble token with
      | Some (v, rest) => if (zlen rest =? 0) && isfinite v then Some v else None
      | None => None
      end
  end.

Definition allDigits (s : bytes) : bool :=
  match s with
  | [] => false
  | _ => forallb isDigit s
  end.

Definition isArrowPair (token : bytes) : outcome bool :=
  match vfindStr token (bs "->") 0 with
  | None => Ret false
  | Some arrow =>
      if arrow =? 0 then Ret false else
      let* a := substr token 0 arrow in
      let* b := substr token (arrow + 2) (zlen token) in
      Ret (allDigits a && allDigits b)
  end.

(** ** Calendar *)

(** The C++ quotients truncate; [unsigned] values are kept at 32 bits. *)
Definition daysFromCivil (y m d : Z) : Z :=
  let y := y - (if m <=? 2 then 1 else 0) in
  let era := Z.quot (if 0 <=? y then y else y - 399) 400 in
  let yoe := u32 (y - era * 400) in
  let doy := u32 (Z.quot (153 * (m + (if 2 <? m then -3 else 9)) + 2) 5 + d - 1) in
  let doe := u32 (yoe * 365 + yoe / 4 - yoe / 100 + doy) in
  era * 146097 + doe - 719468.

Definition isLeapYear (y : Z) : bool :=
  ((Z.rem y 4 =? 0) && negb (Z.rem y 100 =? 0)) || (Z.rem y 400 =? 0).

Definition daysInMonth (y m : Z) : outcome Z :=
  if (m =? 2) && isLeapYear y then Ret 29
  else vat [31; 28; 31; 30; 31; 30; 31; 31; 30; 31; 30; 31] (m - 1).

Fixpoint allDigitsAt (s : bytes) (pos : Z) (count : nat) : outcome bool :=
  match count with
  | O => Ret true
  | S count =>
      let* b := vget s pos in
      if negb (isDigit b) then Ret false else allDigitsAt s (pos + 1) count
  end.

Fixpoint digitsToInt (s : bytes) (pos : Z) (count : nat) (v : Z) : outcome Z :=
  match count with
  | O => Ret v
  | S count =>
      let* b := vget s pos in digitsToInt s (pos + 1) count (v * 10 + digitVal b)
  end.

(** The short-circuit conjunction of checks that read the text. *)
Definition oand (a b : outcome bool) : outcome bool :=
  let* x := a in if x : bool then b else Ret false.

Definition charAt (s : bytes) (pos : Z) (c : byte) : outcome bool :=
  let* b := vget s pos in Ret (bool_decide (b = c)).

(** [Some (year, month, day, hour, absSeconds)], or [None] for [false]. *)
Definition parseTimestamp (ts : bytes) : outcome (option (Z * Z * Z * Z * Z)) :=
  if negb (zlen ts =? 26) then Ret None else
  let* seps :=
    oand (charAt ts 4 "-"%byte) (oand (charAt ts 7 "-"%byte) (oand (charAt ts 10 "_"%byte)
    (oand (charAt ts 13 ":"%byte) (oand (charAt ts 16 ":"%byte) (charAt ts 19 "."%byte))))) in
  if negb seps then Ret None else
  let* digits :=
    oand (allDigitsAt ts 0 4) (oand (allDigitsAt ts 5 2) (oand (allDigitsAt ts 8 2)
    (oand (allDigitsAt ts 11 2) (oand (allDigitsAt ts 14 2) (oand (allDigitsAt ts 17 2)
    (allDigitsAt ts 20 6)))))) in
  if negb digits then Ret None else
  let* year := digitsToInt ts 0 4 0 in
  let* month := digitsToInt ts 5 2 0 in
  let* day := digitsToInt ts 8 2 0 in
  let* hour := digitsToInt ts 11 2 0 in
  let* minute := digitsToInt ts 14 2 0 in
  let* second := digitsToInt ts 17 2 0 in
  if (month <? 1) || (12 <? month) || (day <? 1) then Ret None else
  let* dim := daysInMonth year month in
  if (dim <? day) || (23 <? hour) || (59 <? minute) || (59 <? second) then Ret None else
  Ret (Some (year, month, day, hour,
             daysFromCivil year month day * 86400 + hour * 3600 + minute * 60 + second)).

(** ** Brackets and fields *)

Fixpoint bracketsLoop (open : bool) (contentLen : Z) (message : bytes) : bool :=
  match message with
  | [] => negb open
  | ch :: message =>
      if bool_decide (ch = "["%byte) then
        if open then false else bracketsLoop true 0 message
      else if bool_decide (ch = "]"%byte) then
        if negb open || (contentLen =? 0) then false else bracketsLoop false contentLen message
      else if open then bracketsLoop open (contentLen + 1) message
      else bracketsLoop open contentLen message
  end.

Definition bracketsSane (message : bytes) : bool := bracketsLoop false 0 message.

(** The [while (pos < message.size())] loop; [None] is [return false]. *)
Fixpoint findFieldLoop (fuel : nat) (message name : bytes) (pos : Z) : outcome (option bytes) :=
  match fuel with
  | O => NoFuel
  | S fuel =>
      if zlen message <=? pos then Ret None else
      match vfindStr message name pos with
      | None => Ret None
      | Some found =>
          let* boundaryOk :=
            (if found =? 0 then Ret true else
             let* c := vget message (found - 1) in
             Ret (bool_decide (c = " "%byte) || bool_decide (c = ","%byte) ||
                  bool_decide (c = ":"%byte))) in
          let bracket := found + zlen name in
          let* isOpen :=
            (if boundaryOk && (bracket <? zlen message) then charAt message bracket "["%byte
             else Ret false) in
          if isOpen : bool then
            match vfind message "]"%byte (bracket + 1) with
            | None => Ret None
            | Some close =>
                let* token := substr message (bracket + 1) (close - bracket - 1) in
                Ret (Some token)
            end
          else findFieldLoop fuel message name (found + 1)
      end
  end.

Definition findField (message name : bytes) : outcome (option bytes) :=
  findFieldLoop (S (length message)) message name 0.

(** ** The pipeline *)

Definition stage0 (text : bytes) (tooLong : bool) : checked unit :=
  if tooLong then skip SkipReason.LineTooLong
  else if forallb (fun ch => bool_decide (ch = " "%byte)) text then skip SkipReason.Empty
  else if existsb (fun ch => (b2z ch <? 0x20) || (b2z ch =? 0x7F)) text
  then skip SkipReason.CtrlChar
  else pass tt.

(** [for (auto& token : headerTokens)]: [n] bracketed fields from [pos]. *)
Fixpoint headerTokens (n : nat) (text : bytes) (pos : Z) : checked (list bytes * Z) :=
  match n with
  | O => pass ([], pos)
  | S n =>
      if zlen text <=? pos then skip SkipReason.BadFrame else
      let* isOpen := charAt text pos "["%byte in
      if negb isOpen then skip SkipReason.BadFrame else
      match vfind text "]"%byte (pos + 1) with
      | None => skip SkipReason.BadFrame
      | Some close =>
          if close =? pos + 1 then skip SkipReason.BadFrame else
          let* token := substr text (pos + 1) (close - pos - 1) in
          let? (tokens, pos) := headerTokens n text (close + 1) in
          pass (token :: tokens, pos)
      end
  end.

Definition kSeparator : bytes := bs " BYDA::".

(** Header tokens, module and message. *)
Definition frame (text : bytes) : checked (list bytes * bytes * bytes) :=
  let? (tokens, pos) := headerTokens 4 text 0 in
  let* sep := substr text pos (zlen kSeparator) in   (* text.compare(pos, 7, " BYDA::") *)
  if negb (bool_decide (sep = kSeparator)) then skip SkipReason.BadFrame else
  let pos := pos + zlen kSeparator in
  match vfind text ":"%byte pos with
  | None => skip SkipReason.BadFrame
  | Some moduleEnd =>
      if (moduleEnd =? pos) || (zlen text <=? moduleEnd + 1) then skip SkipReason.BadFrame else
      let* isSpace := charAt text (moduleEnd + 1) " "%byte in
      if negb isSpace then skip SkipReason.BadFrame else
      let* module := substr text pos (moduleEnd - pos) in
      let* message := substr text (moduleEnd + 2) (zlen text) in
      pass (tokens, module, message)
  end.

(** The three numeric header fields; the [int64] values are not kept. *)
Fixpoint headerNumbers (tokens : list bytes) : checked unit :=
  match tokens with
  | [] => pass tt
  | token :: tokens => let? _ := parseInt64Field token in headerNumbers tokens
  end.

Definition findSpec (module : bytes) : option ModuleSpec :=
  find (fun s => bool_decide (spec_name s = module)) kModules.

Fixpoint intFieldsOk (message : bytes) (fields : list bytes) : checked unit :=
  match fields with
  | [] => pass tt
  | fieldName :: fields =>
      if zlen fieldName =? 0 then intFieldsOk message fields else
      let* token := findField message fieldName in
      match token with
      | None => intFieldsOk message fields
      | Some token => let? _ := parseInt64Field token in intFieldsOk message fields
      end
  end.

Definition arrowFieldOk (message arrowField : bytes) : checked unit :=
  if zlen arrowField =? 0 then pass tt else
  let* token := findField message arrowField in
  match token with
  | None => pass tt
  | Some token =>
      let* ok := isArrowPair token in
      if ok : bool then pass tt else skip SkipReason.BadNumber
  end.

(** [(hasSpd, spdInRange, spd)] of a BeamSteerCtrlUnitImpl message. *)
Definition spdFields (message : bytes) : checked (bool * bool * double) :=
  let* spdToken := findField message (bs "spd") in
  let* advToken := findField message (bs "advDelta") in
  let? spd :=
    match spdToken with
    | None => pass None
    | Some token =>
        match parseDoubleField token with
        | None => skip SkipReason.BadNumber
        | Some v => pass (Some v)
        end
    end in
  let? _ :=
    match advToken with
    | None => pass tt
    | Some token =>
        match parseDoubleField token with
        | None => skip SkipReason.BadNumber
        | Some _ => pass tt
        end
    end in
  match spd with
  | None => pass (false, false, dzero)
  | Some spd =>
      let inRange := dle kSpdMin spd && dlt spd kSpdMax in
      pass (true, inRange, if inRange then spd else dzero)
  end.

Module LogLineParser.
Record t := mk { hasAnchor : bool; anchorSeconds : Z }.

Definition init : t := mk false 0.
Definition reset (p : t) : t := mk false 0.

(** Stage 2: [(year, month, day, hour, absSeconds)], in the session's range. *)
Definition stage2 (p : t) (ts : bytes) : checked (Z * Z * Z * Z * Z) :=
  let* stamp := parseTimestamp ts in
  match stamp with
  | None => skip SkipReason.BadTimestamp
  | Some (year, month, day, hour, absSeconds) =>
      let limit := kTsRangeHours * 3600 in
      let delta := absSeconds - anchorSeconds p in
      if hasAnchor p && ((limit <? delta) || (delta <? - limit)) then skip SkipReason.TsOutOfRange
      else pass (year, month, day, hour, absSeconds)
  end.

(** Stage 4: brackets, module whitelist, the module's fields, spd. *)
Definition stage4 (module message : bytes) : checked (ModuleId.t * (bool * bool * double)) :=
  if negb (bracketsSane message) then skip SkipReason.BadBracket else
  match findSpec module with
  | None => skip SkipReason.UnknownModule
  | Some spec =>
      let? _ := intFieldsOk message (spec_intFields spec) in
      let? _ := arrowFieldOk message (spec_arrowField spec) in
      let? spd :=
        (if bool_decide (spec_id spec = ModuleId.BeamSteerCtrlUnitImpl) then spdFields message
         else pass (false, false, dzero)) in
      pass (spec_id spec, spd)
  end.

(** Every stage, before the anchor is settled. *)
Definition validate (p : t) (text : bytes) (tooLong : bool) : checked (ParsedLine * Z) :=
  let? _ := stage0 text tooLong in
  let? (tokens, module, message) := frame text in
  let* ts := vat tokens 0 in
  let? (year, month, day, hour, absSeconds) := stage2 p ts in
  let? _ := headerNumbers (drop 1 tokens) in
  let? (id, (hasSpd, spdInRange, spd)) := stage4 module message in
  pass (mkLine id year month day hour hasSpd spdInRange spd, absSeconds).

Definition parse (p : t) (text : bytes) (tooLong : bool) : outcome (t * Result) :=
  let* r := validate p text tooLong in
  match r with
  | inl reason => Ret (p, Skip reason)
  | inr (line, absSeconds) =>
      Ret ((if hasAnchor p then p else mk true absSeconds), Parsed line)
  end.
End LogLineParser.

(** ** Specification of the parts *)

(** [ [tok] ] *)
Definition bracketed (tok : bytes) : bytes := ["["%byte] ++ tok ++ ["]"%byte].

Definition headerToken (tok : bytes) : Prop := tok <> [] /\ ~ "]"%byte ∈ tok.

(** A decimal number that fits [int64_t]. *)
Definition int64Text (tok : bytes) : Prop :=
  tok <> [] /\ forallb isDigit tok = true /\ digitsVal tok <= 2 ^ 63 - 1.

(** Text without brackets, and bracketed non-empty text without brackets, in
    any sequence. *)
Inductive Balanced : bytes -> Prop :=
| bal_nil : Balanced []
| bal_char c m : c <> "["%byte -> c <> "]"%byte -> Balanced m -> Balanced (c :: m)
| bal_field s m :
    s <> [] -> ~ "["%byte ∈ s -> ~ "]"%byte ∈ s -> Balanced m -> Balanced (bracketed s ++ m).

(** *** Header *)

Lemma charAt_pre pre b r p c : p = zlen pre -> charAt (pre ++ b :: r) p c = Ret (bool_decide (b = c)).
Proof. intros ->. unfold charAt. by rewrite vget_pre. Qed.

Lemma zlen_bracketed tok : zlen (bracketed tok) = zlen tok + 2.
Proof. unfold bracketed. zlen_lia. Qed.
#[export] Hint Rewrite zlen_bracketed : zlen.

(** Every way through the header loop: the fields when they are there, else a
    skip. *)
Lemma headerTokens_spec n : forall pre rest,
  (exists toks rest', rest = concat (map bracketed toks) ++ rest' /\
     length toks = n /\ Forall headerToken toks /\
     headerTokens n (pre ++ rest) (zlen pre)
     = pass (toks, zlen pre + zlen (concat (map bracketed toks)))) \/
  (headerTokens n (pre ++ rest) (zlen pre) = skip SkipReason.BadFrame /\
   forall toks rest', rest = concat (map bracketed toks) ++ rest' -> length toks = n ->
     ~ Forall headerToken toks).
Proof.
  induction n as [|n IH]; intros pre rest; cbn [headerTokens].
  - left. exists [], rest. cbn. rewrite (@zlen_nil byte), Z.add_0_r. by split_and!.
  - rewrite zlen_app. destruct (Z.leb_spec (zlen pre + zlen rest) (zlen pre)) as [Hle|Hlt].
    { right. split; [done|]. intros [|t toks] rest' E; [done|]. apply (f_equal zlen) in E.
      cbn [map concat] in E. rewrite !zlen_app, zlen_bracketed in E. zlen_lia. }
    destruct rest as [|b rest]; [rewrite (@zlen_nil byte) in Hlt; lia|].
    rewrite charAt_pre by done. rewrite obind_Ret.
    destruct (bool_decide_reflect (b = "["%byte)) as [->|Hb]; cbn [negb].
    2:{ right. split; [done|]. intros [|t toks] rest' E; [done|]. by injection E. }
    rewrite cons_middle, app_assoc.
    destruct (vfind _ "]"%byte (zlen pre + 1)) as [close|] eqn:Hf.
    2:{ right. split; [done|]. intros [|t toks] rest' E Hlen HF; [done|].
        apply Forall_cons_iff in HF as [[_ Ht] _]. cbn in E. injection E as ->.
        rewrite <- !app_assoc in Hf. rewrite (app_assoc pre) in Hf. cbn [app] in Hf.
        rewrite vfind_pre in Hf; [done|zlen_lia|done]. }
    apply vfind_pre_inv in Hf as (tok & r & -> & Ht & ->); [|zlen_lia].
    destruct (Z.eqb_spec (zlen pre + 1 + zlen tok) (zlen pre + 1)) as [He|Hne].
    { right. split; [done|]. intros [|t toks] rest' E Hlen HF; [done|].
      apply Forall_cons_iff in HF as [[Hn Ht'] _]. cbn in E. injection E as E.
      assert (tok = []) as -> by (apply zlen_0_inv; lia).
      destruct t as [|x t]; [done|]. injection E as <- _. set_solver. }
    rewrite substr_pre by zlen_lia. rewrite obind_Ret.
    assert (Epre : (pre ++ ["["%byte]) ++ tok ++ "]"%byte :: r = (pre ++ bracketed tok) ++ r)
      by (unfold bracketed; by rewrite <- !app_assoc).
    rewrite Epre. replace (zlen pre + 1 + zlen tok + 1) with (zlen (pre ++ bracketed tok)) by zlen_lia.
    assert (Htok : tok <> []) by (intros ->; rewrite (@zlen_nil byte) in Hne; lia).
    destruct (IH (pre ++ bracketed tok) r) as [(toks & rest' & -> & Hl & HF & ->)|[-> Hno]].
    + left. exists (tok :: toks), rest'. cbn [map concat length]. unfold cbind, pass. rewrite obind_Ret.
      split_and!; [unfold bracketed; by rewrite <- !app_assoc|lia|by constructor|].
      do 3 f_equal. zlen_lia.
    + right. split; [done|]. intros [|t toks] rest' E Hl HF; [done|].
      apply Forall_cons_iff in HF as [[Hn Ht'] HF]. cbn in E. injection E as E.
      rewrite <- !app_assoc in E. cbn [app] in E.
      assert (t = tok /\ r = concat (map bracketed toks) ++ rest') as [-> ->].
      { by apply app_sep_inj in E as [-> ->]. }
      apply (Hno toks rest'); [done|cbn in Hl; lia|done].
Qed.

Lemma headers_unique t1 : forall t2 r1 r2,
  concat (map bracketed t1) ++ r1 = concat (map bracketed t2) ++ r2 ->
  length t1 = length t2 -> Forall headerToken t1 -> Forall headerToken t2 ->
  t1 = t2 /\ r1 = r2.
Proof.
  induction t1 as [|a t1 IH]; intros [|b t2] r1 r2 E Hl H1 H2; try done.
  apply Forall_cons_iff in H1 as [[_ Ha] H1]. apply Forall_cons_iff in H2 as [[_ Hb] H2].
  cbn [map concat bracketed] in E. unfold bracketed in E. rewrite <- !app_assoc in E. cbn [app] in E.
  injection E as E. apply app_sep_inj in E as [-> E]; [|done|done].
  destruct (IH t2 r1 r2) as [-> ->]; try done. cbn in Hl. lia.
Qed.

(** The whole frame. *)
Definition frameOf (text : bytes) (tokens : list bytes) (module message : bytes) : Prop :=
  text = concat (map bracketed tokens) ++ kSeparator ++ module ++ bs ": " ++ message /\
  length tokens = 4%nat /\ Forall headerToken tokens /\ module <> [] /\ ~ ":"%byte ∈ module.

Lemma frame_spec text :
  (exists tokens module message, frameOf text tokens module message /\
     frame text = pass (tokens, module, message)) \/
  (frame text = skip SkipReason.BadFrame /\
   forall tokens module message, ~ frameOf text tokens module message).
Proof.
  unfold frame.
  destruct (headerTokens_spec 4 [] text) as [(toks & r & E & Hl & HF & H4)|[H4 Hno]].
  2:{ right. cbn [app] in H4. change (zlen (@nil byte)) with 0 in H4. rewrite H4. split; [done|].
      intros t m g (-> & Hl & HF & _). by apply (Hno t _ eq_refl). }
  cbn [app] in H4. change (zlen (@nil byte)) with 0 in H4. rewrite Z.add_0_l in H4. rewrite H4.
  unfold cbind, pass. rewrite obind_Ret. set (hs := concat (map bracketed toks)) in *.
  assert (Hbad : forall (P : Prop), (forall m g, r = kSeparator ++ m ++ bs ": " ++ g -> m <> [] ->
                    ~ ":"%byte ∈ m -> P) -> forall t m g, frameOf text t m g -> P).
  { intros P HP t m g (E' & Hl' & HF' & Hm & Hc). rewrite E in E'.
    apply headers_unique in E' as [-> ->]; [|congruence|done|done]. by apply (HP m g). }
  subst text. rewrite substr_Ret by zlen_lia. rewrite obind_Ret.
  assert (Hsl : slice (hs ++ r) (zlen hs) (zlen kSeparator) = ztake (zlen kSeparator) r)
    by (unfold slice; by rewrite zdrop_length_app).
  rewrite Hsl. case_bool_decide as Hsep; cbn [negb].
  2:{ right. split; [done|]. refine (Hbad False _). intros m g -> _ _. apply Hsep. apply ztake_length_app. }
  assert (Hr : r = kSeparator ++ zdrop (zlen kSeparator) r) by (rewrite <- Hsep at 1; by rewrite ztake_zdrop).
  set (r2 := zdrop (zlen kSeparator) r) in *. clearbody r2. subst r. clear Hsl Hsep.
  rewrite app_assoc. destruct (vfind _ ":"%byte _) as [me|] eqn:Hf.
  2:{ right. split; [done|]. rewrite <- app_assoc. refine (Hbad False _).
      intros m g Em Hne Hc. apply app_inv_head in Em as ->.
      change (bs ": " ++ g) with (":"%byte :: " "%byte :: g) in Hf. rewrite vfind_pre in Hf; [done|zlen_lia|done]. }
  apply vfind_pre_inv in Hf as (m & g & -> & Hc & ->); [|zlen_lia].
  assert (Hbad' : forall (P : Prop), (forall g', g = " "%byte :: g' -> m <> [] -> P) ->
                    forall t m' g', frameOf ((hs ++ kSeparator) ++ m ++ ":"%byte :: g) t m' g' -> P).
  { intros P HP. rewrite <- app_assoc. refine (Hbad P _). intros m2 g2 E2 Hm2 Hc2.
    apply app_inv_head in E2. apply app_sep_inj in E2 as [-> ->]; [|done|done]. by apply (HP g2). }
  clear Hbad. rewrite !zlen_app, zlen_cons.
  destruct (Z.eqb_spec (zlen hs + zlen kSeparator + zlen m) (zlen hs + zlen kSeparator)) as [Hz|Hz].
  { right. split; [done|]. refine (Hbad' False _). intros g' _ Hm. apply Hm. apply zlen_0_inv. lia. }
  cbn [orb]. destruct (Z.leb_spec (zlen hs + zlen kSeparator + (zlen m + (1 + zlen g)))
                                  (zlen hs + zlen kSeparator + zlen m + 1)) as [Hg|Hg].
  { right. split; [done|]. refine (Hbad' False _). intros g' -> _. rewrite zlen_cons in Hg. zlen_lia. }
  destruct g as [|sp g]; [rewrite (@zlen_nil byte) in Hg; lia|].
  assert (Em : (hs ++ kSeparator) ++ m ++ ":"%byte :: sp :: g
               = ((hs ++ kSeparator) ++ m ++ [":"%byte]) ++ sp :: g) by (by rewrite <- !app_assoc).
  match goal with |- context [charAt ?v ?p ?c] =>
    assert (Hch : charAt v p c = Ret (bool_decide (sp = c))) by (rewrite Em; apply charAt_pre; zlen_lia) end.
  rewrite Hch, obind_Ret.
  case_bool_decide as Hs; cbn [negb].
  2:{ right. split; [done|]. refine (Hbad' False _). intros g' [= -> _]. done. }
  subst sp. rewrite substr_pre by zlen_lia. rewrite obind_Ret.
  assert (Em2 : (hs ++ kSeparator) ++ m ++ ":"%byte :: " "%byte :: g
               = ((hs ++ kSeparator) ++ m ++ [":"%byte; " "%byte]) ++ g) by (by rewrite <- !app_assoc).
  match goal with |- context [substr ?v ?p ?n] =>
    assert (Hsub : substr v p n = Ret g) by (rewrite Em2; apply substr_pre_all; zlen_lia) end.
  rewrite Hsub, obind_Ret.
  left. exists toks, m, g. split; [|done]. split_and!; try done; [by rewrite <- app_assoc|].
  intros ->. rewrite (@zlen_nil byte) in Hz. lia.
Qed.

(** *** Numbers and brackets *)

Lemma parseInt64Field_spec tok :
  (int64Text tok /\ parseInt64Field tok = pass (digitsVal tok)) \/
  (~ int64Text tok /\ exists r, parseInt64Field tok = skip r /\
     (r = SkipReason.BadNumber \/ r = SkipReason.NumOutOfRange)).
Proof.
  unfold int64Text, parseInt64Field. destruct tok as [|b tok]; [right; split; naive_solver|].
  destruct (isDigit b) eqn:Hb; cbn [negb].
  2:{ right. cbn. rewrite Hb. split; naive_solver. }
  unfold fromCharsInt64. rewrite bool_decide_eq_false_2 by (intros ->; done).
  destruct (spanDigits (b :: tok)) as [d r] eqn:Es.
  pose proof (spanDigits_spec _ _ _ Es) as [E Hd].
  destruct d as [|b' d]; [cbn in Es; rewrite Hb in Es; by destruct (spanDigits tok)|].
  pose proof (digitsVal_range _ Hd) as Hv.
  destruct (Z.ltb_spec (digitsVal (b' :: d)) (- 2 ^ 63)); [lia|]. cbn [orb].
  destruct r as [|c r].
  - rewrite app_nil_r in E. rewrite E.
    destruct (Z.ltb_spec (2 ^ 63 - 1) (digitsVal (b' :: d))).
    + right. split; [intros (_ & _ & ?); lia|eauto].
    + left. by split_and!.
  - right. split.
    + intros (_ & Hall & _). rewrite (spanDigits_all _ Hall) in Es. by injection Es.
    + destruct (2 ^ 63 - 1 <? _); [eauto|]. rewrite zlen_cons.
      destruct (Z.eqb_spec (1 + zlen r) 0); [zlen_lia|eauto].
Qed.

Lemma bracketsLoop_open m : forall n,
  0 <= n -> bracketsLoop true n m = true ->
  exists s r, m = s ++ "]"%byte :: r /\ ~ "["%byte ∈ s /\ ~ "]"%byte ∈ s /\ 0 < n + zlen s /\
              bracketsLoop false (n + zlen s) r = true.
Proof.
  induction m as [|c m IH]; intros n Hn; cbn [bracketsLoop]; [done|].
  case_bool_decide as H1; [done|]. case_bool_decide as H2.
  - cbn [negb orb]. destruct (Z.eqb_spec n 0); [done|]. intros H. subst c. exists [], m.
    rewrite (@zlen_nil byte), Z.add_0_r. split_and!; try done; try (by intros ?%elem_of_nil); lia.
  - intros H. destruct (IH (n + 1)) as (s & r & -> & ? & ? & ? & Hr); [lia|done|].
    exists (c :: s), r. rewrite zlen_cons.
    replace (n + (1 + zlen s)) with (n + 1 + zlen s) by lia. split_and!; try done;
      intros [He|He]%elem_of_cons; congruence.
Qed.

Lemma bracketsLoop_closed_any m : forall n k, bracketsLoop false n m = bracketsLoop false k m.
Proof.
  induction m as [|c m IH]; intros n k; [done|]. cbn [bracketsLoop negb orb].
  case_bool_decide; [done|]. case_bool_decide; [done|apply IH].
Qed.

Lemma bracketsLoop_in s : forall n r,
  ~ "["%byte ∈ s -> ~ "]"%byte ∈ s -> bracketsLoop true n (s ++ r) = bracketsLoop true (n + zlen s) r.
Proof.
  induction s as [|c s IH]; intros n r H1 H2; cbn [app].
  - by rewrite (@zlen_nil byte), Z.add_0_r.
  - cbn [bracketsLoop]. rewrite !bool_decide_eq_false_2 by set_solver. rewrite IH by set_solver.
    rewrite zlen_cons. f_equal. lia.
Qed.

Lemma bracketsSane_spec m : bracketsSane m = true <-> Balanced m.
Proof.
  split.
  - unfold bracketsSane. remember (length m) as k eqn:Hk. revert m Hk.
    induction k as [k IH] using lt_wf_ind; intros m ->. destruct m as [|c m]; [constructor|].
    cbn [bracketsLoop]. case_bool_decide as H1.
    + intros H. apply bracketsLoop_open in H as (s & r & -> & ? & ? & Hl & Hr); [|lia]. subst c.
      replace ("["%byte :: s ++ "]"%byte :: r) with (bracketed s ++ r)
        by (unfold bracketed; by rewrite <- !app_assoc).
      apply bal_field; try done; [intros ->; rewrite (@zlen_nil byte) in Hl; lia|].
      apply (IH (length r)); [cbn; rewrite length_app; cbn; lia|done|].
      by rewrite (bracketsLoop_closed_any r 0 (0 + zlen s)).
    + case_bool_decide as H2; [done|]. intros H. apply bal_char; try done.
      by apply (IH (length m)); [cbn; lia|..].
  - induction 1 as [|c m H1 H2 Hm IH|s m Hs H1 H2 Hm IH]; [done| |]; unfold bracketsSane in *.
    + cbn [bracketsLoop]. by rewrite !bool_decide_eq_false_2.
    + unfold bracketed. rewrite <- !app_assoc. cbn [app bracketsLoop].
      rewrite bool_decide_eq_true_2 by done. rewrite bracketsLoop_in by done. cbn [bracketsLoop].
      rewrite bool_decide_eq_false_2, bool_decide_eq_true_2 by done. cbn [negb orb].
      destruct (Z.eqb_spec (0 + zlen s) 0) as [E|_].
      { exfalso. apply Hs, zlen_0_inv. lia. }
      by rewrite (bracketsLoop_closed_any m _ 0).
Qed.

(** *** Timestamps *)

Lemma allDigitsAt_slice s n : forall pos,
  0 <= pos -> pos + Z.of_nat n <= zlen s ->
  allDigitsAt s pos n = Ret (forallb isDigit (slice s pos (Z.of_nat n))).
Proof.
  induction n as [|n IH]; intros pos H1 H2; [done|]. cbn [allDigitsAt].
  destruct (vget_Ret s pos ltac:(lia)) as (b & E & _). rewrite E, obind_Ret.
  replace (Z.of_nat (S n)) with (1 + Z.of_nat n) by lia.
  rewrite slice_app by lia. rewrite (slice_one _ _ _ E). cbn [app forallb].
  destruct (isDigit b); cbn [negb andb]; [|done]. apply IH; lia.
Qed.

Lemma digitsToInt_slice s n : forall pos v,
  0 <= pos -> pos + Z.of_nat n <= zlen s ->
  digitsToInt s pos n v = Ret (fold_left (fun v b => 10 * v + digitVal b) (slice s pos (Z.of_nat n)) v).
Proof.
  induction n as [|n IH]; intros pos v H1 H2; [done|]. cbn [digitsToInt].
  destruct (vget_Ret s pos ltac:(lia)) as (b & E & _). rewrite E, obind_Ret.
  replace (Z.of_nat (S n)) with (1 + Z.of_nat n) by lia.
  rewrite slice_app by lia. rewrite (slice_one _ _ _ E). cbn [app fold_left].
  rewrite IH by lia. do 2 f_equal. lia.
Qed.

Lemma charAt_slice s pos c :
  0 <= pos < zlen s -> charAt s pos c = Ret (bool_decide (slice s pos 1 = [c])).
Proof.
  intros H. destruct (vget_Ret s pos H) as (b & E & _). unfold charAt.
  rewrite E, (slice_one _ _ _ E), obind_Ret. f_equal. apply bool_decide_ext. naive_solver.
Qed.

(** Days of a month, from the calendar's definition. *)
Definition leapYear (y : Z) : Prop := (y mod 4 = 0 /\ y mod 100 <> 0) \/ y mod 400 = 0.
Definition monthDays (y m : Z) : Z :=
  if m =? 2 then if bool_decide (y mod 4 = 0 /\ y mod 100 <> 0 \/ y mod 400 = 0) then 29 else 28
  else if (m =? 4) || (m =? 6) || (m =? 9) || (m =? 11) then 30 else 31.

Lemma daysInMonth_spec y m :
  0 <= y -> 1 <= m <= 12 -> daysInMonth y m = Ret (monthDays y m).
Proof.
  intros Hy Hm. unfold daysInMonth, monthDays, isLeapYear. rewrite !Z.rem_mod_nonneg by lia.
  assert (m = 1 \/ m = 2 \/ m = 3 \/ m = 4 \/ m = 5 \/ m = 6 \/ m = 7 \/ m = 8 \/ m = 9 \/
          m = 10 \/ m = 11 \/ m = 12) as Hc by lia.
  repeat destruct Hc as [->|Hc]; try subst m; try done. cbn [Z.eqb andb Pos.eqb].
  destruct (Z.eqb_spec (y mod 4) 0), (Z.eqb_spec (y mod 100) 0), (Z.eqb_spec (y mod 400) 0);
    cbn [negb andb orb]; first [rewrite bool_decide_eq_true_2 by tauto; done
                               |rewrite bool_decide_eq_false_2 by tauto; done].
Qed.

(** A calendar date with a time of day. *)
Record stamp := mkStamp {
  st_year : Z; st_month : Z; st_day : Z; st_hour : Z; st_minute : Z; st_second : Z;
  st_fraction : bytes }.

Definition validStamp (s : stamp) : Prop :=
  0 <= st_year s <= 9999 /\ 1 <= st_month s <= 12 /\
  1 <= st_day s <= monthDays (st_year s) (st_month s) /\
  0 <= st_hour s <= 23 /\ 0 <= st_minute s <= 59 /\ 0 <= st_second s <= 59 /\
  length (st_fraction s) = 6%nat /\ forallb isDigit (st_fraction s) = true.

Definition stampText (s : stamp) : bytes :=
  fixedDigits 4 (st_year s) ++ ["-"%byte] ++ fixedDigits 2 (st_month s) ++ ["-"%byte] ++
  fixedDigits 2 (st_day s) ++ ["_"%byte] ++ fixedDigits 2 (st_hour s) ++ [":"%byte] ++
  fixedDigits 2 (st_minute s) ++ [":"%byte] ++ fixedDigits 2 (st_second s) ++ ["."%byte] ++
  st_fraction s.

Definition stampSeconds (s : stamp) : Z :=
  daysFromCivil (st_year s) (st_month s) (st_day s) * 86400 + st_hour s * 3600 +
  st_minute s * 60 + st_second s.

Definition stampResult (s : stamp) : Z * Z * Z * Z * Z :=
  (st_year s, st_month s, st_day s, st_hour s, stampSeconds s).

Lemma monthDays_le y m : monthDays y m <= 31.
Proof. unfold monthDays. repeat case_match; lia. Qed.

Lemma oand_Ret a b : oand (Ret a) (Ret b) = Ret (a && b).
Proof. by destruct a. Qed.

(** The checks of [parseTimestamp] on a 26-byte text, in terms of its parts. *)
Definition stampSeps (ts : bytes) : bool :=
  bool_decide (slice ts 4 1 = ["-"%byte]) && (bool_decide (slice ts 7 1 = ["-"%byte]) &&
  (bool_decide (slice ts 10 1 = ["_"%byte]) && (bool_decide (slice ts 13 1 = [":"%byte]) &&
  (bool_decide (slice ts 16 1 = [":"%byte]) && bool_decide (slice ts 19 1 = ["."%byte]))))).

Definition stampDigits (ts : bytes) : bool :=
  forallb isDigit (slice ts 0 4) && (forallb isDigit (slice ts 5 2) &&
  (forallb isDigit (slice ts 8 2) && (forallb isDigit (slice ts 11 2) &&
  (forallb isDigit (slice ts 14 2) && (forallb isDigit (slice ts 17 2) &&
  forallb isDigit (slice ts 20 6)))))).

Definition stampOf (ts : bytes) : stamp :=
  mkStamp (digitsVal (slice ts 0 4)) (digitsVal (slice ts 5 2)) (digitsVal (slice ts 8 2))
    (digitsVal (slice ts 11 2)) (digitsVal (slice ts 14 2)) (digitsVal (slice ts 17 2))
    (slice ts 20 6).

Definition stampCalendar (s : stamp) : bool :=
  negb ((st_month s <? 1) || (12 <? st_month s) || (st_day s <? 1)) &&
  negb ((monthDays (st_year s) (st_month s) <? st_day s) || (23 <? st_hour s) ||
        (59 <? st_minute s) || (59 <? st_second s)).

Lemma digitsVal_slice_nonneg ts p n :
  forallb isDigit (slice ts p n) = true -> 0 <= digitsVal (slice ts p n).
Proof. intros H. apply digitsVal_range in H. lia. Qed.

Lemma parseTimestamp_eq ts :
  parseTimestamp ts =
  Ret (if (zlen ts =? 26) && stampSeps ts && stampDigits ts && stampCalendar (stampOf ts)
       then Some (stampResult (stampOf ts)) else None).
Proof.
  unfold parseTimestamp. destruct (Z.eqb_spec (zlen ts) 26) as [Hl|]; [|done]. cbn [negb andb].
  rewrite !charAt_slice by lia. rewrite !oand_Ret, obind_Ret. fold (stampSeps ts).
  destruct (stampSeps ts); cbn [negb andb]; [|done].
  rewrite !allDigitsAt_slice by lia. rewrite !oand_Ret, obind_Ret.
  change (forallb isDigit (slice ts 0 (Z.of_nat 4)) && _) with (stampDigits ts).
  destruct (stampDigits ts) eqn:Hd; cbn [negb andb]; [|done].
  rewrite !digitsToInt_slice by lia. rewrite !obind_Ret.
  change (fold_left _ (slice ts 0 _) 0) with (st_year (stampOf ts)).
  change (fold_left _ (slice ts 5 _) 0) with (st_month (stampOf ts)).
  change (fold_left _ (slice ts 8 _) 0) with (st_day (stampOf ts)).
  change (fold_left _ (slice ts 11 _) 0) with (st_hour (stampOf ts)).
  change (fold_left _ (slice ts 14 _) 0) with (st_minute (stampOf ts)).
  change (fold_left _ (slice ts 17 _) 0) with (st_second (stampOf ts)).
  assert (Hy : 0 <= st_year (stampOf ts)).
  { apply andb_true_iff in Hd as [Hd _]. by apply digitsVal_slice_nonneg. }
  unfold stampCalendar, stampResult, stampSeconds. generalize (stampOf ts), Hy. clear. intros s Hy.
  destruct ((st_month s <? 1) || (12 <? st_month s) || (st_day s <? 1)) eqn:Hm; cbn [negb andb]; [done|].
  apply orb_false_iff in Hm as [[?%Z.ltb_ge ?%Z.ltb_ge]%orb_false_iff _].
  rewrite daysInMonth_spec, obind_Ret by lia. by destruct (_ || _ || _).
Qed.

Lemma stampText_length s : length (st_fraction s) = 6%nat -> zlen (stampText s) = 26.
Proof. intros H. unfold stampText. rewrite !zlen_app, !zlen_fixedDigits. unfold zlen. rewrite H. done. Qed.

(** A 26-byte text with the separators and digits in place is the text of its
    own stamp. *)
Lemma stampText_stampOf ts :
  zlen ts = 26 -> stampSeps ts = true -> stampDigits ts = true -> stampText (stampOf ts) = ts.
Proof.
  intros Hl Hs Hd. unfold stampSeps in Hs. unfold stampDigits in Hd.
  rewrite !andb_true_iff, !bool_decide_eq_true in Hs. rewrite !andb_true_iff in Hd.
  destruct Hs as (S1 & S2 & S3 & S4 & S5 & S6). destruct Hd as (D1 & D2 & D3 & D4 & D5 & D6 & D7).
  assert (Hlen : forall p n, 0 <= p -> 0 <= n -> p + n <= 26 -> length (slice ts p n) = Z.to_nat n).
  { intros p n ? ? ?. apply Nat2Z.inj. change (zlen (slice ts p n) = Z.of_nat (Z.to_nat n)).
    rewrite zlen_slice by lia. lia. }
  unfold stampText, stampOf. cbn [st_year st_month st_day st_hour st_minute st_second st_fraction].
  rewrite !fixedDigits_of by (done || (rewrite Hlen by lia; done)).
  transitivity (zdrop 0 ts); [|done].
  rewrite (zdrop_split ts 0 4 4), (zdrop_split ts 4 1 5), (zdrop_split ts 5 2 7),
    (zdrop_split ts 7 1 8), (zdrop_split ts 8 2 10), (zdrop_split ts 10 1 11),
    (zdrop_split ts 11 2 13), (zdrop_split ts 13 1 14), (zdrop_split ts 14 2 16),
    (zdrop_split ts 16 1 17), (zdrop_split ts 17 2 19), (zdrop_split ts 19 1 20) by lia.
  rewrite S1, S2, S3, S4, S5, S6. do 12 f_equal. apply ztake_all. rewrite zlen_zdrop by lia. lia.
Qed.

Lemma stampOf_stampText s :
  validStamp s ->
  stampSeps (stampText s) = true /\ stampDigits (stampText s) = true /\ stampOf (stampText s) = s.
Proof.
  intros (Hy & Hm & Hd & Hh & Hi & Hs & Hf & Hfd). pose proof (monthDays_le (st_year s) (st_month s)).
  assert (E7 : slice (stampText s) 20 6 = st_fraction s).
  { transitivity (ztake 6 (st_fraction s)); [done|]. apply ztake_all. unfold zlen. by rewrite Hf. }
  split_and!.
  - done.
  - unfold stampDigits. rewrite E7, Hfd, andb_true_r.
    change (slice (stampText s) 0 4) with (fixedDigits 4 (st_year s)).
    change (slice (stampText s) 5 2) with (fixedDigits 2 (st_month s)).
    change (slice (stampText s) 8 2) with (fixedDigits 2 (st_day s)).
    change (slice (stampText s) 11 2) with (fixedDigits 2 (st_hour s)).
    change (slice (stampText s) 14 2) with (fixedDigits 2 (st_minute s)).
    change (slice (stampText s) 17 2) with (fixedDigits 2 (st_second s)).
    by rewrite !fixedDigits_digits.
  - unfold stampOf. rewrite E7.
    change (slice (stampText s) 0 4) with (fixedDigits 4 (st_year s)).
    change (slice (stampText s) 5 2) with (fixedDigits 2 (st_month s)).
    change (slice (stampText s) 8 2) with (fixedDigits 2 (st_day s)).
    change (slice (stampText s) 11 2) with (fixedDigits 2 (st_hour s)).
    change (slice (stampText s) 14 2) with (fixedDigits 2 (st_minute s)).
    change (slice (stampText s) 17 2) with (fixedDigits 2 (st_second s)).
    rewrite !fixedDigits_val by (cbn; lia). by destruct s.
Qed.

Lemma stampCalendar_spec s : stampCalendar s = true <->
  1 <= st_month s <= 12 /\ 1 <= st_day s <= monthDays (st_year s) (st_month s) /\
  st_hour s <= 23 /\ st_minute s <= 59 /\ st_second s <= 59.
Proof.
  unfold stampCalendar. rewrite andb_true_iff, !negb_true_iff, !orb_false_iff, !Z.ltb_ge. lia.
Qed.

(** [parseTimestamp] accepts exactly the texts of calendar dates, and reads
    the date they denote. *)
Lemma parseTimestamp_spec ts :
  (exists s, validStamp s /\ ts = stampText s /\ parseTimestamp ts = Ret (Some (stampResult s))) \/
  (parseTimestamp ts = Ret None /\ forall s, validStamp s -> ts <> stampText s).
Proof.
  rewrite parseTimestamp_eq.
  destruct ((zlen ts =? 26) && stampSeps ts && stampDigits ts && stampCalendar (stampOf ts)) eqn:E.
  - left. rewrite !andb_true_iff, Z.eqb_eq, stampCalendar_spec in E.
    destruct E as [[[Hl Hs] Hd] (H1 & H2 & H3 & H4 & H5)]. exists (stampOf ts).
    rewrite stampText_stampOf by done. split; [|done]. unfold stampDigits in Hd.
    rewrite !andb_true_iff in Hd. destruct Hd as (D1 & D2 & D3 & D4 & D5 & D6 & D7).
    pose proof (digitsVal_range _ D1) as R1. rewrite zlen_slice in R1 by lia.
    unfold validStamp. cbn [stampOf st_year st_month st_day st_hour st_minute st_second st_fraction] in *.
    apply digitsVal_range in D4, D5, D6. split_and!; try lia; [|done].
    apply Nat2Z.inj. change (zlen (slice ts 20 6) = 6). apply zlen_slice; lia.
  - right. split; [done|]. intros s Hv ->. destruct (stampOf_stampText s Hv) as (S1 & S2 & S3).
    rewrite S1, S2, S3 in E. destruct Hv as (? & ? & ? & ? & ? & ? & Hf & _).
    rewrite stampText_length in E by done. cbn [Z.eqb Pos.eqb andb] in E.
    assert (stampCalendar s = true) by (apply stampCalendar_spec; lia). congruence.
Qed.

(** *** Fields *)

Definition fieldBoundary (pre : bytes) : Prop :=
  pre = [] \/ exists p c, pre = p ++ [c] /\ (c = " "%byte \/ c = ","%byte \/ c = ":"%byte).

(** [name[] opens after [pre] in [message]. *)
Definition opensField (message name pre post : bytes) : Prop :=
  message = pre ++ name ++ "["%byte :: post /\ fieldBoundary pre.

(** The first field called [name] in [message] holds [tok]. *)
Definition hasField (message name tok : bytes) : Prop :=
  exists pre rest, opensField message name pre (tok ++ "]"%byte :: rest) /\ ~ "]"%byte ∈ tok /\
    forall pre' post', opensField message name pre' post' -> zlen pre <= zlen pre'.

Lemma same_split {A} (a b x y : list A) : a ++ x = b ++ y -> zlen a = zlen b -> a = b /\ x = y.
Proof. intros E Hl. unfold zlen in Hl. apply app_inj_1; [lia|done]. Qed.

Section FindField.
Context (message name : bytes) (Hname : name <> []).

(** The two tests on an occurrence decide whether a field opens there. *)
Lemma occurrence_tests pre r :
  message = pre ++ name ++ r ->
  exists ok, (let* boundaryOk :=
                (if zlen pre =? 0 then Ret true else
                 let* c := vget message (zlen pre - 1) in
                 Ret (bool_decide (c = " "%byte) || bool_decide (c = ","%byte) ||
                      bool_decide (c = ":"%byte))) in
              if boundaryOk && (zlen pre + zlen name <? zlen message)
              then charAt message (zlen pre + zlen name) "["%byte else Ret false) = Ret ok /\
    if ok : bool then exists post, r = "["%byte :: post /\ fieldBoundary pre
    else forall post, ~ opensField message name pre post.
Proof.
  intros E.
  assert (Hb : exists b, (if zlen pre =? 0 then Ret true else
             let* c := vget message (zlen pre - 1) in
             Ret (bool_decide (c = " "%byte) || bool_decide (c = ","%byte) ||
                  bool_decide (c = ":"%byte))) = Ret b /\ (b = true <-> fieldBoundary pre)).
  { destruct (Z.eqb_spec (zlen pre) 0) as [Hz|Hz].
    - exists true. split; [done|]. split; [|done]. intros _. left. apply zlen_0_inv. lia.
    - destruct pre as [|c p _] using rev_ind; [done|].
      rewrite E, <- app_assoc. cbn [app]. rewrite vget_pre by zlen_lia. rewrite obind_Ret.
      eexists. split; [done|]. rewrite !orb_true_iff, !bool_decide_eq_true. split.
      + intros Hc. right. exists p, c. split; [done|tauto].
      + intros [?|(p' & c' & Ep & Hc)]; [by destruct p|].
        apply app_inj_2 in Ep as [_ [= ->]]; [tauto|done]. }
  destruct Hb as (b & -> & Hb). rewrite obind_Ret.
  assert (Hno : forall post, opensField message name pre post -> b = true /\ r = "["%byte :: post).
  { intros post [E' Hbd]. split; [by apply Hb|]. rewrite E in E'. by apply app_inv_head, app_inv_head in E'. }
  destruct b; cbn [andb].
  2:{ exists false. split; [done|]. intros post Ho. by destruct (Hno post Ho). }
  destruct r as [|c r].
  - assert (zlen message = zlen pre + zlen name) by (rewrite E; zlen_lia).
    destruct (Z.ltb_spec (zlen pre + zlen name) (zlen message)); [lia|].
    exists false. split; [done|]. intros post Ho. by destruct (Hno post Ho).
  - destruct (Z.ltb_spec (zlen pre + zlen name) (zlen message)) as [_|Hge].
    2:{ exfalso. assert (zlen message = zlen pre + (zlen name + (1 + zlen r))) by (rewrite E; zlen_lia). zlen_lia. }
    assert (Hch : charAt message (zlen pre + zlen name) "["%byte = Ret (bool_decide (c = "["%byte)))
      by (rewrite E, app_assoc; apply charAt_pre; zlen_lia).
    rewrite Hch.
    eexists. split; [done|]. case_bool_decide as Hc.
    + subst c. exists r. split; [done|]. by apply Hb.
    + intros post Ho. destruct (Hno post Ho) as [_ [= ->]]. done.
Qed.

Lemma findFieldLoop_spec fuel : forall pos,
  0 <= pos <= zlen message -> zlen message - pos < Z.of_nat fuel ->
  (forall pre post, opensField message name pre post -> pos <= zlen pre) ->
  (exists tok, hasField message name tok /\ findFieldLoop fuel message name pos = Ret (Some tok)) \/
  (findFieldLoop fuel message name pos = Ret None /\ forall tok, ~ hasField message name tok).
Proof.
  induction fuel as [|fuel IH]; intros pos Hpos Hfuel Hmin; [lia|]. cbn [findFieldLoop].
  assert (Hlast : forall pre post, opensField message name pre post ->
            exists l, zdrop pos message = l ++ name ++ "["%byte :: post /\ zlen pre = pos + zlen l).
  { intros pre post Ho. pose proof (Hmin _ _ Ho) as Hle. destruct Ho as [E _].
    exists (zdrop pos pre). rewrite zlen_zdrop by lia. split; [|lia].
    transitivity (zdrop pos (pre ++ name ++ "["%byte :: post)); [by rewrite <- E|].
    by rewrite zdrop_app_le by lia. }
  destruct (Z.leb_spec (zlen message) pos) as [Hge|Hlt].
  { right. split; [done|]. intros tok (pre & rest & Ho & _). destruct (Hlast _ _ Ho) as (l & E & _).
    apply (f_equal zlen) in E. rewrite zlen_zdrop in E by lia. zlen_lia. }
  unfold vfindStr. destruct (Z.ltb_spec (zlen message) pos); [lia|].
  destruct (findStrIn (zdrop pos message) name pos) as [found|] eqn:Hf.
  2:{ right. split; [done|]. intros tok (pre & rest & Ho & _). destruct (Hlast _ _ Ho) as (l & E & _).
      by apply (findStrIn_absent _ _ _ l ("["%byte :: tok ++ "]"%byte :: rest)) in Hf. }
  pose proof (findStrIn_Some _ _ _ _ Hf) as (a & r & Ea & ->).
  set (pre := ztake pos message ++ a).
  assert (E : message = pre ++ name ++ r)
    by (unfold pre; rewrite <- app_assoc, <- Ea; by rewrite ztake_zdrop).
  assert (Hpre : zlen pre = pos + zlen a) by (unfold pre; rewrite zlen_app, zlen_ztake by lia; lia).
  rewrite <- Hpre. destruct (occurrence_tests pre r E) as (ok & Eok & Hok).
  assert (Hfirst : forall pre' post', opensField message name pre' post' -> zlen pre <= zlen pre').
  { intros pre' post' Ho. destruct (Hlast _ _ Ho) as (l & El & Hl).
    pose proof (findStrIn_first _ _ _ _ l ("["%byte :: post') Hf El). lia. }
  match type of Eok with (obind ?m ?k) = _ =>
    destruct m as [b| |] eqn:Eb; rewrite ?Eb in Eok; [|done|done] end.
  rewrite obind_Ret in Eok. rewrite !obind_Ret, Eok, !obind_Ret. clear Eok Eb b.
  destruct ok.
  - destruct Hok as (post & -> & Hbd).
    assert (Em : message = (pre ++ name ++ ["["%byte]) ++ post) by (rewrite E; by rewrite <- !app_assoc).
    destruct (vfind message "]"%byte (zlen pre + zlen name + 1)) as [close|] eqn:Hc.
    + rewrite Em in Hc. apply vfind_pre_inv in Hc as (tok & rest & -> & Ht & ->); [|zlen_lia].
      left. exists tok. split.
      * exists pre, rest. by split_and!.
      * assert (Hs : substr message (zlen pre + zlen name + 1)
                  (zlen pre + zlen name + 1 + zlen tok - (zlen pre + zlen name) - 1) = Ret tok).
        { rewrite Em. apply substr_pre; zlen_lia. }
        by rewrite Hs.
    + right. split; [done|]. intros tok (pre' & rest & [E' Hbd'] & Ht & Hmin').
      assert (Hz : zlen pre' = zlen pre).
      { apply Z.le_antisymm; [by apply (Hmin' pre post)|]. by apply (Hfirst pre' (tok ++ "]"%byte :: rest)). }
      rewrite E in E'. apply same_split in E' as [<- E']; [|done].
      apply app_inv_head in E'. injection E' as ->.
      rewrite Em in Hc. rewrite vfind_pre in Hc; [done|zlen_lia|done].
  - apply IH.
    + assert (zlen message = zlen pre + (zlen name + zlen r)) by (rewrite E; zlen_lia).
      assert (0 < zlen name) by (destruct name; [done|zlen_lia]). zlen_lia.
    + zlen_lia.
    + intros pre' post' Ho. pose proof (Hfirst pre' post' Ho).
      destruct (decide (zlen pre' = zlen pre)) as [Hz|]; [|lia]. exfalso.
      pose proof Ho as [E' _]. rewrite E in E'. apply same_split in E' as [<- _]; [|done].
      by apply (Hok post').
Qed.

Lemma findField_spec :
  (exists tok, hasField message name tok /\ findField message name = Ret (Some tok)) \/
  (findField message name = Ret None /\ forall tok, ~ hasField message name tok).
Proof.
  apply findFieldLoop_spec; [zlen_lia|unfold zlen; lia|]. intros. apply zlen_nonneg.
Qed.
End FindField.

Lemma hasField_fun message name a b : hasField message name a -> hasField message name b -> a = b.
Proof.
  intros (p1 & r1 & O1 & T1 & M1) (p2 & r2 & O2 & T2 & M2).
  pose proof (M1 _ _ O2). pose proof (M2 _ _ O1). destruct O1 as [E1 _], O2 as [E2 _].
  rewrite E1 in E2. apply same_split in E2 as [<- E2]; [|lia].
  apply app_inv_head in E2. injection E2 as E2. by apply app_sep_inj in E2 as [-> _].
Qed.

(** *** Arrow pairs *)
Definition arrowText (tok : bytes) : Prop :=
  exists a b, tok = a ++ bs "->" ++ b /\ a <> [] /\ b <> [] /\
    forallb isDigit a = true /\ forallb isDigit b = true.

Lemma allDigits_spec s : allDigits s = true <-> s <> [] /\ forallb isDigit s = true.
Proof. destruct s; cbn; naive_solver. Qed.

Lemma isArrowPair_spec tok :
  exists ok, isArrowPair tok = Ret ok /\ (ok = true <-> arrowText tok).
Proof.
  unfold isArrowPair, vfindStr. destruct (Z.ltb_spec (zlen tok) 0); [zlen_lia|].
  change (zdrop 0 tok) with tok.
  destruct (findStrIn tok (bs "->") 0) as [arrow|] eqn:Hf.
  2:{ exists false. split; [done|]. split; [done|]. intros (a & b & E & _).
      by apply (findStrIn_absent _ _ _ a b) in Hf. }
  pose proof (findStrIn_Some _ _ _ _ Hf) as (a & r & E & ->). rewrite Z.add_0_l in *.
  assert (Hu : arrowText tok -> a <> [] /\ forallb isDigit a = true /\ r <> [] /\ forallb isDigit r = true).
  { intros (a' & b' & E' & Ha & Hb & Da & Db).
    pose proof (findStrIn_first _ _ _ _ a' b' Hf E') as Hle.
    assert (zlen a = zlen a') as Hz.
    { apply Z.le_antisymm; [lia|]. destruct (Z.le_gt_cases (zlen a') (zlen a)) as [|Hlt]; [done|].
      exfalso. rewrite E in E'. clear -E' Hlt Da.
      revert a' E' Hlt Da. induction a as [|x a IH]; intros [|y a'] E' Hlt Da;
        rewrite ?zlen_cons, ?(@zlen_nil byte) in *; try (by apply Z.lt_irrefl in Hlt); try zlen_lia.
      - injection E' as <- _. done.
      - cbn in E'. injection E' as <- E'. cbn in Da. apply andb_true_iff in Da as [_ Da].
        apply (IH a'); [done|lia|done]. }
    rewrite E in E'. apply same_split in E' as [-> E']; [|done]. apply app_inv_head in E' as ->. done. }
  destruct (Z.eqb_spec (zlen a) 0) as [Hz|Hz].
  { exists false. split; [done|]. split; [done|]. intros Ht. exfalso.
    destruct (Hu Ht) as (Ha & _). apply Ha, zlen_0_inv. lia. }
  assert (H1 : substr tok 0 (zlen a) = Ret a) by (rewrite E; by apply (substr_pre [])).
  assert (H2 : substr tok (zlen a + 2) (zlen tok) = Ret r)
    by (rewrite E, app_assoc; apply substr_pre_all; rewrite ?zlen_app;
        change (zlen (bs "->")) with 2; zlen_lia).
  rewrite H1, obind_Ret, H2, obind_Ret. eexists. split; [done|].
  rewrite andb_true_iff, !allDigits_spec. split.
  - intros [[? ?] [? ?]]. exists a, r. by split_and!.
  - intros Ht. destruct (Hu Ht). naive_solver.
Qed.
