(* ===== verification/LineSpec.v ===== *)
(** * What the line parser accepts

    [CleanLine] states on the text as a whole what a valid log line is;
    [validate_clean] proves the pipeline of LineParser accepts exactly those
    lines.  The second part bounds the hour buckets of a session: every
    accepted line lies within 48 hours of the session's anchor, so at most 97
    hours per module can occur. *)

From stdpp Require Import sets.
From S2P Require Import Prelude StringView Charconv Binary64 LineParser.

Definition printable (b : byte) : Prop := 0x20 <= b2z b /\ b2z b <> 0x7F.

(** Fields are checked when present; an absent field is tolerated. *)
Definition intFieldsClean (message : bytes) (fields : list bytes) : Prop :=
  Forall (fun f => f <> [] -> forall tok, hasField message f tok -> int64Text tok) fields.

Definition arrowFieldClean (message f : bytes) : Prop :=
  f <> [] -> forall tok, hasField message f tok -> arrowText tok.

Definition spdInDomain (v : double) : bool := dle kSpdMin v && dlt v kSpdMax.

(** What the spd fields of a message yield. *)
Definition spdClean (message : bytes) (hasSpd inRange : bool) (spd : double) : Prop :=
  (forall tok, hasField message (bs "advDelta") tok -> exists v, parseDoubleField tok = Some v) /\
  ((hasSpd = false /\ inRange = false /\ spd = dzero /\ forall tok, ~ hasField message (bs "spd") tok) \/
   (exists tok v, hasSpd = true /\ hasField message (bs "spd") tok /\ parseDoubleField tok = Some v /\
      inRange = spdInDomain v /\ spd = if spdInDomain v then v else dzero)).

Definition withinSession (p : LogLineParser.t) (absSeconds : Z) : Prop :=
  LogLineParser.hasAnchor p = true ->
  - (kTsRangeHours * 3600) <= absSeconds - LogLineParser.anchorSeconds p <= kTsRangeHours * 3600.

(** The message of a line from module [module]: it has balanced brackets, comes
    from a known module, and its fields are what that module's must be. *)
Definition DomainClean (module message : bytes) (id : ModuleId.t) (has inR : bool) (spd : double) : Prop :=
  exists spec, spec ∈ kModules /\ spec_name spec = module /\ spec_id spec = id /\
    Balanced message /\
    intFieldsClean message (spec_intFields spec) /\
    arrowFieldClean message (spec_arrowField spec) /\
    (if bool_decide (id = ModuleId.BeamSteerCtrlUnitImpl) then spdClean message has inR spd
     else has = false /\ inR = false /\ spd = dzero).

(** [text] is a valid line of a session whose parser is [p]; it means [line]
    and was logged at [absSeconds]. *)
Definition CleanLine (p : LogLineParser.t) (text : bytes) (line : ParsedLine) (absSeconds : Z) : Prop :=
  exists s pid tid sess module message,
    text = bracketed (stampText s) ++ bracketed pid ++ bracketed tid ++ bracketed sess ++
           bs " BYDA::" ++ module ++ bs ": " ++ message /\
    Forall printable text /\
    validStamp s /\ absSeconds = stampSeconds s /\ withinSession p absSeconds /\
    int64Text pid /\ int64Text tid /\ int64Text sess /\
    DomainClean module message (pl_module line) (pl_hasSpd line) (pl_spdInRange line) (pl_spd line) /\
    pl_year line = st_year s /\ pl_month line = st_month s /\ pl_day line = st_day s /\
    pl_hour line = st_hour s.

(** ** Stage by stage: a stage passes exactly when its part of the line is clean *)

Lemma stage0_spec text tooLong :
  (tooLong = false /\ Forall printable text /\ ~ Forall (fun b => b = " "%byte) text /\
   stage0 text tooLong = pass tt) \/
  ((tooLong = true \/ ~ Forall printable text \/ Forall (fun b => b = " "%byte) text) /\
   exists r, stage0 text tooLong = skip r).
Proof.
  unfold stage0. destruct tooLong; [right; eauto|].
  destruct (forallb _ text) eqn:Es.
  { right. split; [|eauto]. do 2 right. apply Forall_forall. intros x Hx.
    rewrite forallb_forall in Es. apply Es, bool_decide_eq_true in Hx. done. }
  assert (Hns : ~ Forall (fun b => b = " "%byte) text).
  { intros HF. assert (forallb (fun ch => bool_decide (ch = " "%byte)) text = true); [|congruence].
    apply forallb_forall. intros x Hx. apply bool_decide_eq_true.
    by apply (proj1 (Forall_forall _ _) HF). }
  destruct (existsb _ text) eqn:Ex.
  - right. split; [|eauto]. right. left. intros HF. apply existsb_exists in Ex as (x & Hx & Hc).
    apply (proj1 (Forall_forall _ _) HF) in Hx. unfold printable in Hx.
    rewrite orb_true_iff, Z.ltb_lt, Z.eqb_eq in Hc. lia.
  - left. split_and!; try done. apply Forall_forall. intros x Hx. unfold printable.
    destruct (Z.ltb_spec (b2z x) 0x20) as [Hlt|], (Z.eqb_spec (b2z x) 0x7F) as [He|]; [..|lia];
      exfalso; assert (existsb (fun ch => (b2z ch <? 0x20) || (b2z ch =? 0x7F)) text = true) by
        (apply existsb_exists; exists x; split; [done|];
         rewrite orb_true_iff, Z.ltb_lt, Z.eqb_eq; lia); congruence.
Qed.

Lemma headerNumbers_spec toks :
  (Forall int64Text toks /\ headerNumbers toks = pass tt) \/
  (~ Forall int64Text toks /\ exists r, headerNumbers toks = skip r).
Proof.
  induction toks as [|t toks IH]; [left; split; [constructor|done]|]. cbn [headerNumbers].
  destruct (parseInt64Field_spec t) as [[Ht ->]|[Ht (r & -> & _)]].
  - destruct IH as [[HF E]|[HF (r & E)]]; [left|right]; rewrite Forall_cons_iff; cbn; naive_solver.
  - right. rewrite Forall_cons_iff. cbn. naive_solver.
Qed.

Lemma intFieldsOk_spec message fields :
  (intFieldsClean message fields /\ intFieldsOk message fields = pass tt) \/
  (~ intFieldsClean message fields /\ exists r, intFieldsOk message fields = skip r).
Proof.
  unfold intFieldsClean. induction fields as [|f fields IH]; [left; split; [constructor|done]|].
  cbn [intFieldsOk]. rewrite Forall_cons_iff. destruct (Z.eqb_spec (zlen f) 0) as [Hz|Hz].
  { assert (f = []) as Hf by (apply zlen_0_inv; lia).
    destruct IH as [[HF E]|[HF E]]; [left|right]; naive_solver. }
  assert (Hne : f <> []) by (intros ->; done).
  destruct (findField_spec message f Hne) as [(tok & Hf & ->)|[-> Hno]]; rewrite obind_Ret.
  2:{ destruct IH as [[HF E]|[HF E]]; [left|right]; naive_solver. }
  destruct (parseInt64Field_spec tok) as [[Ht ->]|[Ht (r & -> & _)]].
  - assert (forall t, hasField message f t -> int64Text t)
      by (intros t Hft; by rewrite (hasField_fun _ _ _ _ Hft Hf)).
    destruct IH as [[HF E]|[HF E]]; [left|right]; cbn; naive_solver.
  - right. cbn. naive_solver.
Qed.

Lemma arrowFieldOk_spec message f :
  (arrowFieldClean message f /\ arrowFieldOk message f = pass tt) \/
  (~ arrowFieldClean message f /\ exists r, arrowFieldOk message f = skip r).
Proof.
  unfold arrowFieldClean, arrowFieldOk. destruct (Z.eqb_spec (zlen f) 0) as [Hz|Hz].
  { left. split; [|done]. intros Hne. exfalso. apply Hne, zlen_0_inv. lia. }
  assert (Hne : f <> []) by (intros ->; done).
  destruct (findField_spec message f Hne) as [(tok & Hf & ->)|[-> Hno]]; rewrite obind_Ret.
  2:{ left. naive_solver. }
  destruct (isArrowPair_spec tok) as (ok & -> & Hok). rewrite obind_Ret. destruct ok.
  - left. split; [|done]. intros _ t Hft. rewrite (hasField_fun _ _ _ _ Hft Hf). by apply Hok.
  - right. split; [|eauto]. intros H. specialize (H Hne tok Hf). apply Hok in H. done.
Qed.

(** The numeric check of an optional floating-point field. *)
Lemma doubleField_spec message name :
  name <> [] ->
  exists t, findField message name = Ret t /\
    match t with
    | None => forall tok, ~ hasField message name tok
    | Some tok => hasField message name tok /\ forall tok', hasField message name tok' -> tok' = tok
    end.
Proof.
  intros Hne. destruct (findField_spec message name Hne) as [(tok & Hf & ->)|[-> Hno]]; eexists; split; try done.
  split; [done|]. intros tok' H'. by apply (hasField_fun message name).
Qed.

Lemma spdFields_spec message :
  (exists has inR spd, spdFields message = pass (has, inR, spd) /\
     forall h i v, spdClean message h i v <-> (h, i, v) = (has, inR, spd)) \/
  ((forall h i v, ~ spdClean message h i v) /\ exists r, spdFields message = skip r).
Proof.
  unfold spdFields, spdClean.
  destruct (doubleField_spec message (bs "spd") ltac:(done)) as (s & -> & Hs).
  destruct (doubleField_spec message (bs "advDelta") ltac:(done)) as (a & -> & Ha).
  rewrite !obind_Ret.
  destruct s as [st|].
  - destruct Hs as [Hs Us]. destruct (parseDoubleField st) as [v|] eqn:Ev.
    2:{ right. split; [|eauto]. intros h i d [_ [(_ & _ & _ & Hno)|(tok & w & _ & Ht & Hw & _)]].
        - by apply (Hno st). - rewrite (Us _ Ht) in Hw. congruence. }
    assert (Hspd : forall h i d, (exists tok w, h = true /\ hasField message (bs "spd") tok /\
        parseDoubleField tok = Some w /\ i = spdInDomain w /\ d = if spdInDomain w then w else dzero)
        <-> (h, i, d) = (true, spdInDomain v, if spdInDomain v then v else dzero)).
    { intros h i d. split.
      - intros (tok & w & -> & Ht & Hw & -> & ->). rewrite (Us _ Ht) in Hw. rewrite Ev in Hw.
        by injection Hw as <-.
      - intros [= -> -> ->]. exists st, v. by split_and!. }
    assert (Hno : forall h i d, ~ (h = false /\ i = false /\ d = dzero /\
        forall tok, ~ hasField message (bs "spd") tok)) by (intros h i d (_ & _ & _ & H); by apply (H st)).
    destruct a as [at'|]; [|left; do 3 eexists; split; [done|]; intros; rewrite Hspd; naive_solver].
    destruct Ha as [Ha Ua]. destruct (parseDoubleField at') as [w|] eqn:Ew.
    + left. do 3 eexists. split; [done|]. intros h i d. rewrite Hspd. split; [naive_solver|].
      intros E. split; [|by right]. intros tok Ht. rewrite (Ua _ Ht). eauto.
    + right. split; [|eauto]. intros h i d [Hadv _]. destruct (Hadv _ Ha). congruence.
  - assert (Hspd : forall h i d, ((h = false /\ i = false /\ d = dzero /\
        forall tok, ~ hasField message (bs "spd") tok) \/ (exists tok w, h = true /\ hasField message (bs "spd") tok /\
        parseDoubleField tok = Some w /\ i = spdInDomain w /\ d = if spdInDomain w then w else dzero))
        <-> (h, i, d) = (false, false, dzero)).
    { intros h i d. split; [|intros [= -> -> ->]; by left].
      intros [(-> & -> & -> & _)|(tok & w & _ & Ht & _)]; [done|]. by apply Hs in Ht. }
    destruct a as [at'|]; [|left; do 3 eexists; split; [done|]; intros; rewrite Hspd; naive_solver].
    destruct Ha as [Ha Ua]. destruct (parseDoubleField at') as [w|] eqn:Ew.
    + left. do 3 eexists. split; [done|]. intros h i d. rewrite Hspd. split; [naive_solver|].
      intros E. split; [|done]. intros tok Ht. rewrite (Ua _ Ht). eauto.
    + right. split; [|eauto]. intros h i d [Hadv _]. destruct (Hadv _ Ha). congruence.
Qed.

Lemma findSpec_spec module :
  match findSpec module with
  | Some spec => spec ∈ kModules /\ spec_name spec = module
  | None => forall spec, spec ∈ kModules -> spec_name spec <> module
  end.
Proof.
  unfold findSpec. destruct (find _ kModules) as [spec|] eqn:E.
  - apply find_some in E as [H1 H2%bool_decide_eq_true]. by rewrite list_elem_of_In.
  - intros spec Hs Hn. rewrite list_elem_of_In in Hs.
    pose proof (find_none _ _ E spec Hs) as H. cbn in H. by rewrite bool_decide_eq_true_2 in H.
Qed.

(** Names identify rows of the table. *)
Lemma kModules_names spec spec' :
  spec ∈ kModules -> spec' ∈ kModules -> spec_name spec = spec_name spec' -> spec = spec'.
Proof.
  unfold kModules. rewrite !elem_of_cons, !elem_of_nil.
  intros [->|[->|[->|[->|[->|[]]]]]] [->|[->|[->|[->|[->|[]]]]]]; try done; vm_compute; congruence.
Qed.

Lemma findSpec_name spec : spec ∈ kModules -> findSpec (spec_name spec) = Some spec.
Proof.
  intros H. pose proof (findSpec_spec (spec_name spec)) as F.
  destruct (findSpec (spec_name spec)) as [spec'|]; [|by apply (F spec) in H].
  destruct F as [H' Hn]. f_equal. by apply kModules_names.
Qed.

Lemma kModules_name_ok spec : spec ∈ kModules -> spec_name spec <> [] /\ ~ ":"%byte ∈ spec_name spec.
Proof.
  unfold kModules. rewrite !elem_of_cons, !elem_of_nil.
  intros [->|[->|[->|[->|[->|[]]]]]]; (split; [done|]);
    apply (proj1 (bool_decide_eq_false (":"%byte ∈ _))); by vm_compute.
Qed.

(** ** The pipeline as a whole *)

Lemma digits_no_bracket d : forallb isDigit d = true -> ~ "]"%byte ∈ d.
Proof.
  intros H Hin. rewrite forallb_forall in H. rewrite list_elem_of_In in Hin. apply H in Hin. done.
Qed.

Lemma int64Text_token tok : int64Text tok -> headerToken tok.
Proof. intros (Hn & Hd & _). split; [done|]. by apply digits_no_bracket. Qed.

Lemma stampText_token s : validStamp s -> headerToken (stampText s).
Proof.
  intros (_ & _ & _ & _ & _ & _ & _ & Hf). split; [done|].
  pose proof (digits_no_bracket _ Hf) as Hf'.
  assert (Hd : forall k v, ~ "]"%byte ∈ fixedDigits k v)
    by (intros; apply digits_no_bracket, fixedDigits_digits).
  unfold stampText. rewrite !elem_of_app, !list_elem_of_singleton.
  intros [H|[H|[H|[H|[H|[H|[H|[H|[H|[H|[H|[H|H]]]]]]]]]]]]; first [done|by apply Hd in H].
Qed.

Lemma frameOf_fun text t m g t' m' g' :
  frameOf text t m g -> frameOf text t' m' g' -> t = t' /\ m = m' /\ g = g'.
Proof.
  intros (E & Hl & HF & Hm & Hc) (E' & Hl' & HF' & Hm' & Hc'). rewrite E in E'.
  apply headers_unique in E' as [-> E']; [|congruence|done|done].
  apply app_inv_head in E'. apply app_sep_inj in E' as [-> E']; [|done|done]. by injection E' as ->.
Qed.

Lemma DomainClean_name module message id h i v :
  DomainClean module message id h i v -> module <> [] /\ ~ ":"%byte ∈ module.
Proof. intros (spec & Hin & <- & _). by apply kModules_name_ok. Qed.

Lemma clean_frame s pid tid sess module message :
  validStamp s -> int64Text pid -> int64Text tid -> int64Text sess ->
  module <> [] -> ~ ":"%byte ∈ module ->
  frameOf (bracketed (stampText s) ++ bracketed pid ++ bracketed tid ++ bracketed sess ++
           bs " BYDA::" ++ module ++ bs ": " ++ message)
    [stampText s; pid; tid; sess] module message.
Proof.
  intros Hs H1 H2 H3 Hm Hc. split_and!; try done.
  - cbn [map concat]. by rewrite app_nil_r, <- !app_assoc.
  - constructor; [by apply stampText_token|]. do 3 (constructor; [by apply int64Text_token|]). constructor.
Qed.

Lemma stampText_inj s s' : validStamp s -> validStamp s' -> stampText s = stampText s' -> s = s'.
Proof.
  intros Hs Hs' Es. destruct (stampOf_stampText s Hs) as (_ & _ & <-).
  destruct (stampOf_stampText s' Hs') as (_ & _ & <-). by rewrite Es.
Qed.

Lemma cbind_pass {A B} (a : A) (k : A -> checked B) : cbind (pass a) k = k a.
Proof. done. Qed.
Lemma cbind_skip {A B} r (k : A -> checked B) : cbind (skip r) k = skip r.
Proof. done. Qed.

Lemma list4_inj {A} (a b c d a' b' c' d' : A) :
  [a; b; c; d] = [a'; b'; c'; d'] -> a = a' /\ b = b' /\ c = c' /\ d = d'.
Proof. by intros [= -> -> -> ->]. Qed.

Lemma withinSession_spec p a :
  LogLineParser.hasAnchor p &&
    ((kTsRangeHours * 3600 <? a - LogLineParser.anchorSeconds p) ||
     (a - LogLineParser.anchorSeconds p <? - (kTsRangeHours * 3600))) = false
  <-> withinSession p a.
Proof.
  unfold withinSession. destruct (LogLineParser.hasAnchor p); cbn [andb]; [|split; done].
  rewrite orb_false_iff, !Z.ltb_ge. split; [intros ? _; lia|intros H; specialize (H eq_refl); lia].
Qed.

Lemma stage2_spec p ts :
  (exists s, validStamp s /\ ts = stampText s /\ withinSession p (stampSeconds s) /\
     LogLineParser.stage2 p ts = pass (stampResult s)) \/
  ((forall s, validStamp s -> ts = stampText s -> ~ withinSession p (stampSeconds s)) /\
   exists r, LogLineParser.stage2 p ts = skip r).
Proof.
  unfold LogLineParser.stage2.
  destruct (parseTimestamp_spec ts) as [(s & Hs & -> & ->)|[-> Hno]]; rewrite obind_Ret.
  2:{ right. split; [|eauto]. intros s Hs Hts. by apply Hno in Hs. }
  unfold stampResult. pose proof (withinSession_spec p (stampSeconds s)) as Hw.
  destruct (LogLineParser.hasAnchor p && _).
  - right. split; [|eauto]. intros s' Hs' Es Hw'.
    rewrite <- (stampText_inj s s' Hs Hs' Es) in Hw'. by apply Hw in Hw'.
  - left. exists s. split_and!; try done. by apply Hw.
Qed.

Lemma stage4_spec module message :
  (exists x, LogLineParser.stage4 module message = pass x /\
     forall id h i v, DomainClean module message id h i v <-> (id, (h, i, v)) = x) \/
  ((forall id h i v, ~ DomainClean module message id h i v) /\
   exists r, LogLineParser.stage4 module message = skip r).
Proof.
  unfold LogLineParser.stage4, DomainClean. destruct (bracketsSane message) eqn:HB; cbn [negb].
  2:{ right. split; [|eauto]. intros id h i v (spec & _ & _ & _ & Hb%bracketsSane_spec & _). congruence. }
  apply bracketsSane_spec in HB. pose proof (findSpec_spec module) as Hsp.
  destruct (findSpec module) as [spec|].
  2:{ right. split; [|eauto]. intros id h i v (spec & Hin & Hn & _). by apply (Hsp spec). }
  destruct Hsp as [Hin Hname].
  assert (Hu : forall spec', spec' ∈ kModules -> spec_name spec' = module -> spec' = spec)
    by (intros spec' Hin' Hn'; apply kModules_names; congruence).
  destruct (intFieldsOk_spec message (spec_intFields spec)) as [[HI ->]|[HI (r & ->)]];
    [rewrite cbind_pass|right; split; [|eauto]].
  2:{ intros id h i v (spec' & Hin' & Hn' & _ & _ & Hi & _). by rewrite (Hu spec' Hin' Hn') in Hi. }
  destruct (arrowFieldOk_spec message (spec_arrowField spec)) as [[HA ->]|[HA (r & ->)]];
    [rewrite cbind_pass|right; split; [|eauto]].
  2:{ intros id h i v (spec' & Hin' & Hn' & _ & _ & _ & Ha & _). by rewrite (Hu spec' Hin' Hn') in Ha. }
  case_bool_decide as Hbeam; [|left; eexists; split; [done|]; intros id h i v; split].
  - destruct (spdFields_spec message) as [(h0 & i0 & v0 & -> & Hiff)|[Hno (r & ->)]].
    + left. eexists. split; [done|]. intros id h i v. split.
      * intros (spec' & Hin' & Hn' & <- & _ & _ & _ & Hs). rewrite (Hu spec' Hin' Hn') in Hs |- *.
        rewrite bool_decide_eq_true_2 in Hs by done. apply Hiff in Hs. congruence.
      * intros [= -> -> -> ->]. exists spec. rewrite bool_decide_eq_true_2 by done. by rewrite Hiff.
    + right. split; [|eauto]. intros id h i v (spec' & Hin' & Hn' & <- & _ & _ & _ & Hs).
      rewrite (Hu spec' Hin' Hn'), bool_decide_eq_true_2 in Hs by done. by apply Hno in Hs.
  - intros (spec' & Hin' & Hn' & <- & _ & _ & _ & Hs). rewrite (Hu spec' Hin' Hn') in Hs |- *.
    rewrite bool_decide_eq_false_2 in Hs by done. by destruct Hs as (-> & -> & ->).
  - intros [= -> -> -> ->]. exists spec. by rewrite bool_decide_eq_false_2.
Qed.

(** The parts of a clean line are the ones the frame stage finds. *)
Lemma CleanLine_parts p text toks m g line a :
  frameOf text toks m g -> CleanLine p text line a ->
  exists s pid tid sess, toks = [stampText s; pid; tid; sess] /\
    validStamp s /\ a = stampSeconds s /\ withinSession p a /\ Forall int64Text [pid; tid; sess] /\
    DomainClean m g (pl_module line) (pl_hasSpd line) (pl_spdInRange line) (pl_spd line) /\
    pl_year line = st_year s /\ pl_month line = st_month s /\ pl_day line = st_day s /\
    pl_hour line = st_hour s.
Proof.
  intros Hfr (s & pid & tid & sess & module & message & E & _ & H1 & H1a & H1b & H2 & H3 & H4 & HD & Hrest).
  destruct (DomainClean_name _ _ _ _ _ _ HD) as [Hm Hc].
  pose proof (clean_frame s pid tid sess module message H1 H2 H3 H4 Hm Hc) as Hfr'. rewrite <- E in Hfr'.
  destruct (frameOf_fun _ _ _ _ _ _ _ Hfr Hfr') as (-> & -> & ->).
  exists s, pid, tid, sess. do 4 (split; [done|]).
  split; [by do 3 (constructor; [done|])|]. by split.
Qed.

(** The pipeline is total, and passes exactly the clean lines. *)
Lemma validate_spec p text tooLong :
  exists x, LogLineParser.validate p text tooLong = Ret x /\
    match x with
    | inl _ => tooLong = true \/ forall line a, ~ CleanLine p text line a
    | inr (line, a) => tooLong = false /\ CleanLine p text line a /\
                       forall line' a', CleanLine p text line' a' -> line' = line /\ a' = a
    end.
Proof.
  unfold LogLineParser.validate.
  destruct (stage0_spec text tooLong) as [(-> & Hpr & Hsp & ->)|[Hbad (r & ->)]]; [rewrite cbind_pass|].
  2:{ exists (inl r). split; [done|]. destruct Hbad as [?|[Hp|Hp]]; [by left|right..];
      intros line a (s & pid & tid & sess & m & message & E & Hpr & _); [done|].
      rewrite E in Hp. by inversion Hp. }
  destruct (frame_spec text) as [(toks & m & g & Hfr & ->)|[-> Hno]]; [rewrite cbind_pass|].
  2:{ eexists. split; [done|]. right.
      intros line a (s & pid & tid & sess & m & g & E & _ & H1 & _ & _ & H2 & H3 & H4 & HD & _).
      destruct (DomainClean_name _ _ _ _ _ _ HD). eapply Hno. rewrite E. by apply clean_frame. }
  pose proof (fun line a => CleanLine_parts p text toks m g line a Hfr) as Hparts.
  destruct Hfr as (E & Hl & _). destruct toks as [|ts [|pid [|tid [|sess [|]]]]]; try done.
  change (vat _ 0) with (Ret ts). rewrite obind_Ret. cbn [drop].
  destruct (stage2_spec p ts) as [(s & Hs & -> & Hw & ->)|[Hno (r & ->)]]; [rewrite cbind_pass|].
  2:{ eexists. split; [done|]. right. intros line a HC. destruct (Hparts line a HC)
        as (s & ? & ? & ? & (Es & _)%list4_inj & Hs & -> & Hw & _). by apply (Hno s). }
  unfold stampResult.
  destruct (headerNumbers_spec [pid; tid; sess]) as [[HN ->]|[HN (r & ->)]]; [rewrite cbind_pass|].
  2:{ eexists. split; [done|]. right. intros line a HC. apply HN. destruct (Hparts line a HC)
        as (? & ? & ? & ? & (_ & -> & -> & ->)%list4_inj & _ & _ & _ & HN' & _). done. }
  apply Forall_cons_iff in HN as [N1 [N2 [N3 _]%Forall_cons_iff]%Forall_cons_iff].
  destruct (stage4_spec m g) as [([id [[h i] v]] & -> & HD)|[Hno (r & ->)]]; [rewrite cbind_pass|].
  2:{ eexists. split; [done|]. right. intros line a HC. destruct (Hparts line a HC)
        as (? & ? & ? & ? & _ & _ & _ & _ & _ & HD & _). by apply Hno in HD. }
  eexists. split; [done|]. split; [done|]. split.
  - exists s, pid, tid, sess, m, g. split; [rewrite E; cbn [map concat]; by rewrite app_nil_r, <- !app_assoc|].
    do 7 (split; [done|]). split; [by apply HD|done].
  - intros line' a' HC. destruct (Hparts line' a' HC)
      as (s' & ? & ? & ? & (Es & _)%list4_inj & Hs' & -> & _ & _ & HD' & M1 & M2 & M3 & M4).
    pose proof (stampText_inj s s' Hs Hs' Es) as <-. apply HD in HD'. split; [|done].
    destruct line'; cbn in *. congruence.
Qed.

(** ** Properties *)

(** C17: the parser is default-deny, exactly.  It reads nothing outside the
    line and always answers; it answers [Parsed] if and only if the line is a
    clean line (structure, calendar timestamp within 48 hours of the session's
    anchor, int64 header numbers, balanced brackets, whitelisted module, every
    documented field that is present well-formed) and was not cut for length,
    with the module, date and spd the text denotes; only an accepted line moves
    the parser's state, and only by setting the anchor when there is none. *)
Theorem parse_exact p text tooLong :
  exists p' r, LogLineParser.parse p text tooLong = Ret (p', r) /\
    (forall line, r = Parsed line <-> tooLong = false /\ exists a, CleanLine p text line a) /\
    (forall line a, r = Parsed line -> CleanLine p text line a ->
       p' = if LogLineParser.hasAnchor p then p else LogLineParser.mk true a) /\
    (forall reason, r = Skip reason -> p' = p).
Proof.
  destruct (validate_spec p text tooLong) as (x & E & Hx). unfold LogLineParser.parse.
  rewrite E, obind_Ret. destruct x as [reason|[line a]]; do 2 eexists; (split; [done|]).
  - split_and!; try done. intros line. split; [done|]. intros [-> [a HC]].
    destruct Hx as [?|Hx]; [done|]. by apply Hx in HC.
  - destruct Hx as (-> & HC & Hu). split_and!; try done.
    + intros line'. split; [intros [= <-]; eauto|]. intros [_ [a' HC']].
      by destruct (Hu _ _ HC') as [-> _].
    + intros line' a' [= <-] HC'. by destruct (Hu _ _ HC') as [_ ->].
Qed.

(** A line of the reference log format, and what it is read as. *)
Example parse_sample :
  LogLineParser.parse LogLineParser.init
    (bs "[2026-06-19_22:13:01.123456][12][34][56] BYDA::BeamSteerCtrlUnitImpl: unitAddr[7] spd[137500.000000], advDelta[0.5]")
    false
  = Ret (LogLineParser.mk true 1781907181,
         Parsed (mkLine ModuleId.BeamSteerCtrlUnitImpl 2026 6 19 22 true true (doubleOfZ 137500))).
Proof. by vm_compute. Qed.
