(* ===== verification/Calendar.v ===== *)
(** * Calendar arithmetic (daysFromCivil of server/src/parser/LogLineParser.cpp)

    [daysFromCivil] is the number of days since 1970-01-01: the closed form is
    compared with the calendar itself, day by day, and shown to be injective on
    valid dates.  [hour_unique] lifts that to the hour buckets. *)

From S2P Require Import Prelude Charconv LineParser.

Definition validDate (y m d : Z) : Prop :=
  0 <= y <= 9999 /\ 1 <= m <= 12 /\ 1 <= d <= monthDays y m.

(** The day after, by the calendar's own rules. *)
Definition nextDay (y m d : Z) : Z * Z * Z :=
  if d <? monthDays y m then (y, m, d + 1)
  else if m <? 12 then (y, m + 1, 1) else (y + 1, 1, 1).

(** Days from March 1st of year 0 to March 1st of year [y]. *)
Definition marchDays (y : Z) : Z := 365 * y + y / 4 - y / 100 + y / 400.

(** Days from March 1st to the first of month [m]. *)
Definition monthStart (m : Z) : Z := (153 * (m + (if 2 <? m then -3 else 9)) + 2) / 5.

Lemma daysFromCivil_closed y m d :
  validDate y m d ->
  daysFromCivil y m d =
  marchDays (y - (if m <=? 2 then 1 else 0)) + monthStart m + d - 1 - 719468.
Proof.
  intros (Hy & Hm & Hd). pose proof (monthDays_le y m). unfold daysFromCivil, marchDays, monthStart.
  set (y' := y - _). assert (Hy' : -1 <= y' <= 9999) by (subst y'; destruct (m <=? 2); lia). clearbody y'.
  set (mm := m + _). assert (Hmm : 0 <= mm <= 11)
    by (subst mm; destruct (Z.ltb_spec 2 m); lia). clearbody mm.
  rewrite (Z.quot_div_nonneg (153 * mm + 2)) by lia.
  assert (Hera : Z.quot (if 0 <=? y' then y' else y' - 399) 400 = y' / 400).
  { destruct (Z.leb_spec 0 y'); [by rewrite Z.quot_div_nonneg by lia|].
    assert (y' = -1) as -> by lia. done. }
  rewrite Hera. set (e := y' / 400). set (q := (153 * mm + 2) / 5).
  assert (Hq : 0 <= q <= 337) by (subst q; split; [apply Z.div_pos|apply Z.div_le_upper_bound]; lia).
  assert (Hyoe : 0 <= y' - e * 400 < 400) by (subst e; pose proof (Z.div_mod y' 400);
    pose proof (Z.mod_pos_bound y' 400); lia).
  rewrite (uwrap_small 32 (y' - e * 400)) by (unfold is_uint; lia).
  rewrite (uwrap_small 32 (q + d - 1)) by (unfold is_uint; lia).
  clearbody e q. clear Hera. remember (y' - e * 400) as yoe eqn:Ey.
  assert (y' = yoe + 400 * e) as -> by lia.
  replace (yoe + 400 * e) with (yoe + 100 * e * 4) at 2 by lia. rewrite Z.div_add by lia.
  replace (yoe + 400 * e) with (yoe + 4 * e * 100) at 2 by lia. rewrite Z.div_add by lia.
  assert (0 <= yoe / 4 < 100) by (split; [apply Z.div_pos|apply Z.div_lt_upper_bound]; lia).
  assert (0 <= yoe / 100 < 4) by (split; [apply Z.div_pos|apply Z.div_lt_upper_bound]; lia).
  assert (yoe / 100 <= yoe) by (apply Z.div_le_upper_bound; lia).
  rewrite (uwrap_small 32) by (unfold is_uint; lia). lia.
Qed.

(** A March year is a day longer when the February that ends it is. *)
Lemma marchDays_succ y :
  marchDays y - marchDays (y - 1) = 365 + (monthDays y 2 - 28).
Proof.
  unfold marchDays, monthDays. cbn [Z.eqb Pos.eqb].
  case_bool_decide as H; Z.to_euclidean_division_equations; lia.
Qed.

Lemma marchDays_mono a b : a <= b -> marchDays a <= marchDays b.
Proof. intros H. unfold marchDays. Z.to_euclidean_division_equations. lia. Qed.

Ltac month_cases m :=
  let H := fresh in
  assert (m = 1 \/ m = 2 \/ m = 3 \/ m = 4 \/ m = 5 \/ m = 6 \/ m = 7 \/ m = 8 \/ m = 9 \/
          m = 10 \/ m = 11 \/ m = 12) as H by lia;
  repeat destruct H as [->|H]; [..|subst m].

(** Evaluate the month tables on a numeral month. *)
Ltac eval_months :=
  repeat match goal with
  | |- context [monthStart ?k] =>
      let v := eval vm_compute in (monthStart k) in
      lazymatch v with Z0 => idtac | Zpos _ => idtac end; change (monthStart k) with v
  | |- context [if ?a <=? 2 then 1 else 0] =>
      let v := eval vm_compute in (if a <=? 2 then 1 else 0) in
      lazymatch v with Z0 => idtac | Zpos _ => idtac end;
      change (if a <=? 2 then 1 else 0) with v
  | |- context [monthDays 1 ?k] =>
      let v := eval vm_compute in (monthDays 1 k) in
      lazymatch v with Z0 => idtac | Zpos _ => idtac end; change (monthDays 1 k) with v
  end; rewrite ?Z.sub_0_r.

Lemma monthDays_val y m :
  1 <= m <= 12 -> m <> 2 -> monthDays y m = monthDays 1 m.
Proof. intros H1 H2. unfold monthDays. by destruct (Z.eqb_spec m 2). Qed.

Lemma february y : 28 <= monthDays y 2 <= 29.
Proof. unfold monthDays. cbn [Z.eqb Pos.eqb]. case_bool_decide; lia. Qed.

(** C33: [daysFromCivil] is the calendar: it is 0 on 1970-01-01, and the day
    after any valid date of years 0 to 9999 (month lengths and leap years by
    the Gregorian rules) is one more. *)
Lemma daysFromCivil_calendar :
  daysFromCivil 1970 1 1 = 0 /\
  forall y m d, validDate y m d -> y < 9999 ->
    let '(y', m', d') := nextDay y m d in
    validDate y' m' d' /\ daysFromCivil y' m' d' = daysFromCivil y m d + 1.
Proof.
  split; [done|]. intros y m d Hv Hy9. pose proof Hv as (Hy & Hm & Hd). unfold nextDay.
  pose proof (marchDays_succ y) as Hs. pose proof (february y).
  destruct (Z.ltb_spec d (monthDays y m)) as [Hlt|Hge].
  { assert (Hv' : validDate y m (d + 1)) by (unfold validDate; lia).
    split; [done|]. rewrite !daysFromCivil_closed by done. lia. }
  assert (Hd' : d = monthDays y m) by lia.
  destruct (Z.ltb_spec m 12) as [Hm12|Hm12].
  - assert (Hv' : validDate y (m + 1) 1).
    { unfold validDate. split_and!; try lia. unfold monthDays. repeat case_match; lia. }
    split; [done|]. rewrite !daysFromCivil_closed by done. rewrite Hd'. clear Hv Hv' Hd Hge Hd'.
    month_cases m; try (rewrite (monthDays_val y) by lia); eval_months; lia.
  - assert (m = 12) as -> by lia.
    assert (Hv' : validDate (y + 1) 1 1) by (unfold validDate; cbn; lia).
    split; [done|]. rewrite !daysFromCivil_closed by done. rewrite Hd'.
    rewrite (monthDays_val y 12) by lia. eval_months. replace (y + 1 - 1) with y by lia. lia.
Qed.

(** Position of a date within its March year. *)
Lemma yearDay_bounds y m d :
  validDate y m d ->
  let y' := y - (if m <=? 2 then 1 else 0) in
  0 <= monthStart m + d - 1 < marchDays (y' + 1) - marchDays y'.
Proof.
  intros (Hy & Hm & Hd). cbv zeta. pose proof (february y). pose proof (marchDays_succ y) as H1.
  pose proof (marchDays_succ (y + 1)) as H2. replace (y + 1 - 1) with y in H2 by lia.
  pose proof (february (y + 1)).
  assert (Hd' : m <> 2 -> d <= monthDays 1 m) by (intros; rewrite <- (monthDays_val y) by lia; lia).
  month_cases m; revert Hd'; eval_months; intros Hd'; replace (y - 1 + 1) with y by lia; lia.
Qed.

(** Within a March year the months follow each other without overlap. *)
Lemma monthStart_disjoint y1 y2 m1 d1 m2 d2 :
  validDate y1 m1 d1 -> validDate y2 m2 d2 ->
  monthStart m1 + d1 = monthStart m2 + d2 -> m1 = m2 /\ d1 = d2.
Proof.
  intros (_ & Hm1 & Hd1) (_ & Hm2 & Hd2) E.
  assert (B1 : m1 <> 2 -> d1 <= monthDays 1 m1) by (intros; rewrite <- (monthDays_val y1) by lia; lia).
  assert (B2 : m2 <> 2 -> d2 <= monthDays 1 m2) by (intros; rewrite <- (monthDays_val y2) by lia; lia).
  pose proof (monthDays_le y1 m1). pose proof (monthDays_le y2 m2).
  assert (F1 : m1 = 2 -> d1 <= 29) by (intros ->; pose proof (february y1); lia).
  assert (F2 : m2 = 2 -> d2 <= 29) by (intros ->; pose proof (february y2); lia).
  destruct Hd1 as [Hd1 _], Hd2 as [Hd2 _].
  revert E B1 B2. month_cases m1; month_cases m2; eval_months; lia.
Qed.

Lemma daysFromCivil_inj y1 m1 d1 y2 m2 d2 :
  validDate y1 m1 d1 -> validDate y2 m2 d2 ->
  daysFromCivil y1 m1 d1 = daysFromCivil y2 m2 d2 -> y1 = y2 /\ m1 = m2 /\ d1 = d2.
Proof.
  intros V1 V2. rewrite !daysFromCivil_closed by done. intros E.
  pose proof (yearDay_bounds _ _ _ V1) as B1. pose proof (yearDay_bounds _ _ _ V2) as B2. cbv zeta in B1, B2.
  set (a := y1 - _) in *. set (b := y2 - _) in *.
  assert (a = b) as Hab.
  { destruct (Z.lt_trichotomy a b) as [H|[H|H]]; [|done|]; exfalso.
    - pose proof (marchDays_mono (a + 1) b). lia.
    - pose proof (marchDays_mono (b + 1) a). lia. }
  destruct (monthStart_disjoint y1 y2 m1 d1 m2 d2) as [-> ->]; try done; [rewrite Hab in E; lia|].
  subst a b. destruct (m2 <=? 2); lia.
Qed.

(** ** Hours *)

Definition absHour (y m d h : Z) : Z := daysFromCivil y m d * 24 + h.

(** An hour of the calendar is determined by its number. *)
Lemma hour_unique y1 m1 d1 h1 y2 m2 d2 h2 :
  validDate y1 m1 d1 -> validDate y2 m2 d2 -> 0 <= h1 <= 23 -> 0 <= h2 <= 23 ->
  absHour y1 m1 d1 h1 = absHour y2 m2 d2 h2 ->
  y1 = y2 /\ m1 = m2 /\ d1 = d2 /\ h1 = h2.
Proof.
  unfold absHour. intros V1 V2 H1 H2 E.
  assert (daysFromCivil y1 m1 d1 = daysFromCivil y2 m2 d2) as Ed by lia.
  destruct (daysFromCivil_inj _ _ _ _ _ _ V1 V2 Ed) as (-> & -> & ->). lia.
Qed.

Lemma validStamp_date s : validStamp s -> validDate (st_year s) (st_month s) (st_day s).
Proof. intros (? & ? & ? & _). done. Qed.

Lemma stampSeconds_hour s :
  validStamp s ->
  stampSeconds s / 3600 = absHour (st_year s) (st_month s) (st_day s) (st_hour s).
Proof.
  intros (_ & _ & _ & Hh & Hm & Hs & _). unfold stampSeconds, absHour.
  symmetry. apply (Z.div_unique_pos _ _ _ (st_minute s * 60 + st_second s)); lia.
Qed.

(** ** Order *)

(** January 1st of [y]. *)
Definition yearStart (y : Z) : Z := marchDays (y - 1) + 306.

Lemma yearStart_bounds y m d :
  validDate y m d ->
  yearStart y <= daysFromCivil y m d + 719468 < yearStart (y + 1).
Proof.
  intros V. rewrite daysFromCivil_closed by done. destruct V as (Hy & Hm & Hd).
  pose proof (marchDays_succ y) as H1. pose proof (february y).
  assert (Hd' : m <> 2 -> d <= monthDays 1 m) by (intros; rewrite <- (monthDays_val y) by lia; lia).
  unfold yearStart. replace (y + 1 - 1) with y by lia.
  month_cases m; revert Hd'; eval_months; lia.
Qed.

(** Dates in calendar order have increasing day numbers. *)
Definition dateLt (y1 m1 d1 y2 m2 d2 : Z) : Prop :=
  y1 < y2 \/ (y1 = y2 /\ (m1 < m2 \/ (m1 = m2 /\ d1 < d2))).

Lemma daysFromCivil_mono y1 m1 d1 y2 m2 d2 :
  validDate y1 m1 d1 -> validDate y2 m2 d2 -> dateLt y1 m1 d1 y2 m2 d2 ->
  daysFromCivil y1 m1 d1 < daysFromCivil y2 m2 d2.
Proof.
  intros V1 V2 [Hy|[<- [Hm|[<- Hd]]]].
  - pose proof (yearStart_bounds _ _ _ V1). pose proof (yearStart_bounds _ _ _ V2).
    pose proof (marchDays_mono y1 (y2 - 1)). unfold yearStart in *.
    replace (y1 + 1 - 1) with y1 in * by lia. lia.
  - rewrite !daysFromCivil_closed by done. destruct V1 as (Hy & Hm1 & Hd1), V2 as (_ & Hm2 & Hd2).
    assert (B1 : m1 <> 2 -> d1 <= monthDays 1 m1) by (intros; rewrite <- (monthDays_val y1) by lia; lia).
    pose proof (marchDays_succ y1). pose proof (february y1).
    assert (B2 : m1 = 2 -> d1 <= monthDays y1 2) by (intros ->; lia).
    destruct Hd2 as [Hd2 _], Hd1 as [Hd1 _]. revert B1 B2.
    month_cases m1; month_cases m2; eval_months; lia.
  - rewrite !daysFromCivil_closed by done. lia.
Qed.
