(* ===== verification/OMap.v ===== *)
(** * [std::map]

    An ordered map is the list of its entries in key order, as iteration
    visits them.  [KeyOrder] is the comparison the map is instantiated with:
    [std::less] on 64-bit keys, and on [std::string] (byte-wise, unsigned). *)

From stdpp Require Import sorting sets.
From S2P Require Import Prelude.

Class KeyOrder (K : Type) := {
  klt : K -> K -> bool;
  klt_irrefl a : klt a a = false;
  klt_trans a b c : klt a b = true -> klt b c = true -> klt a c = true;
  klt_total a b : klt a b = false -> klt b a = false -> a = b }.

#[export, refine] Instance Z_KeyOrder : KeyOrder Z := { klt := Z.ltb }.
Proof.
  - apply Z.ltb_irrefl.
  - intros a b c. rewrite !Z.ltb_lt. lia.
  - intros a b. rewrite !Z.ltb_ge. lia.
Defined.

(** [std::string::operator<]: [memcmp] order, a proper prefix is smaller. *)
Fixpoint bytesLt (a b : bytes) : bool :=
  match a, b with
  | [], [] => false
  | [], _ :: _ => true
  | _ :: _, [] => false
  | x :: a, y :: b => (b2z x <? b2z y) || ((b2z x =? b2z y) && bytesLt a b)
  end.

#[export, refine] Instance bytes_KeyOrder : KeyOrder bytes := { klt := bytesLt }.
Proof.
  - intros a. induction a as [|x a IH]; [done|]. cbn. by rewrite Z.ltb_irrefl, IH, andb_false_r.
  - intros a. induction a as [|x a IH]; intros [|y b] [|z c]; try done. cbn.
    rewrite !orb_true_iff, !andb_true_iff, !Z.ltb_lt, !Z.eqb_eq.
    intros [H|[H1 H2]] [H'|[H1' H2']]; [left; lia|left; lia|left; lia|right].
    split; [lia|]. by apply (IH b).
  - intros a. induction a as [|x a IH]; intros [|y b]; try done. cbn.
    rewrite !orb_false_iff, !Z.ltb_ge. intros [H1 H2] [H1' H2'].
    assert (Hxy : b2z x = b2z y) by lia. apply b2z_inj in Hxy as Hxy'. subst y.
    rewrite Z.eqb_refl in H2, H2'. cbn in H2, H2'. f_equal. by apply IH.
Defined.

Section OMap.
Context {K V : Type} `{KeyOrder K}.

Definition omap : Type := list (K * V).

(** [m.find(k)] *)
Fixpoint ofind (m : omap) (k : K) : option V :=
  match m with
  | [] => None
  | (k', v) :: m =>
      if klt k k' then None else if klt k' k then ofind m k else Some v
  end.

(** [m.emplace(k, v)] for an absent key, [it->second = v] for a present one. *)
Fixpoint oinsert (m : omap) (k : K) (v : V) : omap :=
  match m with
  | [] => [(k, v)]
  | (k', v') :: m =>
      if klt k k' then (k, v) :: (k', v') :: m
      else if klt k' k then (k', v') :: oinsert m k v else (k, v) :: m
  end.

Definition osize (m : omap) : Z := zlen m.

(** Entries in strictly increasing key order. *)
Definition osorted (m : omap) : Prop := StronglySorted (fun a b => klt a.1 b.1 = true) m.

Definition okeys (m : omap) : list K := map fst m.

Lemma klt_antisym a b : klt a b = true -> klt b a = false.
Proof.
  intros Hab. destruct (klt b a) eqn:Hba; [|done].
  pose proof (klt_trans _ _ _ Hab Hba) as Haa. by rewrite klt_irrefl in Haa.
Qed.

Lemma oinsert_In m k v x : In x (oinsert m k v) -> x = (k, v) \/ In x m.
Proof.
  induction m as [|[k' v'] m IH]; cbn; [naive_solver|].
  destruct (klt k k'); [cbn; naive_solver|]. destruct (klt k' k); cbn; naive_solver.
Qed.

Lemma oinsert_sorted m k v : osorted m -> osorted (oinsert m k v).
Proof.
  unfold osorted. induction 1 as [|[k' v'] m Hs IH Hf]; cbn; [repeat constructor|].
  destruct (klt k k') eqn:E1.
  - constructor; [by constructor|]. constructor; [done|].
    apply Forall_forall. intros [a b] Hin. apply (proj1 (Forall_forall _ _) Hf) in Hin. cbn in *.
    by apply (klt_trans _ k').
  - destruct (klt k' k) eqn:E2.
    + constructor; [done|]. apply Forall_forall. intros x Hin.
      apply oinsert_In in Hin as [->|Hin]; [done|]. by apply (proj1 (Forall_forall _ _) Hf).
    + pose proof (klt_total _ _ E1 E2) as ->. by constructor.
Qed.

Lemma ofind_In m k v : osorted m -> (ofind m k = Some v <-> In (k, v) m).
Proof.
  unfold osorted. induction 1 as [|[k' v'] m Hs IH Hf]; cbn; [naive_solver|].
  destruct (klt k k') eqn:E1; [|destruct (klt k' k) eqn:E2].
  - split; [done|]. intros [[= -> ->]|Hin]; [by rewrite klt_irrefl in E1|].
    apply (proj1 (Forall_forall _ _) Hf) in Hin. cbn in Hin.
    apply klt_antisym in Hin. congruence.
  - rewrite IH. split; [by right|]. intros [[= -> ->]|Hin]; [by rewrite klt_irrefl in E2|done].
  - pose proof (klt_total _ _ E1 E2) as ->. split; [intros [= ->]; by left|].
    intros [[= ->]|Hin]; [done|]. apply (proj1 (Forall_forall _ _) Hf) in Hin. cbn in Hin. congruence.
Qed.

Lemma ofind_oinsert_eq m k v : ofind (oinsert m k v) k = Some v.
Proof.
  induction m as [|[k' v'] m IH]; cbn; [by rewrite klt_irrefl|].
  destruct (klt k k') eqn:E1; cbn; [by rewrite klt_irrefl|].
  destruct (klt k' k) eqn:E2; cbn; [by rewrite E1, E2|by rewrite klt_irrefl].
Qed.

Lemma ofind_oinsert_ne m k k' v : k <> k' -> ofind (oinsert m k v) k' = ofind m k'.
Proof.
  intros Hne. induction m as [|[k0 v0] m IH]; cbn.
  - destruct (klt k' k) eqn:E1; [done|]. destruct (klt k k') eqn:E2; [done|].
    by pose proof (klt_total _ _ E1 E2).
  - destruct (klt k k0) eqn:E1; cbn.
    + destruct (klt k' k) eqn:E2; [by rewrite (klt_trans _ _ _ E2 E1)|].
      destruct (klt k k') eqn:E3; [done|]. by pose proof (klt_total _ _ E2 E3).
    + destruct (klt k0 k) eqn:E2; cbn; [by rewrite IH|].
      pose proof (klt_total _ _ E1 E2) as <-.
      destruct (klt k' k) eqn:E3; [done|]. destruct (klt k k') eqn:E4; [done|].
      by pose proof (klt_total _ _ E3 E4).
Qed.

Lemma osize_oinsert_new m k v : ofind m k = None -> osize (oinsert m k v) = osize m + 1.
Proof.
  unfold osize. induction m as [|[k' v'] m IH]; cbn [ofind oinsert]; [done|].
  destruct (klt k k'); [rewrite !zlen_cons; lia|].
  destruct (klt k' k); [|done]. intros Hn. rewrite !zlen_cons, IH by done. lia.
Qed.

Lemma osize_oinsert_old m k v v0 : ofind m k = Some v0 -> osize (oinsert m k v) = osize m.
Proof.
  unfold osize. induction m as [|[k' v'] m IH]; cbn [ofind oinsert]; [done|].
  destruct (klt k k'); [done|]. destruct (klt k' k); [|intros _; by rewrite !zlen_cons].
  intros Hn. rewrite !zlen_cons, IH by done. lia.
Qed.

Lemma okeys_NoDup m : osorted m -> NoDup (okeys m).
Proof.
  unfold osorted. induction 1 as [|[k v] m Hs IH Hf]; cbn; constructor; [|done].
  rewrite list_elem_of_fmap. intros ([k' v'] & -> & Hin). rewrite list_elem_of_In in Hin.
  apply (proj1 (Forall_forall _ _) Hf) in Hin. cbn in Hin. by rewrite klt_irrefl in Hin.
Qed.

(** Sum of a quantity over the entries, when one entry changes. *)
Definition osum (f : V -> Z) (m : omap) : Z := fold_right (fun e s => f e.2 + s) 0 m.

Lemma osum_cons f k v m : osum f ((k, v) :: m) = f v + osum f m.
Proof. done. Qed.

Lemma osum_insert f m k v :
  osum f (oinsert m k v) = osum f m - (match ofind m k with Some v0 => f v0 | None => 0 end) + f v.
Proof.
  induction m as [|[k' v'] m IH]; cbn [ofind oinsert]; [cbn; lia|].
  destruct (klt k k'); [rewrite !osum_cons; lia|].
  destruct (klt k' k); rewrite !osum_cons, ?IH; lia.
Qed.
End OMap.
Arguments omap : clear implicits.

(** ** [std::sort] with a strict order on distinct keys

    The result is the one ordered arrangement; insertion computes it. *)
Section Sort.
Context {A : Type} (lt : A -> A -> bool).

Fixpoint insertSorted (x : A) (l : list A) : list A :=
  match l with
  | [] => [x]
  | y :: l => if lt y x then y :: insertSorted x l else x :: y :: l
  end.

Definition sortBy (l : list A) : list A := fold_right insertSorted [] l.

Lemma insertSorted_perm x l : insertSorted x l ≡ₚ x :: l.
Proof.
  induction l as [|y l IH]; cbn; [done|]. destruct (lt y x); [|done].
  rewrite IH. apply Permutation_swap.
Qed.

Lemma sortBy_perm l : sortBy l ≡ₚ l.
Proof.
  induction l as [|x l IH]; cbn; [done|]. unfold sortBy in *. by rewrite insertSorted_perm, IH.
Qed.

Context (lt_trans : forall a b c, lt a b = true -> lt b c = true -> lt a c = true).

(** Sorted, when any two different positions are comparable. *)
Lemma insertSorted_sorted x l :
  Forall (fun y => lt y x = true \/ lt x y = true) l ->
  StronglySorted (fun a b => lt a b = true) l ->
  StronglySorted (fun a b => lt a b = true) (insertSorted x l).
Proof.
  intros Hc Hs. revert Hc. induction Hs as [|y l Hs IH Hf]; intros Hc; cbn; [repeat constructor|].
  apply Forall_cons_iff in Hc as [Hy Hc]. destruct (lt y x) eqn:E.
  - constructor; [by apply IH|]. rewrite insertSorted_perm. by constructor.
  - destruct Hy as [Hy|Hy]; [congruence|]. constructor; [by constructor|]. constructor; [done|].
    eapply Forall_impl; [|exact Hf]. intros z Hz. by apply (lt_trans _ y).
Qed.

Lemma sortBy_sorted l :
  ForallOrdPairs (fun a b => lt a b = true \/ lt b a = true) l ->
  StronglySorted (fun a b => lt a b = true) (sortBy l).
Proof.
  induction 1 as [|x l Hx Hl IH]; cbn; [constructor|]. apply insertSorted_sorted; [|done].
  change (fold_right insertSorted [] l) with (sortBy l). rewrite sortBy_perm.
  eapply Forall_impl; [|exact Hx]. cbn. tauto.
Qed.
End Sort.
