(* ===== verification/Level.v ===== *)
(** * Log levels (common/util/Logger.h) *)

From S2P Require Import Prelude.

(** [common::LogLevel] *)
Module LogLevel.
Inductive t := Info | Warn | Error.
#[global] Instance t_eq_dec : EqDecision t.
Proof. solve_decision. Defined.
End LogLevel.
