(* ===== verification/Stats.v ===== *)
(** * Statistics (server/src/stats/StatsCollector.h, .cpp)

    Per-module hour buckets, the spd samples and their mean.  [recordAll]
    replays a sequence of lines; [stats_counts] says every counter is the
    number of accepted lines it is named after, [stats_capacity] that behind
    the parser's 48-hour window the entry limit is never reached. *)

From stdpp Require Import sorting sets.
From S2P Require Import Prelude StringView Charconv Binary64 LineParser LineSpec Calendar OMap.

Definition kMaxStatsEntries : Z := 10000.

Definition makeHourKey (year month day hour : Z) : Z :=
  u64 (u64 year * 1000000 + u64 month * 10000 + u64 day * 100 + u64 hour).

(** [static_cast<int>(v)] *)
Definition int32 (v : Z) : Z := let w := u32 v in if w <? 2 ^ 31 then w else w - 2 ^ 32.

(** The lambda [put]: positions [pos+digits-1] down to [pos]. *)
Fixpoint putDigits (out : bytes) (pos value : Z) (digits : nat) : outcome bytes :=
  match digits with
  | O => Ret out
  | S i =>
      let* out := vset out (pos + Z.of_nat i) (z2b (0x30 + Z.rem value 10)) in
      putDigits out pos (Z.quot value 10) i
  end.

Definition formatHourKey (key : Z) : outcome bytes :=
  let year := int32 (key / 1000000) in
  let month := int32 ((key / 10000) mod 100) in
  let day := int32 ((key / 100) mod 100) in
  let hour := int32 (key mod 100) in
  let out := repeat "0"%byte 13 in
  let* out := putDigits out 0 year 4 in
  let* out := vset out 4 "-"%byte in
  let* out := putDigits out 5 month 2 in
  let* out := vset out 7 "-"%byte in
  let* out := putDigits out 8 day 2 in
  let* out := vset out 10 " "%byte in
  putDigits out 11 hour 2.

Module StatsCollector.
Record t := mk {
  buckets : list (omap Z Z);
  validSpdSamples : Z;
  excludedSpdSamples : Z;
  missingSpdSamples : Z;
  spdSum : double }.

Definition init : t := mk (repeat [] 5) 0 0 0 dzero.
Definition reset (s : t) : t := mk (map (fun _ => []) (buckets s)) 0 0 0 dzero.

Definition totalEntries (s : t) : Z :=
  fold_left (fun total bucket => u64 (total + osize bucket)) (buckets s) 0.

Definition setBuckets (s : t) (b : list (omap Z Z)) : t :=
  mk b (validSpdSamples s) (excludedSpdSamples s) (missingSpdSamples s) (spdSum s).

Definition lineKey (line : ParsedLine) : Z :=
  makeHourKey (pl_year line) (pl_month line) (pl_day line) (pl_hour line).

(** The second half of [record]: the spd samples. *)
Definition recordSpd (s : t) (line : ParsedLine) : t :=
  if pl_hasSpd line then
    if pl_spdInRange line then
      mk (buckets s) (u64 (validSpdSamples s + 1)) (excludedSpdSamples s) (missingSpdSamples s)
         (dadd (spdSum s) (pl_spd line))
    else mk (buckets s) (validSpdSamples s) (u64 (excludedSpdSamples s + 1))
            (missingSpdSamples s) (spdSum s)
  else if bool_decide (pl_module line = ModuleId.BeamSteerCtrlUnitImpl) then
    mk (buckets s) (validSpdSamples s) (excludedSpdSamples s) (u64 (missingSpdSamples s + 1)) (spdSum s)
  else s.

Definition record (s : t) (line : ParsedLine) : outcome (t * bool) :=
  let idx := ModuleId.index (pl_module line) in
  let* bucket := vat (buckets s) idx in
  let key := lineKey line in
  match ofind bucket key with
  | None =>
      if kMaxStatsEntries <=? totalEntries s then Ret (s, false) else
      let* b := vset (buckets s) idx (oinsert bucket key 1) in
      Ret (recordSpd (setBuckets s b) line, true)
  | Some count =>
      let* b := vset (buckets s) idx (oinsert bucket key (u64 (count + 1))) in
      Ret (recordSpd (setBuckets s b) line, true)
  end.

Definition averageSpeed (s : t) : double :=
  if validSpdSamples s =? 0 then dzero
  else ddiv (spdSum s) (doubleOfZ (validSpdSamples s)).

(** Modules by name, hours ascending: the calls of the callback, in order. *)
Definition moduleOrder : list ModuleId.t :=
  sortBy (fun a b => bytesLt (moduleName a) (moduleName b)) ModuleId.all.

Fixpoint bucketsOf (s : t) (order : list ModuleId.t) : outcome (list (ModuleId.t * Z * Z)) :=
  match order with
  | [] => Ret []
  | m :: order =>
      let* bucket := vat (buckets s) (ModuleId.index m) in
      let* rest := bucketsOf s order in
      Ret (map (fun e => (m, e.1, e.2)) bucket ++ rest)
  end.
Definition forEachBucket (s : t) : outcome (list (ModuleId.t * Z * Z)) := bucketsOf s moduleOrder.
End StatsCollector.

(** ** Replaying a sequence of lines *)

(** The lines [record] accepted, in order. *)
Fixpoint recordAll (s : StatsCollector.t) (lines : list ParsedLine)
    : outcome (StatsCollector.t * list ParsedLine) :=
  match lines with
  | [] => Ret (s, [])
  | l :: lines =>
      let* (s, ok) := StatsCollector.record s l in
      let* (s, acc) := recordAll s lines in
      Ret (s, if ok : bool then l :: acc else acc)
  end.

Definition bucketOf (s : StatsCollector.t) (m : ModuleId.t) : omap Z Z :=
  match StatsCollector.buckets s !! Z.to_nat (ModuleId.index m) with
  | Some b => b
  | None => []
  end.

Definition bucketCount (s : StatsCollector.t) (m : ModuleId.t) (k : Z) : Z :=
  match ofind (bucketOf s m) k with Some c => c | None => 0 end.

Definition inBucket (m : ModuleId.t) (k : Z) (l : ParsedLine) : bool :=
  bool_decide (pl_module l = m) && (StatsCollector.lineKey l =? k).
Definition ofModule (m : ModuleId.t) (l : ParsedLine) : bool := bool_decide (pl_module l = m).
Definition isValidSample (l : ParsedLine) : bool := pl_hasSpd l && pl_spdInRange l.
Definition isExcludedSample (l : ParsedLine) : bool := pl_hasSpd l && negb (pl_spdInRange l).
Definition isMissingSample (l : ParsedLine) : bool :=
  negb (pl_hasSpd l) && ofModule ModuleId.BeamSteerCtrlUnitImpl l.

(** How many lines satisfy [f]. *)
Definition countLines (f : ParsedLine -> bool) (l : list ParsedLine) : Z := zlen (List.filter f l).

(** The collector after accepting [acc]. *)
Definition statsOf (s : StatsCollector.t) (acc : list ParsedLine) : Prop :=
  length (StatsCollector.buckets s) = 5%nat /\
  Forall osorted (StatsCollector.buckets s) /\
  (forall m k, bucketCount s m k = countLines (inBucket m k) acc) /\
  (forall m k c, ofind (bucketOf s m) k = Some c -> 0 < c) /\
  (forall m, osum id (bucketOf s m) = countLines (ofModule m) acc) /\
  StatsCollector.validSpdSamples s = countLines isValidSample acc /\
  StatsCollector.excludedSpdSamples s = countLines isExcludedSample acc /\
  StatsCollector.missingSpdSamples s = countLines isMissingSample acc /\
  StatsCollector.spdSum s = fold_left (fun sum l => dadd sum (pl_spd l)) (List.filter isValidSample acc) dzero.

Lemma index_inj a b : ModuleId.index a = ModuleId.index b -> a = b.
Proof. by destruct a, b. Qed.

Lemma index_range m : 0 <= ModuleId.index m < 5.
Proof. destruct m; cbn; lia. Qed.

Lemma countLines_snoc f acc l :
  countLines f (acc ++ [l]) = countLines f acc + (if f l then 1 else 0).
Proof. unfold countLines. rewrite List.filter_app, zlen_app. cbn. by destruct (f l). Qed.

Lemma countLines_bound f acc : 0 <= countLines f acc <= zlen acc.
Proof.
  unfold countLines, zlen. pose proof (List.filter_length_le f acc). lia.
Qed.

Section Record.
Context (s : StatsCollector.t) (acc : list ParsedLine) (line : ParsedLine)
        (H : statsOf s acc) (Hlen : zlen acc + 1 < 2 ^ 64).
Let m := pl_module line.
Let key := StatsCollector.lineKey line.

Lemma vat_bucket : vat (StatsCollector.buckets s) (ModuleId.index m) = Ret (bucketOf s m).
Proof.
  destruct H as (Hl & _). unfold bucketOf. pose proof (index_range m).
  destruct (lookup_lt_is_Some_2 (StatsCollector.buckets s) (Z.to_nat (ModuleId.index m)) ltac:(lia)) as [b E].
  rewrite E. apply vat_Some; [lia|done].
Qed.

Lemma bucketOf_sorted m' : osorted (bucketOf s m').
Proof.
  destruct H as (_ & Hs & _). unfold bucketOf. destruct (_ !! _) as [b|] eqn:E; [|constructor].
  apply (proj1 (Forall_forall _ _) Hs). apply list_elem_of_In. by apply list_elem_of_lookup_2 in E.
Qed.

(** The buckets with one more line in this one. *)
Definition bumped (c : Z) : list (omap Z Z) :=
  <[Z.to_nat (ModuleId.index m) := oinsert (bucketOf s m) key c]> (StatsCollector.buckets s).

Lemma vset_bucket c :
  vset (StatsCollector.buckets s) (ModuleId.index m) (oinsert (bucketOf s m) key c) = Ret (bumped c).
Proof.
  destruct H as (Hl & _). pose proof (index_range m). apply vset_Ret. unfold zlen. lia.
Qed.

Lemma bucketOf_bumped c s' m' :
  StatsCollector.buckets s' = bumped c ->
  bucketOf s' m' = if bool_decide (m = m') then oinsert (bucketOf s m) key c else bucketOf s m'.
Proof.
  intros E. destruct H as (Hl & _). pose proof (index_range m). unfold bucketOf at 1. rewrite E. unfold bumped.
  case_bool_decide as Hm.
  - subst m'. rewrite list_lookup_insert_eq by lia. done.
  - rewrite list_lookup_insert_ne; [done|]. intros Hi. apply Hm, index_inj.
    pose proof (index_range m'). lia.
Qed.

Lemma ofind_bumped c s' m' k :
  StatsCollector.buckets s' = bumped c ->
  ofind (bucketOf s' m') k =
  if bool_decide (m = m') && (key =? k) then Some c else ofind (bucketOf s m') k.
Proof.
  intros E. rewrite (bucketOf_bumped c s' m' E). case_bool_decide as Hm; [|done]. subst m'. cbn [andb].
  destruct (Z.eqb_spec key k) as [->|Hk]; [apply ofind_oinsert_eq|].
  by apply ofind_oinsert_ne.
Qed.

(** Split on the sample class of [line]; one counter, known by [E], moves. *)
Ltac spd_cases E :=
  unfold StatsCollector.recordSpd;
  destruct (pl_hasSpd line), (pl_spdInRange line); cbn; try case_bool_decide; cbn; rewrite ?E;
  try lia; apply uwrap_small; unfold is_uint; lia.

(** What accepting [line] with new count [c] makes of the collector. *)
Lemma accept_spec c :
  c = bucketCount s m key + 1 ->
  statsOf (StatsCollector.recordSpd (StatsCollector.setBuckets s (bumped c)) line) (acc ++ [line]).
Proof.
  intros Hc. set (s' := StatsCollector.recordSpd _ _).
  assert (Hb : StatsCollector.buckets s' = bumped c).
  { unfold s', StatsCollector.recordSpd. by repeat case_match. }
  pose proof H as (Hl & Hs & Hcnt & Hpos & Hos & Hv & He & Hm & Hsum).
  assert (Hc0 : 0 <= bucketCount s m key) by (rewrite Hcnt; apply countLines_bound).
  unfold statsOf. split_and!.
  - rewrite Hb. unfold bumped. by rewrite length_insert.
  - rewrite Hb. unfold bumped. apply Forall_insert; [done|]. apply oinsert_sorted, bucketOf_sorted.
  - intros m' k. unfold bucketCount. rewrite (ofind_bumped c s' m' k Hb), countLines_snoc.
    change (inBucket m' k line) with (bool_decide (m = m') && (key =? k)).
    destruct (bool_decide_reflect (m = m')) as [<-|]; cbn [andb]; [|rewrite Z.add_0_r; apply Hcnt].
    destruct (Z.eqb_spec key k) as [<-|]; [|rewrite Z.add_0_r; apply Hcnt]. by rewrite Hc, Hcnt.
  - intros m' k c'. rewrite (ofind_bumped c s' m' k Hb). case_match; [|apply Hpos]. intros [= <-]. lia.
  - intros m'. rewrite (bucketOf_bumped c s' m' Hb), countLines_snoc.
    change (ofModule m' line) with (bool_decide (m = m')).
    case_bool_decide as Hmm; [|rewrite Z.add_0_r; apply Hos]. subst m'.
    rewrite osum_insert, Hos. unfold bucketCount in Hc. destruct (ofind (bucketOf s m) key); cbn; lia.
  - rewrite countLines_snoc. pose proof (countLines_bound isValidSample acc).
    change (isValidSample line) with (pl_hasSpd line && pl_spdInRange line). unfold s'. spd_cases Hv.
  - rewrite countLines_snoc. pose proof (countLines_bound isExcludedSample acc).
    change (isExcludedSample line) with (pl_hasSpd line && negb (pl_spdInRange line)). unfold s'. spd_cases He.
  - rewrite countLines_snoc. pose proof (countLines_bound isMissingSample acc).
    change (isMissingSample line) with (negb (pl_hasSpd line) &&
      bool_decide (pl_module line = ModuleId.BeamSteerCtrlUnitImpl)). unfold s'. spd_cases Hm.
  - rewrite List.filter_app, fold_left_app. unfold s', StatsCollector.recordSpd. cbn [List.filter].
    change (isValidSample line) with (pl_hasSpd line && pl_spdInRange line).
    destruct (pl_hasSpd line), (pl_spdInRange line); cbn [andb StatsCollector.spdSum StatsCollector.setBuckets];
      try case_bool_decide; cbn; rewrite ?Hsum; done.
Qed.

Lemma record_spec :
  exists s' ok, StatsCollector.record s line = Ret (s', ok) /\
    if ok : bool then statsOf s' (acc ++ [line])
    else s' = s /\ ofind (bucketOf s m) key = None /\
         kMaxStatsEntries <= StatsCollector.totalEntries s.
Proof.
  unfold StatsCollector.record. fold m. rewrite vat_bucket, obind_Ret. fold key.
  pose proof H as (_ & _ & Hcnt & _). pose proof (countLines_bound (inBucket m key) acc) as Hb.
  pose proof (Hcnt m key) as Hk. unfold bucketCount in Hk.
  destruct (ofind (bucketOf s m) key) as [c|] eqn:Ef.
  - rewrite vset_bucket, obind_Ret. do 2 eexists. split; [done|]. cbn.
    rewrite (uwrap_small 64) by (unfold is_uint; lia). apply accept_spec.
    unfold bucketCount. by rewrite Ef.
  - destruct (Z.leb_spec kMaxStatsEntries (StatsCollector.totalEntries s)).
    + do 2 eexists. split; [done|]. cbn. done.
    + rewrite vset_bucket, obind_Ret. do 2 eexists. split; [done|]. cbn. apply accept_spec.
      unfold bucketCount. by rewrite Ef.
Qed.
End Record.

Lemma statsOf_init : statsOf StatsCollector.init [].
Proof.
  unfold statsOf. split_and!; try done.
  - repeat constructor.
  - intros m k. by destruct m.
  - intros m k c. by destruct m.
  - intros m. by destruct m.
Qed.

Lemma statsOf_reset s : length (StatsCollector.buckets s) = 5%nat -> StatsCollector.reset s = StatsCollector.init.
Proof.
  intros H. unfold StatsCollector.reset, StatsCollector.init. f_equal.
  destruct s as [b ? ? ? ?]. cbn in *. by destruct b as [|? [|? [|? [|? [|? []]]]]].
Qed.

Lemma recordAll_spec lines : forall s acc,
  statsOf s acc -> zlen acc + zlen lines < 2 ^ 64 ->
  exists s' acc', recordAll s lines = Ret (s', acc') /\ statsOf s' (acc ++ acc') /\
    sublist acc' lines.
Proof.
  induction lines as [|l lines IH]; intros s acc H Hlen.
  - exists s, []. rewrite app_nil_r. split_and!; [done|done|constructor].
  - rewrite zlen_cons in Hlen. pose proof (zlen_nonneg lines). cbn [recordAll].
    destruct (record_spec s acc l H ltac:(lia)) as (s1 & ok & E & Hok). rewrite E, obind_Ret.
    destruct ok.
    + destruct (IH s1 (acc ++ [l])) as (s2 & a & E2 & H2 & H3); [done|zlen_lia|].
      rewrite E2, obind_Ret. exists s2, (l :: a). rewrite <- app_assoc in H2.
      split_and!; [done|done|by constructor].
    + destruct Hok as (-> & _). destruct (IH s acc) as (s2 & a & E2 & H2 & H3); [done|lia|].
      rewrite E2, obind_Ret. exists s2, a. split_and!; [done|done|by constructor].
Qed.

(** ** Capacity: the hour buckets of one session *)

(** The hour a key stands for. *)
Definition keyHour (k : Z) : Z :=
  absHour (k / 1000000) ((k / 10000) mod 100) ((k / 100) mod 100) (k mod 100).

Definition lineHour (l : ParsedLine) : Z :=
  absHour (pl_year l) (pl_month l) (pl_day l) (pl_hour l).

Definition datedLine (l : ParsedLine) : Prop :=
  validDate (pl_year l) (pl_month l) (pl_day l) /\ 0 <= pl_hour l <= 23.

Lemma makeHourKey_val y m d h :
  validDate y m d -> 0 <= h <= 23 -> makeHourKey y m d h = y * 1000000 + m * 10000 + d * 100 + h.
Proof.
  intros (Hy & Hm & Hd) Hh. pose proof (monthDays_le y m). unfold makeHourKey.
  rewrite (uwrap_small 64 y), (uwrap_small 64 m), (uwrap_small 64 d), (uwrap_small 64 h)
    by (unfold is_uint; lia).
  apply uwrap_small. unfold is_uint. lia.
Qed.

Lemma makeHourKey_parts y m d h :
  validDate y m d -> 0 <= h <= 23 ->
  let k := makeHourKey y m d h in
  k / 1000000 = y /\ (k / 10000) mod 100 = m /\ (k / 100) mod 100 = d /\ k mod 100 = h.
Proof.
  intros Hv Hh k. unfold k. rewrite makeHourKey_val by done. destruct Hv as (Hy & Hm & Hd).
  pose proof (monthDays_le y m). split_and!; Z.to_euclidean_division_equations; lia.
Qed.

Lemma keyHour_line l : datedLine l -> keyHour (StatsCollector.lineKey l) = lineHour l.
Proof.
  intros [Hv Hh]. unfold keyHour, StatsCollector.lineKey, lineHour.
  by destruct (makeHourKey_parts _ _ _ _ Hv Hh) as (-> & -> & -> & ->).
Qed.

Lemma lineKey_hour_inj a b :
  datedLine a -> datedLine b -> lineHour a = lineHour b ->
  StatsCollector.lineKey a = StatsCollector.lineKey b.
Proof.
  intros [Va Ha] [Vb Hb] E. unfold lineHour in E.
  destruct (hour_unique _ _ _ _ _ _ _ _ Va Vb Ha Hb E) as (E1 & E2 & E3 & E4).
  unfold StatsCollector.lineKey. by rewrite E1, E2, E3, E4.
Qed.

(** Hours [A-48 .. A+48]. *)
Definition inWindow (A : Z) (l : ParsedLine) : Prop := datedLine l /\ A - 48 <= lineHour l <= A + 48.

Lemma NoDup_window (l : list Z) (f : Z -> Z) lo hi :
  NoDup l -> (forall x y, x ∈ l -> y ∈ l -> f x = f y -> x = y) ->
  (forall x, x ∈ l -> lo <= f x <= hi) -> zlen l <= Z.max 0 (hi - lo + 1).
Proof.
  intros Hnd Hinj Hr. assert (Hnd' : NoDup (f <$> l)).
  { revert Hinj Hr. induction Hnd as [|x l Hx Hnd IH]; intros Hinj Hr; cbn; constructor.
    - intros (y & E & Hy)%list_elem_of_fmap. apply Hx.
      rewrite (Hinj x y); [done|set_solver|set_solver|done].
    - apply IH; intros; [apply Hinj|apply Hr]; set_solver. }
  assert (Hsub : f <$> l ⊆+ seqZ lo (hi - lo + 1)).
  { apply NoDup_submseteq; [done|]. intros z (x & -> & Hx)%list_elem_of_fmap.
    apply elem_of_seqZ. specialize (Hr x Hx). lia. }
  apply submseteq_length in Hsub. rewrite length_fmap, length_seqZ in Hsub. unfold zlen. lia.
Qed.

Lemma bucket_window s acc A m :
  statsOf s acc -> Forall (inWindow A) acc -> osize (bucketOf s m) <= 97.
Proof.
  intros H HW. pose proof (bucketOf_sorted s acc H m) as Hs. pose proof H as (_ & _ & Hcnt & Hpos & _).
  assert (Hk : forall k, k ∈ okeys (bucketOf s m) ->
            exists l, inWindow A l /\ k = StatsCollector.lineKey l).
  { intros k ([k' c] & -> & Hin)%list_elem_of_fmap. cbn. rewrite list_elem_of_In in Hin.
    apply (ofind_In _ _ _ Hs) in Hin. pose proof (Hpos _ _ _ Hin) as Hc.
    pose proof (Hcnt m k') as Hn. unfold bucketCount in Hn. rewrite Hin in Hn. unfold countLines in Hn.
    destruct (List.filter (inBucket m k') acc) as [|l ls] eqn:Ef; [rewrite (@zlen_nil ParsedLine) in Hn; lia|].
    assert (Hl : In l (List.filter (inBucket m k') acc)) by (rewrite Ef; by left).
    apply List.filter_In in Hl as [Hl Hb]. exists l. split; [by apply (proj1 (Forall_forall _ _) HW)|].
    apply andb_true_iff in Hb as [_ Hb%Z.eqb_eq]. done. }
  pose proof (NoDup_window (okeys (bucketOf s m)) keyHour (A - 48) (A + 48) (okeys_NoDup _ Hs)) as Hw.
  unfold osize, zlen, okeys in *. rewrite length_map in Hw.
  enough (Z.of_nat (length (bucketOf s m)) <= Z.max 0 (A + 48 - (A - 48) + 1)) by lia. apply Hw.
  - intros x y (a & [Da Wa] & ->)%Hk (b & [Db Wb] & ->)%Hk. rewrite !keyHour_line by done.
    by apply lineKey_hour_inj.
  - intros x (a & [Da Wa] & ->)%Hk. by rewrite keyHour_line.
Qed.

Lemma totalEntries_window s acc A :
  statsOf s acc -> Forall (inWindow A) acc -> 0 <= StatsCollector.totalEntries s <= 485.
Proof.
  intros H HW. pose proof (fun m => bucket_window s acc A m H HW) as Hb. destruct H as (Hl & _).
  unfold StatsCollector.totalEntries. unfold bucketOf in Hb.
  destruct (StatsCollector.buckets s) as [|b0 [|b1 [|b2 [|b3 [|b4 []]]]]]; try done.
  pose proof (Hb ModuleId.RadarTrackNodeState : osize b0 <= 97).
  pose proof (Hb ModuleId.AntennaProfileSpec : osize b1 <= 97).
  pose proof (Hb ModuleId.BeamSteerCtrlUnitImpl : osize b2 <= 97).
  pose proof (Hb ModuleId.DetectionTaskRunner : osize b3 <= 97).
  pose proof (Hb ModuleId.SectorSchedulerRTS : osize b4 <= 97). cbn [fold_left]. clear Hb.
  unfold osize in *. pose proof (zlen_nonneg b0). pose proof (zlen_nonneg b1). pose proof (zlen_nonneg b2).
  pose proof (zlen_nonneg b3). pose proof (zlen_nonneg b4).
  rewrite (uwrap_small 64 (0 + zlen b0)), (uwrap_small 64 (0 + zlen b0 + zlen b1)),
    (uwrap_small 64 (0 + zlen b0 + zlen b1 + zlen b2)),
    (uwrap_small 64 (0 + zlen b0 + zlen b1 + zlen b2 + zlen b3)), (uwrap_small 64)
    by (unfold is_uint; lia). lia.
Qed.

Lemma buckets_window s acc A :
  statsOf s acc -> Forall (inWindow A) acc -> zlen (concat (StatsCollector.buckets s)) <= 485.
Proof.
  intros H HW. pose proof (fun m => bucket_window s acc A m H HW) as Hb. destruct H as (Hl & _). unfold bucketOf in Hb.
  destruct (StatsCollector.buckets s) as [|b0 [|b1 [|b2 [|b3 [|b4 []]]]]]; try done.
  pose proof (Hb ModuleId.RadarTrackNodeState : osize b0 <= 97).
  pose proof (Hb ModuleId.AntennaProfileSpec : osize b1 <= 97).
  pose proof (Hb ModuleId.BeamSteerCtrlUnitImpl : osize b2 <= 97).
  pose proof (Hb ModuleId.DetectionTaskRunner : osize b3 <= 97).
  pose proof (Hb ModuleId.SectorSchedulerRTS : osize b4 <= 97).
  cbn [concat]. rewrite !zlen_app. change (zlen (@nil (Z * Z))) with 0. unfold osize in *. lia.
Qed.

Lemma recordAll_window lines A : forall s acc,
  statsOf s acc -> Forall (inWindow A) acc -> Forall (inWindow A) lines ->
  zlen acc + zlen lines < 2 ^ 64 ->
  exists s', recordAll s lines = Ret (s', lines) /\ statsOf s' (acc ++ lines).
Proof.
  induction lines as [|l lines IH]; intros s acc H Ha Hl Hlen.
  - exists s. by rewrite app_nil_r.
  - apply Forall_cons_iff in Hl as [Hl1 Hl]. rewrite zlen_cons in Hlen. pose proof (zlen_nonneg lines).
    cbn [recordAll]. destruct (record_spec s acc l H ltac:(lia)) as (s1 & ok & E & Hok).
    rewrite E, obind_Ret. destruct ok.
    + destruct (IH s1 (acc ++ [l])) as (s2 & E2 & H2); [done| |done|zlen_lia|].
      * apply Forall_app. split; [done|]. by constructor.
      * rewrite E2, obind_Ret. exists s2. by rewrite <- app_assoc in H2.
    + destruct Hok as (_ & _ & Hfull). pose proof (totalEntries_window s acc A H Ha).
      unfold kMaxStatsEntries in Hfull. lia.
Qed.

(** ** The parser in front *)

(** The lines of a session through the parser: what it accepted, in order. *)
Fixpoint parseAll (p : LogLineParser.t) (lines : list (bytes * bool))
    : outcome (LogLineParser.t * list ParsedLine) :=
  match lines with
  | [] => Ret (p, [])
  | (text, tooLong) :: lines =>
      let* (p, r) := LogLineParser.parse p text tooLong in
      let* (p, acc) := parseAll p lines in
      Ret (p, match r with Parsed l => l :: acc | Skip _ => acc end)
  end.

Lemma CleanLine_dated p text line a :
  CleanLine p text line a ->
  datedLine line /\ lineHour line = a / 3600 /\ withinSession p a /\
  (pl_hasSpd line = true -> pl_module line = ModuleId.BeamSteerCtrlUnitImpl).
Proof.
  intros (s & pid & tid & sess & m & g & _ & _ & Hs & -> & Hw & _ & _ & _ & HD & E1 & E2 & E3 & E4).
  unfold datedLine, lineHour. rewrite E1, E2, E3, E4, stampSeconds_hour by done.
  split_and!; try done; [by apply validStamp_date|apply Hs|apply Hs|].
  destruct HD as (spec & _ & _ & Hid & _ & _ & _ & HD). intros Hh.
  case_bool_decide; [done|]. destruct HD as (HD & _). congruence.
Qed.

(** Lines within 48 hours of the anchor are within 48 hour buckets of its. *)
Lemma withinSession_hours p a :
  LogLineParser.hasAnchor p = true -> withinSession p a ->
  LogLineParser.anchorSeconds p / 3600 - 48 <= a / 3600 <= LogLineParser.anchorSeconds p / 3600 + 48.
Proof.
  intros Ha Hw. specialize (Hw Ha). unfold kTsRangeHours in Hw.
  Z.to_euclidean_division_equations. lia.
Qed.

Definition spdTyped (l : ParsedLine) : Prop :=
  pl_hasSpd l = true -> pl_module l = ModuleId.BeamSteerCtrlUnitImpl.

Lemma parseAll_window lines : forall p,
  exists p' acc A, parseAll p lines = Ret (p', acc) /\ Forall (inWindow A) acc /\
    Forall spdTyped acc /\ zlen acc <= zlen lines /\
    (LogLineParser.hasAnchor p = true -> A = LogLineParser.anchorSeconds p / 3600).
Proof.
  induction lines as [|[text tl] lines IH]; intros p.
  { exists p, [], (LogLineParser.anchorSeconds p / 3600). split_and!; try done; constructor. }
  cbn [parseAll]. destruct (validate_spec p text tl) as (x & E & Hx).
  unfold LogLineParser.parse. rewrite E, obind_Ret, zlen_cons.
  destruct x as [reason|[line a]]; rewrite obind_Ret.
  - destruct (IH p) as (p' & acc & A & -> & ? & ? & ? & ?). rewrite obind_Ret.
    exists p', acc, A. split_and!; try done. lia.
  - destruct Hx as (_ & HC & _). destruct (CleanLine_dated _ _ _ _ HC) as (Hd & Hh & Hw & Hs).
    destruct (LogLineParser.hasAnchor p) eqn:Ha.
    + destruct (IH p) as (p' & acc & A & -> & H1 & H2 & H3 & H4). rewrite obind_Ret.
      exists p', (line :: acc), A. rewrite zlen_cons. pose proof (withinSession_hours p a Ha Hw).
      split_and!; try done; [|by constructor|lia|by rewrite Ha in H4].
      constructor; [|done]. split; [done|]. rewrite Hh, (H4 Ha). done.
    + destruct (IH (LogLineParser.mk true a)) as (p' & acc & A & -> & H1 & H2 & H3 & H4).
      rewrite obind_Ret. exists p', (line :: acc), A. rewrite zlen_cons.
      split_and!; try done; [|by constructor|lia]. constructor; [|done]. split; [done|].
      rewrite Hh, (H4 eq_refl). cbn. lia.
Qed.

Lemma sublist_Forall_keep {A} (P : A -> Prop) (k l : list A) :
  sublist k l -> Forall P l -> Forall P k.
Proof.
  induction 1; [done| |]; rewrite ?Forall_cons_iff; naive_solver.
Qed.

(** A BeamSteerCtrlUnitImpl line is a valid, an excluded or a missing sample. *)
Lemma sample_partition acc :
  Forall spdTyped acc ->
  countLines (ofModule ModuleId.BeamSteerCtrlUnitImpl) acc
  = countLines isValidSample acc + countLines isExcludedSample acc + countLines isMissingSample acc.
Proof.
  assert (Hc : forall f l k, countLines f (l :: k) = (if f l then 1 else 0) + countLines f k).
  { intros f l k. unfold countLines. cbn. destruct (f l); [apply zlen_cons|done]. }
  induction 1 as [|l acc Hl _ IH]; [done|]. rewrite !Hc, IH. unfold spdTyped in Hl.
  unfold ofModule, isValidSample, isExcludedSample, isMissingSample, ofModule.
  destruct (pl_hasSpd l), (pl_spdInRange l); cbn [andb negb];
    try (rewrite bool_decide_eq_true_2 by (by apply Hl)); try case_bool_decide; lia.
Qed.

(** ** Properties *)

(** Every counter is the number of lines it is named after.  Recording any
    sequence of lines (fewer than 2^64) from a reset collector succeeds; for
    the lines it accepted, each module-and-hour bucket holds their number, the
    three spd counters split the samples, the sum adds the valid samples in
    order, and for lines from the parser the BeamSteerCtrlUnitImpl total equals
    valid + excluded + missing. *)
Lemma stats_counts s0 lines :
  length (StatsCollector.buckets s0) = 5%nat -> zlen lines < 2 ^ 64 -> Forall spdTyped lines ->
  exists s acc, recordAll (StatsCollector.reset s0) lines = Ret (s, acc) /\ sublist acc lines /\
    (forall m k, bucketCount s m k = countLines (inBucket m k) acc) /\
    StatsCollector.validSpdSamples s = countLines isValidSample acc /\
    StatsCollector.excludedSpdSamples s = countLines isExcludedSample acc /\
    StatsCollector.missingSpdSamples s = countLines isMissingSample acc /\
    StatsCollector.spdSum s
      = fold_left (fun sum l => dadd sum (pl_spd l)) (List.filter isValidSample acc) dzero /\
    osum id (bucketOf s ModuleId.BeamSteerCtrlUnitImpl)
      = StatsCollector.validSpdSamples s + StatsCollector.excludedSpdSamples s +
        StatsCollector.missingSpdSamples s.
Proof.
  intros Hb Hlen Hty. rewrite statsOf_reset by done.
  destruct (recordAll_spec lines _ [] statsOf_init) as (s & acc & E & H & Hsub); [zlen_lia|].
  exists s, acc. cbn [app] in H. destruct H as (_ & _ & H1 & _ & H2 & H3 & H4 & H5 & H6).
  split_and!; try done. rewrite H2, H3, H4, H5.
  pose proof (sublist_Forall_keep _ _ _ Hsub Hty) as Hacc.
  by apply sample_partition.
Qed.

Definition sampleLine (h : Z) : ParsedLine :=
  mkLine ModuleId.BeamSteerCtrlUnitImpl 2026 6 19 h true true (doubleOfZ 137500).


(** Behind the parser the statistics map cannot fill up.  Whatever the
    lines of a session, the 48-hour window around the first accepted line
    leaves at most 97 hours per module, 485 entries in all, far below the limit
    of 10,000: no accepted line is ever refused by the collector. *)
Lemma stats_never_full lines :
  zlen lines < 2 ^ 64 ->
  exists p parsed s,
    parseAll LogLineParser.init lines = Ret (p, parsed) /\
    recordAll StatsCollector.init parsed = Ret (s, parsed) /\
    StatsCollector.totalEntries s <= 485 < kMaxStatsEntries.
Proof.
  intros Hlen. destruct (parseAll_window lines LogLineParser.init) as (p & acc & A & E & HW & _ & Hl & _).
  destruct (recordAll_window acc A _ [] statsOf_init) as (s & E2 & H2); [constructor|done|zlen_lia|].
  exists p, acc, s. split; [done|]. split; [done|]. unfold kMaxStatsEntries.
  pose proof (totalEntries_window s acc A H2 HW). lia.
Qed.

(** 97 hours do occur: the anchor at 00:30 and lines 48 hours either side. *)
Example window_97_hours :
  let at_ d h := stampSeconds (mkStamp 2026 6 d h 30 0 (bs "000000")) in
  at_ 12 0 - at_ 10 0 = kTsRangeHours * 3600 /\ at_ 10 0 - at_ 8 0 = kTsRangeHours * 3600 /\
  absHour 2026 6 12 0 - absHour 2026 6 8 0 + 1 = 97.
Proof. by vm_compute. Qed.

Lemma putDigits_eq n : forall out pos v,
  0 <= v -> 0 <= pos -> pos + Z.of_nat n <= zlen out ->
  putDigits out pos v n = Ret (ztake pos out ++ fixedDigits n v ++ zdrop (pos + Z.of_nat n) out).
Proof.
  induction n as [|n IH]; intros out pos v Hv Hp Hl; cbn [putDigits fixedDigits].
  - rewrite Z.add_0_r. cbn [app]. by rewrite ztake_zdrop.
  - rewrite vset_Ret by lia. rewrite obind_Ret. rewrite Z.rem_mod_nonneg, Z.quot_div_nonneg by lia.
    set (c := z2b _). rewrite IH; [|apply Z.div_pos; lia|lia|unfold zlen; rewrite length_insert; unfold zlen in Hl; lia].
    f_equal. rewrite <- app_assoc. unfold ztake, zdrop, zlen in *. f_equal; [|f_equal].
    + apply take_insert_ge. lia.
    + rewrite (drop_S _ c) by (apply list_lookup_insert_eq; lia). cbn [app]. f_equal.
      rewrite drop_insert_lt by lia. f_equal. lia.
Qed.

(** Hour keys are a faithful, ordered, readable encoding.  For valid dates
    the integer order of keys is the order of time, different hours have
    different keys, and the printed form is "YYYY-MM-DD HH". *)
Lemma hourKey_faithful a b :
  datedLine a -> datedLine b ->
  (StatsCollector.lineKey a < StatsCollector.lineKey b <-> lineHour a < lineHour b) /\
  formatHourKey (StatsCollector.lineKey a)
  = Ret (fixedDigits 4 (pl_year a) ++ ["-"%byte] ++ fixedDigits 2 (pl_month a) ++ ["-"%byte] ++
         fixedDigits 2 (pl_day a) ++ [" "%byte] ++ fixedDigits 2 (pl_hour a)).
Proof.
  intros [Va Ha] [Vb Hb]. split.
  - unfold StatsCollector.lineKey. rewrite !makeHourKey_val by done. unfold lineHour, absHour.
    pose proof Va as (Ya & Ma & Da). pose proof Vb as (Yb & Mb & Db).
    pose proof (monthDays_le (pl_year a) (pl_month a)). pose proof (monthDays_le (pl_year b) (pl_month b)).
    assert (Hlt : forall y1 m1 d1 y2 m2 d2, validDate y1 m1 d1 -> validDate y2 m2 d2 ->
              dateLt y1 m1 d1 y2 m2 d2 -> daysFromCivil y1 m1 d1 < daysFromCivil y2 m2 d2)
      by apply daysFromCivil_mono.
    pose proof (Hlt _ _ _ _ _ _ Va Vb) as L1. pose proof (Hlt _ _ _ _ _ _ Vb Va) as L2.
    unfold dateLt in L1, L2.
    assert (Heq : pl_year a = pl_year b -> pl_month a = pl_month b -> pl_day a = pl_day b ->
              daysFromCivil (pl_year a) (pl_month a) (pl_day a)
              = daysFromCivil (pl_year b) (pl_month b) (pl_day b)) by congruence.
    lia.
  - unfold formatHourKey, StatsCollector.lineKey.
    destruct (makeHourKey_parts _ _ _ _ Va Ha) as (-> & -> & -> & ->).
    pose proof Va as (Ya & Ma & Da). pose proof (monthDays_le (pl_year a) (pl_month a)).
    assert (Hi : forall v, 0 <= v <= 9999 -> int32 v = v).
    { intros v Hv. unfold int32. rewrite (uwrap_small 32) by (unfold is_uint; lia).
      by destruct (Z.ltb_spec v (2 ^ 31)); [|lia]. }
    rewrite !Hi by lia. rewrite (putDigits_eq 4) by (done || lia). rewrite obind_Ret, vset_Ret, obind_Ret by done.
    rewrite (putDigits_eq 2) by (done || lia). rewrite obind_Ret, vset_Ret, obind_Ret by done.
    rewrite (putDigits_eq 2) by (done || lia). rewrite obind_Ret, vset_Ret, obind_Ret by done.
    by rewrite (putDigits_eq 2) by (done || lia).
Qed.
