(* ===== verification/Mean.v ===== *)
(** * The mean speed stays in range

    Every spd sample the parser lets through is a double in [0, 10^7); the sum
    of up to [2^33] of them stays below [n * 2^24] in spite of rounding, and
    the mean below [2^24].  Uploads have at most [kMaxFileSize = 2^33] bytes,
    so there are never more samples. *)

From Stdlib Require Import Floats.SpecFloat.
From S2P Require Import Prelude StringView Charconv Binary64 DoubleBounds LineParser LineSpec Calendar OMap Stats.

(** A sample is zero (of either sign) or at most [2^24]. *)
Definition sampleBound (x : double) : Prop := dposle x (val (2 ^ 24) 0) \/ x = S754_zero true.

Lemma val_pow b : val b 0 = b * 2 ^ K.
Proof. done. Qed.

Lemma domain_bound v : dcanonical v -> spdInDomain v = true -> sampleBound v.
Proof.
  unfold spdInDomain. rewrite andb_true_iff. intros Hc [H1 H2].
  destruct v as [[]|[]| |[] m e]; try done; [by right|by left|]. left. destruct Hc as [He Hm]. cbn.
  split_and!; [done|done|].
  assert (E : kSpdMax = S754_finite false 5368709120000000 (-29)) by (by vm_compute). rewrite E in H2.
  unfold dlt, SFltb, SFcompare in H2. unfold val. rewrite Z.add_0_l.
  destruct (Z.compare_spec e (-29)) as [->|Hlt|]; [| |done].
  - replace K with (29 + (-29 + K)) at 2 by lia. rewrite (Z.pow_add_r 2 29 (-29 + K)) by (unfold K; lia).
    rewrite Z.mul_assoc. apply Z.mul_le_mono_nonneg_r; [by apply Z.pow_nonneg|].
    clear -Hm. lia.
  - transitivity (2 ^ 53 * 2 ^ (e + K)); [apply Z.mul_le_mono_nonneg_r; [by apply Z.pow_nonneg|lia]|].
    rewrite <- !Z.pow_add_r by (unfold K; lia). apply Z.pow_le_mono_r; lia.
Qed.

Lemma CleanLine_sample p text line a :
  CleanLine p text line a -> isValidSample line = true -> sampleBound (pl_spd line).
Proof.
  intros (s & pid & tid & sess & m & g & _ & _ & _ & _ & _ & _ & _ & _ & HD & _) Hv.
  unfold isValidSample in Hv. apply andb_true_iff in Hv as [Hh Hi].
  destruct HD as (spec & _ & _ & _ & _ & _ & _ & HD). case_bool_decide; [|destruct HD; congruence].
  destruct HD as [_ [(H1 & _)|(tok & v & _ & _ & Hp & Hr & ->)]]; [congruence|].
  rewrite Hi in Hr. rewrite <- Hr. apply domain_bound; [|done].
  unfold parseDoubleField in Hp. destruct tok; [done|].
  destruct (fromCharsDouble _) as [[v' rest]|] eqn:E; [|done]. apply fromCharsDouble_canonical in E.
  destruct (_ && _); [|done]. by injection Hp as <-.
Qed.

(** The running sum. *)
Lemma spdSum_le samples : forall n sum,
  Forall (fun l => sampleBound (pl_spd l)) samples -> 0 <= n -> n + zlen samples <= 2 ^ 33 ->
  dposle sum (val n 24) ->
  dposle (fold_left (fun sum l => dadd sum (pl_spd l)) samples sum) (val (n + zlen samples) 24).
Proof.
  induction samples as [|l samples IH]; intros n sum HF Hn Hz Hs; cbn [fold_left].
  - by rewrite zlen_nil, Z.add_0_r.
  - apply Forall_cons_iff in HF as [Hl HF]. rewrite zlen_cons in *. pose proof (zlen_nonneg samples).
    replace (n + (1 + zlen samples)) with (n + 1 + zlen samples) by lia. apply IH; [done|lia|lia|].
    assert (Ev : val n 24 + val (2 ^ 24) 0 = val (n + 1) 24).
    { unfold val. rewrite (Z.pow_add_r 2 24 K) by (unfold K; lia). rewrite Z.add_0_l. ring. }
    assert (0 <= val n 24) by (unfold val; pose proof (Z.pow_nonneg 2 (24 + K) ltac:(lia)); nia).
    assert (0 <= val (2 ^ 24) 0) by (unfold val; pose proof (Z.pow_nonneg 2 (0 + K) ltac:(lia)); nia).
    apply (dadd_le _ _ (val n 24) (val (2 ^ 24) 0)); try done; [unfold repr; lia|lia].
Qed.

Lemma averageSpeed_le s acc :
  statsOf s acc -> Forall (fun l => isValidSample l = true -> sampleBound (pl_spd l)) acc -> zlen acc <= 2 ^ 33 ->
  dposle (StatsCollector.averageSpeed s) (val (2 ^ 24) 0).
Proof.
  intros (_ & _ & _ & _ & _ & Hn & _ & _ & Hsum) HF Hz. unfold StatsCollector.averageSpeed. rewrite Hn, Hsum.
  pose proof (countLines_bound isValidSample acc) as Hb. unfold countLines in *.
  set (vs := List.filter isValidSample acc) in *.
  assert (Hvs : Forall (fun l => sampleBound (pl_spd l)) vs).
  { apply Forall_forall. intros l [Hl Hv]%filter_In. by apply (proj1 (Forall_forall _ _) HF). }
  destruct (Z.eqb_spec (zlen vs) 0) as [|Hne]; [done|].
  pose proof (spdSum_le vs 0 dzero Hvs ltac:(lia) ltac:(lia) I) as Hle. rewrite Z.add_0_l in Hle.
  destruct (doubleOfZ_exact (zlen vs) ltac:(lia)) as (m & e & -> & He & _ & Ev).
  apply (ddiv_le _ m e (zlen vs)); [|lia|by apply doubleOfZ_val|unfold repr; lia].
  eapply dposle_mono; [|exact Hle]. unfold val. rewrite (Z.pow_add_r 2 24 K) by (unfold K; lia).
  rewrite Z.add_0_l. lia.
Qed.
