(* ===== verification/SkipReporter.v ===== *)
(** * Skip accounting (server/src/parser/SkipReporter.h, .cpp)

    Counters per reason, the first samples, and the names of unknown modules,
    each within its bound, and the text of the report. *)

From stdpp Require Import sorting sets.
From S2P Require Import Prelude StringView Charconv Binary64 LineParser LineSpec OMap.

Definition kMaxSkipSamples : Z := 100.
Definition kMaxSkipSampleBytes : Z := 200.
Definition kSkipReasonCount : Z := 11.
Definition kMaxUnknownModules : Z := 50.
Definition kMaxModuleNameBytes : Z := 64.

(** [kHex[i]] *)
Definition hexDigit (i : Z) : byte :=
  if i <? 10 then z2b (0x30 + i) else z2b (0x41 + (i - 10)).

Fixpoint escapeNonPrintable (text : bytes) : bytes :=
  match text with
  | [] => []
  | ch :: text =>
      let b := b2z ch in
      if (b <? 0x20) || (b =? 0x7F)
      then bs "\x" ++ [hexDigit (Z.shiftr b 4)] ++ [hexDigit (Z.land b 0x0F)] ++ escapeNonPrintable text
      else ch :: escapeNonPrintable text
  end.

Module SkipReporter.
Record Sample := mkSample { sa_reason : SkipReason.t; sa_offset : Z; sa_text : bytes }.

Record t := mk {
  counts : list Z;
  unknownModules : omap bytes Z;
  unlistedUnknownLines : Z;
  samples : list Sample;
  total : Z }.

Definition init : t := mk (repeat 0 11) [] 0 [] 0.
Definition reset (s : t) : t := mk (map (fun _ => 0) (counts s)) [] 0 [] 0.

Definition count (s : t) (r : SkipReason.t) : outcome Z := vat (counts s) (SkipReason.index r).

Definition kMarker : bytes := bs " BYDA::".

(** The name under which a line is listed; [None] for the early returns. *)
Definition unknownName (text : bytes) : outcome (option bytes) :=
  match vfindStr text kMarker 0 with
  | None => Ret None
  | Some marker =>
      let begin := marker + zlen kMarker in
      match vfindStr text (bs ": ") begin with
      | None => Ret None
      | Some colon =>
          if colon =? begin then Ret None else
          let length := Z.min (colon - begin) kMaxModuleNameBytes in
          let* name := substr text begin length in
          Ret (Some (escapeNonPrintable name))
      end
  end.

Definition setUnknown (s : t) (m : omap bytes Z) (unlisted : Z) : t :=
  mk (counts s) m unlisted (samples s) (total s).

Definition recordUnknownModule (s : t) (text : bytes) : outcome t :=
  let* name := unknownName text in
  match name with
  | None => Ret (setUnknown s (unknownModules s) (u64 (unlistedUnknownLines s + 1)))
  | Some name =>
      match ofind (unknownModules s) name with
      | Some n => Ret (setUnknown s (oinsert (unknownModules s) name (u64 (n + 1))) (unlistedUnknownLines s))
      | None =>
          if kMaxUnknownModules <=? osize (unknownModules s)
          then Ret (setUnknown s (unknownModules s) (u64 (unlistedUnknownLines s + 1)))
          else Ret (setUnknown s (oinsert (unknownModules s) name 1) (unlistedUnknownLines s))
      end
  end.

Definition record (s : t) (reason : SkipReason.t) (offset : Z) (text : bytes) : outcome t :=
  let s := mk (counts s) (unknownModules s) (unlistedUnknownLines s) (samples s) (u64 (total s + 1)) in
  let* c := vat (counts s) (SkipReason.index reason) in
  let* cs := vset (counts s) (SkipReason.index reason) (u64 (c + 1)) in
  let s := mk cs (unknownModules s) (unlistedUnknownLines s) (samples s) (total s) in
  let* s :=
    (if bool_decide (reason = SkipReason.UnknownModule) then recordUnknownModule s text else Ret s) in
  if zlen (samples s) <? kMaxSkipSamples then
    let* head := substr text 0 kMaxSkipSampleBytes in
    Ret (mk (counts s) (unknownModules s) (unlistedUnknownLines s)
            (samples s ++ [mkSample reason offset (escapeNonPrintable head)]) (total s))
  else Ret s.

Definition unknownModuleCount (s : t) (name : bytes) : Z :=
  match ofind (unknownModules s) name with Some n => n | None => 0 end.

(** The bytes [writeReport] streams into the file, piece by piece. *)
Fixpoint reportCounts (reasons : list SkipReason.t) (counts : list Z) : bytes :=
  match reasons, counts with
  | r :: reasons, c :: counts =>
      skipReasonCode r ++ bs " " ++ to_string c ++ [LF] ++ reportCounts reasons counts
  | _, _ => []
  end.

(** [a.second != b.second ? a.second > b.second : a.first < b.first] *)
Definition byCountThenName (a b : bytes * Z) : bool :=
  if negb (a.2 =? b.2) then b.2 <? a.2 else bytesLt a.1 b.1.

Definition reportUnknown (s : t) : bytes :=
  [LF] ++ bs "[Unknown module names]" ++ [LF] ++
  concat (map (fun e => e.1 ++ bs " " ++ to_string e.2 ++ [LF]) (sortBy byCountThenName (unknownModules s))) ++
  (if 0 <? unlistedUnknownLines s
   then bs "... " ++ to_string (unlistedUnknownLines s) ++
        bs " more skipped lines whose module name is not listed (distinct-name limit " ++
        to_string kMaxUnknownModules ++ bs ")" ++ [LF]
   else []).

Definition reportSample (x : Sample) : bytes :=
  bs "[" ++ skipReasonCode (sa_reason x) ++ bs "] offset=" ++ to_string (sa_offset x) ++ bs " | " ++
  sa_text x ++ [LF].

Definition report (s : t) : outcome bytes :=
  let* unknown := count s SkipReason.UnknownModule in
  Ret (bs "=== Skip Report ===" ++ [LF] ++ bs "Total skipped lines: " ++ to_string (total s) ++ [LF; LF] ++
       bs "[Counts by reason]" ++ [LF] ++ reportCounts SkipReason.all (counts s) ++
       (if 0 <? unknown then reportUnknown s else []) ++
       [LF] ++ bs "[First " ++ to_string kMaxSkipSamples ++
       bs " skipped lines: reason, byte offset, raw prefix]" ++ [LF] ++
       concat (map reportSample (samples s)) ++
       (if zlen (samples s) <? total s
        then bs "... " ++ to_string (u64 (total s - zlen (samples s))) ++
             bs " more skipped lines not shown (sample limit)" ++ [LF]
        else [])).
End SkipReporter.

(** ** Replaying a sequence of records *)

Definition skipEvent : Type := SkipReason.t * Z * bytes.

Fixpoint recordSkips (s : SkipReporter.t) (events : list skipEvent) : outcome SkipReporter.t :=
  match events with
  | [] => Ret s
  | (reason, offset, text) :: events =>
      let* s := SkipReporter.record s reason offset text in recordSkips s events
  end.

Definition hasReason (r : SkipReason.t) (e : skipEvent) : bool := bool_decide (e.1.1 = r).
Definition countEvents (r : SkipReason.t) (es : list skipEvent) : Z := zlen (List.filter (hasReason r) es).

Definition sampleOf (e : skipEvent) : SkipReporter.Sample :=
  SkipReporter.mkSample e.1.1 e.1.2 (escapeNonPrintable (ztake kMaxSkipSampleBytes e.2)).

(** The lines of [es] that are listed under [name]. *)
Definition hasName (name : bytes) (e : skipEvent) : bool :=
  hasReason SkipReason.UnknownModule e &&
  match SkipReporter.unknownName e.2 with Ret o => bool_decide (o = Some name) | _ => false end.
Definition countName (name : bytes) (es : list skipEvent) : Z := zlen (List.filter (hasName name) es).

(** The table of unknown names after recording [es]: at most
    [kMaxUnknownModules] names, each with its exact number of lines; a name
    that is missing although it occurred found the table full; the lines of
    missing names are counted in one number. *)
Definition unknownInv (s : SkipReporter.t) (es : list skipEvent) : Prop :=
  osorted (SkipReporter.unknownModules s) /\
  osize (SkipReporter.unknownModules s) <= kMaxUnknownModules /\
  Forall (fun e => 0 < e.2) (SkipReporter.unknownModules s) /\
  0 <= SkipReporter.unlistedUnknownLines s /\
  osum id (SkipReporter.unknownModules s) + SkipReporter.unlistedUnknownLines s
    = countEvents SkipReason.UnknownModule es /\
  (forall name,
     match ofind (SkipReporter.unknownModules s) name with
     | Some c => c = countName name es
     | None => countName name es = 0 \/ osize (SkipReporter.unknownModules s) = kMaxUnknownModules
     end).

(** The reporter after recording [es]. *)
Definition reporterOf (s : SkipReporter.t) (es : list skipEvent) : Prop :=
  length (SkipReporter.counts s) = 11%nat /\
  (forall r, SkipReporter.count s r = Ret (countEvents r es)) /\
  SkipReporter.total s = zlen es /\
  SkipReporter.samples s = map sampleOf (ztake kMaxSkipSamples es) /\
  unknownInv s es.

Lemma vfindStr_Some v pat pos n :
  0 <= pos -> vfindStr v pat pos = Some n -> pos <= n /\ n + zlen pat <= zlen v.
Proof.
  intros Hp. unfold vfindStr. destruct (Z.ltb_spec (zlen v) pos); [done|].
  intros (a & r & E & ->)%findStrIn_Some. apply (f_equal zlen) in E.
  rewrite zlen_zdrop, !zlen_app in E by lia. zlen_lia.
Qed.

Lemma unknownName_Ret text : exists o, SkipReporter.unknownName text = Ret o.
Proof.
  unfold SkipReporter.unknownName. destruct (vfindStr text SkipReporter.kMarker 0) as [m|] eqn:E; [|eauto].
  apply vfindStr_Some in E as [? ?]; [|lia]. pose proof (zlen_nonneg SkipReporter.kMarker).
  destruct (vfindStr text (bs ": ") _) as [c|] eqn:E2; [|eauto].
  destruct (c =? _); [eauto|]. rewrite substr_Ret by lia. eauto.
Qed.

Lemma reason_index_range r : 0 <= SkipReason.index r < 11.
Proof. destruct r; cbn; lia. Qed.

Lemma reason_index_inj a b : SkipReason.index a = SkipReason.index b -> a = b.
Proof. by destruct a, b. Qed.

Lemma osum_nonneg (m : omap bytes Z) : Forall (fun e => 0 < e.2) m -> 0 <= osum id m.
Proof. induction 1 as [|[k v] m Hv _ IH]; [done|]. rewrite osum_cons. unfold id at 1. cbn [snd] in Hv. lia. Qed.

Lemma osum_find (m : omap bytes Z) k v :
  Forall (fun e => 0 < e.2) m -> ofind m k = Some v -> 0 < v <= osum id m.
Proof.
  induction 1 as [|[k' v'] m Hv Hm IH]; [done|]. cbn [ofind]. rewrite osum_cons. unfold id at 1. cbn [snd] in Hv.
  pose proof (osum_nonneg m Hm). repeat case_match; try done; [|intros [= <-]; lia].
  intros Hf. apply IH in Hf. lia.
Qed.

Lemma oinsert_Forall (P : bytes * Z -> Prop) m k v : Forall P m -> P (k, v) -> Forall P (oinsert m k v).
Proof.
  intros Hm Hkv. apply Forall_forall. intros x [->|Hx]%oinsert_In; [done|].
  by apply (proj1 (Forall_forall _ _) Hm).
Qed.

Lemma countEvents_snoc r es e : countEvents r (es ++ [e]) = countEvents r es + (if hasReason r e then 1 else 0).
Proof. unfold countEvents. rewrite List.filter_app, zlen_app. cbn. by destruct (hasReason r e). Qed.

Lemma countEvents_bound r es : 0 <= countEvents r es <= zlen es.
Proof. unfold countEvents, zlen. pose proof (List.filter_length_le (hasReason r) es). lia. Qed.

Lemma countName_snoc n es e : countName n (es ++ [e]) = countName n es + (if hasName n e then 1 else 0).
Proof. unfold countName. rewrite List.filter_app, zlen_app. cbn. by destruct (hasName n e). Qed.

Lemma hasName_unknown name offset text o :
  SkipReporter.unknownName text = Ret o ->
  hasName name (SkipReason.UnknownModule, offset, text) = bool_decide (o = Some name).
Proof. intros E. unfold hasName, hasReason. cbn. rewrite E. by repeat case_bool_decide; simplify_eq. Qed.

Lemma countUnknown_snoc es offset text :
  countEvents SkipReason.UnknownModule (es ++ [(SkipReason.UnknownModule, offset, text)])
  = countEvents SkipReason.UnknownModule es + 1.
Proof. rewrite countEvents_snoc. unfold hasReason. by rewrite bool_decide_eq_true_2. Qed.

Ltac unknown_cbn :=
  cbn [SkipReporter.setUnknown SkipReporter.unknownModules SkipReporter.unlistedUnknownLines].

(** A line that is not listed under a name of the table. *)
Lemma unlisted_unknown s es offset text o :
  unknownInv s es -> zlen es + 1 < 2 ^ 64 -> SkipReporter.unknownName text = Ret o ->
  match o with
  | None => True
  | Some n => ofind (SkipReporter.unknownModules s) n = None /\
              osize (SkipReporter.unknownModules s) = kMaxUnknownModules
  end ->
  unknownInv (SkipReporter.setUnknown s (SkipReporter.unknownModules s)
                (u64 (SkipReporter.unlistedUnknownLines s + 1)))
    (es ++ [(SkipReason.UnknownModule, offset, text)]).
Proof.
  intros (Hs & Hz & Hp & Hu & Hsum & Hn) Hlen E Ho. pose proof (osum_nonneg _ Hp).
  pose proof (countEvents_bound SkipReason.UnknownModule es).
  unfold unknownInv. unknown_cbn. rewrite (uwrap_small 64), countUnknown_snoc by (unfold is_uint; lia).
  split_and!; [done|done|done|lia|lia|].
  intros name. rewrite countName_snoc, (hasName_unknown _ _ _ _ E). specialize (Hn name).
  destruct (bool_decide_reflect (o = Some name)) as [->|_].
  - destruct Ho as [-> ?]. by right.
  - by rewrite Z.add_0_r.
Qed.

(** A line listed under [name]. *)
Lemma listed_unknown s es offset text name c :
  unknownInv s es -> zlen es + 1 < 2 ^ 64 -> SkipReporter.unknownName text = Ret (Some name) ->
  (c = 0 /\ ofind (SkipReporter.unknownModules s) name = None /\
   osize (SkipReporter.unknownModules s) < kMaxUnknownModules \/
   ofind (SkipReporter.unknownModules s) name = Some c) ->
  unknownInv (SkipReporter.setUnknown s (oinsert (SkipReporter.unknownModules s) name (u64 (c + 1)))
                (SkipReporter.unlistedUnknownLines s))
    (es ++ [(SkipReason.UnknownModule, offset, text)]).
Proof.
  intros (Hs & Hz & Hp & Hu & Hsum & Hn) Hlen E Ho. pose proof (osum_nonneg _ Hp).
  pose proof (countEvents_bound SkipReason.UnknownModule es).
  assert (Hc : 0 <= c <= osum id (SkipReporter.unknownModules s) /\ c = countName name es).
  { specialize (Hn name). destruct Ho as [(-> & Ho & ?)|Ho]; rewrite Ho in Hn; [lia|].
    pose proof (osum_find _ _ _ Hp Ho). lia. }
  unfold unknownInv. unknown_cbn. rewrite (uwrap_small 64), countUnknown_snoc by (unfold is_uint; lia).
  split_and!.
  - by apply oinsert_sorted.
  - destruct Ho as [(-> & Ho & ?)|Ho]; [rewrite osize_oinsert_new by done; lia|].
    by rewrite (osize_oinsert_old _ _ _ _ Ho).
  - apply oinsert_Forall; [done|cbn; lia].
  - done.
  - rewrite osum_insert. unfold id at 2 3.
    destruct Ho as [(-> & -> & _)| ->]; lia.
  - intros n. rewrite countName_snoc, (hasName_unknown _ _ _ _ E).
    destruct (bool_decide_reflect (Some name = Some n)) as [[= <-]|Hne].
    + rewrite ofind_oinsert_eq. lia.
    + rewrite ofind_oinsert_ne, Z.add_0_r by congruence. specialize (Hn n).
      destruct (ofind (SkipReporter.unknownModules s) n); [done|].
      destruct Hn as [?|?]; [by left|right].
      destruct Ho as [(_ & _ & ?)|Ho]; [lia|]. by rewrite (osize_oinsert_old _ _ _ _ Ho).
Qed.

Lemma recordUnknownModule_spec s es offset text :
  unknownInv s es -> zlen es + 1 < 2 ^ 64 ->
  exists m u, SkipReporter.recordUnknownModule s text = Ret (SkipReporter.setUnknown s m u) /\
    unknownInv (SkipReporter.setUnknown s m u) (es ++ [(SkipReason.UnknownModule, offset, text)]).
Proof.
  intros H Hlen. unfold SkipReporter.recordUnknownModule.
  destruct (unknownName_Ret text) as [o E]. rewrite E, obind_Ret.
  destruct o as [name|]; [|do 2 eexists; split; [done|]; by eapply unlisted_unknown].
  destruct (ofind (SkipReporter.unknownModules s) name) as [c|] eqn:Ef.
  { do 2 eexists. split; [done|]. eapply listed_unknown; eauto. }
  destruct (Z.leb_spec kMaxUnknownModules (osize (SkipReporter.unknownModules s))).
  - do 2 eexists. split; [done|]. eapply unlisted_unknown; try done. split; [done|].
    destruct H as (_ & ? & _). lia.
  - do 2 eexists. split; [done|]. apply (listed_unknown s es offset text name 0); auto.
Qed.

Lemma unknownInv_other s es reason offset text :
  unknownInv s es -> reason <> SkipReason.UnknownModule -> unknownInv s (es ++ [(reason, offset, text)]).
Proof.
  intros (Hs & Hz & Hp & Hu & Hsum & Hn) Hr.
  assert (Hf : hasReason SkipReason.UnknownModule (reason, offset, text) = false)
    by (unfold hasReason; by rewrite bool_decide_eq_false_2).
  unfold unknownInv. rewrite countEvents_snoc, Hf, Z.add_0_r. split_and!; try done.
  intros n. rewrite countName_snoc. unfold hasName. rewrite Hf, Z.add_0_r. apply Hn.
Qed.

Lemma samples_snoc es e :
  (if zlen (map sampleOf (ztake kMaxSkipSamples es)) <? kMaxSkipSamples
   then map sampleOf (ztake kMaxSkipSamples es) ++ [sampleOf e]
   else map sampleOf (ztake kMaxSkipSamples es))
  = map sampleOf (ztake kMaxSkipSamples (es ++ [e])).
Proof.
  assert (Hl : zlen (map sampleOf (ztake kMaxSkipSamples es)) = Z.min kMaxSkipSamples (zlen es)).
  { unfold zlen at 1. rewrite length_map. apply zlen_ztake. done. }
  rewrite Hl. unfold kMaxSkipSamples in *. destruct (Z.ltb_spec (Z.min 100 (zlen es)) 100).
  - rewrite !ztake_all by zlen_lia. by rewrite map_app.
  - by rewrite ztake_app_l by lia.
Qed.

(** Incrementing one counter. *)
Lemma counts_insert cs es (e : skipEvent) :
  length cs = 11%nat ->
  (forall r, vat cs (SkipReason.index r) = Ret (countEvents r es)) ->
  forall r, vat (<[Z.to_nat (SkipReason.index e.1.1) := countEvents e.1.1 es + 1]> cs) (SkipReason.index r)
            = Ret (countEvents r (es ++ [e])).
Proof.
  intros Hl Hc r. rewrite countEvents_snoc. unfold hasReason.
  pose proof (reason_index_range r). pose proof (reason_index_range e.1.1).
  destruct (bool_decide_reflect (e.1.1 = r)) as [E|E].
  - rewrite E in *. apply vat_Some; [lia|]. apply list_lookup_insert_eq. lia.
  - rewrite Z.add_0_r, <- (Hc r). unfold vat. destruct (_ <? 0); [done|].
    rewrite list_lookup_insert_ne; [done|]. intros Ei. apply E, reason_index_inj. lia.
Qed.

(** The sample step of [record]. *)
Lemma record_samples s1 es e :
  (forall r, SkipReporter.count s1 r = Ret (countEvents r (es ++ [e]))) ->
  length (SkipReporter.counts s1) = 11%nat ->
  SkipReporter.total s1 = zlen (es ++ [e]) ->
  SkipReporter.samples s1 = map sampleOf (ztake kMaxSkipSamples es) ->
  unknownInv s1 (es ++ [e]) ->
  exists s', (if zlen (SkipReporter.samples s1) <? kMaxSkipSamples then
      let* head := substr e.2 0 kMaxSkipSampleBytes in
      Ret (SkipReporter.mk (SkipReporter.counts s1) (SkipReporter.unknownModules s1)
             (SkipReporter.unlistedUnknownLines s1)
             (SkipReporter.samples s1 ++ [SkipReporter.mkSample e.1.1 e.1.2 (escapeNonPrintable head)])
             (SkipReporter.total s1))
      else Ret s1) = Ret s' /\ reporterOf s' (es ++ [e]).
Proof.
  intros Hc Hl Ht Hsa Hu. pose proof (samples_snoc es e) as Hss. rewrite <- Hsa in Hss.
  rewrite substr_Ret by apply zlen_nonneg. rewrite obind_Ret.
  destruct (zlen (SkipReporter.samples s1) <? kMaxSkipSamples); eexists; (split; [done|]);
    unfold reporterOf; cbn [SkipReporter.counts SkipReporter.total SkipReporter.samples]; by split_and!.
Qed.

Lemma record_reporter s es reason offset text :
  reporterOf s es -> zlen es + 1 < 2 ^ 64 ->
  exists s', SkipReporter.record s reason offset text = Ret s' /\
    reporterOf s' (es ++ [(reason, offset, text)]).
Proof.
  intros (Hl & Hc & Ht & Hsa & Hun) Hlen. unfold SkipReporter.record.
  pose proof (reason_index_range reason) as Hi. pose proof (countEvents_bound reason es) as Hb.
  cbn [SkipReporter.counts]. pose proof (Hc reason) as Hcr. unfold SkipReporter.count in Hcr.
  rewrite Hcr, obind_Ret, vset_Ret by (unfold zlen; lia). rewrite obind_Ret.
  rewrite (uwrap_small 64 (countEvents _ _ + 1)) by (unfold is_uint; lia). cbn [SkipReporter.total].
  rewrite (uwrap_small 64) by (rewrite Ht; unfold is_uint; zlen_lia).
  pose proof (counts_insert _ es (reason, offset, text) Hl Hc) as Hcs. cbn [fst snd] in Hcs.
  assert (Ht1 : SkipReporter.total s + 1 = zlen (es ++ [(reason, offset, text)])) by (rewrite Ht, zlen_app; done).
  destruct (bool_decide_reflect (reason = SkipReason.UnknownModule)) as [Er|Er].
  - subst reason.
    match goal with |- context [SkipReporter.recordUnknownModule ?s1 text] =>
      destruct (recordUnknownModule_spec s1 es offset text) as (m & u & -> & Hu); [exact Hun|done|] end.
    rewrite obind_Ret.
    apply (record_samples (SkipReporter.setUnknown _ m u) es (SkipReason.UnknownModule, offset, text)); try done.
    cbn. by rewrite length_insert.
  - rewrite obind_Ret.
    apply (record_samples (SkipReporter.mk _ _ _ _ _) es (reason, offset, text)); try done.
    + cbn. by rewrite length_insert.
    + exact (unknownInv_other s es reason offset text Hun Er).
Qed.

Lemma recordSkips_reporter events : forall s es,
  reporterOf s es -> zlen es + zlen events < 2 ^ 64 ->
  exists s', recordSkips s events = Ret s' /\ reporterOf s' (es ++ events).
Proof.
  induction events as [|[[r o] t] events IH]; intros s es H Hlen.
  - exists s. by rewrite app_nil_r.
  - rewrite zlen_cons in Hlen. cbn [recordSkips]. pose proof (zlen_nonneg events).
    destruct (record_reporter s es r o t H ltac:(lia)) as (s1 & -> & H1). rewrite obind_Ret.
    destruct (IH s1 _ H1) as (s2 & E2 & H2); [zlen_lia|]. exists s2. by rewrite <- app_assoc in H2.
Qed.

Lemma reporterOf_init : reporterOf SkipReporter.init [].
Proof.
  unfold reporterOf, unknownInv. split_and!; try done; try constructor.
  - intros r. by destruct r.
  - done.
Qed.

Lemma reset_init s : length (SkipReporter.counts s) = 11%nat -> SkipReporter.reset s = SkipReporter.init.
Proof.
  intros H. unfold SkipReporter.reset, SkipReporter.init. f_equal.
  destruct s as [c ? ? ? ?]. cbn in *.
  by destruct c as [|? [|? [|? [|? [|? [|? [|? [|? [|? [|? [|? []]]]]]]]]]]].
Qed.

(** ** Where a line the parser calls [UnknownModule] is listed *)

Lemma cbind_skip_inv {A B} (m : checked A) (k : A -> checked B) r :
  cbind m k = skip r -> m = skip r \/ exists a, m = pass a /\ k a = skip r.
Proof.
  unfold cbind, skip, pass. destruct m as [[r'|a]| |]; cbn; intros H; try done; [|eauto].
  left. by injection H as ->.
Qed.

Lemma obind_skip_inv {A B} (m : outcome A) (k : A -> checked B) r :
  obind m k = skip r -> exists a, m = Ret a /\ k a = skip r.
Proof. destruct m; cbn; [eauto|done..]. Qed.

Lemma stage0_not_unknown text tooLong : stage0 text tooLong <> skip SkipReason.UnknownModule.
Proof. unfold stage0. by repeat case_match. Qed.

Lemma stage2_not_unknown p ts : LogLineParser.stage2 p ts <> skip SkipReason.UnknownModule.
Proof.
  unfold LogLineParser.stage2. intros (x & _ & H)%obind_skip_inv. by repeat case_match.
Qed.

Lemma parseInt64Field_not_unknown tok : parseInt64Field tok <> skip SkipReason.UnknownModule.
Proof.
  destruct (parseInt64Field_spec tok) as [[_ ->]|[_ (r & -> & Hr)]]; [done|].
  intros [= ->]. by destruct Hr.
Qed.

Lemma headerNumbers_not_unknown toks : headerNumbers toks <> skip SkipReason.UnknownModule.
Proof.
  induction toks as [|t toks IH]; cbn; [done|].
  by intros [H%parseInt64Field_not_unknown|(? & _ & ?)]%cbind_skip_inv.
Qed.

Lemma intFieldsOk_not_unknown message fields : intFieldsOk message fields <> skip SkipReason.UnknownModule.
Proof.
  induction fields as [|f fields IH]; cbn [intFieldsOk]; [done|]. destruct (zlen f =? 0); [done|].
  intros ([tok|] & _ & H)%obind_skip_inv; [|done].
  by apply cbind_skip_inv in H as [H%parseInt64Field_not_unknown|(? & _ & ?)].
Qed.

Lemma arrowFieldOk_not_unknown message f : arrowFieldOk message f <> skip SkipReason.UnknownModule.
Proof.
  unfold arrowFieldOk. destruct (zlen f =? 0); [done|]. intros ([tok|] & _ & H)%obind_skip_inv; [|done].
  apply obind_skip_inv in H as ([] & _ & H); done.
Qed.

Lemma spdFields_not_unknown message : spdFields message <> skip SkipReason.UnknownModule.
Proof.
  unfold spdFields. intros (s & _ & (a & _ & H)%obind_skip_inv)%obind_skip_inv.
  apply cbind_skip_inv in H as [H|(v & _ & H)]; [by repeat case_match|].
  apply cbind_skip_inv in H as [H|(w & _ & H)]; by repeat case_match.
Qed.

Lemma stage4_unknown module message :
  LogLineParser.stage4 module message = skip SkipReason.UnknownModule -> findSpec module = None.
Proof.
  unfold LogLineParser.stage4. destruct (bracketsSane message); cbn [negb]; [|done].
  destruct (findSpec module) as [spec|]; [|done].
  intros [H%intFieldsOk_not_unknown|(? & _ & H)]%cbind_skip_inv; [done|].
  apply cbind_skip_inv in H as [H%arrowFieldOk_not_unknown|(? & _ & H)]; [done|].
  apply cbind_skip_inv in H as [H|(? & _ & H)]; [|done].
  case_bool_decide; [by apply spdFields_not_unknown in H|done].
Qed.

(** The stages an unknown module has behind it. *)
Lemma parse_unknown p text tooLong p' :
  LogLineParser.parse p text tooLong = Ret (p', Skip SkipReason.UnknownModule) ->
  exists s pid tid sess module message,
    frameOf text [stampText s; pid; tid; sess] module message /\ validStamp s /\
    Forall int64Text [pid; tid; sess] /\ Forall printable text /\ findSpec module = None.
Proof.
  unfold LogLineParser.parse. destruct (LogLineParser.validate p text tooLong) as [[reason|[line a]]| |] eqn:E;
    cbn; try done. intros [= _ ->]. unfold LogLineParser.validate in E. change (Ret (inl ?r)) with (@skip (ParsedLine * Z) r) in E.
  destruct (stage0_spec text tooLong) as [(_ & Hpr & _ & Hst)|(_ & r & Hst)].
  2:{ rewrite Hst, cbind_skip in E. injection E as ->. by apply stage0_not_unknown in Hst. }
  rewrite Hst, cbind_pass in E.
  destruct (frame_spec text) as [(toks & m & g & Hfr & Hf)|[Hf _]]; rewrite Hf in E; [|done].
  rewrite cbind_pass in E. pose proof Hfr as (_ & Hl & _).
  destruct toks as [|ts [|pid [|tid [|sess [|]]]]]; try done.
  change (vat _ 0) with (Ret ts) in E. rewrite obind_Ret in E. cbn [drop] in E.
  destruct (stage2_spec p ts) as [(s & Hs & -> & Hw & Hst2)|[_ (r & Hr)]].
  2:{ rewrite Hr, cbind_skip in E. injection E as ->. by apply stage2_not_unknown in Hr. }
  rewrite Hst2, cbind_pass in E. unfold stampResult in E.
  destruct (headerNumbers_spec [pid; tid; sess]) as [[HN Hh]|[_ (r & Hh)]].
  2:{ rewrite Hh, cbind_skip in E. injection E as ->. by apply headerNumbers_not_unknown in Hh. }
  rewrite Hh, cbind_pass in E. apply cbind_skip_inv in E as [E%stage4_unknown|([? [[? ?] ?]] & _ & E)]; [|done].
  by exists s, pid, tid, sess, m, g.
Qed.

(** The first occurrence of a pattern whose first character is not before it. *)
Lemma findStrIn_fresh c pat r a : forall i,
  ~ c ∈ a -> findStrIn (a ++ (c :: pat) ++ r) (c :: pat) i = Some (i + zlen a).
Proof.
  induction a as [|x a IH]; intros i Hc; cbn [app].
  - rewrite (@zlen_nil byte), Z.add_0_r. cbn [findStrIn].
    assert (startsWith (c :: pat) (c :: pat ++ r) = true) as ->; [|done].
    apply startsWith_spec. by exists r.
  - cbn [findStrIn]. destruct (startsWith (c :: pat) (x :: _)) eqn:E.
    { apply startsWith_spec in E as [r' E]. injection E as <- _. set_solver. }
    change (c :: pat ++ r) with ((c :: pat) ++ r). rewrite IH by set_solver. rewrite zlen_cons. f_equal. lia.
Qed.

Lemma vfindStr_fresh c pat pre a r :
  ~ c ∈ a -> vfindStr (pre ++ a ++ (c :: pat) ++ r) (c :: pat) (zlen pre) = Some (zlen pre + zlen a).
Proof.
  intros Hc. unfold vfindStr. destruct (Z.ltb_spec (zlen (pre ++ a ++ (c :: pat) ++ r)) (zlen pre)); [zlen_lia|].
  rewrite zdrop_length_app. by apply findStrIn_fresh.
Qed.

Lemma digits_no_space d : forallb isDigit d = true -> ~ " "%byte ∈ d.
Proof.
  intros H Hin. rewrite forallb_forall in H. rewrite list_elem_of_In in Hin. apply H in Hin. done.
Qed.

Lemma headers_no_space s pid tid sess :
  validStamp s -> Forall int64Text [pid; tid; sess] ->
  ~ " "%byte ∈ concat (map bracketed [stampText s; pid; tid; sess]).
Proof.
  intros (_ & _ & _ & _ & _ & _ & _ & Hf%digits_no_space) HN.
  apply Forall_cons_iff in HN as [(_ & N1%digits_no_space & _) HN].
  apply Forall_cons_iff in HN as [(_ & N2%digits_no_space & _) HN].
  apply Forall_cons_iff in HN as [(_ & N3%digits_no_space & _) _].
  assert (Hd : forall k v, ~ " "%byte ∈ fixedDigits k v)
    by (intros; apply digits_no_space, fixedDigits_digits).
  unfold bracketed, stampText. cbn [map concat]. rewrite !elem_of_app, !list_elem_of_singleton, elem_of_nil.
  pose proof (Hd 4%nat (st_year s)). pose proof (fun v => Hd 2%nat v). naive_solver.
Qed.

Lemma escapeNonPrintable_printable l : Forall printable l -> escapeNonPrintable l = l.
Proof.
  induction 1 as [|b l [H1 H2] _ IH]; cbn; [done|].
  destruct (Z.ltb_spec (b2z b) 0x20); [lia|]. destruct (Z.eqb_spec (b2z b) 0x7F); [lia|]. cbn. by rewrite IH.
Qed.

Lemma unknownName_frame s pid tid sess module message text :
  frameOf text [stampText s; pid; tid; sess] module message -> validStamp s ->
  Forall int64Text [pid; tid; sess] -> Forall printable text ->
  SkipReporter.unknownName text = Ret (Some (ztake kMaxModuleNameBytes module)).
Proof.
  intros (E & _ & _ & Hm & Hc) Hs HN Hp. unfold SkipReporter.unknownName.
  pose proof (headers_no_space _ _ _ _ Hs HN) as Hsp. set (hs := concat _) in *. clearbody hs. subst text.
  pose proof (vfindStr_fresh " "%byte (bs "BYDA::") [] hs (module ++ bs ": " ++ message) Hsp) as F1.
  cbn [app] in F1. change (" "%byte :: bs "BYDA::") with SkipReporter.kMarker in F1.
  change (" "%byte :: bs "BYDA::" ++ ?r) with (kSeparator ++ r) in F1.
  change (zlen (@nil byte)) with 0 in F1. rewrite F1, Z.add_0_l.
  pose proof (vfindStr_fresh ":"%byte (bs " ") (hs ++ kSeparator) module message Hc) as F2.
  change (":"%byte :: bs " ") with (bs ": ") in F2. rewrite <- app_assoc, zlen_app in F2.
  change (zlen SkipReporter.kMarker) with (zlen kSeparator). rewrite F2.
  destruct (Z.eqb_spec (zlen hs + zlen kSeparator + zlen module) (zlen hs + zlen kSeparator)) as [Hz|_].
  { exfalso. apply Hm, zlen_0_inv. lia. }
  rewrite substr_Ret by zlen_lia. rewrite obind_Ret. unfold slice. rewrite app_assoc, <- zlen_app, zdrop_length_app.
  replace (zlen (hs ++ kSeparator) + zlen module - zlen (hs ++ kSeparator)) with (zlen module) by lia.
  do 2 f_equal. rewrite ztake_app_l by lia.
  rewrite escapeNonPrintable_printable.
  - unfold ztake, kMaxModuleNameBytes, zlen. destruct (Z.min_spec (Z.of_nat (length module)) 64) as [[? ->]|[? ->]]; [|done].
    rewrite !firstn_all2; [done|lia|lia].
  - rewrite !Forall_app in Hp. destruct Hp as (_ & _ & Hp & _). unfold ztake. by apply Forall_take.
Qed.

Definition sumZ (l : list Z) : Z := fold_right Z.add 0 l.

Lemma countEvents_total es : sumZ (map (fun r => countEvents r es) SkipReason.all) = zlen es.
Proof.
  unfold sumZ. cbn [map fold_right SkipReason.all].
  induction es as [|[[r o] t] es IH]; [done|]. rewrite zlen_cons, <- IH.
  unfold countEvents, hasReason. cbn [List.filter fst snd].
  destruct r; cbn [bool_decide]; repeat (first [rewrite bool_decide_eq_true_2 by done
    | rewrite bool_decide_eq_false_2 by done]); rewrite ?zlen_cons; lia.
Qed.

Lemma counts_all s es : reporterOf s es -> SkipReporter.counts s = map (fun r => countEvents r es) SkipReason.all.
Proof.
  intros (Hl & Hc & _). destruct s as [c ? ? ? ?]. unfold SkipReporter.count in Hc. cbn [SkipReporter.counts] in *.
  transitivity (map (fun r => match vat c (SkipReason.index r) with Ret x => x | _ => 0 end) SkipReason.all).
  - by destruct c as [|? [|? [|? [|? [|? [|? [|? [|? [|? [|? [|? []]]]]]]]]]]].
  - apply map_ext. intros r. by rewrite Hc.
Qed.

(** ** Properties *)

(** The skip accounting of a session.  From any reporter that was reset,
    recording any sequence of skips (fewer than 2^64) never leaves an array or
    a string, and afterwards: every counter is the number of skips with its
    reason, their sum and [_total] are the number of skips, the samples are the
    first 100 skips in order, each with the escaped first 200 bytes; the names
    of unknown modules are at most 50, each with its exact number of lines, and
    together with the unlisted lines they account for every [UnknownModule]
    skip; and the report can be printed. *)
Lemma skip_accounting (s0 : SkipReporter.t) (events : list skipEvent) :
  length (SkipReporter.counts s0) = 11%nat -> zlen events < 2 ^ 64 ->
  exists s, recordSkips (SkipReporter.reset s0) events = Ret s /\
    (forall r, SkipReporter.count s r = Ret (countEvents r events)) /\
    SkipReporter.total s = zlen events /\ sumZ (SkipReporter.counts s) = SkipReporter.total s /\
    SkipReporter.samples s = map sampleOf (ztake kMaxSkipSamples events) /\
    osize (SkipReporter.unknownModules s) <= kMaxUnknownModules /\
    osum id (SkipReporter.unknownModules s) + SkipReporter.unlistedUnknownLines s
      = countEvents SkipReason.UnknownModule events /\
    (forall name, SkipReporter.unknownModuleCount s name = countName name events \/
       SkipReporter.unknownModuleCount s name = 0 /\
       osize (SkipReporter.unknownModules s) = kMaxUnknownModules) /\
    exists text, SkipReporter.report s = Ret text.
Proof.
  intros Hl Hn. rewrite (reset_init s0 Hl).
  destruct (recordSkips_reporter events _ [] reporterOf_init) as (s & E & H); [done|].
  cbn [app] in H. exists s. split; [done|]. pose proof (counts_all _ _ H) as Hcs.
  destruct H as (_ & Hc & Ht & Hsa & _ & Hz & _ & _ & Hsum & Hname). split_and!; try done.
  - by rewrite Hcs, Ht, countEvents_total.
  - intros name. specialize (Hname name). unfold SkipReporter.unknownModuleCount.
    destruct (ofind _ name); [by left|]. destruct Hname as [->|?]; [by left|by right].
  - unfold SkipReporter.report. rewrite Hc, obind_Ret. eauto.
Qed.


(** The names in the report are the module names the parser rejected.  A
    line the parser skips as [UnknownModule] has the frame
    [[stamp][n][n][n] BYDA::module: message] with a module outside the
    whitelist, and the reporter, which searches the text again, lists it under
    the first 64 bytes of exactly that module name. *)
Lemma unknown_module_attribution p text tooLong p' :
  LogLineParser.parse p text tooLong = Ret (p', Skip SkipReason.UnknownModule) ->
  exists tokens module message,
    frameOf text tokens module message /\ findSpec module = None /\
    SkipReporter.unknownName text = Ret (Some (ztake kMaxModuleNameBytes module)).
Proof.
  intros (s & pid & tid & sess & m & g & Hf & Hs & HN & Hp & Hsp)%parse_unknown.
  exists [stampText s; pid; tid; sess], m, g. split_and!; [done..|]. by eapply unknownName_frame.
Qed.
