(* ===== verification/CsvBuilder.v ===== *)
(** * The result file (server/src/csv/CsvBuilder.h, .cpp)

    [buildResultCsv] prints the statistics and the skip counters of a session.
    [csvRows] is the same text as a list of rows; [csv_rows] proves the two
    equal, and [csv_size_bound] that the text fits what the client accepts. *)

From Stdlib Require Import Floats.SpecFloat.
From stdpp Require Import sorting sets.
From S2P Require Import Prelude StringView Charconv Binary64 DoubleBounds Protocol LineParser LineSpec OMap Stats Mean SkipReporter.

(** [1'000'000.0] and [0.5] *)
Definition dmillion : double := doubleOfZ 1000000.
Definition dhalf : double := ddiv (doubleOfZ 1) (doubleOfZ 2).

Definition formatFixed6 (value : double) : outcome bytes :=
  if negb (dlt dzero value) then Ret (bs "0.000000") else
  let* whole := u64OfDouble value in
  let fractional := dsub value (doubleOfZ whole) in
  let* micros := u64OfDouble (dadd (dmul fractional dmillion) dhalf) in
  let '(micros, integral) :=
    if 1000000 <=? micros then (micros - 1000000, u64 (whole + 1)) else (micros, whole) in
  Ret (to_string integral ++ ["."%byte] ++ fixedDigits 6 micros).

(** The callback of [forEachBucket]. *)
Definition bucketRow (b : ModuleId.t * Z * Z) : outcome bytes :=
  let '(module, key, count) := b in
  let* hour := formatHourKey key in
  Ret (moduleName module ++ bs "," ++ hour ++ bs "," ++ to_string count ++ [LF]).

Fixpoint bucketRows (bs : list (ModuleId.t * Z * Z)) : outcome bytes :=
  match bs with
  | [] => Ret []
  | b :: bs =>
      let* row := bucketRow b in
      let* rows := bucketRows bs in
      Ret (row ++ rows)
  end.

(** The reasons that occurred, with their codes. *)
Fixpoint nonZeroReasons (reporter : SkipReporter.t) (reasons : list SkipReason.t) : outcome (list (bytes * Z)) :=
  match reasons with
  | [] => Ret []
  | reason :: reasons =>
      let* count := SkipReporter.count reporter reason in
      let* rest := nonZeroReasons reporter reasons in
      Ret (if 0 <? count then (skipReasonCode reason, count) :: rest else rest)
  end.

Definition byCode (a b : bytes * Z) : bool := bytesLt a.1 b.1.

Definition reasonRow (r : bytes * Z) : bytes := bs "skip_reason_" ++ r.1 ++ bs "," ++ to_string r.2 ++ [LF].

Definition buildResultCsv (stats : StatsCollector.t) (reporter : SkipReporter.t) (totalLines : Z) : outcome bytes :=
  let csv := bs "module,hour,count" ++ [LF] in
  let* buckets := StatsCollector.forEachBucket stats in
  let* rows := bucketRows buckets in
  let csv := csv ++ rows in
  let csv := csv ++ [LF] in
  let csv := csv ++ bs "metric,value" ++ [LF] in
  let csv := csv ++ bs "total_lines," ++ to_string totalLines ++ [LF] in
  let* avg := formatFixed6 (StatsCollector.averageSpeed stats) in
  let csv := csv ++ bs "avg_speed," ++ avg ++ [LF] in
  let csv := csv ++ bs "valid_spd_samples," ++ to_string (StatsCollector.validSpdSamples stats) ++ [LF] in
  let csv := csv ++ bs "excluded_spd_samples," ++ to_string (StatsCollector.excludedSpdSamples stats) ++ [LF] in
  let csv := csv ++ bs "missing_spd_samples," ++ to_string (StatsCollector.missingSpdSamples stats) ++ [LF] in
  let csv := csv ++ bs "skipped_lines," ++ to_string (SkipReporter.total reporter) ++ [LF] in
  let* reasons := nonZeroReasons reporter SkipReason.all in
  let csv := csv ++ concat (map reasonRow (sortBy byCode reasons)) in
  Ret csv.

Example formatFixed6_spd : formatFixed6 (doubleOfZ 137500) = Ret (bs "137500.000000").
Proof. by vm_compute. Qed.
Example formatFixed6_carry :
  formatFixed6 (doubleOfDecimal false 19999999 (-7)) = Ret (bs "2.000000").
Proof. by vm_compute. Qed.
Example formatFixed6_third : formatFixed6 (ddiv (doubleOfZ 1) (doubleOfZ 3)) = Ret (bs "0.333333").
Proof. by vm_compute. Qed.

(** ** The text as rows *)

(** Visible characters and the space: no row of the file holds a line end. *)
Definition rowChar (b : byte) : Prop := 0x20 <= b2z b < 0x7F.

Lemma rowChar_no_LF t : Forall rowChar t -> ~ LF ∈ t.
Proof.
  intros H Hin. rewrite list_elem_of_In in Hin. apply (proj1 (Forall_forall _ _) H) in Hin.
  destruct Hin as [Hin _]. by vm_compute in Hin.
Qed.

Lemma isDigit_rowChar d : forallb isDigit d = true -> Forall rowChar d.
Proof.
  intros H. apply Forall_forall. intros b Hb. rewrite forallb_forall in H. apply H in Hb.
  unfold isDigit in Hb. rewrite andb_true_iff, !Z.leb_le in Hb. unfold rowChar. lia.
Qed.

(** A closed text of row characters. *)
Lemma rowChar_dec t : forallb (fun b => (0x20 <=? b2z b) && (b2z b <? 0x7F)) t = true -> Forall rowChar t.
Proof.
  intros H. apply Forall_forall. intros b Hb. rewrite forallb_forall in H. apply H in Hb.
  rewrite andb_true_iff, Z.leb_le, Z.ltb_lt in Hb. done.
Qed.

Lemma digitsOf_digits fuel : forall n acc, forallb isDigit acc = true -> forallb isDigit (digitsOf fuel n acc) = true.
Proof.
  induction fuel as [|fuel IH]; intros n acc H; cbn [digitsOf]; [done|].
  assert (forallb isDigit (z2b (0x30 + n mod 10) :: acc) = true).
  { cbn. rewrite H, andb_true_r. apply digit_of. pose proof (Z.mod_pos_bound n 10). lia. }
  destruct (n <? 10); [done|by apply IH].
Qed.

Lemma digitsOf_zlen fuel : forall n acc, zlen (digitsOf fuel n acc) <= Z.of_nat fuel + zlen acc.
Proof.
  induction fuel as [|fuel IH]; intros n acc; cbn [digitsOf]; [lia|].
  destruct (n <? 10); [zlen_lia|]. pose proof (IH (n / 10) (z2b (0x30 + n mod 10) :: acc)). zlen_lia.
Qed.

Lemma to_string_row n : Forall rowChar (to_string n) /\ zlen (to_string n) <= 20.
Proof.
  split; [by apply isDigit_rowChar, digitsOf_digits|]. unfold to_string.
  pose proof (digitsOf_zlen 20 n []). rewrite (@zlen_nil byte) in *. lia.
Qed.

Lemma putDigits_row n : forall out pos v,
  0 <= pos -> pos + Z.of_nat n <= zlen out -> Forall rowChar out ->
  exists out', putDigits out pos v n = Ret out' /\ zlen out' = zlen out /\ Forall rowChar out'.
Proof.
  induction n as [|n IH]; intros out pos v Hp Hl Hf; cbn [putDigits]; [eauto|].
  rewrite vset_Ret by lia. rewrite obind_Ret.
  assert (Hz : forall i x, zlen (<[i := x]> out) = zlen out) by (intros; unfold zlen; by rewrite length_insert).
  rewrite <- (Hz (Z.to_nat (pos + Z.of_nat n)) (z2b (0x30 + Z.rem v 10))). apply IH; [lia|rewrite Hz; lia|].
  apply Forall_insert; [done|]. unfold rowChar. rewrite b2z_z2b.
  pose proof (Z.rem_bound_abs v 10 ltac:(lia)). rewrite Z.mod_small by lia. lia.
Qed.

Lemma vset_row out i c :
  0 <= i < zlen out -> rowChar c -> Forall rowChar out ->
  exists out', vset out i c = Ret out' /\ zlen out' = zlen out /\ Forall rowChar out'.
Proof.
  intros Hi Hc Hf. rewrite vset_Ret by done. eexists. split; [done|].
  split; [unfold zlen; by rewrite length_insert|by apply Forall_insert].
Qed.

Lemma formatHourKey_row key :
  exists h, formatHourKey key = Ret h /\ zlen h = 13 /\ Forall rowChar h.
Proof.
  unfold formatHourKey.
  edestruct (putDigits_row 4 (repeat "0"%byte 13)) as (o1 & -> & L1 & F1); [done|done|by apply rowChar_dec|].
  change (zlen (repeat "0"%byte 13)) with 13 in L1.
  rewrite obind_Ret. destruct (vset_row o1 4 "-"%byte) as (o2 & -> & L2 & F2); [lia|done|done|].
  rewrite obind_Ret. edestruct (putDigits_row 2 o2 5) as (o3 & -> & L3 & F3); [lia|lia|done|].
  rewrite obind_Ret. destruct (vset_row o3 7 "-"%byte) as (o4 & -> & L4 & F4); [lia|done|done|].
  rewrite obind_Ret. edestruct (putDigits_row 2 o4 8) as (o5 & -> & L5 & F5); [lia|lia|done|].
  rewrite obind_Ret. destruct (vset_row o5 10 " "%byte) as (o6 & -> & L6 & F6); [lia|done|done|].
  rewrite obind_Ret. edestruct (putDigits_row 2 o6 11) as (o7 & -> & L7 & F7); [lia|lia|done|].
  exists o7. split_and!; [done|lia|done].
Qed.

Lemma moduleName_row m :
  Forall rowChar (moduleName m) /\ zlen (moduleName m) <= 21 /\
  exists b t, moduleName m = b :: t /\ 0x41 <= b2z b <= 0x5A.
Proof. destruct m; (split_and!; [by apply rowChar_dec|done|by do 2 eexists]). Qed.

Lemma formatFixed6_row value avg :
  formatFixed6 value = Ret avg ->
  Forall rowChar avg /\ zlen avg <= 27 /\ exists v c, avg = v ++ [c] /\ isDigit c = true.
Proof.
  unfold formatFixed6. destruct (negb _); [intros [= <-]|].
  { split_and!; [by apply rowChar_dec|done|]. by exists (bs "0.00000"), "0"%byte. }
  destruct (u64OfDouble value) as [whole| |]; cbn [obind]; try done.
  destruct (u64OfDouble _) as [micros| |]; cbn [obind]; try done.
  assert (Hall : forall mi it, Forall rowChar (to_string it ++ ["."%byte] ++ fixedDigits 6 mi) /\
            zlen (to_string it ++ ["."%byte] ++ fixedDigits 6 mi) <= 27 /\
            exists v c, to_string it ++ ["."%byte] ++ fixedDigits 6 mi = v ++ [c] /\ isDigit c = true).
  { intros mi it. destruct (to_string_row it) as [Hr Hl]. split_and!.
    - rewrite !Forall_app. split_and!; [done|by apply rowChar_dec|]. apply isDigit_rowChar, fixedDigits_digits.
    - rewrite !zlen_app, zlen_fixedDigits. change (zlen [_]) with 1. lia.
    - exists (to_string it ++ ["."%byte] ++ fixedDigits 5 (mi / 10)), (z2b (0x30 + mi mod 10)).
      split; [by rewrite <- !app_assoc|]. apply digit_of. pose proof (Z.mod_pos_bound mi 10). lia. }
  destruct (1000000 <=? micros); intros [= <-]; apply Hall.
Qed.

(** *** The mean is always printable *)

(** The mean of the samples, at most [2^24] ([averageSpeed_le]). *)
Definition meanInRange (stats : StatsCollector.t) : Prop :=
  dposle (StatsCollector.averageSpeed stats) (val (2 ^ 24) 0).

Lemma dmillion_le : dposle dmillion (1000000 * 2 ^ K).
Proof. by apply doubleOfZ_le. Qed.

Lemma dhalf_val : dhalf = S754_finite false 4503599627370496 (-53).
Proof. by vm_compute. Qed.

Lemma dhalf_le : dposle dhalf (val 1 (-1)).
Proof.
  rewrite dhalf_val. cbn [dposle]. split_and!; [done|done|]. unfold val.
  replace (-1 + K) with (52 + (-53 + K)) by lia. rewrite (Z.pow_add_r 2 52) by (unfold K; lia). lia.
Qed.

(** The micros of a fractional part. *)
Lemma micros_total frac :
  dposle frac (val 1 0) ->
  exists micros, u64OfDouble (dadd (dmul frac dmillion) dhalf) = Ret micros /\ 0 <= micros <= 1000000.
Proof.
  intros Hf. assert (HK : 0 < 2 ^ K) by (by apply pow_pos).
  assert (Hm : dposle (dmul frac dmillion) (val 1000000 0)).
  { apply (dmul_le _ _ (val 1 0) (1000000 * 2 ^ K)); [done|apply dmillion_le|unfold val; lia|lia|unfold repr; lia|].
    unfold val. rewrite Z.add_0_l. nia. }
  assert (Hh : val 1 (-1) * 2 = 2 ^ K).
  { unfold val. replace K with (1 + (-1 + K)) at 2 by lia. rewrite (Z.pow_add_r 2 1) by (unfold K; lia). lia. }
  assert (Ha : dposle (dadd (dmul frac dmillion) dhalf) (val 2000001 (-1))).
  { assert (E : val 2000001 (-1) = 2000001 * val 1 (-1)) by (unfold val; ring).
    apply (dadd_le _ _ (val 1000000 0) (val 1 (-1))); [done|left; apply dhalf_le|unfold val; lia|lia|unfold repr; lia|].
    rewrite E. unfold val at 1. rewrite Z.add_0_l. lia. }
  destruct (u64OfDouble_spec (dadd (dmul frac dmillion) dhalf) 1000001) as (w & Ew & Hw & Hb); [|lia|].
  { eapply dposle_mono; [|exact Ha]. rewrite val_pow.
    assert (E : val 2000001 (-1) = 2000001 * val 1 (-1)) by (unfold val; ring). lia. }
  exists w. split; [done|]. split; [lia|].
  destruct (dadd (dmul frac dmillion) dhalf) as [[]|[]| |[] m e]; cbn in Ha, Ew; try done; [injection Ew as <-; lia|].
  destruct (Hb m e eq_refl) as [Hb1 _]. destruct Ha as (_ & _ & Ha).
  assert (E : val 2000001 (-1) = 2000001 * val 1 (-1)) by (unfold val; ring). nia.
Qed.

Lemma formatFixed6_total value :
  dposle value (val (2 ^ 24) 0) ->
  exists integral micros, formatFixed6 value = Ret (to_string integral ++ ["."%byte] ++ fixedDigits 6 micros) /\
    0 <= integral <= 2 ^ 24 + 1 /\ 0 <= micros < 1000000.
Proof.
  intros Hv. unfold formatFixed6. destruct value as [[]|[]| |[] m e]; cbn in Hv; try done.
  { exists 0, 0. cbn [dlt negb]. split_and!; try done. }
  change (dlt dzero (S754_finite false m e)) with true. cbn [negb].
  destruct (u64OfDouble_spec (S754_finite false m e) (2 ^ 24) Hv ltac:(lia)) as (w & -> & Hw & Hb).
  rewrite obind_Ret. destruct Hv as (He & Hm & _).
  pose proof (dsub_frac m e w He Hm ltac:(lia) (Hb m e eq_refl)) as Hf.
  destruct (micros_total _ Hf) as (mi & -> & Hmi). rewrite obind_Ret.
  destruct (Z.leb_spec 1000000 mi); do 2 eexists; (split; [done|]); [|lia].
  rewrite (uwrap_small 64) by (unfold is_uint; lia). lia.
Qed.

(** *** Bucket rows *)

(** The text of a bucket, without its line end. *)
Definition bucketText (b : ModuleId.t * Z * Z) (text : bytes) : Prop :=
  exists hour, formatHourKey b.1.2 = Ret hour /\
    text = moduleName b.1.1 ++ bs "," ++ hour ++ bs "," ++ to_string b.2.

Lemma bucketRows_spec l :
  exists texts, bucketRows l = Ret (joinRows texts) /\ Forall2 bucketText l texts.
Proof.
  induction l as [|[[m k] c] l (texts & E & H)]; cbn [bucketRows]; [by exists []|].
  unfold bucketRow. destruct (formatHourKey_row k) as (h & Eh & _). rewrite Eh, !obind_Ret, E, obind_Ret.
  eexists (_ :: texts). rewrite joinRows_cons. split; [|constructor; [by exists h|done]].
  f_equal. by rewrite <- !app_assoc.
Qed.

Lemma bucketText_row b text :
  bucketText b text ->
  Forall rowChar text /\ zlen text <= 56 /\ exists c t, text = c :: t /\ 0x41 <= b2z c <= 0x5A.
Proof.
  intros (h & Eh & ->). destruct (formatHourKey_row b.1.2) as (h' & Eh' & Hl & Hr). rewrite Eh in Eh'.
  injection Eh' as <-. destruct (moduleName_row b.1.1) as (Hm & Lm & c & t & Et & Hc).
  destruct (to_string_row b.2) as [Hs Ls]. split_and!.
  - rewrite !Forall_app. split_and!; try done; by apply rowChar_dec.
  - rewrite !zlen_app. change (zlen (bs ",")) with 1. lia.
  - rewrite Et. by do 2 eexists.
Qed.

(** *** The calls of [forEachBucket] *)

Definition bucketLt (a b : ModuleId.t * Z * Z) : Prop :=
  bytesLt (moduleName a.1.1) (moduleName b.1.1) = true \/ (a.1.1 = b.1.1 /\ a.1.2 < b.1.2).

Lemma moduleOrder_val :
  StatsCollector.moduleOrder
  = [ModuleId.AntennaProfileSpec; ModuleId.BeamSteerCtrlUnitImpl; ModuleId.DetectionTaskRunner;
     ModuleId.RadarTrackNodeState; ModuleId.SectorSchedulerRTS].
Proof. by vm_compute. Qed.

Lemma vat_bucketOf s m :
  length (StatsCollector.buckets s) = 5%nat ->
  vat (StatsCollector.buckets s) (ModuleId.index m) = Ret (bucketOf s m).
Proof.
  intros Hl. unfold bucketOf. pose proof (index_range m).
  destruct (lookup_lt_is_Some_2 (StatsCollector.buckets s) (Z.to_nat (ModuleId.index m)) ltac:(lia)) as [b E].
  rewrite E. apply vat_Some; [lia|done].
Qed.

Definition bucketEntries (s : StatsCollector.t) (m : ModuleId.t) : list (ModuleId.t * Z * Z) :=
  map (fun e => (m, e.1, e.2)) (bucketOf s m).

Lemma bucketsOf_spec s order :
  length (StatsCollector.buckets s) = 5%nat ->
  StatsCollector.bucketsOf s order = Ret (concat (map (bucketEntries s) order)).
Proof.
  intros Hl. induction order as [|m order IH]; cbn [StatsCollector.bucketsOf]; [done|].
  by rewrite vat_bucketOf, obind_Ret, IH, obind_Ret.
Qed.

Lemma forEachBucket_In s m k c :
  length (StatsCollector.buckets s) = 5%nat -> Forall osorted (StatsCollector.buckets s) ->
  In (m, k, c) (concat (map (bucketEntries s) StatsCollector.moduleOrder)) <-> ofind (bucketOf s m) k = Some c.
Proof.
  intros Hl Hs.
  assert (Hso : osorted (bucketOf s m)).
  { unfold bucketOf. destruct (_ !! _) as [b|] eqn:E; [|constructor].
    apply (proj1 (Forall_forall _ _) Hs). apply list_elem_of_In. by apply list_elem_of_lookup_2 in E. }
  rewrite (ofind_In _ _ _ Hso), in_concat. split.
  - intros (l & (m' & <- & _)%in_map_iff & ([k' c'] & [= -> -> ->] & Hin)%in_map_iff). done.
  - intros Hin. exists (bucketEntries s m). split; [|by apply in_map_iff; exists (k, c)].
    apply in_map_iff. exists m. split; [done|]. rewrite moduleOrder_val. destruct m; cbn; tauto.
Qed.

Lemma StronglySorted_map {A B} (R : A -> A -> Prop) (S : B -> B -> Prop) (f : A -> B) l :
  (forall a b, R a b -> S (f a) (f b)) -> StronglySorted R l -> StronglySorted S (map f l).
Proof.
  intros HRS. induction 1 as [|x l Hs IH Hf]; cbn; constructor; [done|].
  rewrite List.Forall_map. eapply List.Forall_impl; [|exact Hf]. intros y. apply HRS.
Qed.

Lemma StronglySorted_app_all {A} (R : A -> A -> Prop) l k :
  StronglySorted R l -> StronglySorted R k -> (forall a b, In a l -> In b k -> R a b) ->
  StronglySorted R (l ++ k).
Proof.
  intros Hl Hk. induction Hl as [|x l Hs IH Hf]; intros HR; cbn; [done|]. constructor.
  - apply IH. intros a b Ha Hb. apply HR; [by right|done].
  - rewrite Forall_app. split; [done|]. apply Forall_forall. intros b Hb. apply HR; [by left|done].
Qed.

Lemma bucketEntries_sorted s m : osorted (bucketOf s m) -> StronglySorted bucketLt (bucketEntries s m).
Proof.
  intros Hs. unfold osorted in Hs. eapply StronglySorted_map; [|exact Hs]. intros a b Hab. right.
  cbn in *. split; [done|]. by apply Z.ltb_lt in Hab.
Qed.

Lemma forEachBucket_sorted s order :
  (forall m, osorted (bucketOf s m)) ->
  StronglySorted (fun a b => bytesLt (moduleName a) (moduleName b) = true) order ->
  StronglySorted bucketLt (concat (map (bucketEntries s) order)).
Proof.
  intros Hs. induction 1 as [|m order Ho IH Hf]; cbn; [constructor|].
  apply StronglySorted_app_all; [by apply bucketEntries_sorted|done|].
  intros a b (ea & <- & _)%in_map_iff (l & (m' & <- & Hm')%in_map_iff & (eb & <- & _)%in_map_iff)%in_concat.
  left. cbn. by apply (proj1 (Forall_forall _ _) Hf).
Qed.

(** *** The whole text *)

(** The reasons that occurred, when [f] counts them. *)
Definition reasonsOf (f : SkipReason.t -> Z) : list (bytes * Z) :=
  map (fun r => (skipReasonCode r, f r)) (List.filter (fun r => 0 <? f r) SkipReason.all).

Lemma nonZeroReasons_spec reporter f reasons :
  (forall r, SkipReporter.count reporter r = Ret (f r)) ->
  nonZeroReasons reporter reasons
  = Ret (map (fun r => (skipReasonCode r, f r)) (List.filter (fun r => 0 <? f r) reasons)).
Proof.
  intros Hf. induction reasons as [|r reasons IH]; cbn [nonZeroReasons List.filter map]; [done|].
  rewrite Hf, obind_Ret, IH, obind_Ret. by destruct (0 <? f r).
Qed.

Definition reasonText (r : bytes * Z) : bytes := csvRow (bs "skip_reason_" ++ r.1) (to_string r.2).

Definition metricRows (stats : StatsCollector.t) (reporter : SkipReporter.t) (f : SkipReason.t -> Z)
    (totalLines : Z) (avg : bytes) : list bytes :=
  [csvRow (bs "total_lines") (to_string totalLines);
   csvRow (bs "avg_speed") avg;
   csvRow (bs "valid_spd_samples") (to_string (StatsCollector.validSpdSamples stats));
   csvRow (bs "excluded_spd_samples") (to_string (StatsCollector.excludedSpdSamples stats));
   csvRow (bs "missing_spd_samples") (to_string (StatsCollector.missingSpdSamples stats));
   csvRow (bs "skipped_lines") (to_string (SkipReporter.total reporter))] ++
  map reasonText (sortBy byCode (reasonsOf f)).

Section Build.
Context (stats : StatsCollector.t) (reporter : SkipReporter.t) (totalLines : Z)
        (f : SkipReason.t -> Z) (avg : bytes).
Context (Hbuckets : length (StatsCollector.buckets stats) = 5%nat)
        (Hcounts : forall r, SkipReporter.count reporter r = Ret (f r))
        (Havg : formatFixed6 (StatsCollector.averageSpeed stats) = Ret avg).

Let entries := concat (map (bucketEntries stats) StatsCollector.moduleOrder).

Lemma joinRows_reasons rs : concat (map reasonRow rs) = joinRows (map reasonText rs).
Proof.
  induction rs as [|r rs IH]; cbn [map concat]; [done|]. rewrite joinRows_cons, <- IH.
  unfold reasonRow, reasonText, csvRow. by rewrite <- !app_assoc.
Qed.

Lemma build_rows :
  exists texts, Forall2 bucketText entries texts /\
    buildResultCsv stats reporter totalLines
    = Ret (joinRows ([bs "module,hour,count"] ++ texts ++ [[]; bs "metric,value"] ++
                     metricRows stats reporter f totalLines avg)).
Proof.
  destruct (bucketRows_spec entries) as (texts & E & H). exists texts. split; [done|].
  unfold buildResultCsv, StatsCollector.forEachBucket.
  rewrite bucketsOf_spec, obind_Ret by done. fold entries. rewrite E, obind_Ret, Havg, obind_Ret.
  rewrite (nonZeroReasons_spec _ f), obind_Ret by done. fold (reasonsOf f). rewrite joinRows_reasons.
  f_equal. unfold metricRows, csvRow. rewrite !joinRows_app, !joinRows_cons. change (joinRows []) with (@nil byte).
  do 12 (rewrite <- ?app_assoc; cbn [app]). reflexivity.
Qed.
End Build.

(** *** Its size *)

Lemma joinRows_zlen_le rows k : Forall (fun r => zlen r + 1 <= k) rows -> zlen (joinRows rows) <= k * zlen rows.
Proof.
  induction 1 as [|r rows Hr _ IH]; [unfold zlen; cbn; lia|]. rewrite joinRows_cons, zlen_app, !zlen_cons. lia.
Qed.

Lemma skipReasonCode_le r : zlen (skipReasonCode r) <= 16.
Proof. by destruct r. Qed.

Lemma reasonText_le f : Forall (fun r => zlen r + 1 <= 50) (map reasonText (sortBy byCode (reasonsOf f))).
Proof.
  rewrite List.Forall_map. rewrite sortBy_perm. unfold reasonsOf. rewrite List.Forall_map.
  apply Forall_forall. intros r _. unfold reasonText, csvRow. cbn [fst snd].
  rewrite zlen_app, zlen_cons, zlen_app. pose proof (skipReasonCode_le r). destruct (to_string_row (f r)).
  change (zlen (bs "skip_reason_")) with 12. lia.
Qed.

Lemma reasonsOf_le f : zlen (map reasonText (sortBy byCode (reasonsOf f))) <= 11.
Proof.
  unfold zlen. rewrite length_map, (Permutation_length (sortBy_perm _ _)). unfold reasonsOf. rewrite length_map.
  pose proof (List.filter_length_le (fun r => 0 <? f r) SkipReason.all) as H. cbn [length SkipReason.all] in H. lia.
Qed.

Lemma csvRow_le name value n m : zlen name <= n -> zlen value <= m -> zlen (csvRow name value) + 1 <= n + m + 2.
Proof. intros. unfold csvRow. zlen_lia. Qed.

Lemma metricRows_zlen stats reporter f total avg :
  zlen avg <= 27 -> zlen (joinRows (metricRows stats reporter f total avg)) <= 50 * 17.
Proof.
  intros Ha. transitivity (50 * zlen (metricRows stats reporter f total avg)).
  - apply joinRows_zlen_le. unfold metricRows. apply Forall_app. split; [|apply reasonText_le].
    assert (Hr : forall name n, zlen name <= 20 -> zlen (csvRow name (to_string n)) + 1 <= 50)
      by (intros name n Hn; destruct (to_string_row n); pose proof (csvRow_le name (to_string n) 20 20); lia).
    repeat constructor; try (by apply Hr). pose proof (csvRow_le (bs "avg_speed") avg 9 27 ltac:(done) Ha). lia.
  - unfold metricRows. rewrite zlen_app. pose proof (reasonsOf_le f). rewrite !zlen_cons, (@zlen_nil bytes). lia.
Qed.

Lemma build_size stats reporter f totalLines :
  length (StatsCollector.buckets stats) = 5%nat ->
  zlen (concat (StatsCollector.buckets stats)) <= kMaxStatsEntries ->
  (forall r, SkipReporter.count reporter r = Ret (f r)) -> meanInRange stats ->
  exists csv, buildResultCsv stats reporter totalLines = Ret csv /\ zlen csv <= 570882 < kMaxCsvSize.
Proof.
  intros Hl Hz Hf (integral & micros & Havg & _)%formatFixed6_total.
  set (avg := _ ++ _) in Havg. destruct (build_rows stats reporter totalLines f avg Hl Hf Havg) as (texts & H1 & H2).
  eexists. split; [exact H2|]. split; [|done].
  rewrite !joinRows_app, !joinRows_cons, !zlen_app, !zlen_cons.
  destruct (formatFixed6_row _ _ Havg) as (_ & Ha & _).
  pose proof (metricRows_zlen stats reporter f totalLines avg Ha).
  assert (Ht : zlen (joinRows texts) <= 57 * zlen texts).
  { apply joinRows_zlen_le. apply Forall_forall. intros t Ht%list_elem_of_In.
    apply list_elem_of_lookup_1 in Ht as [i Hi]. destruct (Forall2_lookup_r _ _ _ _ _ H1 Hi) as (b & _ & Hb).
    apply bucketText_row in Hb as (_ & Hb & _). lia. }
  assert (Hn : zlen texts = zlen (concat (StatsCollector.buckets stats))).
  { unfold zlen. f_equal. rewrite <- (Forall2_length H1), moduleOrder_val.
    unfold bucketEntries, bucketOf. clear -Hl.
    destruct (StatsCollector.buckets stats) as [|b0 [|b1 [|b2 [|b3 [|b4 []]]]]]; try done.
    cbn [map concat ModuleId.index]. change (Z.to_nat 1) with 1%nat. change (Z.to_nat 2) with 2%nat.
    change (Z.to_nat 3) with 3%nat. change (Z.to_nat 0) with 0%nat. change (Z.to_nat 4) with 4%nat.
    cbn. rewrite !length_app, !length_map. cbn. lia. }
  unfold kMaxStatsEntries in *. change (joinRows []) with (@nil byte). rewrite (@zlen_nil byte) in *.
  change (zlen (bs "module,hour,count")) with 17. change (zlen (bs "metric,value" ++ [LF])) with 13. lia.
Qed.

(** ** Properties *)

(** C34: the result file.  For a collector that accepted [acc], with its mean in
    range, and any reporter, the file is always built, and it is: the header,
    one row per module and hour with at least one line, with the exact number
    of those lines, modules by name and hours ascending; an empty row; the
    metric header, the six metrics and the non-zero skip reasons. *)
Theorem result_csv_content stats acc reporter f totalLines :
  statsOf stats acc -> (forall r, SkipReporter.count reporter r = Ret (f r)) -> meanInRange stats ->
  exists avg entries texts,
    formatFixed6 (StatsCollector.averageSpeed stats) = Ret avg /\
    buildResultCsv stats reporter totalLines
      = Ret (joinRows ([bs "module,hour,count"] ++ texts ++ [[]; bs "metric,value"] ++
                       metricRows stats reporter f totalLines avg)) /\
    Forall2 bucketText entries texts /\ StronglySorted bucketLt entries /\
    (forall m k c, In (m, k, c) entries <-> c = countLines (inBucket m k) acc /\ 0 < c).
Proof.
  intros (Hl & Hs & Hcount & Hpos & _) Hf (integral & micros & Havg & _)%formatFixed6_total.
  set (avg := _ ++ _) in Havg. destruct (build_rows stats reporter totalLines f avg Hl Hf Havg) as (texts & H1 & H2).
  eexists avg, _, texts. split; [exact Havg|]. split; [exact H2|]. split; [exact H1|]. split.
  - apply forEachBucket_sorted.
    + intros m. unfold bucketOf. destruct (_ !! _) as [b|] eqn:E; [|constructor].
      apply (proj1 (Forall_forall _ _) Hs), list_elem_of_In. by apply list_elem_of_lookup_2 in E.
    + rewrite moduleOrder_val. repeat constructor.
  - intros m k c. rewrite forEachBucket_In by done. specialize (Hcount m k). unfold bucketCount in Hcount.
    destruct (ofind (bucketOf stats m) k) as [c'|] eqn:E.
    + pose proof (Hpos _ _ _ E). split; [intros [= <-]; lia|intros [-> _]; by f_equal].
    + split; [done|lia].
Qed.

Lemma result_csv_content_witness :
  exists csv, buildResultCsv StatsCollector.init SkipReporter.init 7 = Ret csv /\
    csv = joinRows [bs "module,hour,count"; []; bs "metric,value"; bs "total_lines,7"; bs "avg_speed,0.000000";
                    bs "valid_spd_samples,0"; bs "excluded_spd_samples,0"; bs "missing_spd_samples,0";
                    bs "skipped_lines,0"].
Proof.
  destruct (result_csv_content StatsCollector.init [] SkipReporter.init (fun _ => 0) 7 statsOf_init)
    as (avg & entries & texts & _ & E & _ & _ & _); [intros r; destruct r; reflexivity|exact I|].
  eexists. split; [exact E|]. vm_compute in E |- *. congruence.
Defined.


