(* ===== verification/ResultSummary.v ===== *)
(** * Reading the result (client/src/service/ResultSummary.h, .cpp)

    [summarizeResultCsv] scans the received text for the metric block;
    [summary_of_result] proves that from any text the server builds the client
    reads back the line total, the skipped total and the skip reasons. *)

From stdpp Require Import sorting sets.
From S2P Require Import Prelude StringView Charconv OMap.

Definition kMetricHeader : bytes := bs "metric,value".
Definition kTotalLines : bytes := bs "total_lines".
Definition kSkippedLines : bytes := bs "skipped_lines".
Definition kReasonPrefix : bytes := bs "skip_reason_".
Definition kMaxReasonsShown : Z := 3.

Definition isBlank (b : byte) : bool := bool_decide (b = " "%byte) || bool_decide (b = "009"%byte).

Fixpoint trimFront (text : bytes) : bytes :=
  match text with
  | b :: r => if isBlank b then trimFront r else text
  | [] => []
  end.

(** [remove_suffix(1)] while the last character is blank or a carriage return. *)
Fixpoint trimBack (text : bytes) : bytes :=
  match text with
  | [] => []
  | b :: r =>
      match trimBack r with
      | [] => if isBlank b || bool_decide (b = CR) then [] else [b]
      | r' => b :: r'
      end
  end.

Definition trim (text : bytes) : bytes := trimBack (trimFront text).

(** [parseCount(token, out)]: the result and the new value of [out]. *)
Definition parseCount (token : bytes) (out : Z) : bool * Z :=
  let token := trim token in
  if zlen token =? 0 then (false, out) else
  let '(ec, value, rest) := fromCharsUint 64 token 0 in
  if negb (bool_decide (ec = Success)) || negb (zlen rest =? 0) then (false, out)
  else (true, value).

Module ResultSummary.
Record t := mk {
  hasTotal : bool;
  totalLines : Z;
  skippedLines : Z;
  reasons : list (bytes * Z) }.
Definition init : t := mk false 0 0 [].
End ResultSummary.

(** One row of the metric block: the branches on its name. *)
Definition metricRow (line : bytes) (st : ResultSummary.t * bool) : outcome (ResultSummary.t * bool) :=
  let '(s, haveSkipped) := st in
  match vfind line ","%byte 0 with
  | None => Ret st
  | Some comma =>
      let* name := substr line 0 comma in
      let name := trim name in
      let* value := substr line (comma + 1) (zlen line - (comma + 1)) in
      if bool_decide (name = kTotalLines) then
        let '(ok, v) := parseCount value (ResultSummary.totalLines s) in
        Ret (ResultSummary.mk ok v (ResultSummary.skippedLines s) (ResultSummary.reasons s), haveSkipped)
      else if bool_decide (name = kSkippedLines) then
        let '(ok, v) := parseCount value (ResultSummary.skippedLines s) in
        Ret (ResultSummary.mk (ResultSummary.hasTotal s) (ResultSummary.totalLines s) v (ResultSummary.reasons s), ok)
      else if (zlen kReasonPrefix <? zlen name) && bool_decide (ztake (zlen kReasonPrefix) name = kReasonPrefix) then
        let '(ok, count) := parseCount value 0 in
        if ok then
          let* code := substr name (zlen kReasonPrefix) (zlen name - zlen kReasonPrefix) in
          Ret (ResultSummary.mk (ResultSummary.hasTotal s) (ResultSummary.totalLines s) (ResultSummary.skippedLines s)
                 (ResultSummary.reasons s ++ [(code, count)]), haveSkipped)
        else Ret st
      else Ret st
  end.

(** The [while] loop; every turn but the last moves [pos] past a line end. *)
Fixpoint scan (fuel : nat) (csv : bytes) (pos : Z) (inMetricBlock : bool) (st : ResultSummary.t * bool)
    : outcome (ResultSummary.t * bool) :=
  match fuel with
  | O => NoFuel
  | S fuel =>
      if zlen csv <? pos then Ret st else
      let newline := vfind csv LF pos in
      let end_ := match newline with Some n => n | None => zlen csv end in
      let* line := substr csv pos (end_ - pos) in
      let line := trim line in
      let pos := end_ + 1 in
      if negb inMetricBlock then
        let inMetricBlock := bool_decide (line = kMetricHeader) in
        match newline with
        | None => Ret st
        | Some _ => scan fuel csv pos inMetricBlock st
        end
      else if zlen line =? 0 then Ret st
      else
        let continue := scan fuel csv pos inMetricBlock in
        match vfind line ","%byte 0 with
        | None => continue st
        | Some _ =>
            let* st := metricRow line st in
            match newline with
            | None => Ret st
            | Some _ => continue st
            end
        end
  end.

Definition byCountThenCode (a b : bytes * Z) : bool :=
  if negb (a.2 =? b.2) then b.2 <? a.2 else bytesLt a.1 b.1.

Definition summarizeResultCsv (csv : bytes) : outcome ResultSummary.t :=
  let* (s, haveSkipped) := scan (S (S (length csv))) csv 0 false (ResultSummary.init, false) in
  let skipped :=
    if haveSkipped : bool then ResultSummary.skippedLines s
    else fold_left (fun total r => u64 (total + r.2)) (ResultSummary.reasons s) 0 in
  Ret (ResultSummary.mk (ResultSummary.hasTotal s) (ResultSummary.totalLines s) skipped
         (sortBy byCountThenCode (ResultSummary.reasons s))).

(** The rows the warning lists, joined with [", "]. *)
Fixpoint joinReasons (first : bool) (rs : list (bytes * Z)) : bytes :=
  match rs with
  | [] => []
  | r :: rs => (if first then [] else bs ", ") ++ r.1 ++ bs " " ++ to_string r.2 ++ joinReasons false rs
  end.

Definition formatSkipWarning (s : ResultSummary.t) : bytes :=
  if ResultSummary.skippedLines s =? 0 then [] else
  let text := to_string (ResultSummary.skippedLines s) in
  let text := if ResultSummary.hasTotal s then text ++ bs " of " ++ to_string (ResultSummary.totalLines s) else text in
  let text := text ++ bs " lines were skipped" in
  match ResultSummary.reasons s with
  | [] => text
  | reasons =>
      let text := text ++ bs " - " in
      let shown := Z.min kMaxReasonsShown (zlen reasons) in
      let text := text ++ joinReasons true (ztake shown reasons) in
      if shown <? zlen reasons
      then text ++ bs ", +" ++ to_string (zlen reasons - shown) ++ bs " more"
      else text
  end.

(** ** The scan, row by row *)

(** What the scan does with the rows of a text. *)
Fixpoint scanRows (inMetricBlock : bool) (rows : list bytes) (st : ResultSummary.t * bool)
    : outcome (ResultSummary.t * bool) :=
  match rows with
  | [] => Ret st
  | row :: rows =>
      let line := trim row in
      if negb inMetricBlock then scanRows (bool_decide (line = kMetricHeader)) rows st
      else if zlen line =? 0 then Ret st
      else let* st := metricRow line st in scanRows true rows st
  end.

Lemma vfind_scan_None l c : forall i, ~ c ∈ l -> findIn l c i = None.
Proof.
  induction l as [|b l IH]; intros i Hc; cbn; [done|]. rewrite bool_decide_eq_false_2 by set_solver.
  apply IH. set_solver.
Qed.

Lemma findIn_range l c : forall i n, findIn l c i = Some n -> i <= n < i + zlen l.
Proof. intros i n (a & r & -> & _ & ->)%findIn_Some. zlen_lia. Qed.

Lemma vfind_range v c p n : 0 <= p -> vfind v c p = Some n -> p <= n < zlen v.
Proof.
  intros Hp H. unfold vfind in H. apply findIn_range in H. rewrite zlen_zdrop in H by done. lia.
Qed.

Lemma trimFront_zlen t : zlen (trimFront t) <= zlen t.
Proof. induction t as [|b t IH]; cbn [trimFront]; [done|]. destruct (isBlank b); rewrite ?zlen_cons; lia. Qed.

(** [trimBack] removes from the end. *)
Lemma trimBack_prefix t : exists r, t = trimBack t ++ r.
Proof.
  induction t as [|b t [r IH]]; cbn [trimBack]; [by exists []|].
  destruct (trimBack t) as [|c t'].
  - destruct (_ || _); [by exists (b :: t)|]. exists t. done.
  - exists r. cbn in *. by rewrite <- IH.
Qed.

Lemma metricRow_Ret line st : exists st', metricRow line st = Ret st'.
Proof.
  destruct st as [s h]. unfold metricRow. destruct (vfind line ","%byte 0) as [comma|] eqn:E; [|eauto].
  apply vfind_range in E; [|done]. rewrite !substr_Ret by lia. rewrite !obind_Ret.
  case_bool_decide; [destruct (parseCount _ _); eauto|].
  case_bool_decide; [destruct (parseCount _ _); eauto|].
  destruct (Z.ltb_spec (zlen kReasonPrefix) (zlen (trim (slice line 0 comma)))); cbn [andb]; [|eauto].
  case_bool_decide; [|eauto]. destruct (parseCount _ _) as [[] ?]; [|eauto].
  rewrite substr_Ret by lia. rewrite obind_Ret. eauto.
Qed.

Lemma scan_Ret fuel : forall csv pos b st,
  0 <= pos -> zlen csv + 2 <= pos + Z.of_nat fuel -> (0 < fuel)%nat -> exists st', scan fuel csv pos b st = Ret st'.
Proof.
  induction fuel as [|fuel IH]; intros csv pos b st Hp Hf Hpos; [lia|]. cbn [scan].
  destruct (Z.ltb_spec (zlen csv) pos); [eauto|]. rewrite substr_Ret by lia. rewrite obind_Ret.
  assert (Hnext : exists e, match vfind csv LF pos with Some n => n | None => zlen csv end = e /\ pos <= e).
  { eexists. split; [done|]. destruct (vfind csv LF pos) eqn:E; [|lia]. apply vfind_range in E; lia. }
  destruct Hnext as (e & -> & He).
  assert (Hk : forall b' st', exists st'', scan fuel csv (e + 1) b' st' = Ret st'')
    by (intros; apply IH; lia).
  destruct b; cbn [negb]; [|destruct (vfind csv LF pos); eauto].
  destruct (zlen (trim _) =? 0); [eauto|]. destruct (vfind (trim _) _ _); [|eauto].
  destruct (metricRow_Ret (trim (slice csv pos (e - pos))) st) as [st' ->]. rewrite obind_Ret.
  destruct (vfind csv LF pos); eauto.
Qed.

Lemma summarizeResultCsv_Ret csv : exists s, summarizeResultCsv csv = Ret s.
Proof.
  unfold summarizeResultCsv.
  destruct (scan_Ret (S (S (length csv))) csv 0 false (ResultSummary.init, false)) as [[s h] ->];
    [lia|unfold zlen; lia|lia|]. rewrite obind_Ret. eauto.
Qed.

Lemma metricRow_no_comma line st : vfind line ","%byte 0 = None -> metricRow line st = Ret st.
Proof. intros E. unfold metricRow. destruct st. by rewrite E. Qed.

Lemma scan_rows rows : forall fuel pre b st,
  Forall (fun r => ~ LF ∈ r) rows -> (length rows < fuel)%nat ->
  scan fuel (pre ++ joinRows rows) (zlen pre) b st = scanRows b rows st.
Proof.
  induction rows as [|row rows IH]; intros fuel pre b st HF Hf; (destruct fuel as [|fuel]; [cbn in Hf; lia|]).
  - cbn [joinRows map concat scanRows scan]. unfold joinRows. cbn [map concat]. rewrite app_nil_r.
    rewrite Z.ltb_irrefl. unfold vfind, zdrop. rewrite drop_ge by (unfold zlen; lia). cbn [findIn].
    rewrite Z.sub_diag, substr_Ret by lia. rewrite obind_Ret. unfold slice.
    change (ztake 0 (zdrop (zlen pre) pre)) with (@nil byte). cbn. by destruct b.
  - apply Forall_cons_iff in HF as [Hrow HF]. cbn [scanRows scan].
    assert (Ej : pre ++ joinRows (row :: rows) = pre ++ row ++ LF :: joinRows rows)
      by (unfold joinRows; cbn; by rewrite <- app_assoc).
    rewrite Ej. destruct (Z.ltb_spec (zlen (pre ++ row ++ LF :: joinRows rows)) (zlen pre)); [zlen_lia|].
    rewrite vfind_pre by done. rewrite substr_pre by (done || lia). rewrite obind_Ret.
    assert (Hk : forall b' st', scan fuel (pre ++ row ++ LF :: joinRows rows) (zlen pre + zlen row + 1) b' st'
                 = scanRows b' rows st').
    { intros b' st'. replace (pre ++ row ++ LF :: joinRows rows) with ((pre ++ row ++ [LF]) ++ joinRows rows)
        by (by rewrite <- !app_assoc).
      replace (zlen pre + zlen row + 1) with (zlen (pre ++ row ++ [LF])) by zlen_lia.
      apply IH; [done|cbn in Hf; lia]. }
    rewrite !Hk. destruct b; cbn [negb]; [|done].
    destruct (zlen (trim row) =? 0); [done|].
    destruct (vfind (trim row) ","%byte 0) as [c|] eqn:E.
    + destruct (metricRow_Ret (trim row) st) as [st' ->]. by rewrite !obind_Ret, Hk.
    + by rewrite metricRow_no_comma, obind_Ret.
Qed.

(** Text without blanks at its ends is trimmed to itself. *)
Definition trimmed (t : bytes) : Prop := trim t = t.

Lemma trimBack_snoc t c : isBlank c = false -> c <> CR -> trimBack (t ++ [c]) = t ++ [c].
Proof.
  intros Hb Hc. induction t as [|x t IH]; cbn [app trimBack].
  - by rewrite Hb, bool_decide_eq_false_2.
  - rewrite IH. by destruct t.
Qed.

Lemma trim_ends b t c :
  isBlank b = false -> isBlank c = false -> c <> CR -> trim (b :: t ++ [c]) = b :: t ++ [c].
Proof.
  intros Hb Hc Hr. unfold trim. cbn [trimFront]. rewrite Hb. by apply (trimBack_snoc (b :: t) c).
Qed.

(** *** Rows [name,value] *)

(** A metric name: a first character, and no comma or blank at its ends. *)
Definition metricName (name : bytes) : Prop :=
  trim name = name /\ ~ ","%byte ∈ name /\ exists b t, name = b :: t /\ isBlank b = false.

Lemma isDigit_solid c : isDigit c = true -> isBlank c = false /\ c <> CR.
Proof. intros H. split; [|by intros ->]. unfold isBlank. by repeat case_bool_decide; simplify_eq. Qed.

Lemma trim_row name value c :
  metricName name -> isDigit c = true -> trim (csvRow name (value ++ [c])) = csvRow name (value ++ [c]).
Proof.
  intros (_ & _ & b & t & -> & Hb) [Hc Hr]%isDigit_solid. unfold csvRow. cbn [app].
  rewrite (app_comm_cons value [c]), app_assoc. by apply trim_ends.
Qed.

Lemma digits_last d : d <> [] -> forallb isDigit d = true -> exists v c, d = v ++ [c] /\ isDigit c = true.
Proof.
  intros Hn Hd. destruct d as [|c d _] using rev_ind; [done|]. exists d, c. split; [done|].
  rewrite forallb_app, andb_true_iff in Hd. destruct Hd as [_ Hd]. cbn in Hd. by rewrite andb_true_r in Hd.
Qed.

Lemma trim_digits d : forallb isDigit d = true -> trim d = d.
Proof.
  intros Hd. destruct (decide (d = [])) as [->|Hn]; [done|].
  destruct (digits_last d Hn Hd) as (v & c & -> & [Hc Hr]%isDigit_solid).
  destruct v as [|b v]; [by apply (trimBack_snoc [] c) in Hc as Ht; [unfold trim; cbn [app trimFront]; cbn in Ht; rewrite Hc|]|].
  apply trim_ends; [|done|done]. cbn in Hd. apply andb_true_iff in Hd as [Hd _]. by apply isDigit_solid.
Qed.

Lemma parseCount_to_string n out : is_uint 64 n -> parseCount (to_string n) out = (true, n).
Proof.
  intros Hn. destruct (to_string_spec n Hn) as (Hd & _ & Hne & _). unfold parseCount. rewrite trim_digits by done.
  pose proof (fromCharsUint_to_string n Hn [] 0 ltac:(done)) as E. rewrite app_nil_r in E. rewrite E.
  destruct (Z.eqb_spec (zlen (to_string n)) 0) as [Hz|_]; [|done].
  exfalso. apply Hne, zlen_0_inv. lia.
Qed.

Lemma trim_counter name n : metricName name -> is_uint 64 n -> trim (csvRow name (to_string n)) = csvRow name (to_string n).
Proof.
  intros Hm Hn. destruct (to_string_spec n Hn) as (Hd & _ & Hne & _).
  destruct (digits_last _ Hne Hd) as (v & c & -> & Hc). by apply trim_row.
Qed.

(** [metricRow] up to the branch on the name. *)
Lemma metricRow_row name value s h :
  metricName name ->
  metricRow (csvRow name value) (s, h) =
  if bool_decide (name = kTotalLines) then
    let '(ok, v) := parseCount value (ResultSummary.totalLines s) in
    Ret (ResultSummary.mk ok v (ResultSummary.skippedLines s) (ResultSummary.reasons s), h)
  else if bool_decide (name = kSkippedLines) then
    let '(ok, v) := parseCount value (ResultSummary.skippedLines s) in
    Ret (ResultSummary.mk (ResultSummary.hasTotal s) (ResultSummary.totalLines s) v (ResultSummary.reasons s), ok)
  else if (zlen kReasonPrefix <? zlen name) && bool_decide (ztake (zlen kReasonPrefix) name = kReasonPrefix) then
    let '(ok, count) := parseCount value 0 in
    if ok then
      let* code := substr name (zlen kReasonPrefix) (zlen name - zlen kReasonPrefix) in
      Ret (ResultSummary.mk (ResultSummary.hasTotal s) (ResultSummary.totalLines s) (ResultSummary.skippedLines s)
             (ResultSummary.reasons s ++ [(code, count)]), h)
    else Ret (s, h)
  else Ret (s, h).
Proof.
  intros (Ht & Hc & _). unfold metricRow, csvRow.
  pose proof (vfind_pre [] name ","%byte value 0 eq_refl Hc) as F. cbn [app] in F. rewrite F, Z.add_0_l.
  pose proof (substr_pre [] name (","%byte :: value) 0 (zlen name) eq_refl eq_refl) as S1. cbn [app] in S1.
  rewrite S1, obind_Ret, Ht.
  pose proof (substr_pre_all (name ++ [","%byte]) value (zlen name + 1)
                (zlen (name ++ ","%byte :: value) - (zlen name + 1)) ltac:(zlen_lia) ltac:(zlen_lia)) as S2.
  rewrite <- app_assoc in S2. cbn [app] in S2. by rewrite S2, obind_Ret.
Qed.

Section Counters.
Context (n : Z) (Hn : is_uint 64 n) (s : ResultSummary.t) (h : bool).

Lemma metric_total :
  metricRow (csvRow kTotalLines (to_string n)) (s, h)
  = Ret (ResultSummary.mk true n (ResultSummary.skippedLines s) (ResultSummary.reasons s), h).
Proof.
  rewrite metricRow_row by (split_and!; [done|by apply (bool_decide_unpack _)|by do 2 eexists]).
  by rewrite bool_decide_eq_true_2, parseCount_to_string.
Qed.

Lemma metric_skipped :
  metricRow (csvRow kSkippedLines (to_string n)) (s, h)
  = Ret (ResultSummary.mk (ResultSummary.hasTotal s) (ResultSummary.totalLines s) n (ResultSummary.reasons s), true).
Proof.
  rewrite metricRow_row by (split_and!; [done|by apply (bool_decide_unpack _)|by do 2 eexists]).
  rewrite bool_decide_eq_false_2 by done. by rewrite bool_decide_eq_true_2, parseCount_to_string.
Qed.

(** A reason code the server uses: a word without comma. *)
Definition reasonCode (code : bytes) : Prop :=
  code <> [] /\ metricName (kReasonPrefix ++ code).

Lemma metric_reason code :
  reasonCode code ->
  metricRow (csvRow (kReasonPrefix ++ code) (to_string n)) (s, h)
  = Ret (ResultSummary.mk (ResultSummary.hasTotal s) (ResultSummary.totalLines s) (ResultSummary.skippedLines s)
           (ResultSummary.reasons s ++ [(code, n)]), h).
Proof.
  intros [Hne Hm]. rewrite metricRow_row by done. rewrite !bool_decide_eq_false_2 by done.
  rewrite zlen_app, ztake_length_app, bool_decide_eq_true_2, parseCount_to_string by done.
  destruct (Z.ltb_spec (zlen kReasonPrefix) (zlen kReasonPrefix + zlen code)) as [_|Hle].
  2:{ exfalso. apply Hne, zlen_0_inv. zlen_lia. }
  cbn [andb]. by rewrite substr_pre_all, obind_Ret by lia.
Qed.
End Counters.

Lemma metric_other name value s h :
  metricName name -> name <> kTotalLines -> name <> kSkippedLines ->
  ztake (zlen kReasonPrefix) name <> kReasonPrefix ->
  metricRow (csvRow name value) (s, h) = Ret (s, h).
Proof.
  intros Hm H1 H2 H3. rewrite metricRow_row by done. rewrite !bool_decide_eq_false_2 by done.
  by rewrite andb_false_r.
Qed.
