(* ===== verification/ResultRoundTrip.v ===== *)
(** * The result, from the server's counters to the client's summary

    [summarizeResultCsv] (client) applied to the text of [buildResultCsv]
    (server). *)

From stdpp Require Import sorting sets.
From S2P Require Import Prelude StringView Charconv Binary64 Protocol LineParser OMap Stats SkipReporter CsvBuilder ResultSummary.

(** Before the metric block every row is passed over. *)
Lemma scanRows_before rows rest st :
  Forall (fun r => trim r <> kMetricHeader) rows -> scanRows false (rows ++ rest) st = scanRows false rest st.
Proof.
  induction 1 as [|r rows Hr _ IH]; [done|]. cbn [app scanRows negb]. by rewrite bool_decide_eq_false_2.
Qed.

Lemma bucketText_not_header b text : bucketText b text -> trim text <> kMetricHeader.
Proof.
  intros (_ & _ & c & t & -> & Hc)%bucketText_row E. unfold trim in E. cbn [trimFront] in E.
  assert (isBlank c = false) as Hb.
  { unfold isBlank. destruct Hc as [Hc _]. by repeat case_bool_decide; subst; [vm_compute in Hc..|]. }
  rewrite Hb in E. destruct (trimBack_prefix (c :: t)) as [r Er]. rewrite E in Er.
  injection Er as ->. destruct Hc as [_ Hc]. by vm_compute in Hc.
Qed.

(** In the block: a row is read, and the scan goes on. *)
Lemma scanRows_metric row rest st st' :
  trim row = row -> row <> [] -> metricRow row st = Ret st' ->
  scanRows true (row :: rest) st = scanRows true rest st'.
Proof.
  intros Ht Hn Hm. cbn [scanRows negb]. rewrite Ht, Hm, obind_Ret.
  destruct (Z.eqb_spec (zlen row) 0) as [Hz|_]; [|done]. exfalso. apply Hn, zlen_0_inv. lia.
Qed.

(** A name given as a literal is a metric name. *)
Ltac metric_name := split_and!; [done | by apply (bool_decide_unpack _) | by do 2 eexists].

Lemma csvRow_nonempty name value : csvRow name value <> [].
Proof. unfold csvRow. by destruct name. Qed.

Lemma scanRows_counter name n rest s h st' :
  metricName name -> is_uint 64 n -> metricRow (csvRow name (to_string n)) (s, h) = Ret st' ->
  scanRows true (csvRow name (to_string n) :: rest) (s, h) = scanRows true rest st'.
Proof.
  intros Hm Hn E. apply scanRows_metric; [by apply trim_counter|apply csvRow_nonempty|done].
Qed.

Lemma skipReasonCode_code r : reasonCode (skipReasonCode r).
Proof. destruct r; (split; [done|metric_name]). Qed.

Lemma scanRows_reasons rs : forall s h,
  Forall (fun r => reasonCode r.1 /\ is_uint 64 r.2) rs ->
  scanRows true (map reasonText rs) (s, h)
  = Ret (ResultSummary.mk (ResultSummary.hasTotal s) (ResultSummary.totalLines s) (ResultSummary.skippedLines s)
           (ResultSummary.reasons s ++ rs), h).
Proof.
  induction rs as [|[code n] rs IH]; intros s h HF; cbn [map].
  - rewrite app_nil_r. by destruct s.
  - apply Forall_cons_iff in HF as [[Hc Hn] HF]. cbn [fst snd] in *. unfold reasonText at 1. cbn [fst snd].
    erewrite scanRows_counter; [|by destruct Hc|done|exact (metric_reason n Hn s h code Hc)].
    rewrite IH by done. cbn. by rewrite <- app_assoc.
Qed.

Section RoundTrip.
Context (stats : StatsCollector.t) (reporter : SkipReporter.t) (totalLines : Z)
        (f : SkipReason.t -> Z) (avg : bytes).
Context (Hv : is_uint 64 (StatsCollector.validSpdSamples stats))
        (He : is_uint 64 (StatsCollector.excludedSpdSamples stats))
        (Hm : is_uint 64 (StatsCollector.missingSpdSamples stats))
        (Ht : is_uint 64 totalLines) (Hs : is_uint 64 (SkipReporter.total reporter))
        (Hf : forall r, is_uint 64 (f r))
        (Havg : formatFixed6 (StatsCollector.averageSpeed stats) = Ret avg).

Lemma reasons_ok : Forall (fun r => reasonCode r.1 /\ is_uint 64 r.2) (sortBy byCode (reasonsOf f)).
Proof.
  rewrite sortBy_perm. unfold reasonsOf. rewrite List.Forall_map. apply Forall_forall. intros r _. cbn.
  split; [apply skipReasonCode_code|apply Hf].
Qed.

Lemma scanRows_metrics :
  scanRows true (metricRows stats reporter f totalLines avg) (ResultSummary.init, false)
  = Ret (ResultSummary.mk true totalLines (SkipReporter.total reporter) (sortBy byCode (reasonsOf f)), true).
Proof.
  unfold metricRows. cbn [app].
  erewrite scanRows_counter; [|metric_name|done|exact (metric_total totalLines Ht _ _)].
  destruct (formatFixed6_row _ _ Havg) as (_ & _ & v & c & -> & Hc).
  erewrite scanRows_metric; [|apply trim_row; [metric_name|done]|apply csvRow_nonempty|apply metric_other; [metric_name|done..]].
  do 3 (erewrite scanRows_counter; [|metric_name|done|apply metric_other; [metric_name|done..]]).
  erewrite scanRows_counter; [|metric_name|done|exact (metric_skipped _ Hs _ _)].
  by rewrite scanRows_reasons by apply reasons_ok.
Qed.
End RoundTrip.

(** Different reasons have different codes, so the order by count and code is
    total on a list of reasons. *)
Lemma skipReasonCode_inj a b : skipReasonCode a = skipReasonCode b -> a = b.
Proof. by destruct a, b. Qed.

Lemma byCountThenCode_trans a b c :
  byCountThenCode a b = true -> byCountThenCode b c = true -> byCountThenCode a c = true.
Proof.
  unfold byCountThenCode.
  destruct (Z.eqb_spec a.2 b.2), (Z.eqb_spec b.2 c.2), (Z.eqb_spec a.2 c.2); cbn [negb];
    rewrite ?Z.ltb_lt; try lia. exact (klt_trans a.1 b.1 c.1).
Qed.

Lemma byCountThenCode_total a b : a.1 <> b.1 -> byCountThenCode a b = true \/ byCountThenCode b a = true.
Proof.
  intros Hne. unfold byCountThenCode. rewrite (Z.eqb_sym b.2 a.2).
  destruct (Z.eqb_spec a.2 b.2); cbn [negb]; rewrite ?Z.ltb_lt; [|lia].
  destruct (bytesLt a.1 b.1) eqn:E1; [by left|]. destruct (bytesLt b.1 a.1) eqn:E2; [by right|].
  by pose proof (klt_total a.1 b.1 E1 E2).
Qed.

Lemma NoDup_pairs (l : list (bytes * Z)) :
  NoDup (map fst l) ->
  ForallOrdPairs (fun a b => byCountThenCode a b = true \/ byCountThenCode b a = true) l.
Proof.
  induction l as [|x l IH]; cbn; intros Hn; [constructor|]. apply list.NoDup_cons in Hn as [Hx Hn]. constructor.
  - apply Forall_forall. intros y Hy. apply byCountThenCode_total. intros E. apply Hx. rewrite E.
    apply list_elem_of_In. by apply in_map.
  - by apply IH.
Qed.

Lemma reasonsOf_NoDup f : NoDup (map fst (reasonsOf f)).
Proof.
  unfold reasonsOf. rewrite map_map. cbn [fst]. apply NoDup_fmap_2; [intros a b; apply skipReasonCode_inj|].
  apply NoDup_ListNoDup, List.NoDup_filter, NoDup_ListNoDup. apply (bool_decide_unpack _). by vm_compute.
Qed.

Lemma csvRow_rowChar name value : Forall rowChar name -> Forall rowChar value -> Forall rowChar (csvRow name value).
Proof. intros. unfold csvRow. apply Forall_app. split; [done|]. by constructor. Qed.

Lemma metricRows_rowChar stats reporter f totalLines avg :
  Forall rowChar avg -> Forall (Forall rowChar) (metricRows stats reporter f totalLines avg).
Proof.
  intros Ha. unfold metricRows. apply Forall_app. split.
  - repeat (constructor; [apply csvRow_rowChar; [by apply rowChar_dec|first [done|apply to_string_row]]|]). constructor.
  - rewrite List.Forall_map, sortBy_perm. unfold reasonsOf. rewrite List.Forall_map. apply Forall_forall.
    intros r _. apply csvRow_rowChar; [|apply to_string_row]. cbn [fst]. apply Forall_app.
    split; [|destruct r]; by apply rowChar_dec.
Qed.

(** No row of the result holds a line end. *)
Lemma rows_no_LF stats reporter f totalLines avg entries texts :
  Forall2 bucketText entries texts -> formatFixed6 (StatsCollector.averageSpeed stats) = Ret avg ->
  Forall (fun r => ~ LF ∈ r) ([bs "module,hour,count"] ++ texts ++ [[]; bs "metric,value"] ++
                              metricRows stats reporter f totalLines avg).
Proof.
  intros H2 (Ha & _)%formatFixed6_row. apply (List.Forall_impl _ rowChar_no_LF).
  apply Forall_app. split; [constructor; [by apply rowChar_dec|constructor]|].
  apply Forall_app. split.
  - apply Forall_forall. intros t Ht%list_elem_of_In. apply list_elem_of_lookup_1 in Ht as [i Hi].
    destruct (Forall2_lookup_r _ _ _ _ _ H2 Hi) as (b & _ & Hb). by apply bucketText_row in Hb as [? _].
  - apply Forall_app. split; [by repeat (constructor; [by apply rowChar_dec|])|by apply metricRows_rowChar].
Qed.

(** ** Properties *)

(** C35: nothing is lost between the two ends.  Whatever the server counted,
    the client reads from the file the line total, the skipped total, and
    exactly the skip reasons that occurred with their counts, most frequent
    first and by code among equals. *)
Theorem summary_of_result stats reporter totalLines f :
  length (StatsCollector.buckets stats) = 5%nat ->
  (forall r, SkipReporter.count reporter r = Ret (f r)) ->
  Forall (is_uint 64) [StatsCollector.validSpdSamples stats; StatsCollector.excludedSpdSamples stats;
    StatsCollector.missingSpdSamples stats; totalLines; SkipReporter.total reporter] ->
  (forall r, is_uint 64 (f r)) -> meanInRange stats ->
  exists csv s, buildResultCsv stats reporter totalLines = Ret csv /\ summarizeResultCsv csv = Ret s /\
    ResultSummary.hasTotal s = true /\ ResultSummary.totalLines s = totalLines /\
    ResultSummary.skippedLines s = SkipReporter.total reporter /\
    ResultSummary.reasons s ≡ₚ reasonsOf f /\
    StronglySorted (fun a b => byCountThenCode a b = true) (ResultSummary.reasons s).
Proof.
  intros Hl Hc HF Hf (integral & micros & Havg & _)%formatFixed6_total. set (avg := _ ++ _) in Havg. rewrite !Forall_cons_iff in HF. destruct HF as (Hv & He & Hm & Ht & Hs & _).
  destruct (build_rows stats reporter totalLines f avg Hl Hc Havg) as (texts & H2 & ->).
  do 2 eexists. split; [done|]. unfold summarizeResultCsv. set (rows := _ ++ _).
  assert (Hlf : Forall (fun r => ~ LF ∈ r) rows) by by eapply rows_no_LF.
  pose proof (scan_rows rows (S (S (length (joinRows rows)))) [] false (ResultSummary.init, false) Hlf) as E.
  cbn [app] in E. change (zlen (@nil byte)) with 0 in E. rewrite E by (pose proof (joinRows_length rows); lia).
  subst rows. rewrite app_assoc, scanRows_before.
  2:{ apply Forall_app. split; [by constructor; [vm_compute|]|]. apply Forall_forall. intros t Ht'%list_elem_of_In.
      apply list_elem_of_lookup_1 in Ht' as [i Hi]. destruct (Forall2_lookup_r _ _ _ _ _ H2 Hi) as (b & _ & Hb).
      by eapply bucketText_not_header. }
  cbn [app scanRows negb]. change (bool_decide (trim [] = kMetricHeader)) with false.
  change (bool_decide (trim (bs "metric,value") = kMetricHeader)) with true. cbn [negb].
  rewrite scanRows_metrics, obind_Ret by done. split; [done|].
  cbn [ResultSummary.hasTotal ResultSummary.totalLines ResultSummary.skippedLines ResultSummary.reasons].
  split_and!; try done.
  - by rewrite !sortBy_perm.
  - apply sortBy_sorted; [apply byCountThenCode_trans|]. apply NoDup_pairs.
    by rewrite sortBy_perm; apply reasonsOf_NoDup.
Qed.

(** One short session: three lines counted, two skipped. *)
Definition witnessReporter : SkipReporter.t :=
  SkipReporter.mk [0; 0; 0; 1; 0; 0; 0; 0; 0; 1; 0] [] 1 [] 2.

Lemma summary_of_result_witness :
  exists csv s, buildResultCsv StatsCollector.init witnessReporter 3 = Ret csv /\ summarizeResultCsv csv = Ret s /\
    formatSkipWarning s = bs "2 of 3 lines were skipped - BAD_FRAME 1, UNKNOWN_MODULE 1".
Proof.
  destruct (summary_of_result StatsCollector.init witnessReporter 3
      (fun r => match r with SkipReason.BadFrame | SkipReason.UnknownModule => 1 | _ => 0 end))
    as (csv & s & E1 & E2 & _);
    [reflexivity|intros r; destruct r; reflexivity|repeat constructor; discriminate
    |intros r; destruct r; split; (discriminate || reflexivity)|exact I|].
  exists csv, s. split; [exact E1|]. split; [exact E2|].
  vm_compute in E1. injection E1 as <-. vm_compute in E2. injection E2 as <-. vm_compute. reflexivity.
Defined.
