(* ===== verification/Analysis.v ===== *)
(** * The analysis of a stream (server/src/parser/ParserThread.cpp)

    The data the parser thread owns and what it does with each slot of the
    ring: reassemble lines, parse each, count it or record why it was skipped,
    and at the end build the result.  [analyse_stream] says the outcome is a
    function of the bytes alone. *)

From stdpp Require Import sets.
From S2P Require Import Prelude StringView Charconv Binary64 DoubleBounds Crc32 Protocol Reassembler LineParser LineSpec Calendar OMap Stats Mean SkipReporter CsvBuilder.

(** [_parser], [_stats], [_reporter], [_totalLines]. *)
Module Tally.
Record t := mk {
  parser : LogLineParser.t;
  stats : StatsCollector.t;
  reporter : SkipReporter.t;
  totalLines : Z }.

Definition init : t := mk LogLineParser.init StatsCollector.init SkipReporter.init 0.

Definition reset (c : t) : t :=
  mk (LogLineParser.reset (parser c)) (StatsCollector.reset (stats c)) (SkipReporter.reset (reporter c)) 0.

(** The callback given to [feed] and [finish]. *)
Definition onLine (c : t) (line : Reassembler.Line) : outcome t :=
  let total := u64 (totalLines c + 1) in
  let* (p, result) := LogLineParser.parse (parser c) (Reassembler.text line) (Reassembler.tooLong line) in
  match result with
  | Skip reason =>
      let* r := SkipReporter.record (reporter c) reason (Reassembler.offset line) (Reassembler.text line) in
      Ret (mk p (stats c) r total)
  | Parsed parsed =>
      let* (s, ok) := StatsCollector.record (stats c) parsed in
      if ok : bool then Ret (mk p s (reporter c) total)
      else
        let* r := SkipReporter.record (reporter c) SkipReason.MapLimit (Reassembler.offset line)
                    (Reassembler.text line) in
        Ret (mk p s r total)
  end.

(** The calls of the callback during one [feed] or [finish]: it reads the lines
    only, so running it after the scan is running it within. *)
Fixpoint onLines (c : t) (lines : list Reassembler.Line) : outcome t :=
  match lines with
  | [] => Ret c
  | line :: lines => let* c := onLine c line in onLines c lines
  end.
End Tally.

Record AnalysisResult := mkResult { res_csv : bytes; res_crc32 : Z; res_totalLines : Z; res_skippedLines : Z }.
Definition noResult : AnalysisResult := mkResult [] 0 0 0.

Module Analysis.
Record t := mk { reassembler : Reassembler.t; tally : Tally.t }.

Definition init : t := mk (Reassembler.make kMaxLineLength) Tally.init.

(** One slot: [_reassembler.feed(view, callback)]. *)
Definition feedSlot (a : t) (data : bytes) : outcome t :=
  let* (r, lines) := Reassembler.feed (reassembler a) data in
  let* c := Tally.onLines (tally a) lines in
  Ret (mk r c).

(** [_reassembler.finish(callback)]. *)
Definition finishLines (a : t) : outcome t :=
  let '(r, lines) := Reassembler.finish (reassembler a) in
  let* c := Tally.onLines (tally a) lines in
  Ret (mk r c).

(** The result, from the counters. *)
Definition buildResult (a : t) : outcome AnalysisResult :=
  let c := tally a in
  let* csv := buildResultCsv (Tally.stats c) (Tally.reporter c) (Tally.totalLines c) in
  Ret (mkResult csv (Crc32.crc32 0 csv) (Tally.totalLines c) (SkipReporter.total (Tally.reporter c))).

(** The owned data in [resetSessionState]. *)
Definition reset (a : t) : t := mk (Reassembler.reset (reassembler a)) (Tally.reset (tally a)).
End Analysis.

(** ** What a list of lines means *)

(** The parser's verdicts: what it accepted and what it skipped, and why. *)
Fixpoint classify (p : LogLineParser.t) (lines : list Reassembler.Line)
    : outcome (LogLineParser.t * list ParsedLine * list skipEvent) :=
  match lines with
  | [] => Ret (p, [], [])
  | line :: lines =>
      let* (p, r) := LogLineParser.parse p (Reassembler.text line) (Reassembler.tooLong line) in
      let* (p, accepted, skips) := classify p lines in
      Ret (match r with
           | Parsed parsed => (p, parsed :: accepted, skips)
           | Skip reason => (p, accepted, (reason, Reassembler.offset line, Reassembler.text line) :: skips)
           end)
  end.

Lemma parse_total p text tooLong : exists p' r, LogLineParser.parse p text tooLong = Ret (p', r).
Proof.
  destruct (validate_spec p text tooLong) as (x & E & _). unfold LogLineParser.parse. rewrite E, obind_Ret.
  destruct x as [|[]]; eauto.
Qed.

Lemma classify_snoc lines : forall p p1 p2 line r accepted skips,
  classify p lines = Ret (p1, accepted, skips) ->
  LogLineParser.parse p1 (Reassembler.text line) (Reassembler.tooLong line) = Ret (p2, r) ->
  classify p (lines ++ [line]) =
  Ret (match r with
       | Parsed parsed => (p2, accepted ++ [parsed], skips)
       | Skip reason => (p2, accepted, skips ++ [(reason, Reassembler.offset line, Reassembler.text line)])
       end).
Proof.
  induction lines as [|l lines IH]; intros p p1 p2 line r accepted skips; cbn [classify app].
  - intros [= -> <- <-] ->. rewrite obind_Ret. by destruct r.
  - destruct (parse_total p (Reassembler.text l) (Reassembler.tooLong l)) as (p' & r' & ->).
    rewrite !obind_Ret. destruct (classify p' lines) as [[[q acc] sk]| |] eqn:E; cbn [obind]; try done.
    intros H Hp. assert (q = p1) as -> by (destruct r'; congruence).
    rewrite (IH p' p1 p2 line r acc sk E Hp), obind_Ret. destruct r', r; simplify_eq; done.
Qed.

(** The tally after [lines]: the collector has counted exactly the lines the
    parser accepted, the reporter exactly the ones it skipped. *)
Definition tallyOf (c : Tally.t) (lines : list Reassembler.Line) : Prop :=
  exists accepted skips,
    classify LogLineParser.init lines = Ret (Tally.parser c, accepted, skips) /\
    statsOf (Tally.stats c) accepted /\ reporterOf (Tally.reporter c) skips /\
    Tally.totalLines c = zlen lines /\ zlen accepted + zlen skips = zlen lines /\
    Forall (inWindow (LogLineParser.anchorSeconds (Tally.parser c) / 3600)) accepted /\
    (LogLineParser.hasAnchor (Tally.parser c) = false -> accepted = []) /\
    Forall (fun l => isValidSample l = true -> sampleBound (pl_spd l)) accepted.

Lemma tallyOf_init : tallyOf Tally.init [].
Proof.
  exists [], []. split; [done|]. split; [apply statsOf_init|]. split; [apply reporterOf_init|].
  by split_and!.
Qed.

Lemma onLine_tally c lines line :
  tallyOf c lines -> zlen lines + 1 < 2 ^ 64 ->
  exists c', Tally.onLine c line = Ret c' /\ tallyOf c' (lines ++ [line]).
Proof.
  intros (accepted & skips & Hc & Hs & Hr & Ht & Hn & Hw & Ha & Hb) Hlen. unfold Tally.onLine.
  pose proof (zlen_nonneg accepted). pose proof (zlen_nonneg skips).
  rewrite (uwrap_small 64) by (rewrite Ht; unfold is_uint; zlen_lia). rewrite Ht.
  destruct (validate_spec (Tally.parser c) (Reassembler.text line) (Reassembler.tooLong line)) as (x & E & Hx).
  assert (Hp : exists p' r, LogLineParser.parse (Tally.parser c) (Reassembler.text line) (Reassembler.tooLong line)
            = Ret (p', r) /\ match x with
              | inl reason => p' = Tally.parser c /\ r = Skip reason
              | inr (l, a) => r = Parsed l /\
                  p' = if LogLineParser.hasAnchor (Tally.parser c) then Tally.parser c else LogLineParser.mk true a
              end).
  { unfold LogLineParser.parse. rewrite E, obind_Ret. destruct x as [|[]]; eauto. }
  destruct Hp as (p' & r & Ep & Hpr). rewrite Ep, obind_Ret.
  pose proof (classify_snoc lines _ _ _ _ _ _ _ Hc Ep) as Hc'. destruct x as [reason|[l a]].
  - destruct Hpr as [-> ->].
    destruct (record_reporter (Tally.reporter c) skips reason (Reassembler.offset line) (Reassembler.text line) Hr
                ltac:(lia)) as (r' & -> & Hr'). rewrite obind_Ret.
    eexists. split; [done|]. exists accepted, (skips ++ [(reason, Reassembler.offset line, Reassembler.text line)]).
    split_and!; try done; cbn [Tally.totalLines]; zlen_lia.
  - destruct Hpr as [-> Hp']. destruct Hx as (_ & HC & _).
    destruct (CleanLine_dated _ _ _ _ HC) as (Hd & Hh & Hws & _).
    assert (Hw' : Forall (inWindow (LogLineParser.anchorSeconds p' / 3600)) (accepted ++ [l])).
    { destruct (LogLineParser.hasAnchor (Tally.parser c)) eqn:Hanc; subst p'.
      - apply Forall_app. split; [done|]. constructor; [|constructor]. split; [done|].
        rewrite Hh. by apply withinSession_hours.
      - rewrite (Ha eq_refl). constructor; [|constructor]. split; [done|]. rewrite Hh. cbn. lia. }
    destruct (record_spec (Tally.stats c) accepted l Hs ltac:(lia)) as (s' & ok & -> & Hok). rewrite obind_Ret.
    destruct ok.
    + eexists. split; [done|]. exists (accepted ++ [l]), skips. cbn [Tally.totalLines Tally.parser].
      split_and!; try done; [zlen_lia|zlen_lia| |].
      * destruct (LogLineParser.hasAnchor (Tally.parser c)) eqn:Hanc; subst p'; cbn; congruence.
      * apply Forall_app. split; [done|]. constructor; [|constructor]. by eapply CleanLine_sample.
    + destruct Hok as (_ & _ & Hfull). pose proof (totalEntries_window _ _ _ Hs Hw).
      unfold kMaxStatsEntries in Hfull. lia.
Qed.

Lemma onLines_tally new : forall c lines,
  tallyOf c lines -> zlen lines + zlen new < 2 ^ 64 ->
  exists c', Tally.onLines c new = Ret c' /\ tallyOf c' (lines ++ new).
Proof.
  induction new as [|l new IH]; intros c lines H Hlen; cbn [Tally.onLines].
  - exists c. by rewrite app_nil_r.
  - rewrite zlen_cons in Hlen. pose proof (zlen_nonneg new).
    destruct (onLine_tally c lines l H ltac:(lia)) as (c1 & -> & H1). rewrite obind_Ret.
    destruct (IH c1 _ H1) as (c2 & E2 & H2); [zlen_lia|]. exists c2. by rewrite <- app_assoc in H2.
Qed.

(** ** What a stream means *)

(** The lines of a stream. *)
Abbreviation linesOf := (specLines kMaxLineLength 0 []).

(** The owned data after the bytes [data] of a session. *)
Definition analysedOf (a : Analysis.t) (data : bytes) : Prop :=
  exists lines, refFeed (Reassembler.make kMaxLineLength) data = (Analysis.reassembler a, lines) /\
    tallyOf (Analysis.tally a) lines.

Lemma fresh_wf : reasmWf (Reassembler.make kMaxLineLength).
Proof. split_and!; try done. Qed.

Lemma analysedOf_init : analysedOf Analysis.init [].
Proof. exists []. split; [done|apply tallyOf_init]. Qed.

Lemma refFeed_lines data : forall s, zlen (refFeed s data).2 <= zlen data.
Proof.
  induction data as [|b data IH]; intros s; [done|]. cbn [refFeed].
  assert (zlen (refByte s b).2 <= 1) by (unfold refByte; by repeat case_match).
  specialize (IH (refByte s b).1). destruct (refByte s b) as [s1 l1]. cbn [fst snd] in *.
  destruct (refFeed s1 data) as [s2 l2]. cbn [snd] in *. rewrite zlen_app, zlen_cons. lia.
Qed.

Lemma feedSlot_analysed a data chunk :
  analysedOf a data -> zlen data + zlen chunk < 2 ^ 63 ->
  exists a', Analysis.feedSlot a chunk = Ret a' /\ analysedOf a' (data ++ chunk).
Proof.
  intros (lines & E & H) Hlen. unfold Analysis.feedSlot.
  pose proof (refFeed_wf data _ fresh_wf) as Hwf. rewrite E in Hwf. cbn in Hwf.
  rewrite feed_ref by done. pose proof (refFeed_app data (Reassembler.make kMaxLineLength) chunk) as Ea.
  pose proof (refFeed_lines data (Reassembler.make kMaxLineLength)) as L1.
  rewrite E in Ea, L1. cbn [snd] in L1. pose proof (refFeed_lines chunk (Analysis.reassembler a)) as L2.
  destruct (refFeed (Analysis.reassembler a) chunk) as [r l2]. cbn [snd] in L2. rewrite obind_Ret.
  destruct (onLines_tally l2 _ _ H ltac:(lia)) as (c & -> & Hc). rewrite obind_Ret.
  eexists. split; [done|]. exists (lines ++ l2). by split.
Qed.

Lemma finishLines_analysed a data :
  analysedOf a data -> zlen data < 2 ^ 63 ->
  exists a', Analysis.finishLines a = Ret a' /\ tallyOf (Analysis.tally a') (linesOf data).
Proof.
  intros (lines & E & H) Hlen. unfold Analysis.finishLines.
  assert (Ht : tracks (Reassembler.make kMaxLineLength) 0 []) by (split_and!; done).
  pose proof (ref_spec data _ _ _ Ht) as S. change (reported _ _ _) with (@nil Reassembler.Line) in S.
  pose proof (refFeed_lines data (Reassembler.make kMaxLineLength)) as L1.
  rewrite E in S, L1. cbn [fst snd app] in S, L1. change (Reassembler.maxLen _) with kMaxLineLength in S.
  assert (L2 : zlen (Reassembler.finish (Analysis.reassembler a)).2 <= 1)
    by (unfold Reassembler.finish; cbn; by case_match).
  destruct (Reassembler.finish (Analysis.reassembler a)) as [r l2]. cbn [snd] in *.
  destruct (onLines_tally l2 _ _ H ltac:(lia)) as (c & -> & Hc). rewrite obind_Ret.
  eexists. split; [done|]. by rewrite S in Hc.
Qed.

Lemma tallyOf_lengths c lines : tallyOf c lines -> length (StatsCollector.buckets (Tally.stats c)) = 5%nat /\
  length (SkipReporter.counts (Tally.reporter c)) = 11%nat.
Proof. intros (? & ? & _ & (H1 & _) & (H2 & _) & _). done. Qed.

Lemma reset_fresh a data : analysedOf a data -> Analysis.reset a = Analysis.init.
Proof.
  intros (lines & E & H). destruct (tallyOf_lengths _ _ H) as [H1 H2]. unfold Analysis.reset, Analysis.init. f_equal.
  - pose proof (refFeed_maxLen data (Reassembler.make kMaxLineLength)) as M. rewrite E in M. cbn in M.
    unfold Reassembler.reset, Reassembler.make. by rewrite M.
  - unfold Tally.reset, Tally.init. by rewrite statsOf_reset, reset_init.
Qed.

Lemma finishLines_resettable a data a' :
  analysedOf a data -> Analysis.finishLines a = Ret a' ->
  (exists lines, tallyOf (Analysis.tally a') lines) -> Analysis.reset a' = Analysis.init.
Proof.
  intros (l & E & _) F [lines Ht]. unfold Analysis.finishLines, Reassembler.finish in F.
  destruct (Tally.onLines _ _) as [c| |]; try done. injection F as <-. cbn [Analysis.tally] in Ht.
  destruct (tallyOf_lengths _ _ Ht) as [H1 H2]. unfold Analysis.reset, Analysis.init. f_equal.
  - pose proof (refFeed_maxLen data (Reassembler.make kMaxLineLength)) as M. rewrite E in M. cbn in M.
    unfold Reassembler.reset, Reassembler.make. cbn. by rewrite M.
  - unfold Tally.reset, Tally.init. cbn. by rewrite statsOf_reset, reset_init.
Qed.

(** A session without the thread: the slots in order, then the end. *)
Fixpoint feedSlots (a : Analysis.t) (chunks : list bytes) : outcome Analysis.t :=
  match chunks with
  | [] => Ret a
  | c :: chunks => let* a := Analysis.feedSlot a c in feedSlots a chunks
  end.

Definition analyse (chunks : list bytes) : outcome AnalysisResult :=
  let* a := feedSlots Analysis.init chunks in
  let* a := Analysis.finishLines a in
  Analysis.buildResult a.

Lemma feedSlots_analysed chunks : forall a data,
  analysedOf a data -> zlen data + zlen (concat chunks) < 2 ^ 63 ->
  exists a', feedSlots a chunks = Ret a' /\ analysedOf a' (data ++ concat chunks).
Proof.
  induction chunks as [|c chunks IH]; intros a data H Hlen; cbn [feedSlots concat].
  - exists a. by rewrite app_nil_r.
  - cbn [concat] in Hlen. rewrite zlen_app in Hlen. pose proof (zlen_nonneg (concat chunks)).
    destruct (feedSlot_analysed a data c H ltac:(lia)) as (a1 & -> & H1). rewrite obind_Ret.
    destruct (IH a1 _ H1) as (a2 & E2 & H2); [zlen_lia|]. exists a2. by rewrite <- app_assoc in H2.
Qed.

(** *** The result of a stream *)

(** [res] is the analysis of a stream whose lines are [lines]: built from a
    collector that counted the accepted lines and a reporter that recorded the
    skipped ones, and small enough for the client. *)
Definition resultOf (res : AnalysisResult) (lines : list Reassembler.Line) : Prop :=
  exists p accepted skips stats reporter,
    classify LogLineParser.init lines = Ret (p, accepted, skips) /\
    statsOf stats accepted /\ reporterOf reporter skips /\
    zlen accepted + zlen skips = zlen lines /\
    buildResultCsv stats reporter (zlen lines) = Ret (res_csv res) /\
    res_crc32 res = Crc32.crc32 0 (res_csv res) /\
    res_totalLines res = zlen lines /\ res_skippedLines res = zlen skips /\ zlen (res_csv res) < kMaxCsvSize.

(** The limit of one upload. *)
Definition fits (data : bytes) : Prop := zlen data <= kMaxFileSize.

Lemma specLines_zlen data : forall start cur, zlen (specLines kMaxLineLength start cur data) <= zlen cur + zlen data.
Proof.
  induction data as [|b data IH]; intros start cur; cbn [specLines].
  - case_bool_decide as E; [zlen_lia|]. rewrite !zlen_cons, !zlen_nil.
    destruct cur; [done|]. rewrite zlen_cons. zlen_lia.
  - rewrite zlen_cons. case_bool_decide.
    + rewrite zlen_cons. specialize (IH (start + zlen cur + 1) []). rewrite (@zlen_nil byte) in IH.
      pose proof (zlen_nonneg cur). lia.
    + specialize (IH start (cur ++ [b])). rewrite zlen_app, zlen_cons, (@zlen_nil byte) in IH. lia.
Qed.

Lemma buildResult_spec a data :
  tallyOf (Analysis.tally a) (linesOf data) -> fits data ->
  exists res, Analysis.buildResult a = Ret res /\ resultOf res (linesOf data).
Proof.
  intros (accepted & skips & Hc & Hs & Hr & Ht & Hn & Hw & Ha & Hb) Hfit. unfold fits, kMaxFileSize in Hfit.
  pose proof (specLines_zlen data 0 []) as Hz. rewrite (@zlen_nil byte) in Hz.
  pose proof (zlen_nonneg accepted). pose proof (zlen_nonneg skips).
  assert (Hmean : meanInRange (Tally.stats (Analysis.tally a))) by (apply (averageSpeed_le _ accepted); [done|done|lia]).
  pose proof Hr as (_ & Hcnt & Htot & _).
  assert (Hent : zlen (concat (StatsCollector.buckets (Tally.stats (Analysis.tally a)))) <= kMaxStatsEntries)
    by (pose proof (buckets_window _ _ _ Hs Hw); unfold kMaxStatsEntries; lia).
  destruct (build_size _ _ _ (Tally.totalLines (Analysis.tally a)) (proj1 Hs) Hent Hcnt Hmean) as (csv & E & Hsize).
  unfold Analysis.buildResult. rewrite E, obind_Ret. rewrite Ht in E |- *. eexists. split; [done|].
  exists (Tally.parser (Analysis.tally a)), accepted, skips, (Tally.stats (Analysis.tally a)),
    (Tally.reporter (Analysis.tally a)). do 4 (split; [done|]). split; [exact E|]. cbn. split_and!; try done; lia.
Qed.

(** ** Properties *)

(** C16: the analysis is a function of the bytes.  However an upload of at most
    [kMaxFileSize] bytes is cut into ring slots, the analysis ends without
    undefined behaviour and its result is that of the stream's lines: every
    line is either accepted or skipped, the accepted ones are exactly what the
    collector counted and the skipped ones what the reporter recorded, no line
    is refused for lack of room, the CSV is built from these and carries its
    own CRC. *)
Theorem analysis_of_stream chunks :
  fits (concat chunks) -> exists res, analyse chunks = Ret res /\ resultOf res (linesOf (concat chunks)).
Proof.
  intros Hfit. assert (Hlen : zlen (concat chunks) < 2 ^ 63) by (unfold fits, kMaxFileSize in Hfit; lia).
  unfold analyse. destruct (feedSlots_analysed chunks _ [] analysedOf_init) as (a & -> & Ha); [zlen_lia|].
  rewrite obind_Ret. destruct (finishLines_analysed a _ Ha Hlen) as (a' & -> & Ha'). rewrite obind_Ret.
  by apply buildResult_spec.
Qed.

Lemma analysis_of_stream_witness :
  exists res, analyse [bs "junk"; [LF] ++ bs "x"] = Ret res /\
    resultOf res [Reassembler.mkLine (bs "junk") 0 false; Reassembler.mkLine (bs "x") 5 false].
Proof. apply (analysis_of_stream [bs "junk"; [LF] ++ bs "x"]). discriminate. Defined.
