(* ===== verification/ParserThread.v ===== *)
(** * The parser thread (server/src/parser/ParserThread.h, .cpp)

    [ParserThread] is the object both threads touch.  The loop thread's
    operations are functions on it; the parser thread is a program counter and
    [parserStep], one action of [run] at a time: an action reads or writes at
    most one flag or index the other thread also writes, so interleaving steps
    is interleaving the threads.  The ring is used through its interface
    [ChunkQueue].  [system] adds what the session layer does: begin a session
    when no abort is pending, commit slots, announce the end of the upload,
    take the result, abort. *)

From stdpp Require Import sets.
From S2P Require Import Prelude StringView Charconv Binary64 Crc32 Protocol Ring Reassembler LineParser LineSpec OMap Stats SkipReporter CsvBuilder Analysis.

Module ParserThread.
Section Thread.
Context {Q : Type} `{ChunkQueue Q}.

Record t := mk {
  ring : Q;
  analysis : Analysis.t;
  stopRequested : bool;
  uploadComplete : bool;
  abortRequested : bool;
  readStopped : bool;
  result : AnalysisResult;
  skipReportPath : bytes;
  csvPath : bytes;
  completionSent : bool;     (* uv_async_send(_completionAsync), not yet delivered *)
  resumeSent : bool;
  abortDoneSent : bool;
  files : list (bytes * bytes) }.   (* what was written to which path, latest first *)

Definition make (r : Q) : t := mk r Analysis.init false false false false noResult [] [] false false false [].

Definition setRing (p : t) (r : Q) : t :=
  mk r (analysis p) (stopRequested p) (uploadComplete p) (abortRequested p) (readStopped p) (result p)
     (skipReportPath p) (csvPath p) (completionSent p) (resumeSent p) (abortDoneSent p) (files p).
Definition setAnalysis (p : t) (a : Analysis.t) : t :=
  mk (ring p) a (stopRequested p) (uploadComplete p) (abortRequested p) (readStopped p) (result p)
     (skipReportPath p) (csvPath p) (completionSent p) (resumeSent p) (abortDoneSent p) (files p).
Definition setStop (p : t) : t :=
  mk (ring p) (analysis p) true (uploadComplete p) (abortRequested p) (readStopped p) (result p)
     (skipReportPath p) (csvPath p) (completionSent p) (resumeSent p) (abortDoneSent p) (files p).
Definition setUpload (p : t) (b : bool) : t :=
  mk (ring p) (analysis p) (stopRequested p) b (abortRequested p) (readStopped p) (result p)
     (skipReportPath p) (csvPath p) (completionSent p) (resumeSent p) (abortDoneSent p) (files p).
Definition setAbort (p : t) (b : bool) : t :=
  mk (ring p) (analysis p) (stopRequested p) (uploadComplete p) b (readStopped p) (result p)
     (skipReportPath p) (csvPath p) (completionSent p) (resumeSent p) (abortDoneSent p) (files p).
Definition setReadStopped (p : t) (b : bool) : t :=
  mk (ring p) (analysis p) (stopRequested p) (uploadComplete p) (abortRequested p) b (result p)
     (skipReportPath p) (csvPath p) (completionSent p) (resumeSent p) (abortDoneSent p) (files p).
Definition setResult (p : t) (res : AnalysisResult) (fs : list (bytes * bytes)) : t :=
  mk (ring p) (analysis p) (stopRequested p) (uploadComplete p) (abortRequested p) (readStopped p) res
     (skipReportPath p) (csvPath p) (completionSent p) (resumeSent p) (abortDoneSent p) fs.
Definition setSignals (p : t) (completion resume abortDone : bool) : t :=
  mk (ring p) (analysis p) (stopRequested p) (uploadComplete p) (abortRequested p) (readStopped p) (result p)
     (skipReportPath p) (csvPath p) completion resume abortDone (files p).

(** ** The loop thread's operations *)

Definition beginSession (p : t) (skipReportPath csvPath : bytes) : t :=
  mk (ring p) (analysis p) (stopRequested p) false (abortRequested p) false (result p)
     skipReportPath csvPath (completionSent p) (resumeSent p) (abortDoneSent p) (files p).

(** [tryAcquireSlot], the bytes received into the slot, [commitSlot]; [None]
    when no slot is free. *)
Definition pushSlot (p : t) (data : bytes) : outcome (option t) :=
  let* r := qpush (ring p) data in
  match r with
  | None => Ret None
  | Some r => Ret (Some (setRing p r))
  end.

Definition markUploadComplete (p : t) : t := setUpload p true.
Definition abortSession (p : t) : t := setAbort p true.
Definition abortPending (p : t) : bool := abortRequested p.
Definition stop (p : t) : t := setStop p.

(** [onCompletionAsync]: the result handed to the handler. *)
Definition takeResult (p : t) : t * AnalysisResult :=
  (setResult (setSignals p false (resumeSent p) (abortDoneSent p)) noResult (files p), result p).

(** ** The parser thread *)

(** Where [resetSessionState] returns to. *)
Inductive caller := FromAbort | FromFinish.

Inductive pc :=
| PWait                  (* cv.wait *)
| PTop                   (* if (_abortRequested) *)
| PDrain (c : caller)    (* resetSessionState: while (tryPeek) release *)
| PReset (c : caller)    (* ... its resets and the resume signal *)
| PAbortClear            (* _abortRequested = false *)
| PAbortSend             (* uv_async_send(_abortDoneAsync) *)
| PConsume               (* consumeReadySlots: tryPeek, the two flags, feed *)
| PRelease               (* ... release *)
| PResume                (* ... if (_readStopped) uv_async_send(_resumeAsync) *)
| PCheckUpload           (* _uploadComplete && *)
| PCheckEmpty            (* ... _ring.empty() *)
| PFinish                (* finishSession up to the stored result *)
| PPost                  (* uv_async_send(_completionAsync) *)
| PClear                 (* _uploadComplete = false *)
| PStopped.

(** The files [finishSession] writes. *)
Definition written (p : t) (a : Analysis.t) (res : AnalysisResult) : outcome (list (bytes * bytes)) :=
  let fs := if bool_decide (csvPath p = []) then files p else (csvPath p, res_csv res) :: files p in
  if bool_decide (skipReportPath p = []) then Ret fs
  else
    let* report := SkipReporter.report (Tally.reporter (Analysis.tally a)) in
    Ret ((skipReportPath p, report) :: fs).

(** [finishSession] up to [resetSessionState()]. *)
Definition finishSession (p : t) : outcome t :=
  let* a := Analysis.finishLines (analysis p) in
  let* res := Analysis.buildResult a in
  let* fs := written p a res in
  Ret (setResult (setAnalysis p a) res fs).

(** One action; [None] when the thread sleeps or has ended. *)
Definition parserStep (p : t) (c : pc) : outcome (option (t * pc)) :=
  match c with
  | PWait =>
      if stopRequested p || abortRequested p || uploadComplete p || negb (qempty (ring p))
      then Ret (Some (p, if stopRequested p then PStopped else PTop))
      else Ret None
  | PTop => Ret (Some (p, if abortRequested p then PDrain FromAbort else PConsume))
  | PDrain k =>
      let* v := qpeek (ring p) in
      match v with
      | Some _ => Ret (Some (setRing p (qpop (ring p)), PDrain k))
      | None => Ret (Some (p, PReset k))
      end
  | PReset k =>
      let p := setAnalysis p (Analysis.reset (analysis p)) in
      let p := if readStopped p then setSignals p (completionSent p) true (abortDoneSent p) else p in
      Ret (Some (p, match k with FromAbort => PAbortClear | FromFinish => PPost end))
  | PAbortClear => Ret (Some (setAbort p false, PAbortSend))
  | PAbortSend => Ret (Some (setSignals p (completionSent p) (resumeSent p) true, PWait))
  | PConsume =>
      let* v := qpeek (ring p) in
      match v with
      | None => Ret (Some (p, PCheckUpload))
      | Some data =>
          if abortRequested p || stopRequested p then Ret (Some (p, PCheckUpload))
          else
            let* a := Analysis.feedSlot (analysis p) data in
            Ret (Some (setAnalysis p a, PRelease))
      end
  | PRelease => Ret (Some (setRing p (qpop (ring p)), PResume))
  | PResume =>
      Ret (Some (if readStopped p then setSignals p (completionSent p) true (abortDoneSent p) else p, PConsume))
  | PCheckUpload => Ret (Some (p, if uploadComplete p then PCheckEmpty else PWait))
  | PCheckEmpty => Ret (Some (p, if qempty (ring p) then PFinish else PWait))
  | PFinish => let* p := finishSession p in Ret (Some (p, PDrain FromFinish))
  | PPost => Ret (Some (setSignals p true (resumeSent p) (abortDoneSent p), PClear))
  | PClear => Ret (Some (setUpload p false, PWait))
  | PStopped => Ret None
  end.
End Thread.
End ParserThread.

(** ** Sessions *)

Module System.
Section Sys.
Context {Q : Type} `{ChunkQueue Q}.

(** What the loop thread is doing with the parser. *)
Inductive phase :=
| NoSession    (* nothing accepted, or the last session was cleaned up *)
| Receiving    (* payload is being committed *)
| Analyzing    (* upload complete, waiting for the result *)
| Delivered.   (* the result was taken *)

#[global] Instance phase_eq_dec : EqDecision phase.
Proof. solve_decision. Defined.

Record t := mk {
  thread : ParserThread.t (Q := Q);
  at_ : ParserThread.pc;
  ph : phase;
  sent : list bytes;                           (* committed in this session *)
  taken : list (list bytes * AnalysisResult) }.  (* results accepted, with their session's slots *)

Inductive event :=
| EvParser                (* the parser thread runs one action *)
| EvBegin                 (* acceptWhenParserIdle, Session::start *)
| EvPush (d : bytes)      (* a slot of payload *)
| EvComplete              (* the trailer was verified *)
| EvTake                  (* onCompletionAsync, Session::onAnalysisComplete *)
| EvAbort                 (* Session::cleanup *)
| EvReadStopped (b : bool)
| EvStop.

Definition setThread (s : t) (p : ParserThread.t) : t := mk p (at_ s) (ph s) (sent s) (taken s).

(** [None]: the event cannot happen now. *)
Definition fire (s : t) (ev : event) : outcome (option t) :=
  match ev with
  | EvParser =>
      let* r := ParserThread.parserStep (thread s) (at_ s) in
      match r with
      | None => Ret None
      | Some (p, c) => Ret (Some (mk p c (ph s) (sent s) (taken s)))
      end
  | EvBegin =>
      if bool_decide (ph s = NoSession) && negb (ParserThread.abortPending (thread s))
      then Ret (Some (mk (ParserThread.beginSession (thread s) (bs "./skip_report.txt") (bs "./result.csv"))
                         (at_ s) Receiving [] (taken s)))
      else Ret None
  | EvPush d =>
      if bool_decide (ph s = Receiving) && (zlen d <=? chunkCapacity (ParserThread.ring (thread s))) &&
         (zlen (concat (sent s ++ [d])) <=? kMaxFileSize)
      then
        let* r := ParserThread.pushSlot (thread s) d in
        match r with
        | None => Ret None
        | Some p => Ret (Some (mk p (at_ s) (ph s) (sent s ++ [d]) (taken s)))
        end
      else Ret None
  | EvComplete =>
      if bool_decide (ph s = Receiving)
      then Ret (Some (mk (ParserThread.markUploadComplete (thread s)) (at_ s) Analyzing (sent s) (taken s)))
      else Ret None
  | EvTake =>
      if ParserThread.completionSent (thread s) then
        let '(p, res) := ParserThread.takeResult (thread s) in
        if bool_decide (ph s = Analyzing)
        then Ret (Some (mk p (at_ s) Delivered (sent s) (taken s ++ [(sent s, res)])))
        else Ret (Some (setThread s p))
      else Ret None
  | EvAbort =>
      Ret (Some (mk (ParserThread.abortSession (thread s)) (at_ s) NoSession (sent s) (taken s)))
  | EvReadStopped b => Ret (Some (setThread s (ParserThread.setReadStopped (thread s) b)))
  | EvStop => Ret (Some (setThread s (ParserThread.stop (thread s))))
  end.

Definition init (r : Q) : t := mk (ParserThread.make r) ParserThread.PWait NoSession [] [].

(** Runs in which every event satisfies [ok]. *)
Inductive reachable (ok : t -> event -> Prop) (r : Q) : t -> Prop :=
| reach_init : reachable ok r (init r)
| reach_fire s s' ev : reachable ok r s -> ok s ev -> fire s ev = Ret (Some s') -> reachable ok r s'.

Fixpoint exec (s : t) (evs : list event) : outcome (option t) :=
  match evs with
  | [] => Ret (Some s)
  | ev :: evs =>
      let* r := fire s ev in
      match r with
      | None => Ret None
      | Some s => exec s evs
      end
  end.
End Sys.
End System.

(** ** The invariant of calm runs

    A run is calm when no session is cleaned up while its result is still
    being computed. *)

Section Calm.
Context {Q : Type} `{HQ : ChunkQueue Q}.
Implicit Types s : System.t (Q := Q).

Definition calm s (ev : System.event) : Prop :=
  match ev with
  | System.EvAbort => System.ph s <> System.Analyzing
  | System.EvPush _ => qroom (ParserThread.ring (System.thread s)) 1
  | _ => True
  end.

Definition resettable (a : Analysis.t) : Prop := Analysis.reset a = Analysis.init.

Definition goodResult (x : list bytes * AnalysisResult) : Prop := resultOf x.2 (linesOf (concat x.1)).

(** Slots are being consumed: what was fed and what is queued is what was sent. *)
Definition Working s (q : list bytes) : Prop :=
  let p := System.thread s in let a := ParserThread.analysis p in
  ParserThread.abortRequested p = false /\ ParserThread.completionSent p = false /\
  (System.ph s = System.Receiving \/ System.ph s = System.Analyzing) /\
  ParserThread.uploadComplete p = bool_decide (System.ph s = System.Analyzing) /\
  match System.at_ s with
  | ParserThread.PWait | ParserThread.PTop | ParserThread.PConsume | ParserThread.PResume
  | ParserThread.PCheckUpload | ParserThread.PAbortSend | ParserThread.PStopped =>
      exists data, analysedOf a data /\ concat (System.sent s) = data ++ concat q
  | ParserThread.PCheckEmpty =>
      System.ph s = System.Analyzing /\ exists data, analysedOf a data /\ concat (System.sent s) = data ++ concat q
  | ParserThread.PFinish =>
      System.ph s = System.Analyzing /\ q = [] /\ analysedOf a (concat (System.sent s))
  | ParserThread.PRelease =>
      exists d q' data, q = d :: q' /\ analysedOf a data /\ concat (System.sent s) = data ++ concat q'
  | _ => False
  end.

(** The result is stored and right, not yet announced. *)
Definition Finished s (q : list bytes) : Prop :=
  let p := System.thread s in let a := ParserThread.analysis p in
  ParserThread.abortRequested p = false /\ ParserThread.completionSent p = false /\
  System.ph s = System.Analyzing /\ ParserThread.uploadComplete p = true /\ q = [] /\
  goodResult (System.sent s, ParserThread.result p) /\
  match System.at_ s with
  | ParserThread.PDrain ParserThread.FromFinish | ParserThread.PReset ParserThread.FromFinish => resettable a
  | ParserThread.PPost => a = Analysis.init
  | _ => False
  end.

(** The result is announced, or taken. *)
Definition Posted s (q : list bytes) : Prop :=
  let p := System.thread s in
  ParserThread.abortRequested p = false /\ q = [] /\ ParserThread.analysis p = Analysis.init /\
  (System.ph s = System.Analyzing /\ ParserThread.completionSent p = true /\
     goodResult (System.sent s, ParserThread.result p) \/
   System.ph s = System.Delivered /\ ParserThread.completionSent p = false) /\
  match System.at_ s with
  | ParserThread.PClear => ParserThread.uploadComplete p = true
  | ParserThread.PWait | ParserThread.PStopped => ParserThread.uploadComplete p = false
  | _ => False
  end.

(** The session is gone; its data is about to be discarded. *)
Definition Aborting s (q : list bytes) : Prop :=
  let p := System.thread s in let a := ParserThread.analysis p in
  ParserThread.abortRequested p = true /\ ParserThread.completionSent p = false /\
  System.ph s = System.NoSession /\
  match System.at_ s with
  | ParserThread.PClear => q = [] /\ a = Analysis.init
  | ParserThread.PReset ParserThread.FromAbort => q = [] /\ resettable a /\ ParserThread.uploadComplete p = false
  | ParserThread.PAbortClear => q = [] /\ a = Analysis.init /\ ParserThread.uploadComplete p = false
  | ParserThread.PRelease => q <> [] /\ resettable a /\ ParserThread.uploadComplete p = false
  | ParserThread.PWait | ParserThread.PTop | ParserThread.PConsume | ParserThread.PResume
  | ParserThread.PCheckUpload | ParserThread.PAbortSend | ParserThread.PStopped
  | ParserThread.PDrain ParserThread.FromAbort => resettable a /\ ParserThread.uploadComplete p = false
  | _ => False
  end.

Definition Idle s (q : list bytes) : Prop :=
  let p := System.thread s in
  ParserThread.abortRequested p = false /\ ParserThread.completionSent p = false /\
  System.ph s = System.NoSession /\ ParserThread.uploadComplete p = false /\
  ParserThread.analysis p = Analysis.init /\ q = [] /\
  match System.at_ s with
  | ParserThread.PWait | ParserThread.PAbortSend | ParserThread.PStopped => True
  | _ => False
  end.

Definition Inv s : Prop :=
  exists q, queued (ParserThread.ring (System.thread s)) q /\ Forall goodResult (System.taken s) /\
    fits (concat (System.sent s)) /\
    (Working s q \/ Finished s q \/ Posted s q \/ Aborting s q \/ Idle s q).

Lemma resettable_init : resettable Analysis.init.
Proof. exact (reset_fresh _ _ analysedOf_init). Qed.

Lemma calm_Inv_init r : queued r [] -> Inv (System.init r).
Proof.
  intros Hr. exists []. split; [done|]. split; [constructor|]. split; [done|]. do 4 right. by split_and!.
Qed.

(** [finishSession] on the data of the whole session. *)
Lemma finishSession_spec (p : ParserThread.t (Q := Q)) data :
  analysedOf (ParserThread.analysis p) data -> fits data ->
  exists p', ParserThread.finishSession p = Ret p' /\
    resultOf (ParserThread.result p') (linesOf data) /\ resettable (ParserThread.analysis p') /\
    ParserThread.ring p' = ParserThread.ring p /\
    ParserThread.abortRequested p' = ParserThread.abortRequested p /\
    ParserThread.uploadComplete p' = ParserThread.uploadComplete p /\
    ParserThread.completionSent p' = ParserThread.completionSent p.
Proof.
  intros Ha Hfit. unfold ParserThread.finishSession.
  destruct (finishLines_analysed _ data Ha) as (a & Ea & Ht); [unfold fits, kMaxFileSize in Hfit; lia|].
  rewrite Ea, obind_Ret. destruct (buildResult_spec a data Ht Hfit) as (res & -> & Hres). rewrite obind_Ret.
  assert (Hw : exists fs, ParserThread.written p a res = Ret fs).
  { unfold ParserThread.written, SkipReporter.report. destruct Ht as (? & ? & _ & _ & (_ & Hc & _) & _).
    rewrite Hc, !obind_Ret. case_bool_decide; eauto. }
  destruct Hw as [fs ->]. rewrite obind_Ret. eexists. split; [done|]. split_and!; try done.
  apply (finishLines_resettable _ data _ Ha Ea). by exists (linesOf data).
Qed.

Lemma finishSession_stop (p p' : ParserThread.t (Q := Q)) :
  ParserThread.finishSession p = Ret p' -> ParserThread.stopRequested p' = ParserThread.stopRequested p.
Proof.
  unfold ParserThread.finishSession. destruct (Analysis.finishLines _) as [a| |]; try done. cbn [obind].
  destruct (Analysis.buildResult a) as [res| |]; try done. cbn [obind].
  destruct (ParserThread.written p a res) as [fs| |]; try done. cbn [obind]. by intros [= <-].
Qed.

(** ** The parser's actions preserve it *)

(** The outcome of one parser action in [s]. *)
Definition parserOk s (mode : System.t (Q := Q) -> list bytes -> Prop) : Prop :=
  exists r, ParserThread.parserStep (System.thread s) (System.at_ s) = Ret r /\
    match r with
    | None => True
    | Some (p, c) =>
        let s' := System.mk p c (System.ph s) (System.sent s) (System.taken s) in
        exists q, queued (ParserThread.ring p) q /\ mode s' q
    end.

Ltac thread_cbn :=
  cbn [ParserThread.abortRequested ParserThread.completionSent ParserThread.uploadComplete ParserThread.analysis
       ParserThread.result ParserThread.ring ParserThread.setRing ParserThread.setAnalysis ParserThread.setAbort
       ParserThread.setUpload ParserThread.setSignals ParserThread.setResult ParserThread.setReadStopped
       ParserThread.setStop ParserThread.stop ParserThread.beginSession ParserThread.markUploadComplete
       ParserThread.abortSession ParserThread.takeResult System.setThread System.thread System.at_ System.ph
       System.sent System.taken fst snd] in *.

Lemma working_step s q :
  queued (ParserThread.ring (System.thread s)) q -> fits (concat (System.sent s)) -> Working s q ->
  parserOk s (fun s' q' => Working s' q' \/ Finished s' q').
Proof.
  intros Hq Hfit (Hab & Hcs & Hph & Hup & Hpc). unfold parserOk. destruct s as [p c phase sent taken].
  unfold Working, Finished. thread_cbn. destruct c as [| |k|k| | | | | | | | | | |]; try done; cbn [ParserThread.parserStep].
  - destruct (_ || _); (eexists; split; [done|]); [|done]. exists q. split; [done|left].
    split_and!; try done. by destruct (ParserThread.stopRequested p).
  - eexists. split; [done|]. rewrite Hab. exists q. split; [done|left]. by split_and!.
  - eexists. split; [done|]. exists q. split; [done|left]. by split_and!.
  - rewrite (qpeek_queued _ q Hq), obind_Ret. destruct Hpc as (data & Ha & Es). destruct q as [|d q]; cbn [head].
    { eexists. split; [done|]. exists []. split; [done|left]. split_and!; try done. by exists data. }
    rewrite Hab. cbn [orb]. destruct (ParserThread.stopRequested p).
    { eexists. split; [done|]. exists (d :: q). split; [done|left]. split_and!; try done. by exists data. }
    destruct (feedSlot_analysed _ data d Ha) as (a & -> & Ha').
    { unfold fits, kMaxFileSize in Hfit. rewrite Es in Hfit. cbn [concat] in Hfit. rewrite !zlen_app in Hfit. zlen_lia. }
    rewrite obind_Ret. eexists. split; [done|]. exists (d :: q). split; [done|left]. thread_cbn.
    split_and!; try done. exists d, q, (data ++ d). split_and!; [done|done|]. rewrite Es. cbn. by rewrite app_assoc.
  - eexists. split; [done|]. destruct Hpc as (d & q' & data & -> & Ha & Es). exists q'.
    split; [by eapply qpop_queued|left]. split_and!; try done. by exists data.
  - eexists. split; [done|]. exists q. destruct (ParserThread.readStopped p); thread_cbn;
      (split; [done|left]); by split_and!.
  - eexists. split; [done|]. exists q. split; [done|left]. rewrite Hup. case_bool_decide; by split_and!.
  - eexists. split; [done|]. exists q. split; [done|left]. destruct Hpc as (Hp & data & Ha & Es).
    rewrite (qempty_queued _ q Hq). destruct (bool_decide_reflect (q = [])) as [->|_].
    + cbn [concat] in Es. rewrite app_nil_r in Es. rewrite Es. by split_and!.
    + split_and!; try done. by exists data.
  - destruct Hpc as (Hp & -> & Ha).
    destruct (finishSession_spec p _ Ha Hfit) as (p' & -> & Hr & Hrs & Er & Eab & Eup & Ecs). rewrite obind_Ret.
    eexists. split; [done|]. exists []. rewrite Er. split; [done|right]. rewrite Eab, Eup, Ecs, Hup.
    rewrite bool_decide_eq_true_2 by done. by split_and!.
  - by eexists.
Qed.

Lemma finished_step s q :
  queued (ParserThread.ring (System.thread s)) q -> Finished s q ->
  parserOk s (fun s' q' => Finished s' q' \/ Posted s' q').
Proof.
  intros Hq (Hab & Hcs & Hph & Hup & -> & Hgood & Hpc). unfold parserOk. destruct s as [p c phase sent taken].
  unfold Posted, Finished. thread_cbn.
  destruct c as [| |[]|[]| | | | | | | | | | |]; try done; cbn [ParserThread.parserStep].
  - rewrite (qpeek_queued _ [] Hq), obind_Ret. eexists. split; [done|]. exists []. split; [done|left]. by split_and!.
  - eexists. split; [done|]. exists []. rewrite Hpc.
    destruct (ParserThread.readStopped _); thread_cbn; (split; [done|left]); by split_and!.
  - eexists. split; [done|]. exists []. thread_cbn. split; [done|right]. split_and!; try done. by left.
Qed.

Lemma posted_step s q :
  queued (ParserThread.ring (System.thread s)) q -> Posted s q -> parserOk s Posted.
Proof.
  intros Hq (Hab & -> & Ha & Hres & Hpc). unfold parserOk. destruct s as [p c phase sent taken].
  unfold Posted. thread_cbn. destruct c as [| |[]|[]| | | | | | | | | | |]; try done; cbn [ParserThread.parserStep].
  - rewrite Hab, Hpc, (qempty_queued _ [] Hq). cbn [orb negb bool_decide].
    rewrite bool_decide_eq_true_2 by done. rewrite !orb_false_r. destruct (ParserThread.stopRequested p); [|by eexists].
    eexists. split; [done|]. exists []. by split_and!.
  - eexists. split; [done|]. exists []. thread_cbn. by split_and!.
  - by eexists.
Qed.

Lemma aborting_step s q :
  queued (ParserThread.ring (System.thread s)) q -> Aborting s q ->
  parserOk s (fun s' q' => Aborting s' q' \/ Idle s' q').
Proof.
  intros Hq (Hab & Hcs & Hph & Hpc). unfold parserOk. destruct s as [p c phase sent taken].
  unfold Aborting, Idle. thread_cbn.
  destruct c as [| |[]|[]| | | | | | | | | | |]; try done; cbn [ParserThread.parserStep].
  - destruct (_ || _); (eexists; split; [done|]); [|done]. exists q. split; [done|left].
    by destruct (ParserThread.stopRequested p).
  - eexists. split; [done|]. rewrite Hab. exists q. split; [done|left]. split_and!; (done || tauto).
  - rewrite (qpeek_queued _ q Hq), obind_Ret. destruct q as [|d q]; (eexists; split; [done|]).
    + exists []. split; [done|left]. split_and!; try done; apply Hpc.
    + exists q. split; [by eapply qpop_queued|left]. split_and!; (done || tauto).
  - eexists. split; [done|]. destruct Hpc as (-> & Hr & Hup). exists []. rewrite Hr.
    destruct (ParserThread.readStopped _); thread_cbn; (split; [done|left]); split_and!; (done || tauto).
  - eexists. split; [done|]. destruct Hpc as (-> & Ha & Hup). exists []. thread_cbn. split; [done|right]. split_and!; (done || tauto).
  - eexists. split; [done|]. exists q. thread_cbn. split; [done|left]. split_and!; (done || tauto).
  - rewrite (qpeek_queued _ q Hq), obind_Ret. rewrite Hab. cbn [orb].
    destruct (head q); (eexists; split; [done|]); exists q; (split; [done|left]); split_and!; (done || tauto).
  - eexists. split; [done|]. destruct Hpc as (Hne & Hpc). destruct q as [|d q]; [done|]. exists q.
    split; [by eapply qpop_queued|left]. split_and!; (done || tauto).
  - eexists. split; [done|]. exists q. destruct (ParserThread.readStopped p); thread_cbn;
      (split; [done|left]); split_and!; (done || tauto).
  - eexists. split; [done|]. exists q. split; [done|left]. destruct Hpc as [? ->]. split_and!; (done || tauto).
  - eexists. split; [done|]. exists q. thread_cbn. destruct Hpc as [-> Ha]. split; [done|left]. split_and!; try done.
    rewrite Ha. apply resettable_init.
  - by eexists.
Qed.

Lemma idle_step s q :
  queued (ParserThread.ring (System.thread s)) q -> Idle s q -> parserOk s Idle.
Proof.
  intros Hq (Hab & Hcs & Hph & Hup & Ha & -> & Hpc). unfold parserOk. destruct s as [p c phase sent taken].
  unfold Idle. thread_cbn. destruct c as [| |[]|[]| | | | | | | | | | |]; try done; cbn [ParserThread.parserStep].
  - rewrite Hab, Hup, (qempty_queued _ [] Hq). rewrite bool_decide_eq_true_2 by done. cbn [orb negb].
    rewrite !orb_false_r. destruct (ParserThread.stopRequested p); [|by eexists].
    eexists. split; [done|]. exists []. by split_and!.
  - eexists. split; [done|]. exists []. thread_cbn. by split_and!.
  - by eexists.
Qed.

(** The parser always has an outcome, and it keeps the invariant. *)
Lemma parser_Inv s :
  Inv s ->
  exists r, ParserThread.parserStep (System.thread s) (System.at_ s) = Ret r /\
    match r with
    | None => True
    | Some (p, c) => Inv (System.mk p c (System.ph s) (System.sent s) (System.taken s))
    end.
Proof.
  intros (q & Hq & Ht & Hf & Hm).
  assert (Hwrap : forall mode, parserOk s mode ->
            (forall s' q', mode s' q' -> Working s' q' \/ Finished s' q' \/ Posted s' q' \/ Aborting s' q' \/ Idle s' q') ->
            exists r, ParserThread.parserStep (System.thread s) (System.at_ s) = Ret r /\
              match r with
              | None => True
              | Some (p, c) => Inv (System.mk p c (System.ph s) (System.sent s) (System.taken s))
              end).
  { intros mode (r & E & Hr) Hmode. exists r. split; [done|]. destruct r as [[p c]|]; [|done].
    destruct Hr as (q' & Hq' & Hm'). exists q'. split_and!; try done. by apply Hmode. }
  destruct Hm as [Hm|[Hm|[Hm|[Hm|Hm]]]].
  - eapply Hwrap; [by eapply working_step|]. cbn. tauto.
  - eapply Hwrap; [by eapply finished_step|]. cbn. tauto.
  - eapply Hwrap; [by eapply posted_step|]. cbn. tauto.
  - eapply Hwrap; [by eapply aborting_step|]. cbn. tauto.
  - eapply Hwrap; [by eapply idle_step|]. cbn. tauto.
Qed.

(** ** So do the loop's *)

(** Which modes a phase allows. *)
Lemma Inv_phase s q :
  Working s q \/ Finished s q \/ Posted s q \/ Aborting s q \/ Idle s q ->
  match System.ph s with
  | System.NoSession => Aborting s q \/ Idle s q
  | System.Receiving => Working s q
  | System.Analyzing => Working s q \/ Finished s q \/ Posted s q
  | System.Delivered => Posted s q
  end.
Proof.
  intros [Hm|[Hm|[Hm|[Hm|Hm]]]].
  - pose proof Hm as (_ & _ & [Hp|Hp] & _); rewrite Hp; tauto.
  - pose proof Hm as (_ & _ & Hp & _); rewrite Hp; tauto.
  - pose proof Hm as (_ & _ & _ & [(Hp & _)|(Hp & _)] & _); rewrite Hp; tauto.
  - pose proof Hm as (_ & _ & Hp & _); rewrite Hp; tauto.
  - pose proof Hm as (_ & _ & Hp & _); rewrite Hp; tauto.
Qed.

Lemma begin_Inv s s' : Inv s -> System.fire s System.EvBegin = Ret (Some s') -> Inv s'.
Proof.
  intros (q & Hq & Ht & _ & Hm) E. cbn [System.fire] in E. apply Inv_phase in Hm.
  destruct s as [p c phase sent taken]. thread_cbn. unfold ParserThread.abortPending in E.
  case_bool_decide as Hp; [|done]. subst phase. destruct Hm as [(Hab & _)|(Hab & Hcs & _ & Hup & Ha & -> & Hpc)].
  { thread_cbn. by rewrite Hab in E. }
  thread_cbn. rewrite Hab in E. injection E as <-. exists []. thread_cbn. split_and!; [done|done|done|left].
  unfold Working. thread_cbn. split_and!; try done; [by left|].
  destruct c as [| |[]|[]| | | | | | | | | | |]; try done; exists []; (split; [|done]); rewrite Ha; apply analysedOf_init.
Qed.

Lemma push_Inv s d s' :
  Inv s -> qroom (ParserThread.ring (System.thread s)) 1 -> System.fire s (System.EvPush d) = Ret (Some s') -> Inv s'.
Proof.
  intros (q & Hq & Ht & _ & Hm) Hroom E. cbn [System.fire] in E. apply Inv_phase in Hm.
  destruct s as [p c phase sent taken]. thread_cbn. case_bool_decide as Hp; [|done]. subst phase.
  destruct (Z.leb_spec (zlen d) (chunkCapacity (ParserThread.ring p))) as [Hd|]; [|done].
  destruct (Z.leb_spec (zlen (concat (sent ++ [d]))) kMaxFileSize) as [Hz|]; [|done]. cbn [andb] in E.
  unfold ParserThread.pushSlot in E.
  pose proof (qpush_queued _ q d Hq Hroom Hd) as Hp. destruct (qfull _);
    [by rewrite Hp, !obind_Ret in E|]. destruct Hp as (r' & Ep & Hq' & _). rewrite Ep, !obind_Ret in E.
  injection E as <-. exists (q ++ [d]). thread_cbn. split_and!; [done|done|done|left].
  destruct Hm as (Hab & Hcs & Hph & Hup & Hpc). unfold Working. thread_cbn. split_and!; try done.
  assert (Hs : forall data q0, concat sent = data ++ concat q0 -> concat (sent ++ [d]) = data ++ concat (q0 ++ [d])).
  { intros data q0 Es. rewrite !concat_app, Es. by rewrite app_assoc. }
  destruct c as [| |[]|[]| | | | | | | | | | |]; try done;
    try (destruct Hpc as (data & Ha & Es); exists data; split; [done|by apply Hs]);
    try (by destruct Hpc).
  destruct Hpc as (d0 & q' & data & -> & Ha & Es). exists d0, (q' ++ [d]), data. split_and!; [done|done|by apply Hs].
Qed.

Lemma complete_Inv s s' : Inv s -> System.fire s System.EvComplete = Ret (Some s') -> Inv s'.
Proof.
  intros (q & Hq & Ht & Hf & Hm) E. cbn [System.fire] in E. apply Inv_phase in Hm.
  destruct s as [p c phase sent taken]. thread_cbn. case_bool_decide as Hp; [|done]. subst phase.
  injection E as <-. exists q. thread_cbn. split_and!; [done|done|done|left].
  destruct Hm as (Hab & Hcs & _ & Hup & Hpc). unfold Working. thread_cbn. split_and!; try done; [by right|].
  destruct c as [| |[]|[]| | | | | | | | | | |]; try done; by destruct Hpc.
Qed.

(** A completion is only announced to the session that waits for it. *)
Lemma completion_phase s q :
  Working s q \/ Finished s q \/ Posted s q \/ Aborting s q \/ Idle s q ->
  ParserThread.completionSent (System.thread s) = true -> Posted s q /\ System.ph s = System.Analyzing.
Proof.
  intros Hm Hcs. destruct Hm as [(_ & H1 & _)|[(_ & H1 & _)|[Hm|[(_ & H1 & _)|(_ & H1 & _)]]]]; try congruence.
  split; [done|]. destruct Hm as (_ & _ & _ & [(Hp & _)|(_ & H1)] & _); congruence.
Qed.

Lemma take_Inv s s' : Inv s -> System.fire s System.EvTake = Ret (Some s') -> Inv s'.
Proof.
  intros (q & Hq & Ht & Hf & Hm) E. cbn [System.fire] in E.
  destruct (ParserThread.completionSent (System.thread s)) eqn:Hcs; [|done].
  destruct (completion_phase s q Hm Hcs) as ((Hab & -> & Ha & Hres & Hpc) & Hph).
  destruct s as [p c phase sent taken]. thread_cbn. subst phase. rewrite bool_decide_eq_true_2 in E by done.
  injection E as <-. thread_cbn. destruct Hres as [(_ & _ & Hgood)|(Hp & _)]; [|done].
  exists []. thread_cbn. split_and!; [done| |done|right; right; left].
  - apply Forall_app. split; [done|]. by constructor.
  - unfold Posted. thread_cbn. split_and!; try done. by right.
Qed.

Lemma abort_Inv s s' :
  Inv s -> System.ph s <> System.Analyzing -> System.fire s System.EvAbort = Ret (Some s') -> Inv s'.
Proof.
  intros (q & Hq & Ht & Hf & Hm) Hcalm E. cbn [System.fire] in E. apply Inv_phase in Hm.
  destruct s as [p c phase sent taken]. thread_cbn. injection E as <-.
  exists q. thread_cbn. split_and!; [done|done|done|right; right; right; left]. unfold Aborting. thread_cbn.
  assert (Hreset : forall data, analysedOf (ParserThread.analysis p) data -> resettable (ParserThread.analysis p))
    by (intros data Ha; by apply (reset_fresh _ data)).
  destruct phase; try done.
  - destruct Hm as [(_ & Hcs & _ & Hpc)|(_ & Hcs & _ & Hup & Ha & -> & Hpc)]; thread_cbn; [by split_and!|].
    split_and!; try done. destruct c as [| |[]|[]| | | | | | | | | | |]; try done;
      (split; [|done]); rewrite Ha; apply resettable_init.
  - destruct Hm as (Hab & Hcs & _ & Hup & Hpc). thread_cbn. rewrite bool_decide_eq_false_2 in Hup by done.
    split_and!; try done. destruct c as [| |[]|[]| | | | | | | | | | |]; try done;
      try (destruct Hpc as (data & Ha & _); split; [by eapply Hreset|done]); try (by destruct Hpc).
    destruct Hpc as (d & q' & data & -> & Ha & _). split_and!; [done|by eapply Hreset|done].
  - destruct Hm as (Hab & -> & Ha & [(? & _)|(_ & Hcs)] & Hpc); [done|]. thread_cbn. split_and!; try done.
    destruct c as [| |[]|[]| | | | | | | | | | |]; try done; (split; [|done]); rewrite Ha; apply resettable_init.
Qed.

(** Flags the modes do not look at. *)
Lemma readStopped_Inv s b : Inv s -> Inv (System.setThread s (ParserThread.setReadStopped (System.thread s) b)).
Proof. intros (q & Hq & Ht & Hf & Hm). exists q. by destruct s. Qed.

Lemma signals_Inv s resume abortDone :
  Inv s ->
  Inv (System.setThread s (ParserThread.setSignals (System.thread s) (ParserThread.completionSent (System.thread s)) resume abortDone)).
Proof. intros (q & Hq & Ht & Hf & Hm). exists q. by destruct s. Qed.

Lemma stop_Inv s : Inv s -> Inv (System.setThread s (ParserThread.stop (System.thread s))).
Proof. intros (q & Hq & Ht & Hf & Hm). exists q. by destruct s. Qed.

Lemma fire_Inv s ev s' : Inv s -> calm s ev -> System.fire s ev = Ret (Some s') -> Inv s'.
Proof.
  intros Hi Hc E. destruct ev as [| |d| | | |b|].
  - cbn [System.fire] in E. destruct (parser_Inv s Hi) as (r & Er & Hr). rewrite Er, obind_Ret in E.
    destruct r as [[p c]|]; [|done]. by injection E as <-.
  - by eapply begin_Inv.
  - by eapply push_Inv.
  - by eapply complete_Inv.
  - by eapply take_Inv.
  - by eapply abort_Inv.
  - injection E as <-. by apply readStopped_Inv.
  - injection E as <-. by apply stop_Inv.
Qed.

(** ** The parser alone reaches the result *)

Inductive eventually (P : System.t (Q := Q) -> Prop) s : Prop :=
| ev_now : P s -> eventually P s
| ev_step s' : System.fire s System.EvParser = Ret (Some s') -> eventually P s' -> eventually P s.

(** Actions left, at most, with [n] slots queued. *)
Definition weight (c : ParserThread.pc) (n : nat) : nat :=
  20 * n +
  match c with
  | ParserThread.PCheckUpload => if (0 <? n)%nat then 12 else 6
  | ParserThread.PCheckEmpty => if (0 <? n)%nat then 11 else 5
  | ParserThread.PAbortSend => 10
  | ParserThread.PWait => 9
  | ParserThread.PTop | ParserThread.PResume => 8
  | ParserThread.PConsume => 7
  | ParserThread.PRelease => 6
  | ParserThread.PFinish => 4
  | ParserThread.PDrain _ => 3
  | ParserThread.PReset _ => 2
  | _ => 1
  end.

Definition announced s : Prop := ParserThread.completionSent (System.thread s) = true.

(** One action brings the result nearer. *)
Definition progress s (q : list bytes) : Prop :=
  exists s' q', System.fire s System.EvParser = Ret (Some s') /\
    System.ph s' = System.ph s /\ System.sent s' = System.sent s /\
    ParserThread.stopRequested (System.thread s') = ParserThread.stopRequested (System.thread s) /\
    System.at_ s' <> ParserThread.PStopped /\
    (announced s' \/
     queued (ParserThread.ring (System.thread s')) q' /\ (Working s' q' \/ Finished s' q') /\
     (weight (System.at_ s') (length q') < weight (System.at_ s) (length q))%nat).

Ltac step_to q' :=
  eexists; exists q'; do 4 (split; [done|]); split;
  [by repeat match goal with |- context [if ?b then _ else _] => destruct b end|].

Lemma working_progress s q :
  queued (ParserThread.ring (System.thread s)) q -> fits (concat (System.sent s)) -> Working s q ->
  System.ph s = System.Analyzing -> ParserThread.stopRequested (System.thread s) = false ->
  System.at_ s <> ParserThread.PStopped -> progress s q.
Proof.
  intros Hq Hfit (Hab & Hcs & Hph & Hup & Hpc) Han Hst Hns. unfold progress. destruct s as [p c phase sent taken].
  thread_cbn. subst phase. rewrite bool_decide_eq_true_2 in Hup by done. cbn [System.fire].
  unfold Working, Finished, announced. thread_cbn.
  destruct c as [| |k|k| | | | | | | | | | |]; try done; cbn [ParserThread.parserStep].
  - rewrite Hup, !orb_true_r, Hst. cbn [orb]. rewrite obind_Ret. step_to q. right. split; [done|].
    split; [left; by split_and!|]. cbn; lia.
  - rewrite Hab, obind_Ret. step_to q. right. split; [done|]. split; [left; by split_and!|]. cbn; lia.
  - rewrite obind_Ret. step_to q. right. split; [done|]. split; [left; by split_and!|]. cbn; lia.
  - rewrite (qpeek_queued _ q Hq), obind_Ret. destruct Hpc as (data & Ha & Es). destruct q as [|d q]; cbn [head].
    { rewrite obind_Ret. step_to (@nil bytes). right. split; [done|]. split; [left|cbn; lia]. split_and!; try done. by exists data. }
    rewrite Hab, Hst. cbn [orb].
    destruct (feedSlot_analysed _ data d Ha) as (a & -> & Ha').
    { unfold fits, kMaxFileSize in Hfit. rewrite Es in Hfit. cbn [concat] in Hfit. rewrite !zlen_app in Hfit. zlen_lia. }
    rewrite !obind_Ret. step_to (d :: q). right. thread_cbn. split; [done|]. split; [left|cbn; lia].
    split_and!; try done. exists d, q, (data ++ d). split_and!; [done|done|]. rewrite Es. cbn. by rewrite app_assoc.
  - rewrite obind_Ret. destruct Hpc as (d & q' & data & -> & Ha & Es). step_to q'. right. thread_cbn.
    split; [by eapply qpop_queued|]. split; [left; split_and!; try done; by exists data|]. cbn; lia.
  - rewrite obind_Ret. destruct (ParserThread.readStopped p); step_to q; right; thread_cbn; (split; [done|]);
      (split; [left; by split_and!|]); cbn; lia.
  - rewrite Hup, obind_Ret. step_to q. right. split; [done|]. split; [left; by split_and!|].
    cbn. case_match; lia.
  - rewrite (qempty_queued _ q Hq), obind_Ret. destruct Hpc as (Hp & data & Ha & Es). step_to q. right.
    split; [done|]. destruct (bool_decide_reflect (q = [])) as [->|Hne].
    + split; [left|cbn; lia]. cbn [concat] in Es. rewrite app_nil_r in Es. subst data. by split_and!.
    + split; [left; split_and!; try done; by exists data|]. destruct q; [done|]. cbn. lia.
  - destruct Hpc as (Hp & -> & Ha).
    destruct (finishSession_spec p _ Ha Hfit) as (p' & Ep & Hr & Hrs & Er & Eab & Eup & Ecs).
    assert (Est : ParserThread.stopRequested p' = ParserThread.stopRequested p) by (by eapply finishSession_stop).
    rewrite Ep, !obind_Ret.
    step_to (@nil bytes). thread_cbn. right. rewrite Er, Eab, Ecs, Eup. split; [done|]. split; [right; by split_and!|]. cbn; lia.
Qed.

Lemma finished_progress s q :
  queued (ParserThread.ring (System.thread s)) q -> Finished s q -> progress s q.
Proof.
  intros Hq (Hab & Hcs & Hph & Hup & -> & Hgood & Hpc). unfold progress. destruct s as [p c phase sent taken].
  cbn [System.fire]. unfold Working, Finished, announced. thread_cbn.
  destruct c as [| |[]|[]| | | | | | | | | | |]; try done; cbn [ParserThread.parserStep].
  - rewrite (qpeek_queued _ [] Hq), !obind_Ret. step_to (@nil bytes). right. split; [done|].
    split; [right; by split_and!|]. cbn; lia.
  - rewrite obind_Ret, Hpc. destruct (ParserThread.readStopped _); step_to (@nil bytes); right; thread_cbn; (split; [done|]);
      (split; [right; by split_and!|]); cbn; lia.
  - rewrite obind_Ret. step_to (@nil bytes). by left.
Qed.

Lemma result_eventually n : forall s q,
  queued (ParserThread.ring (System.thread s)) q -> fits (concat (System.sent s)) -> Working s q \/ Finished s q ->
  System.ph s = System.Analyzing -> ParserThread.stopRequested (System.thread s) = false ->
  System.at_ s <> ParserThread.PStopped -> (weight (System.at_ s) (length q) < n)%nat -> eventually announced s.
Proof.
  induction n as [|n IH]; intros s q Hq Hfit Hm Hph Hst Hns Hw; [lia|].
  assert (Hp : progress s q) by (destruct Hm; [by apply working_progress|by apply finished_progress]).
  destruct Hp as (s' & q' & E & E1 & E2 & E3 & E4 & [Hdone|(Hq' & Hm' & Hlt)]).
  - eapply ev_step; [done|]. by apply ev_now.
  - eapply ev_step; [done|]. apply (IH s' q'); try congruence; try done. lia.
Qed.

Lemma reachable_Inv' r s : queued r [] -> System.reachable calm r s -> Inv s.
Proof. intros Hr. induction 1 as [|s s' ev _ IH Hc E]; [by apply calm_Inv_init|by eapply fire_Inv]. Qed.
End Calm.

(** ** Properties *)

(** C14: every result handed to a session is the analysis of that session's
    bytes.  For any queue that is a FIFO of slots, any interleaving of the two
    threads, any cut of the upload into slots, any number of sessions, resumes
    and stops: as long as no session is cleaned up between the end of its
    upload and its result, the parser thread never reaches undefined behaviour
    and each result that was taken is the one of the lines of exactly the slots
    committed in that session. *)
Theorem parser_thread_results {Q} `{ChunkQueue Q} (r : Q) (s : System.t) :
  queued r [] -> System.reachable calm r s ->
  (exists o, ParserThread.parserStep (System.thread s) (System.at_ s) = Ret o) /\
  Forall goodResult (System.taken s).
Proof.
  intros Hr Hs. pose proof (reachable_Inv' r s Hr Hs) as Hi. split.
  - destruct (parser_Inv s Hi) as (o & E & _). eauto.
  - by destruct Hi as (q & _ & Ht & _).
Qed.

(** Runs as lists of events: the calm ones are recognised by evaluation. *)
Definition calmEvent (s : System.t (Q := Ring.t)) (ev : System.event) : bool :=
  match ev with
  | System.EvAbort => negb (bool_decide (System.ph s = System.Analyzing))
  | System.EvPush _ => Ring.tail (ParserThread.ring (System.thread s)) + 1 <? 2 ^ 64
  | _ => true
  end.

Fixpoint calmRun (s : System.t (Q := Ring.t)) (evs : list System.event) : bool :=
  match evs with
  | [] => true
  | ev :: evs =>
      calmEvent s ev &&
      match System.fire s ev with
      | Ret (Some s) => calmRun s evs
      | _ => false
      end
  end.

Lemma exec_reachable ok r evs : forall (s s' : System.t (Q := Ring.t)),
  System.reachable ok r s -> System.exec s evs = Ret (Some s') ->
  (forall s ev, ok s ev) \/ (calmRun s evs = true /\ ok = calm) -> System.reachable ok r s'.
Proof.
  induction evs as [|ev evs IH]; intros s s' Hs; cbn [System.exec calmRun]; [by intros [= <-]|].
  destruct (System.fire s ev) as [[s1|]| |] eqn:E; cbn [obind]; try done. intros He Hok.
  assert (Hev : ok s ev /\ ((forall s ev, ok s ev) \/ (calmRun s1 evs = true /\ ok = calm))).
  { destruct Hok as [Hok|[Hb ->]]; [split; [apply Hok|by left]|].
    apply andb_true_iff in Hb as [Hb Hr]. split; [|by right].
    destruct ev; cbn in *; try done; [by apply Z.ltb_lt|]. by case_bool_decide. }
  destruct Hev as [Hev Hok1]. eapply IH; [|exact He|exact Hok1]. by eapply System.reach_fire.
Qed.

Definition parserRuns (n : nat) : list System.event := repeat System.EvParser n.

(** One session on a ring of two slots, up to its result. *)
Definition demoEvents : list System.event :=
  [System.EvBegin; System.EvPush (bs "junk"); System.EvComplete] ++ parserRuns 12.

Lemma parser_thread_results_witness :
  exists s, System.reachable calm (Ring.make 2 16) s /\
    map (fun x => res_totalLines x.2) (System.taken s) = [1] /\ Forall goodResult (System.taken s).
Proof.
  destruct (System.exec (System.init (Ring.make 2 16)) (demoEvents ++ [System.EvTake])) as [[s|]| |] eqn:E;
    [|vm_compute in E; discriminate..].
  assert (Hs : System.reachable calm (Ring.make 2 16) s).
  { eapply exec_reachable; [apply System.reach_init|exact E|right]. split; [vm_compute; reflexivity|reflexivity]. }
  exists s. split; [exact Hs|]. split; [vm_compute in E; injection E as <-; reflexivity|].
  apply (parser_thread_results (Ring.make 2 16) s); [apply ringRep_make; lia|exact Hs].
Defined.



(** A session cleaned up between its trailer and its result, then a second one. *)
Definition raceEvents : list System.event :=
  [System.EvBegin; System.EvPush (bs "a"); System.EvComplete; System.EvAbort] ++ parserRuns 11 ++
  [System.EvBegin] ++ parserRuns 2 ++ [System.EvPush (bs "lost line")] ++ parserRuns 4 ++
  [System.EvComplete; System.EvTake].

(** C39: outside calm runs the claim fails.  A session is cleaned up after its
    trailer and before its result; the abort branch of [run] clears its own
    flag but not [_uploadComplete], so the thread goes on to [finishSession]
    with nothing to finish.  The next session, let in because no abort is
    pending, commits its payload meanwhile: [resetSessionState] discards it and
    the session is given the empty result. *)
Theorem abort_during_analysis_loses_data :
  exists s : System.t, System.reachable (fun _ _ => True) (Ring.make 2 16) s /\
    map fst (System.taken s) = [[bs "lost line"]] /\ ~ Forall goodResult (System.taken s).
Proof.
  destruct (System.exec (System.init (Ring.make 2 16)) raceEvents) as [[s|]| |] eqn:E; [|by vm_compute in E..].
  exists s. split; [eapply exec_reachable; [apply System.reach_init|exact E|by left]|].
  vm_compute in E. injection E as <-. split; [done|]. intros HF. apply Forall_inv in HF.
  destruct HF as (p & acc & sk & st & re & _ & _ & _ & _ & _ & _ & Ht & _). by vm_compute in Ht.
Qed.
