(* ===== verification/Net.v ===== *)
(** * The transport wrappers (common/net/TcpSocket, Timer, Listener)

    What the wrappers keep beside libuv's handles: whether a handle exists,
    whether it reads, closes or is closed, and the writes whose completion has
    not come back.  libuv is a parameter, [Uv]: the return code of the n-th
    call an object makes.  Memory ownership of handles and requests, which the
    destructors pass to libuv's close callbacks, is not modelled. *)

From S2P Require Import Prelude StringView Charconv.

Definition UV_EINVAL : Z := -22.
Definition UV_EOF : Z := -4095.

(** A call: the object that makes it and how many it has made before. *)
Definition call : Type := nat * nat.
Definition nextCall (c : call) : call := (c.1, S c.2).

(** What the code reads of a sockaddr_in or sockaddr_in6. *)
Record SockAddr := mkSockAddr { sa_v4 : bool; sa_addr : bytes; sa_port : Z }.

(** libuv, as the code sees it: what each call returns.  [uv_ip4_name] and
    [uv_ip6_name] give the text of an address. *)
Record Uv := mkUv {
  uv_tcp_init : nat -> Z;
  uv_ip4_addr : bytes -> Z -> Z;
  uv_tcp_connect : call -> Z;
  uv_read_start : call -> Z;
  uv_read_stop : call -> Z;
  uv_write : call -> bytes -> Z;
  uv_send_buffer_size : call -> Z -> Z * Z;
  uv_recv_buffer_size : call -> Z -> Z * Z;
  uv_tcp_getpeername : call -> Z * SockAddr;
  uv_tcp_getsockname : nat -> Z * SockAddr;
  uv_ip4_name : bytes -> Z * bytes;
  uv_ip6_name : bytes -> Z * bytes;
  uv_timer_init : nat -> Z;
  uv_timer_start : call -> Z;
  uv_timer_stop : call -> Z;
  uv_tcp_bind : nat -> Z;
  uv_listen : nat -> Z -> Z;
  uv_accept : nat -> Z;
  uv_hrtime : call -> Z;            (* by the calls of the socket that is in use *)
  uv_err_name : Z -> bytes;
  uv_strerror : Z -> bytes }.

(** libuv when every call succeeds. *)
Definition uvFine : Uv :=
  mkUv (fun _ => 0) (fun _ _ => 0) (fun _ => 0) (fun _ => 0) (fun _ => 0) (fun _ _ => 0) (fun _ n => (0, n)) (fun _ n => (0, n))
       (fun _ => (0, mkSockAddr true (bs "10.0.0.7") 23507)) (fun _ => (0, mkSockAddr true (bs "0.0.0.0") 23507))
       (fun a => (0, a)) (fun a => (0, a)) (fun _ => 0) (fun _ => 0) (fun _ => 0) (fun _ => 0) (fun _ _ => 0) (fun _ => 0)
       (fun c => 1000000 * Z.of_nat c.2) (fun _ => bs "EOTHER") (fun _ => bs "error").

Module TcpSocket.
Section Socket.
Context (uv : Uv).

Record t := mk {
  handle : bool;                          (* _handle != nullptr *)
  connectRequest : bool;
  pendingWrites : list (nat * bytes);     (* requests by the call that made them *)
  reading : bool;
  closing : bool;
  closed : bool;
  calls : call;                           (* the next call *)
  wire : list bytes }.                    (* what uv_write has accepted, in order *)

Definition make (n : nat) : t := mk (uv_tcp_init uv n =? 0) false [] false false false (n, O) [].

Definition called (s : t) : t :=
  mk (handle s) (connectRequest s) (pendingWrites s) (reading s) (closing s) (closed s) (nextCall (calls s)) (wire s).
Definition setReading (s : t) (b : bool) : t :=
  mk (handle s) (connectRequest s) (pendingWrites s) b (closing s) (closed s) (calls s) (wire s).
Definition setClosing (s : t) : t :=
  mk (handle s) (connectRequest s) (pendingWrites s) (reading s) true (closed s) (calls s) (wire s).
Definition setConnect (s : t) (b : bool) : t :=
  mk (handle s) b (pendingWrites s) (reading s) (closing s) (closed s) (calls s) (wire s).

Definition connect (s : t) (ip : bytes) (port : Z) : t * Z :=
  if negb (handle s) then (s, UV_EINVAL)
  else
    let rc := uv_ip4_addr uv ip port in
    if negb (rc =? 0) then (s, rc)
    else
      let rc := uv_tcp_connect uv (calls s) in
      (setConnect (called s) (rc =? 0), rc).

Definition startRead (s : t) : t * Z :=
  if negb (handle s) || closing s then (s, UV_EINVAL)
  else if reading s then (s, 0)
  else
    let rc := uv_read_start uv (calls s) in
    (if rc =? 0 then setReading (called s) true else called s, rc).

Definition stopRead (s : t) : t * Z :=
  if negb (handle s) || negb (reading s) then (s, 0)
  else
    let rc := uv_read_stop uv (calls s) in
    (if rc =? 0 then setReading (called s) false else called s, rc).

Definition send (s : t) (data : bytes) : t * Z :=
  if negb (handle s) || closing s then (s, UV_EINVAL)
  else
    let rc := uv_write uv (calls s) data in
    if negb (rc =? 0) then (called s, rc)
    else
      (mk (handle s) (connectRequest s) (pendingWrites s ++ [((calls s).2, data)]) (reading s) (closing s) (closed s)
          (nextCall (calls s)) (wire s ++ [data]), 0).

(** [uv_close] itself reports through [onCloseCb]. *)
Definition close (s : t) : t :=
  if negb (handle s) || closing s then s else (stopRead (setClosing s)).1.

(** [onWriteCb]: the request is forgotten before the callback is told. *)
Definition onWriteCb (s : t) (request : nat) : t :=
  mk (handle s) (connectRequest s) (List.filter (fun w => negb (Nat.eqb w.1 request)) (pendingWrites s)) (reading s)
     (closing s) (closed s) (calls s) (wire s).

(** [onCloseCb] on a socket that still has its owner. *)
Definition onCloseCb (s : t) : t :=
  mk (handle s) (connectRequest s) (pendingWrites s) false (closing s) true (calls s) (wire s).

(** What [onReadCb] turns libuv's [nread] into. *)
Inductive readEvent := OnRead | Nothing | OnError (status : Z) (where_ : bytes).
Definition onReadCb (nread : Z) : readEvent :=
  if 0 <? nread then OnRead
  else if nread =? 0 then Nothing
  else OnError nread (if nread =? UV_EOF then bs "read(eof)" else bs "read").

Definition applyBufferSizes (s : t) (sendSize recvSize : Z) : t * Z :=
  if negb (handle s) then (s, UV_EINVAL)
  else
    let '(s, rc) :=
      if 0 <? sendSize then (called s, (uv_send_buffer_size uv (calls s) sendSize).1) else (s, 0) in
    if negb (rc =? 0) then (s, rc)
    else if 0 <? recvSize then (called s, (uv_recv_buffer_size uv (calls s) recvSize).1) else (s, 0).

(** Queries: size 0 asks libuv for the size that is in use. *)
Definition actualSendBufferSize (s : t) : Z :=
  if negb (handle s) then 0
  else let '(rc, value) := uv_send_buffer_size uv (calls s) 0 in if rc =? 0 then value else 0.
Definition actualRecvBufferSize (s : t) : Z :=
  if negb (handle s) then 0
  else let '(rc, value) := uv_recv_buffer_size uv (calls s) 0 in if rc =? 0 then value else 0.

Definition peerAddress (s : t) : bytes :=
  if negb (handle s) then []
  else
    let '(rc, storage) := uv_tcp_getpeername uv (calls s) in
    if negb (rc =? 0) then []
    else
      let '(rc, ip) := if sa_v4 storage then uv_ip4_name uv (sa_addr storage) else uv_ip6_name uv (sa_addr storage) in
      if negb (rc =? 0) then [] else ip ++ bs ":" ++ to_string (sa_port storage).
End Socket.
End TcpSocket.

Module Timer.
Section Clock.
Context (uv : Uv).

Record t := mk {
  handle : bool;
  callback : bool;      (* a callback was given *)
  timeoutMs : Z;
  active : bool;        (* uv_is_active *)
  calls : call }.

Definition make (n : nat) : t := mk (uv_timer_init uv n =? 0) false 0 false (n, O).

(** [uv_timer_start] on a timer makes it run, from the beginning. *)
Definition uvStart (s : t) : t * Z :=
  let rc := uv_timer_start uv (calls s) in
  (mk (handle s) (callback s) (timeoutMs s) (active s || (rc =? 0)) (nextCall (calls s)), rc).

Definition start (s : t) (timeout : Z) : t * Z :=
  if negb (handle s) then (s, UV_EINVAL)
  else uvStart (mk (handle s) true timeout (active s) (calls s)).

Definition isActive (s : t) : bool := handle s && active s.

Definition restart (s : t) : t :=
  if negb (handle s) || negb (isActive s) then s else (uvStart s).1.

Definition stop (s : t) : t * Z :=
  if negb (handle s) then (s, 0)
  else
    let rc := uv_timer_stop uv (calls s) in
    (mk (handle s) (callback s) (timeoutMs s) (active s && negb (rc =? 0)) (nextCall (calls s)), rc).

(** A timer that fires is no longer active (repeat = 0). *)
Definition onTimeoutCb (s : t) : t * bool :=
  (mk (handle s) (callback s) (timeoutMs s) false (calls s), callback s).
End Clock.
End Timer.

Module Listener.
Section Listen.
Context (uv : Uv).

Record t := mk { handle : bool; callback : bool; closing : bool; calls : nat }.

Definition make (n : nat) : t := mk (uv_tcp_init uv n =? 0) false false 0.
Definition called (s : t) : t := mk (handle s) (callback s) (closing s) (S (calls s)).

Definition listen (s : t) (ip : bytes) (port backlog : Z) : t * Z :=
  if negb (handle s) then (s, UV_EINVAL)
  else
    let s := mk (handle s) true (closing s) (calls s) in
    let rc := uv_ip4_addr uv ip port in
    if negb (rc =? 0) then (s, rc)
    else
      let rc := uv_tcp_bind uv (calls s) in
      if negb (rc =? 0) then (called s, rc) else (called s, uv_listen uv (calls s) backlog).

Definition acceptPending (s : t) : t * option TcpSocket.t :=
  if negb (handle s) || closing s then (s, None)
  else
    let socket := TcpSocket.make uv (calls s) in
    if negb (TcpSocket.handle socket) then (called s, None)
    else if negb (uv_accept uv (calls s) =? 0) then (called s, None)
    else (called s, Some socket).

Definition close (s : t) : t :=
  if negb (handle s) || closing s then s else mk (handle s) (callback s) true (calls s).

Definition boundPort (s : t) : Z :=
  if negb (handle s) then 0
  else let '(rc, storage) := uv_tcp_getsockname uv (calls s) in if negb (rc =? 0) then 0 else sa_port storage.

(** [onConnectionCb] reaches the owner: [Some 0] is [onConnection], another
    status [onListenError]. *)
Definition onConnectionCb (s : t) (status : Z) : option Z := if callback s then Some status else None.
End Listen.
End Listener.

(** ** What the session layer relies on *)

Section Facts.
Context (uv : Uv).
Implicit Types s : TcpSocket.t.

(** Only [send] writes, and only what it accepts. *)
Lemma startRead_wire s : TcpSocket.wire (TcpSocket.startRead uv s).1 = TcpSocket.wire s.
Proof. unfold TcpSocket.startRead. by repeat case_match. Qed.
Lemma stopRead_wire s : TcpSocket.wire (TcpSocket.stopRead uv s).1 = TcpSocket.wire s.
Proof. unfold TcpSocket.stopRead. by repeat case_match. Qed.
Lemma close_wire s : TcpSocket.wire (TcpSocket.close uv s) = TcpSocket.wire s.
Proof. unfold TcpSocket.close. case_match; [done|]. by rewrite stopRead_wire. Qed.
Lemma send_wire s d :
  TcpSocket.wire (TcpSocket.send uv s d).1 =
  TcpSocket.wire s ++ (if (TcpSocket.send uv s d).2 =? 0 then [d] else []).
Proof.
  unfold TcpSocket.send. destruct (_ || _); cbn [fst snd]; [by rewrite app_nil_r|].
  destruct (uv_write uv (TcpSocket.calls s) d =? 0) eqn:E; cbn [negb fst snd]; [done|].
  by rewrite E, app_nil_r.
Qed.

Lemma startRead_closing s : TcpSocket.closing (TcpSocket.startRead uv s).1 = TcpSocket.closing s.
Proof. unfold TcpSocket.startRead. by repeat case_match. Qed.
Lemma stopRead_closing s : TcpSocket.closing (TcpSocket.stopRead uv s).1 = TcpSocket.closing s.
Proof. unfold TcpSocket.stopRead. by repeat case_match. Qed.
Lemma send_closing s d : TcpSocket.closing (TcpSocket.send uv s d).1 = TcpSocket.closing s.
Proof. unfold TcpSocket.send. by repeat case_match. Qed.
Lemma send_handle s d : TcpSocket.handle (TcpSocket.send uv s d).1 = TcpSocket.handle s.
Proof. unfold TcpSocket.send. by repeat case_match. Qed.
Lemma startRead_handle s : TcpSocket.handle (TcpSocket.startRead uv s).1 = TcpSocket.handle s.
Proof. unfold TcpSocket.startRead. by repeat case_match. Qed.
Lemma stopRead_handle s : TcpSocket.handle (TcpSocket.stopRead uv s).1 = TcpSocket.handle s.
Proof. unfold TcpSocket.stopRead. by repeat case_match. Qed.
Lemma close_handle s : TcpSocket.handle (TcpSocket.close uv s) = TcpSocket.handle s.
Proof. unfold TcpSocket.close. case_match; [done|]. by rewrite stopRead_handle. Qed.
Lemma close_closing s : TcpSocket.handle s = true -> TcpSocket.closing (TcpSocket.close uv s) = true.
Proof.
  intros Hh. unfold TcpSocket.close. rewrite Hh. cbn [negb orb].
  destruct (TcpSocket.closing s) eqn:E; [done|]. by rewrite stopRead_closing.
Qed.
Lemma send_reading s d : TcpSocket.reading (TcpSocket.send uv s d).1 = TcpSocket.reading s.
Proof. unfold TcpSocket.send. by repeat case_match. Qed.

(** Activity never revives a stopped timer. *)
Lemma restart_active (t : Timer.t) : Timer.isActive (Timer.restart uv t) = Timer.isActive t.
Proof.
  unfold Timer.restart, Timer.isActive, Timer.uvStart. destruct (Timer.handle t) eqn:Eh, (Timer.active t) eqn:Ea;
    cbn; by rewrite ?Eh, ?Ea.
Qed.
Lemma restart_timeout (t : Timer.t) : Timer.timeoutMs (Timer.restart uv t) = Timer.timeoutMs t.
Proof. unfold Timer.restart. by case_match. Qed.
End Facts.
