(* ===== verification/Session.v ===== *)
(** * The session state machine (server/src/session/Session.h, .cpp)

    A session owns its socket and its timer, drives the resident parser thread
    and reports to an observer, [ISessionObserver]; a handler is a computation
    in the state monad [M] over that [world].  Each handler is atomic with
    respect to the parser thread: between two handlers the parser may take any
    number of actions, within one it takes none.  Log lines are not modelled;
    the reasons a session ends with are. *)

From S2P Require Import Prelude StringView Crc32 Protocol Codec Framer Ring Analysis ParserThread Net.

Module SessionState.
Inductive t := WaitHeader | Receiving | Verifying | Analyzing | SendingResult | WaitDone | Cleanup.

#[global] Instance t_eq_dec : EqDecision t.
Proof. solve_decision. Defined.
End SessionState.
Import SessionState.

Definition stateName (s : SessionState.t) : bytes :=
  match s with
  | WaitHeader => bs "WAIT_HEADER"
  | Receiving => bs "RECEIVING"
  | Verifying => bs "VERIFYING"
  | Analyzing => bs "ANALYZING"
  | SendingResult => bs "SENDING_RESULT"
  | WaitDone => bs "WAIT_DONE"
  | Cleanup => bs "CLEANUP"
  end.

Definition kResultCsvPath : bytes := bs "./result.csv".
Definition kSkipReportPath : bytes := bs "./skip_report.txt".

Record SessionTimeouts := mkTimeouts { idleMs : Z; responseMs : Z }.
Definition defaultTimeouts : SessionTimeouts := mkTimeouts kIdleTimeoutMs kResponseTimeoutMs.

Record RetainedResult := mkRetained {
  kept_filename : bytes; kept_fileSize : Z; kept_uploadCrc32 : Z; kept_csv : bytes; kept_csvCrc32 : Z }.

(** What a session asks of the object that owns it. *)
Class ISessionObserver (Ob : Type) := {
  onResultRetained : Ob -> RetainedResult -> Ob;
  lookupRetainedResult : Ob -> bytes -> Z -> Z -> option RetainedResult;
  onSessionFinished : Ob -> Ob }.

(** The one place that maps a state to its timeout (0: no timer). *)
Definition timeoutForState (s : SessionState.t) (timeouts : SessionTimeouts) : Z :=
  match s with
  | WaitHeader | WaitDone => responseMs timeouts
  | Receiving | SendingResult => idleMs timeouts
  | Verifying | Analyzing => 0
  | Cleanup => 0
  end.

Module Session.
Record t := mk {
  state : SessionState.t;
  framer : Framer.t;
  slotAcquired : bool;
  fileSize : Z;
  receivedBytes : Z;
  payloadCrc : Z;
  filename : bytes;
  csv : bytes;
  finishReason : bytes;
  closeAfterSend : bool;
  pendingFailReason : bytes;
  cleanupStarted : bool;
  finished : bool;
  readBufferSize : Z;
  timeouts : SessionTimeouts;
  hasSocket : bool;
  hasObserver : bool;
  hasParser : bool }.

Definition setState (s : t) (xstate : SessionState.t) : t :=
  mk xstate (framer s) (slotAcquired s) (fileSize s) (receivedBytes s) (payloadCrc s) (filename s) (csv s)
     (finishReason s) (closeAfterSend s) (pendingFailReason s) (cleanupStarted s) (finished s) (readBufferSize s)
     (timeouts s) (hasSocket s) (hasObserver s) (hasParser s).
Definition setFramer (s : t) (xframer : Framer.t) : t :=
  mk (state s) xframer (slotAcquired s) (fileSize s) (receivedBytes s) (payloadCrc s) (filename s) (csv s)
     (finishReason s) (closeAfterSend s) (pendingFailReason s) (cleanupStarted s) (finished s) (readBufferSize s)
     (timeouts s) (hasSocket s) (hasObserver s) (hasParser s).
Definition setSlotAcquired (s : t) (xslotAcquired : bool) : t :=
  mk (state s) (framer s) xslotAcquired (fileSize s) (receivedBytes s) (payloadCrc s) (filename s) (csv s)
     (finishReason s) (closeAfterSend s) (pendingFailReason s) (cleanupStarted s) (finished s) (readBufferSize s)
     (timeouts s) (hasSocket s) (hasObserver s) (hasParser s).
Definition setUpload (s : t) (xfileSize : Z) (xfilename : bytes) : t :=
  mk (state s) (framer s) (slotAcquired s) xfileSize (receivedBytes s) (payloadCrc s) xfilename (csv s)
     (finishReason s) (closeAfterSend s) (pendingFailReason s) (cleanupStarted s) (finished s) (readBufferSize s)
     (timeouts s) (hasSocket s) (hasObserver s) (hasParser s).
Definition setReceived (s : t) (xreceivedBytes : Z) (xpayloadCrc : Z) : t :=
  mk (state s) (framer s) (slotAcquired s) (fileSize s) xreceivedBytes xpayloadCrc (filename s) (csv s)
     (finishReason s) (closeAfterSend s) (pendingFailReason s) (cleanupStarted s) (finished s) (readBufferSize s)
     (timeouts s) (hasSocket s) (hasObserver s) (hasParser s).
Definition setFilename (s : t) (xfilename : bytes) : t :=
  mk (state s) (framer s) (slotAcquired s) (fileSize s) (receivedBytes s) (payloadCrc s) xfilename (csv s)
     (finishReason s) (closeAfterSend s) (pendingFailReason s) (cleanupStarted s) (finished s) (readBufferSize s)
     (timeouts s) (hasSocket s) (hasObserver s) (hasParser s).
Definition setCsv (s : t) (xcsv : bytes) : t :=
  mk (state s) (framer s) (slotAcquired s) (fileSize s) (receivedBytes s) (payloadCrc s) (filename s) xcsv
     (finishReason s) (closeAfterSend s) (pendingFailReason s) (cleanupStarted s) (finished s) (readBufferSize s)
     (timeouts s) (hasSocket s) (hasObserver s) (hasParser s).
Definition setFail (s : t) (xcloseAfterSend : bool) (xpendingFailReason : bytes) : t :=
  mk (state s) (framer s) (slotAcquired s) (fileSize s) (receivedBytes s) (payloadCrc s) (filename s) (csv s)
     (finishReason s) xcloseAfterSend xpendingFailReason (cleanupStarted s) (finished s) (readBufferSize s)
     (timeouts s) (hasSocket s) (hasObserver s) (hasParser s).
Definition setCleanup (s : t) (xcleanupStarted : bool) (xfinishReason : bytes) (xstate : SessionState.t) : t :=
  mk xstate (framer s) (slotAcquired s) (fileSize s) (receivedBytes s) (payloadCrc s) (filename s) (csv s)
     xfinishReason (closeAfterSend s) (pendingFailReason s) xcleanupStarted (finished s) (readBufferSize s)
     (timeouts s) (hasSocket s) (hasObserver s) (hasParser s).
Definition setFinished (s : t) (xfinished : bool) : t :=
  mk (state s) (framer s) (slotAcquired s) (fileSize s) (receivedBytes s) (payloadCrc s) (filename s) (csv s)
     (finishReason s) (closeAfterSend s) (pendingFailReason s) (cleanupStarted s) xfinished (readBufferSize s)
     (timeouts s) (hasSocket s) (hasObserver s) (hasParser s).

Section Handlers.
Context (uv : Uv) {Q : Type} `{ChunkQueue Q} {Ob : Type} `{ISessionObserver Ob}.

Definition make (chunkSize : Z) (timeouts : SessionTimeouts) (hasSocket hasObserver hasParser : bool) : t :=
  mk WaitHeader (Framer.make2 MessageType.UploadHeader MessageType.ResultRequest) false 0 0 0 [] [] [] false []
     false false chunkSize timeouts hasSocket hasObserver hasParser.

(** What the handlers read and write. *)
Record world := mkWorld {
  sess : t;
  sock : TcpSocket.t;
  timer : Timer.t;
  parser : ParserThread.t (Q := Q);
  observer : Ob }.

Definition M (A : Type) : Type := world -> outcome (world * A).
Definition ret {A} (a : A) : M A := fun w => Ret (w, a).
Definition bind {A B} (m : M A) (k : A -> M B) : M B := fun w => obind (m w) (fun r => k r.2 r.1).
#[local] Notation "'do' x <- m ; k" := (bind m (fun x => k)) (at level 100, x name, m at level 90, k at level 200).
#[local] Notation "m ;; k" := (bind m (fun _ => k)) (at level 100, k at level 200, right associativity).

Definition get {A} (f : world -> A) : M A := fun w => Ret (w, f w).
Definition field {A} (f : t -> A) : M A := get (fun w => f (sess w)).
Definition modS (f : t -> t) : M unit := fun w =>
  Ret (mkWorld (f (sess w)) (sock w) (timer w) (parser w) (observer w), tt).
Definition modP (f : ParserThread.t -> ParserThread.t) : M unit := fun w =>
  Ret (mkWorld (sess w) (sock w) (timer w) (f (parser w)) (observer w), tt).
Definition modO (f : Ob -> Ob) : M unit := fun w =>
  Ret (mkWorld (sess w) (sock w) (timer w) (parser w) (f (observer w)), tt).
Definition modTimer (f : Timer.t -> Timer.t) : M unit := fun w =>
  Ret (mkWorld (sess w) (sock w) (f (timer w)) (parser w) (observer w), tt).
Definition onSock (f : TcpSocket.t -> TcpSocket.t * Z) : M Z := fun w =>
  let '(k, rc) := f (sock w) in
  Ret (mkWorld (sess w) k (timer w) (parser w) (observer w), rc).
Definition lift {A} (m : outcome A) : M A := fun w => let* a := m in Ret (w, a).
Definition outOfFuel {A} : M A := fun _ => NoFuel.

Definition ringFull : M bool := get (fun w => qfull (ParserThread.ring (parser w))).
Definition isReading : M bool := get (fun w => TcpSocket.reading (sock w)).

(** [tryAcquireSlot], the bytes, [commitSlot]: [false] when no slot is free. *)
Definition pushSlot (data : bytes) : M bool := fun w =>
  let* r := ParserThread.pushSlot (parser w) data in
  match r with
  | None => Ret (w, false)
  | Some p => Ret (mkWorld (sess w) (sock w) (timer w) p (observer w), true)
  end.

(** ** Ending a session *)

Definition cleanup (reason : bytes) : M unit :=
  do started <- field cleanupStarted;
  if started then ret tt
  else
    modS (fun s => setCleanup s true reason Cleanup);;
    modTimer (fun k => (Timer.stop uv k).1);;
    do hasP <- field hasParser;
    (if hasP then modP ParserThread.abortSession else ret tt);;
    do hasK <- field hasSocket;
    (if hasK then onSock (fun k => (TcpSocket.close uv k, 0));; ret tt else ret tt).

Definition closeSilently (reason : bytes) : M unit := cleanup reason.

Definition failWithAck (status : AckStatus.t) (reason : bytes) : M unit :=
  do received <- field receivedBytes;
  do rc <- onSock (fun k => TcpSocket.send uv k (encodeAck (mkAck status received)));
  if negb (rc =? 0) then cleanup reason
  else
    do _ <- onSock (TcpSocket.stopRead uv);
    modS (fun s => setFail s true reason).

(** ** Flow control and transitions *)

Definition resumeReading : M unit :=
  do cs <- field cleanupStarted; do hasP <- field hasParser; do hasK <- field hasSocket; do rd <- isReading;
  if cs || negb hasP || negb hasK || rd then ret tt
  else
    do st <- field state; do received <- field receivedBytes; do size <- field fileSize; do full <- ringFull;
    if bool_decide (st = Receiving) && (received <? size) && full then ret tt
    else
      modP (fun p => ParserThread.setReadStopped p false);;
      do _ <- onSock (TcpSocket.startRead uv);
      ret tt.

Definition applyBackpressure : M unit :=
  do hasP <- field hasParser;
  if negb hasP then ret tt
  else
    do full <- ringFull; do rd <- isReading;
    if full && rd then
      do _ <- onSock (TcpSocket.stopRead uv);
      modP (fun p => ParserThread.setReadStopped p true);;
      do full <- ringFull;
      if negb full then resumeReading else ret tt
    else ret tt.

Definition armTimer : M unit :=
  do st <- field state; do ts <- field timeouts;
  let timeout := timeoutForState st ts in
  if timeout =? 0 then modTimer (fun k => (Timer.stop uv k).1)
  else modTimer (fun k => (Timer.start uv k timeout).1).

Definition transition (next : SessionState.t) : M unit :=
  do st <- field state;
  if bool_decide (st = next) then ret tt
  else
    modS (fun s => setState s next);;
    armTimer;;
    if negb (bool_decide (next = Receiving)) && negb (bool_decide (next = Cleanup)) then resumeReading else ret tt.

Definition onTimeout : M unit :=
  do st <- field state;
  cleanup (bs "timeout in " ++ stateName st).

Definition start : M bool :=
  do hasK <- field hasSocket;
  if negb hasK then ret false
  else
    do rc <- onSock (TcpSocket.startRead uv);
    if negb (rc =? 0) then cleanup (bs "startRead failed");; ret false
    else
      do hasP <- field hasParser;
      (if hasP then modP (fun p => ParserThread.beginSession p kSkipReportPath kResultCsvPath) else ret tt);;
      armTimer;;
      ret true.

(** ** The result *)

Definition onAnalysisComplete (result : AnalysisResult) : M unit :=
  do cs <- field cleanupStarted; do st <- field state;
  if cs || negb (bool_decide (st = Analyzing)) then ret tt
  else
    modS (fun s => setCsv s (res_csv result));;
    do hasO <- field hasObserver; do name <- field filename; do size <- field fileSize; do crc <- field payloadCrc;
    do csv <- field csv;
    (if hasO then modO (fun o => onResultRetained o (mkRetained name size crc csv (res_crc32 result))) else ret tt);;
    transition SendingResult;;
    do rc <- onSock (fun k => TcpSocket.send uv k (encodeResultHeader (mkResultHeader (zlen csv) (res_crc32 result))));
    if negb (rc =? 0) then cleanup (bs "failed to send ResultHeader")
    else
      do rc <- onSock (fun k => TcpSocket.send uv k csv);
      if negb (rc =? 0) then cleanup (bs "failed to send result.csv") else ret tt.

Definition analyzeAndSendResult : M unit :=
  transition Analyzing;;
  do hasP <- field hasParser;
  if negb hasP then cleanup (bs "no parser thread") else modP ParserThread.markUploadComplete.

Definition verifyAndAck : M unit :=
  transition Verifying;;
  do fr <- field framer;
  do r <- lift (decodeUploadTrailer (Framer.message fr) UploadTrailer0);
  let '(status, trailer) := r in
  if negb (bool_decide (status = DecodeStatus.Ok)) then closeSilently (bs "trailer decode failed")
  else
    do crc <- field payloadCrc;
    if negb (ut_crc32 trailer =? crc) then failWithAck AckStatus.CrcMismatch (bs "payload CRC mismatch")
    else
      do received <- field receivedBytes;
      do rc <- onSock (fun k => TcpSocket.send uv k (encodeAck (mkAck AckStatus.Ok received)));
      if negb (rc =? 0) then cleanup (bs "failed to send Ack") else analyzeAndSendResult.

Definition handleResultRequest : M unit :=
  do fr <- field framer;
  do r <- lift (decodeResultRequest (Framer.message fr) ResultRequest0);
  let '(status, request) := r in
  match status with
  | DecodeStatus.BadValue => failWithAck AckStatus.ProtocolError (bs "invalid result request value")
  | DecodeStatus.Ok =>
      do hasO <- field hasObserver; do o <- get observer;
      match (if hasO then lookupRetainedResult o (rr_filename request) (rr_fileSize request) (rr_crc32 request)
             else None) with
      | None => failWithAck AckStatus.NoSuchResult (bs "no retained result for this claim")
      | Some kept =>
          if zlen (kept_csv kept) <? rr_startOffset request
          then failWithAck AckStatus.ProtocolError (bs "result offset beyond csv size")
          else
            modS (fun s => setCsv (setFilename s (rr_filename request)) (kept_csv kept));;
            transition SendingResult;;
            do rc <- onSock (fun k => TcpSocket.send uv k
                   (encodeResultHeader (mkResultHeader (zlen (kept_csv kept)) (kept_csvCrc32 kept))));
            if negb (rc =? 0) then cleanup (bs "failed to send ResultHeader")
            else
              let body := zdrop (rr_startOffset request) (kept_csv kept) in
              if bool_decide (body = []) then ret tt
              else
                do rc <- onSock (fun k => TcpSocket.send uv k body);
                if negb (rc =? 0) then cleanup (bs "failed to send result.csv") else ret tt
      end
  | _ => closeSilently (bs "result request decode failed")
  end.

(** ** Consuming received bytes: each returns how many it took *)

Definition feedFramer (data : bytes) : M (DecodeStatus.t * Z) :=
  do fr <- field framer;
  do r <- lift (Framer.feed fr data);
  modS (fun s => setFramer s r.1);;
  ret r.2.

Definition consumeHeader (data : bytes) : M Z :=
  do r <- feedFramer data;
  let '(status, consumed) := r in
  match status with
  | DecodeStatus.NeedMoreData => ret consumed
  | DecodeStatus.BadMagic | DecodeStatus.BadVersion | DecodeStatus.BadType =>
      closeSilently (bs "bad preamble in header");; ret 0
  | DecodeStatus.BadValue =>
      failWithAck AckStatus.ProtocolError (bs "header value out of range");; ret 0
  | DecodeStatus.Ok =>
      do fr <- field framer;
      do type <- lift (Framer.messageType fr);
      if type =? MessageType.to_u8 MessageType.ResultRequest then handleResultRequest;; ret consumed
      else
        do r <- lift (decodeUploadHeader (Framer.message fr) UploadHeader0);
        let '(decoded, header) := r in
        match decoded with
        | DecodeStatus.BadValue => failWithAck AckStatus.ProtocolError (bs "invalid header value");; ret 0
        | DecodeStatus.Ok =>
            modS (fun s => setFramer (setUpload s (uh_fileSize header) (uh_filename header))
                                     (Framer.reset (framer s) MessageType.UploadTrailer));;
            transition Receiving;;
            ret consumed
        | _ => closeSilently (bs "header decode failed");; ret 0
        end
  end.

(** The copy loop of [consumePayload]; [false] when the session was cut. *)
Fixpoint copyLoop (fuel : nat) (payload : bytes) (copied take : Z) : M bool :=
  match fuel with
  | O => outOfFuel
  | S fuel =>
      if copied <? take then
        do hasP <- field hasParser; do capacity <- get (fun w => chunkCapacity (ParserThread.ring (parser w)));
        let chunk := Z.min capacity (take - copied) in
        do piece <- lift (copyN payload copied chunk);
        do ok <- (if hasP then pushSlot piece else ret false);
        if negb ok then cleanup (bs "ring slot unavailable for transition chunk");; ret false
        else copyLoop fuel payload (copied + chunk) take
      else ret true
  end.

(** The payload's share of [data], counted and checksummed. *)
Definition takePayload (data : bytes) : M Z :=
  do size <- field fileSize; do received <- field receivedBytes;
  let take := Z.min (u64 (size - received)) (zlen data) in
  modS (fun s => setReceived s (u64 (receivedBytes s + take)) (Crc32.crc32 (payloadCrc s) (ztake take data)));;
  ret take.

Definition consumePayload (data : bytes) : M Z :=
  do take <- takePayload data;
  do ok <- copyLoop (S (length data)) (ztake take data) 0 take;
  if negb ok then ret 0
  else applyBackpressure;; ret take.

Definition consumeTrailer (data : bytes) : M Z :=
  do r <- feedFramer data;
  let '(status, consumed) := r in
  match status with
  | DecodeStatus.NeedMoreData => ret consumed
  | DecodeStatus.Ok => verifyAndAck;; ret consumed
  | DecodeStatus.BadValue => failWithAck AckStatus.ProtocolError (bs "invalid trailer value");; ret 0
  | _ => closeSilently (bs "bad preamble in trailer");; ret 0
  end.

Definition consumeDone (data : bytes) : M Z :=
  do r <- feedFramer data;
  let '(status, consumed) := r in
  match status with
  | DecodeStatus.NeedMoreData => ret consumed
  | DecodeStatus.Ok => cleanup (bs "completed");; ret consumed
  | _ => closeSilently (bs "bad DownloadDone");; ret 0
  end.

(** ** The socket's callbacks *)

(** [true]: the buffer lent is the next ring slot; its capacity. *)
Definition onAllocate (suggested : Z) : M (bool * Z) :=
  modS (fun s => setSlotAcquired s false);;
  do st <- field state; do received <- field receivedBytes; do size <- field fileSize; do hasP <- field hasParser; do full <- ringFull;
  if bool_decide (st = Receiving) && (received <? size) && hasP && negb full then
    modS (fun s => setSlotAcquired s true);;
    do capacity <- get (fun w => chunkCapacity (ParserThread.ring (parser w)));
    ret (true, capacity)
  else
    do n <- field readBufferSize;
    ret (false, Z.min suggested n).

(** One round of the loop of [onRead]; [None]: return. *)
Definition consume (data : bytes) : M (option Z) :=
  do st <- field state;
  match st with
  | WaitHeader => do n <- consumeHeader data; ret (Some n)
  | Receiving =>
      do received <- field receivedBytes; do size <- field fileSize;
      do n <- (if received <? size then consumePayload data else consumeTrailer data); ret (Some n)
  | WaitDone => do n <- consumeDone data; ret (Some n)
  | _ => closeSilently (bs "unexpected data in " ++ stateName st);; ret None
  end.

Fixpoint readLoop (fuel : nat) (data : bytes) : M unit :=
  match fuel with
  | O => outOfFuel
  | S fuel =>
      do cs <- field cleanupStarted; do ca <- field closeAfterSend;
      if bool_decide (data = []) || cs || ca then ret tt
      else
        do r <- consume data;
        match r with
        | None => ret tt
        | Some n => if n =? 0 then ret tt else readLoop fuel (zdrop n data)
        end
  end.

(** The bytes are in the slot [onAllocate] lent: the payload's share is
    committed, the rest was copied out before. *)
Definition readSlot (data : bytes) : M unit :=
  modS (fun s => setSlotAcquired s false);;
  do take <- takePayload data;
  do _ <- pushSlot (ztake take data);
  applyBackpressure;;
  let tail := zdrop take data in
  if bool_decide (tail = []) then ret tt
  else do _ <- consumeTrailer tail; ret tt.

Definition onRead (data : bytes) : M unit :=
  modTimer (Timer.restart uv);;
  do slot <- field slotAcquired;
  if slot then readSlot data else readLoop (S (length data)) data.

Definition onSendComplete (status : Z) : M unit :=
  if negb (status =? 0) then ret tt
  else
    do ca <- field closeAfterSend;
    if ca then do reason <- field pendingFailReason; cleanup reason
    else
      modTimer (Timer.restart uv);;
      do st <- field state;
      if bool_decide (st = SendingResult) then
        modS (fun s => setFramer s (Framer.reset (framer s) MessageType.DownloadDone));;
        transition WaitDone
      else ret tt.

Definition describe (status : Z) : bytes := uv_err_name uv status ++ bs " (" ++ uv_strerror uv status ++ bs ")".

Definition onError (status : Z) (where_ : bytes) : M unit := cleanup (where_ ++ bs ": " ++ describe status).

Definition onClosed : M unit :=
  do f <- field finished;
  if f then ret tt
  else
    modS (fun s => setFinished s true);;
    do hasO <- field hasObserver;
    if hasO then modO onSessionFinished else ret tt.
End Handlers.
End Session.
