(* ===== verification/Exchange.v ===== *)
(** * What a client says and what the server may answer

    The vocabulary of the end-to-end theorems: the upload or the request a
    received byte stream starts with, the refusals it justifies, and the
    replies a session may have written after reading it.  The messages are the
    protocol's; the reserved bytes, which the decoders ignore, are left free. *)

From S2P Require Import Prelude StringView Crc32 Protocol Codec Framer Reassembler Analysis ParserThread Session.

(** [m] is the message [msg] and nothing more. *)
Definition encodes (m : bytes) (msg : Message) : Prop :=
  validMessage msg /\ exists r6 r7, m = preambleWith (typeOf msg) r6 r7 ++ body msg.

(** [rx] starts with a complete upload of [data] whose trailer says [crc]. *)
Definition uploaded (rx : bytes) (h : UploadHeader) (data : bytes) (crc : Z) : Prop :=
  exists m tr rest, rx = m ++ data ++ tr ++ rest /\ encodes m (MsgUploadHeader h) /\ uh_fileSize h = zlen data /\
    encodes tr (MsgUploadTrailer (mkUploadTrailer crc)).

(** [rx] starts with the request [r]. *)
Definition requested (rx : bytes) (r : ResultRequest) : Prop :=
  exists m rest, rx = m ++ rest /\ encodes m (MsgResultRequest r).

(** Whatever follows it, [rx] starts with no message of the two types a session
    opens with. *)
Definition unintelligible (rx : bytes) : Prop :=
  forall d msg rest, validMessage msg -> typeOf msg = MessageType.UploadHeader \/ typeOf msg = MessageType.ResultRequest ->
    rx ++ d <> encodeMessage msg ++ rest.

(** [res] is the analysis of an upload of [data]. *)
Definition uploadResult (data : bytes) (res : AnalysisResult) : Prop := fits data /\ resultOf res (linesOf data).

(** A retained result is the analysis of an upload with its size and CRC. *)
Definition goodRetained (k : RetainedResult) : Prop :=
  exists data res, uploadResult data res /\ kept_fileSize k = zlen data /\ kept_uploadCrc32 k = Crc32.crc32 0 data /\
    kept_csv k = res_csv res /\ kept_csvCrc32 k = res_crc32 res.

(** ... and answers the claim of [r]. *)
Definition answersClaim (k : RetainedResult) (r : ResultRequest) : Prop :=
  goodRetained k /\ kept_filename k = rr_filename r /\ kept_fileSize k = rr_fileSize r /\ kept_uploadCrc32 k = rr_crc32 r.

Definition ackMsg (status : AckStatus.t) (n : Z) : bytes := encodeAck (mkAck status n).
Definition headerMsg (csv : bytes) (crc : Z) : bytes := encodeResultHeader (mkResultHeader (zlen csv) crc).

(** The refusals, with the number of payload bytes they report. *)
Inductive refused (rx : bytes) : AckStatus.t -> Z -> Prop :=
| refused_value : unintelligible rx -> refused rx AckStatus.ProtocolError 0
| refused_crc h data crc : uploaded rx h data crc -> crc <> Crc32.crc32 0 data -> refused rx AckStatus.CrcMismatch (zlen data)
| refused_claim r : requested rx r -> refused rx AckStatus.NoSuchResult 0
| refused_offset r k : requested rx r -> answersClaim k r -> zlen (kept_csv k) < rr_startOffset r ->
    refused rx AckStatus.ProtocolError 0.

(** The complete replies. *)
Inductive answered (rx : bytes) : list bytes -> Prop :=
| answered_upload h data res : uploaded rx h data (Crc32.crc32 0 data) -> uploadResult data res ->
    answered rx [ackMsg AckStatus.Ok (zlen data); headerMsg (res_csv res) (res_crc32 res); res_csv res]
| answered_end k r : requested rx r -> answersClaim k r -> rr_startOffset r = zlen (kept_csv k) ->
    answered rx [headerMsg (kept_csv k) (kept_csvCrc32 k)]
| answered_rest k r : requested rx r -> answersClaim k r -> 0 <= rr_startOffset r < zlen (kept_csv k) ->
    answered rx [headerMsg (kept_csv k) (kept_csvCrc32 k); zdrop (rr_startOffset r) (kept_csv k)].

(** What may have been written after reading [rx]: a complete reply, a refusal,
    or a reply cut at a message boundary. *)
Inductive conforms (rx : bytes) : list bytes -> Prop :=
| conf_none : conforms rx []
| conf_refused status n : refused rx status n -> conforms rx [ackMsg status n]
| conf_ack h data : fits data -> uploaded rx h data (Crc32.crc32 0 data) -> conforms rx [ackMsg AckStatus.Ok (zlen data)]
| conf_header h data res : uploaded rx h data (Crc32.crc32 0 data) -> uploadResult data res ->
    conforms rx [ackMsg AckStatus.Ok (zlen data); headerMsg (res_csv res) (res_crc32 res)]
| conf_again k r : requested rx r -> answersClaim k r -> 0 <= rr_startOffset r <= zlen (kept_csv k) ->
    conforms rx [headerMsg (kept_csv k) (kept_csvCrc32 k)]
| conf_answered wire : answered rx wire -> conforms rx wire.

(** ** Reading more never takes an answer back *)

Lemma uploaded_app rx d h data crc : uploaded rx h data crc -> uploaded (rx ++ d) h data crc.
Proof. intros (m & tr & rest & -> & H). exists m, tr, (rest ++ d). by rewrite <- !app_assoc. Qed.

Lemma requested_app rx d r : requested rx r -> requested (rx ++ d) r.
Proof. intros (m & rest & -> & H). exists m, (rest ++ d). by rewrite <- !app_assoc. Qed.

#[export] Hint Resolve uploaded_app requested_app : core.

Lemma answered_app rx d wire : answered rx wire -> answered (rx ++ d) wire.
Proof. destruct 1; [eapply answered_upload|eapply answered_end|eapply answered_rest]; eauto. Qed.

Lemma unintelligible_app rx d : unintelligible rx -> unintelligible (rx ++ d).
Proof. intros H d' msg rest Hv Ht. rewrite <- app_assoc. by apply H. Qed.

Lemma refused_app rx d status n : refused rx status n -> refused (rx ++ d) status n.
Proof.
  destruct 1; [apply refused_value; by apply unintelligible_app|eapply refused_crc|eapply refused_claim|eapply refused_offset]; eauto.
Qed.

Lemma conforms_app rx d wire : conforms rx wire -> conforms (rx ++ d) wire.
Proof.
  destruct 1; [apply conf_none|apply conf_refused, refused_app|eapply conf_ack|eapply conf_header|eapply conf_again|
    apply conf_answered, answered_app]; eauto.
Qed.

(** ** Framing and decoding agree on where a message ends *)

Lemma run_judge exp alt data : forall acc s acc',
  run exp alt acc data = (s, acc') -> s <> DecodeStatus.NeedMoreData -> judge exp alt acc' = inl s.
Proof.
  induction data as [|b data IH]; intros acc s acc'; cbn [run]; destruct (judge exp alt acc) as [s0|t] eqn:Hj.
  - by intros [= <- <-].
  - by intros [= <- <-].
  - by intros [= <- <-].
  - apply IH.
Qed.

Lemma judge_Ok_size exp alt acc :
  judge exp alt acc = inl DecodeStatus.Ok -> expectedMessageSize acc 0 = Ret (DecodeStatus.Ok, zlen acc).
Proof.
  unfold judge. destruct (expectedMessageSize acc 0) as [[s n]| |]; [|done..].
  destruct (Framer.isError s) eqn:Es; [by intros [= ->]|]. destruct (_ && _); [done|].
  case_bool_decide as E; [|destruct (_ <? kPreambleSize); cbv beta iota; by destruct (_ <=? _)].
  destruct (_ <? _); [done|]. destruct (Z.eqb_spec (zlen acc) n) as [->|]; [by rewrite E|]. by destruct (_ <=? _).
Qed.

Lemma encodes_framed exp alt t m msg :
  judge exp alt m = inl DecodeStatus.Ok -> decodeMessage t m = Ret (DecodeStatus.Ok, msg) -> encodes m msg /\ typeOf msg = t.
Proof.
  intros Hj Hd. apply judge_Ok_size in Hj. destruct (decodeMessage_sound _ _ _ Hd) as (Ht & Hv & r6 & r7 & tail & Em).
  split; [|done]. split; [done|]. exists r6, r7. subst t. rewrite Em in Hj |- *. rewrite expectedMessageSize_encoded in Hj by done.
  assert (Hz : 8 + zlen (body msg) = zlen (preambleWith (typeOf msg) r6 r7 ++ body msg ++ tail)) by congruence.
  rewrite !zlen_app, zlen_preambleWith in Hz. rewrite (zlen_0_inv tail) by lia. by rewrite app_nil_r.
Qed.

Lemma encodes_decode m msg rest : encodes m msg -> decodeMessage (typeOf msg) (m ++ rest) = Ret (DecodeStatus.Ok, msg).
Proof. intros (Hv & r6 & r7 & ->). rewrite <- app_assoc. by apply decodeMessage_encoded. Qed.

Lemma zlen_encodes m msg : encodes m msg -> zlen m = 8 + zlen (body msg).
Proof. intros (_ & r6 & r7 & ->). by rewrite zlen_app, zlen_preambleWith. Qed.

Lemma encodes_encode msg : validMessage msg -> encodes (encodeMessage msg) msg.
Proof. intros Hv. split; [done|]. exists Byte.x00, Byte.x00. apply encodeMessage_eq. Qed.

(** A stream starts with one message at most. *)
Lemma encodes_type m msg : encodes m msg -> nth_error m 5 = Some (z2b (MessageType.to_u8 (typeOf msg))).
Proof. intros (_ & r6 & r7 & ->). done. Qed.

Lemma encodes_unique m m' msg msg' rest rest' :
  encodes m msg -> encodes m' msg' -> m ++ rest = m' ++ rest' -> m = m' /\ msg = msg' /\ rest = rest'.
Proof.
  intros H H' E. assert (Et : typeOf msg = typeOf msg').
  { pose proof (encodes_type _ _ H) as T. pose proof (encodes_type _ _ H') as T'.
    pose proof (zlen_encodes _ _ H) as L. pose proof (zlen_encodes _ _ H') as L'.
    pose proof (zlen_nonneg (body msg)). pose proof (zlen_nonneg (body msg')).
    rewrite <- (nth_error_app1 m rest) in T by (unfold zlen in *; lia).
    rewrite <- (nth_error_app1 m' rest') in T' by (unfold zlen in *; lia). rewrite E, T' in T. injection T as T.
    destruct (typeOf msg), (typeOf msg'); try done; discriminate T. }
  pose proof (encodes_decode m msg rest H) as D. pose proof (encodes_decode m' msg' rest' H') as D'.
  rewrite E, Et, D' in D. injection D as <-. pose proof (zlen_encodes _ _ H). pose proof (zlen_encodes _ _ H').
  apply app_inj_1 in E as [-> ->]; [done|unfold zlen in *; lia].
Qed.

(** ** A framer part-way through a message *)

(** It has [acc] and needs more. *)
Definition listening (f : Framer.t) (exp alt : MessageType.t) (acc : bytes) : Prop :=
  framerWf f /\ Framer.status f = DecodeStatus.NeedMoreData /\ Framer.expected f = exp /\ Framer.alternate f = alt /\
  Framer.message f = acc /\ run exp alt [] acc = (DecodeStatus.NeedMoreData, acc).

Lemma run_need exp alt data : forall acc acc',
  run exp alt acc data = (DecodeStatus.NeedMoreData, acc') -> exists t, judge exp alt acc' = inr t.
Proof.
  induction data as [|b data IH]; intros acc acc'; cbn [run]; destruct (judge exp alt acc) as [s0|t] eqn:Hj.
  - intros [= -> ->]. by apply judge_inl in Hj.
  - intros [= <-]. eauto.
  - intros [= -> ->]. by apply judge_inl in Hj.
  - apply IH.
Qed.

Lemma listening_reset f exp : framerWf f -> listening (Framer.reset f exp) exp exp [].
Proof.
  intros Hf. split; [by apply reset_wf|]. do 3 (split; [done|]). split; [done|]. cbn [run]. by rewrite judge_short.
Qed.

Lemma run_prefix exp alt ext : forall acc rest s,
  run exp alt acc (ext ++ rest) = (s, acc ++ ext) -> s <> DecodeStatus.NeedMoreData ->
  run exp alt acc ext = (s, acc ++ ext).
Proof.
  induction ext as [|b ext IH]; intros acc rest s Hr Hs.
  - rewrite app_nil_r in *. apply run_judge in Hr; [|done]. cbn [run]. by rewrite Hr.
  - cbn [run app] in *. destruct (judge exp alt acc).
    + injection Hr as _ Hr. apply (f_equal length) in Hr. rewrite length_app in Hr. cbn in Hr. lia.
    + replace (acc ++ b :: ext) with ((acc ++ [b]) ++ ext) in * by (by rewrite <- app_assoc). by apply (IH _ rest).
Qed.

(** Feeding it: it goes on, or it has seen enough, whatever follows. *)
Lemma feed_listening f exp alt acc data :
  listening f exp alt acc ->
  exists f' st n, Framer.feed f data = Ret (f', (st, n)) /\ framerWf f' /\ 0 <= n <= zlen data /\
    if bool_decide (st = DecodeStatus.NeedMoreData) then n = zlen data /\ listening f' exp alt (acc ++ data)
    else 0 < n /\ Framer.message f' = acc ++ ztake n data /\ judge exp alt (acc ++ ztake n data) = inl st /\
         forall d, run exp alt [] (acc ++ ztake n data ++ d) = (st, acc ++ ztake n data).
Proof.
  intros (Hwf & Hs & <- & <- & Hm & Hr). destruct (feed_run f data Hwf Hs) as (ext & rest & st & -> & Hf & Hrun & Hsz & Hneed).
  rewrite Hm in Hrun. pose proof (zlen_nonneg ext). pose proof (zlen_nonneg rest).
  exists (accumulated f ext st), st, (zlen ext). split; [done|]. split; [by apply accumulated_wf|].
  split; [rewrite zlen_app; lia|]. rewrite ztake_length_app by done. case_bool_decide as Est.
  - rewrite (Hneed Est), app_nil_r in *. split; [done|]. subst st. split; [by apply accumulated_wf|]. do 3 (split; [done|]).
    rewrite message_accumulated by done. split; [by rewrite Hm|].
    rewrite (run_app _ _ _ _ _ _ _ Hr), bool_decide_eq_true_2 by done. exact Hrun.
  - rewrite message_accumulated, Hm by done. pose proof (run_judge _ _ _ _ _ _ Hrun Est) as Hj.
    split; [|split; [done|split; [done|]]].
    2:{ intros d. rewrite (run_app _ _ _ _ _ _ _ Hr), bool_decide_eq_true_2 by done.
        by rewrite (run_app _ _ _ _ _ _ _ (run_prefix _ _ _ _ _ _ Hrun Est)), bool_decide_eq_false_2 by done. }
    destruct (run_need _ _ _ _ _ Hr) as [t Ht].
    destruct (decide (zlen ext <= 0)) as [E|]; [|lia]. apply zlen_0_inv in E as ->. rewrite app_nil_r in Hj. congruence.
Qed.

(** Nothing an encoded message of an expected type starts with is refused. *)
Lemma run_unintelligible rx st m :
  (forall d, run MessageType.UploadHeader MessageType.ResultRequest [] (rx ++ d) = (st, m)) -> st <> DecodeStatus.Ok ->
  unintelligible rx.
Proof.
  intros Hr Hst d msg rest Hv Ht E. specialize (Hr d). rewrite E, run_encoded in Hr by done. congruence.
Qed.

(** Nor one whose fields are in range. *)
Lemma decode_other_type t t' r6 r7 l :
  t <> t' -> exists m, decodeMessage t' (preambleWith t r6 r7 ++ l) = Ret (DecodeStatus.BadType, m).
Proof.
  intros Ht. destruct t'; decode_unfold; rewrite checkPreamble_with, bool_decide_eq_false_2 by done; cbn; eauto.
Qed.

Lemma decode_unintelligible t rx m msg :
  (forall d, run MessageType.UploadHeader MessageType.ResultRequest [] (rx ++ d) = (DecodeStatus.Ok, m)) ->
  decodeMessage t m = Ret (DecodeStatus.BadValue, msg) -> unintelligible rx.
Proof.
  intros Hr Hd d msg' rest Hv Ht E. specialize (Hr d). rewrite E, run_encoded in Hr by done. injection Hr as <-.
  rewrite encodeMessage_eq in Hd. destruct (decide (typeOf msg' = t)) as [<-|Hne].
  - rewrite <- (app_nil_r (body msg')), decodeMessage_encoded in Hd by done. congruence.
  - destruct (decode_other_type _ _ Byte.x00 Byte.x00 (body msg') Hne) as [x Hx]. congruence.
Qed.

(** A trailer is never refused for its value. *)
Lemma judge_trailer acc :
  zlen acc <= kUploadTrailerSize ->
  match judge MessageType.UploadTrailer MessageType.UploadTrailer acc with
  | inl s => s <> DecodeStatus.BadValue
  | inr t => t <= kUploadTrailerSize
  end.
Proof.
  intros Hl. destruct (Z.ltb_spec (zlen acc) kPreambleSize) as [Hs|Hs]; [by rewrite judge_short|].
  unfold judge, expectedMessageSize. proto_consts. unfold kOffsetType in *. rewrite (proj2 (Z.ltb_ge (zlen acc) 8)) by lia.
  destruct (magicOk_Ret acc kMagic 0) as [b ->]; [lia|zlen_lia|]. rewrite !obind_Ret.
  destruct b; cbn [negb]; [|done]. rewrite !byteAt_Ret by lia. rewrite !obind_Ret. destruct (negb _); [done|].
  rewrite (proj2 (Z.leb_le 8 (zlen acc))) by lia. cbn [andb].
  set (ty := be (slice acc 5 1)). destruct (MessageType.of_u8 ty) as [[]|] eqn:Ety.
  all: try done; apply MessageType.to_of_u8 in Ety; rewrite Ety; try done.
  - by rewrite (proj2 (Z.ltb_lt (zlen acc) _)) by lia.
  - status_simpl. change (8 + 4) with 12. change (kFramerBufferSize <? 12) with false. cbn. destruct (Z.eqb_spec (zlen acc) 12); [done|].
    by rewrite (proj2 (Z.leb_gt 12 (zlen acc))) by lia.
  - by rewrite (proj2 (Z.ltb_lt (zlen acc) _)) by lia.
Qed.

Lemma run_trailer data : forall acc s acc',
  zlen acc <= kUploadTrailerSize -> run MessageType.UploadTrailer MessageType.UploadTrailer acc data = (s, acc') ->
  s <> DecodeStatus.BadValue.
Proof.
  induction data as [|b data IH]; intros acc s acc' Hl; cbn [run]; pose proof (judge_trailer acc Hl) as Ht;
    destruct (judge _ _ acc) as [s0|t] eqn:Hj; try (by intros [= <- _]).
  apply IH. apply judge_inr in Hj as [Hj _]. rewrite zlen_app. change (zlen [b]) with 1. lia.
Qed.

(** ** A stream says one thing *)

Lemma uploaded_unique rx h data crc h' data' crc' :
  uploaded rx h data crc -> uploaded rx h' data' crc' -> h' = h /\ data' = data /\ crc' = crc.
Proof.
  intros (m & tr & rest & -> & Hm & Hh & Ht) (m' & tr' & rest' & E & Hm' & Hh' & Ht').
  apply (encodes_unique _ _ _ _ _ _ Hm Hm') in E as (<- & [= <-] & E).
  apply app_inj_1 in E as [<- E]; [|unfold zlen in *; lia].
  by apply (encodes_unique _ _ _ _ _ _ Ht Ht') in E as (<- & [= <-] & _).
Qed.

Lemma uploaded_not_requested rx h data crc r : uploaded rx h data crc -> requested rx r -> False.
Proof.
  intros (m & tr & rest & -> & Hm & _) (m' & rest' & E & Hm').
  by apply (encodes_unique _ _ _ _ _ _ Hm Hm') in E as (_ & ? & _).
Qed.

(** The upload of [data] under [name], as a client that follows the protocol
    sends it. *)
Definition uploadStream (name data : bytes) : bytes :=
  encodeUploadHeader (mkUploadHeader (zlen data) name) ++ data ++
  encodeUploadTrailer (mkUploadTrailer (Crc32.crc32 0 data)).

Definition validUpload (name data : bytes) : Prop := zlen data <= kMaxFileSize /\ validFilename name.

Lemma validUpload_header name data :
  validUpload name data -> validMessage (MsgUploadHeader (mkUploadHeader (zlen data) name)).
Proof. intros [? ?]. pose proof (zlen_nonneg data). by split. Qed.

Lemma crc_trailer data : validMessage (MsgUploadTrailer (mkUploadTrailer (Crc32.crc32 0 data))).
Proof. cbn. by apply crc32_range. Qed.

Lemma uploadStream_uploaded name data :
  validUpload name data ->
  uploaded (uploadStream name data) (mkUploadHeader (zlen data) name) data (Crc32.crc32 0 data).
Proof.
  intros Hv. eexists _, _, []. rewrite app_nil_r. split; [reflexivity|]. split; [|split; [done|]].
  - apply (encodes_encode (MsgUploadHeader _)). by apply validUpload_header.
  - apply (encodes_encode (MsgUploadTrailer _)), crc_trailer.
Qed.

Lemma upload_not_refused name data status n :
  validUpload name data -> refused (uploadStream name data) status n -> False.
Proof.
  intros Hv Hr. pose proof (uploadStream_uploaded name data Hv) as Hu.
  destruct Hr as [Hun|h' data' crc' Hu' Hne|r Hreq|r k Hreq _ _].
  - apply (Hun [] (MsgUploadHeader (mkUploadHeader (zlen data) name)) (data ++ encodeUploadTrailer (mkUploadTrailer (Crc32.crc32 0 data))));
      [by apply validUpload_header|by left|]. by rewrite app_nil_r.
  - by destruct (uploaded_unique _ _ _ _ _ _ _ Hu Hu') as (-> & -> & ->).
  - by eapply uploaded_not_requested.
  - by eapply uploaded_not_requested.
Qed.
