(* ===== verification/SessionInv.v ===== *)
(** * What every session handler preserves

    The invariant ties a session to what it has read, to its parser thread and
    to its wire: how much of a header, a payload and a trailer the bytes read so
    far are, how many payload bytes were pushed and their CRC, which phase the
    parser is in, which replies have been written, and that whatever result the
    observer retains is the analysis of the upload it is filed under.  Every
    handler runs without undefined behaviour and keeps it; the one exception,
    data that follows the trailer while the result is being computed, is singled
    out. *)

From stdpp Require Import sets.
From S2P Require Import Prelude StringView Crc32 Protocol Codec Framer Ring Reassembler Analysis ParserThread Net Session Exchange.
Import SessionState Session.

(** What a session may assume of its observer. *)
Class RetainingObserver (Ob : Type) `{ISessionObserver Ob} := {
  retainedOf : Ob -> option RetainedResult;
  retainedOf_retained o k : retainedOf (onResultRetained o k) = Some k;
  retainedOf_finished o : retainedOf (onSessionFinished o) = retainedOf o;
  lookup_claim o name size crc k :
    lookupRetainedResult o name size crc = Some k ->
    retainedOf o = Some k /\ kept_filename k = name /\ kept_fileSize k = size /\ kept_uploadCrc32 k = crc }.

(** The payload received so far is what was pushed. *)
Definition payloadIs (s : Session.t) (sent : list bytes) : Prop :=
  receivedBytes s = zlen (concat sent) /\ payloadCrc s = Crc32.crc32 0 (concat sent) /\
  zlen (concat sent) <= fileSize s <= kMaxFileSize.

(** One refusal was written, with cause. *)
Definition refusedWire (rx : bytes) (wire : list bytes) : Prop :=
  exists status n, refused rx status n /\ wire = [ackMsg status n].

(** The header read, the payload so far, and the start of the trailer. *)
Definition uploading (rx : bytes) (s : Session.t) (sent : list bytes) : Prop :=
  exists m h acc, rx = m ++ concat sent ++ acc /\ encodes m (MsgUploadHeader h) /\ uh_fileSize h = fileSize s /\
    listening (framer s) MessageType.UploadTrailer MessageType.UploadTrailer acc /\
    (receivedBytes s < fileSize s -> acc = []).

(** What was read ([rx]), session state, wire and parser phase agree. *)
Definition stage (rx : bytes) (s : Session.t) (wire : list bytes) (ph : System.phase) (sent : list bytes) : Prop :=
  if cleanupStarted s then state s = Cleanup /\ ph = System.NoSession /\ conforms rx wire
  else
    match state s with
    | WaitHeader =>
        ph = System.Receiving /\ sent = [] /\ receivedBytes s = 0 /\ payloadCrc s = 0 /\
        if closeAfterSend s then refusedWire rx wire
        else wire = [] /\ listening (framer s) MessageType.UploadHeader MessageType.ResultRequest rx
    | Receiving =>
        ph = System.Receiving /\ payloadIs s sent /\ closeAfterSend s = false /\ wire = [] /\ uploading rx s sent
    | Verifying => ph = System.Receiving /\ payloadIs s sent /\ closeAfterSend s = true /\ refusedWire rx wire
    | Analyzing =>
        ph = System.Analyzing /\ payloadIs s sent /\ closeAfterSend s = false /\ receivedBytes s = fileSize s /\
        wire = [ackMsg AckStatus.Ok (receivedBytes s)] /\
        exists h, uploaded rx h (concat sent) (Crc32.crc32 0 (concat sent))
    | SendingResult | WaitDone =>
        (ph = System.Delivered \/ ph = System.Receiving) /\ closeAfterSend s = false /\ answered rx wire
    | Cleanup => False
    end.

Section Inv.
Context (uv : Uv) {Q : Type} `{HQ : ChunkQueue Q} {Ob : Type} `{HO : RetainingObserver Ob}.
Implicit Types w : world (Q := Q) (Ob := Ob).

Definition obsOk (o : Ob) : Prop := forall k, retainedOf o = Some k -> goodRetained k.

Definition wired (s : Session.t) : Prop :=
  hasParser s = true /\ hasObserver s = true /\ hasSocket s = true /\ framerWf (framer s).

(** The invariant; [c] and [tk] are the parser thread's position and history. *)
Definition winv (c : ParserThread.pc) tk (rx : bytes) w : Prop :=
  exists ph sent, ParserThread.Inv (System.mk (parser w) c ph sent tk) /\
    stage rx (sess w) (TcpSocket.wire (sock w)) ph sent /\ wired (sess w) /\ obsOk (observer w).

(** ** Total executions *)

Definition runs {A} (m : M A) w (P : world -> A -> Prop) : Prop := exists w' a, m w = Ret (w', a) /\ P w' a.

Lemma runs_ret {A} (a : A) w (P : world -> A -> Prop) : P w a -> runs (ret a) w P.
Proof. intros HP. by exists w, a. Qed.

Lemma runs_bind {A B} (m : M A) (k : A -> M B) w (P : world -> B -> Prop) :
  runs m w (fun w' a => runs (k a) w' P) -> runs (bind m k) w P.
Proof. intros (w1 & a & E & w2 & b & E2 & HP). exists w2, b. split; [|done]. unfold bind. by rewrite E. Qed.

Lemma runs_mono {A} (m : M A) w (P P' : world -> A -> Prop) :
  runs m w P -> (forall w' a, P w' a -> P' w' a) -> runs m w P'.
Proof. intros (w1 & a & E & HP) Hi. exists w1, a. split; [done|]. by apply Hi. Qed.

Lemma runs_and {A} (m : M A) w (P P' : world -> A -> Prop) :
  runs m w P -> runs m w P' -> runs m w (fun w' a => P w' a /\ P' w' a).
Proof. intros (w1 & a & E & HP) (w2 & b & E2 & HP'). rewrite E in E2. injection E2 as <- <-. by exists w1, a. Qed.

Lemma runs_get {A} (f : world -> A) w (P : world -> A -> Prop) : P w (f w) -> runs (get f) w P.
Proof. intros HP. by exists w, (f w). Qed.

Lemma runs_lift {A} (m : outcome A) a w (P : world -> A -> Prop) : m = Ret a -> P w a -> runs (lift m) w P.
Proof. intros -> HP. by exists w, a. Qed.

(** What flow control and timers may change. *)
Definition quiet w w' : Prop :=
  sess w' = sess w /\ TcpSocket.wire (sock w') = TcpSocket.wire (sock w) /\ observer w' = observer w /\
  (parser w' = parser w \/ exists b, parser w' = ParserThread.setReadStopped (parser w) b).

Lemma quiet_refl w : quiet w w.
Proof. split_and!; try done. by left. Qed.

Lemma quiet_trans w1 w2 w3 : quiet w1 w2 -> quiet w2 w3 -> quiet w1 w3.
Proof.
  intros (E1 & E2 & E3 & E4) (F1 & F2 & F3 & F4). split_and!; try congruence.
  destruct F4 as [->|[b ->]], E4 as [->|[b' ->]]; [by left|right; by exists b'|right; by exists b|right; by exists b].
Qed.

Lemma winv_quiet c tk rx w w' : winv c tk rx w -> quiet w w' -> winv c tk rx w'.
Proof.
  intros (ph & sent & Hi & Hst & Hw & Ho) (E1 & E2 & E3 & E4). exists ph, sent. rewrite E1, E2, E3.
  split_and!; try done. destruct E4 as [->|[b ->]]; [done|].
  apply (ParserThread.readStopped_Inv (System.mk (parser w) c ph sent tk) b Hi).
Qed.

Lemma runs_onSock f w (P : world -> Z -> Prop) :
  P (mkWorld (sess w) (f (sock w)).1 (timer w) (parser w) (observer w)) (f (sock w)).2 -> runs (onSock f) w P.
Proof. intros HP. unfold runs, onSock. destruct (f (sock w)) as [k rc]. by exists (mkWorld (sess w) k (timer w) (parser w) (observer w)), rc. Qed.

Lemma runs_modS f w (P : world -> unit -> Prop) :
  P (mkWorld (f (sess w)) (sock w) (timer w) (parser w) (observer w)) tt -> runs (modS f) w P.
Proof. intros HP. by eexists _, _. Qed.
Lemma runs_modP f w (P : world -> unit -> Prop) :
  P (mkWorld (sess w) (sock w) (timer w) (f (parser w)) (observer w)) tt -> runs (modP f) w P.
Proof. intros HP. by eexists _, _. Qed.
Lemma runs_modO f w (P : world -> unit -> Prop) :
  P (mkWorld (sess w) (sock w) (timer w) (parser w) (f (observer w))) tt -> runs (modO f) w P.
Proof. intros HP. by eexists _, _. Qed.
Lemma runs_modTimer f w (P : world -> unit -> Prop) :
  P (mkWorld (sess w) (sock w) (f (timer w)) (parser w) (observer w)) tt -> runs (modTimer f) w P.
Proof. intros HP. by eexists _, _. Qed.

(** Symbolic execution of the primitive operations. *)
Ltac mstep :=
  lazymatch goal with
  | |- runs (bind _ _) _ _ => apply runs_bind
  | |- runs (ret _) _ _ => apply runs_ret
  | |- runs (get _) _ _ => apply runs_get
  | |- runs (field _) _ _ => apply runs_get
  | |- runs isReading _ _ => apply runs_get
  | |- runs ringFull _ _ => apply runs_get
  | |- runs (modS _) _ _ => apply runs_modS
  | |- runs (modP _) _ _ => apply runs_modP
  | |- runs (modO _) _ _ => apply runs_modO
  | |- runs (modTimer _) _ _ => apply runs_modTimer
  | |- runs (onSock _) _ _ => apply runs_onSock
  end; cbn [sess sock timer parser observer fst snd].
Ltac msteps := cbn [negb]; repeat (mstep; cbn [negb]).

Lemma resumeReading_quiet w : runs (resumeReading uv) w (fun w' _ => quiet w w').
Proof.
  unfold resumeReading. msteps. destruct (_ || _ || _ || _); msteps; [apply quiet_refl|].
  destruct (_ && _ && _); msteps; [apply quiet_refl|]. split_and!; try done; cbn.
  - apply startRead_wire.
  - right. by eexists.
Qed.

Lemma applyBackpressure_quiet w : runs (applyBackpressure uv) w (fun w' _ => quiet w w').
Proof.
  unfold applyBackpressure. msteps. destruct (hasParser _); msteps; [|apply quiet_refl].
  destruct (_ && _); msteps; [|apply quiet_refl].
  match goal with |- runs _ ?w1 _ => assert (Hq : quiet w w1) end.
  { split_and!; try done; cbn; [apply stopRead_wire|]. right. by eexists. }
  destruct (qfull (ParserThread.ring (ParserThread.setReadStopped _ _))); msteps; [done|].
  eapply runs_mono; [apply resumeReading_quiet|]. intros w' []. by apply quiet_trans.
Qed.

Lemma armTimer_quiet w : runs (armTimer uv) w (fun w' _ => quiet w w').
Proof.
  unfold armTimer. msteps. destruct (_ =? _); msteps; (split_and!; try done; by left).
Qed.

(** ** Transitions *)

Definition withSess w (s : Session.t) : world := mkWorld s (sock w) (timer w) (parser w) (observer w).

Lemma transition_quiet next w :
  runs (transition uv next) w (fun w' _ => quiet (withSess w (setState (sess w) next)) w').
Proof.
  unfold transition. msteps. case_bool_decide as E; msteps.
  { rewrite <- E. destruct w as [[] k t p o]. apply quiet_refl. }
  apply runs_mono with (P := fun w' _ => quiet (withSess w (setState (sess w) next)) w'); [apply armTimer_quiet|].
  intros w1 [] Hq. destruct (_ && _); msteps; [|done]. eapply runs_mono; [apply resumeReading_quiet|].
  intros w' []. by apply quiet_trans.
Qed.

(** ** Ending a session *)

Lemma winv_conforms c tk rx w : winv c tk rx w -> conforms rx (TcpSocket.wire (sock w)).
Proof.
  intros (ph & sent & _ & Hst & _). unfold stage in Hst. destruct (cleanupStarted _); [tauto|].
  assert (Hre : refusedWire rx (TcpSocket.wire (sock w)) -> conforms rx (TcpSocket.wire (sock w))).
  { intros (status & n & Hr & ->). by apply conf_refused. }
  destruct (state _); try (by apply conf_answered; tauto); try tauto.
  - destruct Hst as (_ & _ & _ & _ & Hst). destruct (closeAfterSend _); [by apply Hre|]. destruct Hst as [-> _]. apply conf_none.
  - destruct Hst as (_ & _ & _ & -> & _). apply conf_none.
  - destruct Hst as (_ & (-> & _ & Hf) & _ & _ & -> & h & Hu). eapply conf_ack; [|exact Hu]. unfold fits. lia.
Qed.

(** Once the first message is dealt with, further bytes change nothing. *)
Definition ended (s : Session.t) : Prop := cleanupStarted s = true \/ closeAfterSend s = true.
Definition settled (s : Session.t) : Prop := ended s \/ state s <> WaitHeader /\ state s <> Receiving.

Lemma refusedWire_app rx d wire : refusedWire rx wire -> refusedWire (rx ++ d) wire.
Proof. intros (status & n & Hr & ->). exists status, n. split; [by apply refused_app|done]. Qed.

Lemma winv_app c tk rx d w : winv c tk rx w -> settled (sess w) -> winv c tk (rx ++ d) w.
Proof.
  intros (ph & sent & Hi & Hst & Hw & Hob) Hset. exists ph, sent. split; [done|]. split; [|done]. clear Hi Hw Hob.
  unfold stage, settled, ended in *. destruct (cleanupStarted (sess w)).
  { destruct Hst as (? & ? & ?). split_and!; try done. by apply conforms_app. }
  destruct (state (sess w)); try done.
  - destruct Hst as (? & ? & ? & ? & Hst). split_and!; try done.
    destruct (closeAfterSend (sess w)); [by apply refusedWire_app|]. naive_solver.
  - destruct Hst as (_ & _ & Hca & _). rewrite Hca in Hset. naive_solver.
  - destruct Hst as (? & ? & ? & ?). split_and!; try done. by apply refusedWire_app.
  - destruct Hst as (? & ? & ? & ? & ? & h & ?). split_and!; try done. exists h. by apply uploaded_app.
  - destruct Hst as (? & ? & ?). split_and!; try done. by apply answered_app.
  - destruct Hst as (? & ? & ?). split_and!; try done. by apply answered_app.
Qed.

(** A session that can be cleaned up without cutting an analysis short. *)
Definition closable c tk rx w : Prop :=
  exists ph sent, ParserThread.Inv (System.mk (parser w) c ph sent tk) /\ ph <> System.Analyzing /\
    conforms rx (TcpSocket.wire (sock w)) /\ wired (sess w) /\ obsOk (observer w) /\ cleanupStarted (sess w) = false.

Lemma cleanup_closable c tk rx reason w :
  closable c tk rx w -> runs (cleanup uv reason) w (fun w' _ => winv c tk rx w' /\ cleanupStarted (sess w') = true).
Proof.
  intros (ph & sent & Hi & Hph & Hc & (Hp & Ho & Hk & Hf) & Hob & Ecs).
  unfold cleanup. msteps. rewrite Ecs. msteps.
  change (hasParser _) with (hasParser (sess w)). rewrite Hp. msteps.
  change (hasSocket _) with (hasSocket (sess w)). rewrite Hk. msteps. split; [|done].
  exists System.NoSession, sent. cbn. split_and!; try done.
  - by apply (ParserThread.abort_Inv _ _ Hi).
  - by rewrite close_wire.
Qed.

Lemma winv_closable c tk rx w :
  winv c tk rx w -> state (sess w) <> Analyzing -> cleanupStarted (sess w) = false -> closable c tk rx w.
Proof.
  intros Hi Hna Ecs. pose proof (winv_conforms c tk rx w Hi) as Hc. destruct Hi as (ph & sent & Hi & Hst & Hw & Hob).
  exists ph, sent. split_and!; try done; try apply Hw. unfold stage in Hst. rewrite Ecs in Hst.
  intros ->. destruct (state (sess w)); naive_solver.
Qed.

Lemma cleanup_inv c tk rx reason w :
  winv c tk rx w -> state (sess w) <> Analyzing ->
  runs (cleanup uv reason) w (fun w' _ => winv c tk rx w' /\ cleanupStarted (sess w') = true).
Proof.
  intros Hi Hna. destruct (cleanupStarted (sess w)) eqn:Ecs; [|by apply cleanup_closable, winv_closable].
  unfold cleanup. msteps. rewrite Ecs. by msteps.
Qed.

(** Whatever the state, cleaning up is defined and leaves the reason behind. *)
Lemma cleanup_runs reason w :
  cleanupStarted (sess w) = false ->
  runs (cleanup uv reason) w (fun w' _ => cleanupStarted (sess w') = true /\ finishReason (sess w') = reason).
Proof.
  intros Ecs. unfold cleanup. msteps. rewrite Ecs. msteps. destruct (hasParser _); msteps; destruct (hasSocket _); by msteps.
Qed.

Lemma cleanup_observer reason w : runs (cleanup uv reason) w (fun w' _ => observer w' = observer w).
Proof.
  unfold cleanup. msteps. destruct (cleanupStarted _); msteps; [done|].
  destruct (hasParser _); msteps; destruct (hasSocket _); by msteps.
Qed.

(** A refusal can be written: nothing was, and the state is one that allows it. *)
Definition refusing c tk w (sent : list bytes) : Prop :=
  ParserThread.Inv (System.mk (parser w) c System.Receiving sent tk) /\ cleanupStarted (sess w) = false /\
  TcpSocket.wire (sock w) = [] /\ wired (sess w) /\ obsOk (observer w) /\
  (state (sess w) = WaitHeader /\ sent = [] /\ receivedBytes (sess w) = 0 /\ payloadCrc (sess w) = 0 \/
   state (sess w) = Verifying /\ payloadIs (sess w) sent).

Lemma refusing_closable c tk rx w sent : refusing c tk w sent -> closable c tk rx w.
Proof.
  intros (Hi & Hcs & Hwire & Hw & Hob & _). exists System.Receiving, sent. rewrite Hwire. split_and!; try done; [constructor|apply Hw..].
Qed.

Lemma failWithAck_inv c tk rx status reason w sent :
  refusing c tk w sent -> refused rx status (receivedBytes (sess w)) ->
  runs (failWithAck uv status reason) w (fun w' _ => winv c tk rx w' /\ ended (sess w')).
Proof.
  intros Hr Href. pose proof Hr as (Hi & Hcs & Hwire & Hw & Hob & Hstate). unfold failWithAck. msteps.
  pose proof (send_wire uv (sock w) (ackMsg status (receivedBytes (sess w)))) as Hsend. unfold ackMsg in *.
  destruct (Z.eqb_spec (TcpSocket.send uv (sock w) (encodeAck (mkAck status (receivedBytes (sess w))))).2 0); msteps.
  - split; [|by right]. exists System.Receiving, sent. split; [done|]. split; [|done]. cbn [sess sock].
    rewrite stopRead_wire, Hsend, Hwire. unfold stage. cbn. rewrite Hcs.
    assert (Hrw : refusedWire rx [encodeAck (mkAck status (receivedBytes (sess w)))]) by (by eexists _, _).
    destruct Hstate as [(-> & ? & ? & ?)|(-> & ?)]; by split_and!.
  - eapply runs_mono; [apply (cleanup_closable c tk rx)|intros w' [] [? ?]; split; [done|by left]].
    exists System.Receiving, sent. cbn [sess sock parser observer]. rewrite Hsend, Hwire.
    split_and!; try done; [constructor|apply Hw..].
Qed.

(** ** Framing *)

Lemma feedFramer_runs w data f r :
  Framer.feed (framer (sess w)) data = Ret (f, r) ->
  runs (feedFramer data) w (fun w' r' => r' = r /\ w' = withSess w (setFramer (sess w) f)).
Proof. intros E. unfold feedFramer. msteps. eapply runs_lift; [exact E|]. cbn beta. by msteps. Qed.

Lemma decodeUploadTrailer_Ret buf :
  exists s m, decodeUploadTrailer buf UploadTrailer0 = Ret (s, m) /\
    decodeMessage MessageType.UploadTrailer buf = Ret (s, MsgUploadTrailer m).
Proof.
  destruct (decodeMessage_Ret MessageType.UploadTrailer buf) as (s & m & E). pose proof E as E'. cbn [decodeMessage] in E.
  destruct (decodeUploadTrailer buf UploadTrailer0) as [[s' m']| |]; [|done..]. injection E as <- <-. by eauto.
Qed.

Lemma decodeUploadHeader_Ret buf :
  exists s m, decodeUploadHeader buf UploadHeader0 = Ret (s, m) /\
    decodeMessage MessageType.UploadHeader buf = Ret (s, MsgUploadHeader m).
Proof.
  destruct (decodeMessage_Ret MessageType.UploadHeader buf) as (s & m & E). pose proof E as E'. cbn [decodeMessage] in E.
  destruct (decodeUploadHeader buf UploadHeader0) as [[s' m']| |]; [|done..]. injection E as <- <-. by eauto.
Qed.

Lemma decodeResultRequest_Ret buf :
  exists s m, decodeResultRequest buf ResultRequest0 = Ret (s, m) /\
    decodeMessage MessageType.ResultRequest buf = Ret (s, MsgResultRequest m).
Proof.
  destruct (decodeMessage_Ret MessageType.ResultRequest buf) as (s & m & E). pose proof E as E'. cbn [decodeMessage] in E.
  destruct (decodeResultRequest buf ResultRequest0) as [[s' m']| |]; [|done..]. injection E as <- <-. by eauto.
Qed.

(** ** The trailer *)

Lemma winv_parts c tk rx w ph sent :
  ParserThread.Inv (System.mk (parser w) c ph sent tk) -> stage rx (sess w) (TcpSocket.wire (sock w)) ph sent ->
  wired (sess w) -> obsOk (observer w) -> winv c tk rx w.
Proof. intros. by exists ph, sent. Qed.

(** The parser keeps its invariant over quiet changes. *)
Lemma quiet_Inv c tk w w' ph sent :
  quiet w w' -> ParserThread.Inv (System.mk (parser w) c ph sent tk) ->
  ParserThread.Inv (System.mk (parser w') c ph sent tk).
Proof.
  intros (_ & _ & _ & [->|[b ->]]) Hi; [done|].
  apply (ParserThread.readStopped_Inv (System.mk (parser w) c ph sent tk) b Hi).
Qed.

(** The upload is acknowledged: from here on the parser owns the rest. *)
Lemma analyze_inv c tk rx w sent h :
  ParserThread.Inv (System.mk (parser w) c System.Receiving sent tk) -> payloadIs (sess w) sent ->
  cleanupStarted (sess w) = false -> closeAfterSend (sess w) = false -> receivedBytes (sess w) = fileSize (sess w) ->
  TcpSocket.wire (sock w) = [ackMsg AckStatus.Ok (receivedBytes (sess w))] -> wired (sess w) -> obsOk (observer w) ->
  uploaded rx h (concat sent) (Crc32.crc32 0 (concat sent)) ->
  runs (analyzeAndSendResult uv) w (fun w' _ => winv c tk rx w' /\ settled (sess w')).
Proof.
  intros Hi Hp Hcs Hca Hr Hwire Hw Hob Hu. unfold analyzeAndSendResult. mstep.
  eapply runs_mono; [apply transition_quiet|]. intros w1 [] Hq. pose proof Hq as (Es & Ew & Eo & _). cbn in Es, Ew, Eo.
  msteps. rewrite Es. change (hasParser _) with (hasParser (sess w)). destruct Hw as (Hhp & Hw). rewrite Hhp. msteps.
  split; [|right; by rewrite Es].
  apply (winv_parts c tk rx _ System.Analyzing sent); cbn [sess sock parser observer]; rewrite ?Es, ?Ew, ?Eo; try done.
  - assert (Hi1 : ParserThread.Inv (System.mk (parser w1) c System.Receiving sent tk)) by (by apply (quiet_Inv c tk _ _ _ _ Hq)).
    by apply (ParserThread.complete_Inv _ _ Hi1).
  - unfold stage. cbn. rewrite Hcs. split_and!; try done. by exists h.
Qed.

(** A session whose payload is complete and whose trailer is framed. *)
Lemma verifyAndAck_inv c tk rx w sent m h rest :
  ParserThread.Inv (System.mk (parser w) c System.Receiving sent tk) -> payloadIs (sess w) sent ->
  cleanupStarted (sess w) = false -> closeAfterSend (sess w) = false -> state (sess w) = Receiving ->
  receivedBytes (sess w) = fileSize (sess w) -> TcpSocket.wire (sock w) = [] -> wired (sess w) -> obsOk (observer w) ->
  encodes m (MsgUploadHeader h) -> uh_fileSize h = fileSize (sess w) ->
  judge MessageType.UploadTrailer MessageType.UploadTrailer (Framer.message (framer (sess w))) = inl DecodeStatus.Ok ->
  rx = m ++ concat sent ++ Framer.message (framer (sess w)) ++ rest ->
  runs (verifyAndAck uv) w (fun w' _ => winv c tk rx w' /\ settled (sess w')).
Proof.
  intros Hi Hp Hcs Hca Est Er Hwire Hw Hob Hm Hh Hj Erx. unfold verifyAndAck. mstep.
  eapply runs_mono; [apply transition_quiet|]. intros w1 [] Hq. pose proof Hq as (Es & Ew & Eo & _). cbn in Es, Ew, Eo.
  assert (Hr1 : refusing c tk w1 sent).
  { unfold refusing. rewrite Es, Ew, Eo. split_and!; try done; [by apply (quiet_Inv c tk _ _ _ _ Hq)|by right]. }
  pose proof (refusing_closable c tk rx w1 sent Hr1) as Hc1.
  msteps. destruct (decodeUploadTrailer_Ret (Framer.message (framer (sess w1)))) as (st & [crc] & E & Ed).
  eapply runs_lift; [exact E|]. cbn beta iota. case_bool_decide as Ho; msteps.
  2:{ eapply runs_mono; [by apply (cleanup_closable c tk rx)|]. intros ? [] [? ?]. split; [done|by left; left]. }
  subst st. rewrite Es in Ed. change (framer (setState _ _)) with (framer (sess w)) in Ed.
  destruct (encodes_framed _ _ _ _ _ Hj Ed) as [Htr _]. pose proof Hp as (Erb & Epc & _).
  assert (Hu : uploaded rx h (concat sent) crc).
  { exists m, (Framer.message (framer (sess w))), rest. split_and!; try done. lia. }
  rewrite Es. change (payloadCrc _) with (payloadCrc (sess w)). cbn [ut_crc32].
  destruct (Z.eqb_spec crc (payloadCrc (sess w))) as [Ecrc|Ecrc]; msteps.
  2:{ eapply runs_mono; [apply (failWithAck_inv c tk rx _ _ w1 sent Hr1)|intros w2 [] [? ?]; split; [done|by left]].
      rewrite Es. change (receivedBytes _) with (receivedBytes (sess w)). rewrite Erb. eapply refused_crc; [exact Hu|congruence]. }
  pose proof (send_wire uv (sock w1) (ackMsg AckStatus.Ok (receivedBytes (sess w1)))) as Hsend. unfold ackMsg in *.
  rewrite Es in Hsend |- *. change (receivedBytes _) with (receivedBytes (sess w)) in Hsend |- *.
  destruct (Z.eqb_spec (TcpSocket.send uv (sock w1) (encodeAck (mkAck AckStatus.Ok (receivedBytes (sess w))))).2 0) as [E0|]; msteps.
  - apply (analyze_inv c tk rx _ sent h); cbn [sess sock parser observer]; rewrite ?Es; try done.
    + by apply (quiet_Inv c tk _ _ _ _ Hq).
    + rewrite Hsend, Ew, Hwire. done.
    + by rewrite Eo.
    + congruence.
  - eapply runs_mono; [apply (cleanup_closable c tk rx)|intros ? [] [? ?]; split; [done|by left; left]].
    destruct Hc1 as (ph1 & sent1 & ? & ? & ? & ? & ? & ?). exists ph1, sent1. cbn [sess sock parser observer].
    rewrite Hsend, app_nil_r, <- Es. by split_and!.
Qed.

(** A session that waits for its trailer. *)
Definition trailing w : Prop :=
  cleanupStarted (sess w) = false /\ state (sess w) = Receiving /\ receivedBytes (sess w) = fileSize (sess w).

(** What a stage that took [n] of [data] leaves. *)
Definition took c tk rx (data : bytes) w' (n : Z) : Prop :=
  0 <= n <= zlen data /\
  (0 < n /\ winv c tk (rx ++ ztake n data) w' \/ ended (sess w') /\ winv c tk (rx ++ data) w').

Lemma took_all c tk rx data w' : data <> [] -> winv c tk (rx ++ data) w' -> took c tk rx data w' (zlen data).
Proof.
  intros Hne Hi. pose proof (zlen_nonneg data). split; [lia|]. left. rewrite ztake_all by lia. split; [|done].
  destruct (decide (zlen data <= 0)) as [E|]; [by apply zlen_0_inv in E|lia].
Qed.

Lemma took_ended c tk rx data w' : winv c tk (rx ++ data) w' -> ended (sess w') -> took c tk rx data w' 0.
Proof. intros Hi He. pose proof (zlen_nonneg data). split; [lia|]. by right. Qed.

Lemma consumeTrailer_inv c tk rx w data :
  winv c tk rx w -> trailing w -> data <> [] ->
  runs (consumeTrailer uv data) w (fun w' n => took c tk rx data w' n /\ winv c tk (rx ++ data) w').
Proof.
  intros (ph & sent & Hi & Hst & Hw & Hob) (Hcs & Est & Er) Hne. unfold stage in Hst. rewrite Hcs, Est in Hst.
  destruct Hst as (-> & Hp & Hca & Hwire & m & h & acc & -> & Hm & Hh & Hl & _).
  unfold consumeTrailer. mstep. pose proof Hl as (_ & _ & _ & _ & Hmsg & Hrun0).
  destruct (feed_listening _ _ _ _ data Hl) as (f & st & n & E & Hf & Hn & Hpost).
  eapply runs_mono; [by apply (feedFramer_runs _ _ _ _ E)|]. intros w1 r [-> ->]. cbn beta iota.
  set (w1 := withSess w (setFramer (sess w) f)). assert (Hw1 : wired (sess w1)) by (destruct Hw as (? & ? & ? & _); by split_and!).
  assert (Hc1 : closable c tk ((m ++ concat sent ++ acc) ++ data) w1).
  { exists System.Receiving, sent. cbn [sess sock parser observer w1 withSess]. rewrite Hwire.
    split_and!; try done; [constructor|apply Hw1..]. }
  case_bool_decide as Es.
  { subst st. destruct Hpost as [-> Hl']. msteps. assert (Hi1 : winv c tk ((m ++ concat sent ++ acc) ++ data) w1).
    { exists System.Receiving, sent. split; [done|]. split; [|done]. unfold stage. cbn. rewrite Hcs, Est. split_and!; try done.
      exists m, h, (acc ++ data). rewrite <- !app_assoc. split_and!; try done. cbn. lia. }
    split; [by apply took_all|done]. }
  destruct Hpost as (Hpos & Hmsg' & Hj & Hrun). destruct st; try done.
  - msteps. eapply runs_mono; [apply (verifyAndAck_inv c tk ((m ++ concat sent ++ acc) ++ ztake n data) w1 sent m h []); try done|].
    + change (framer (sess w1)) with f. by rewrite Hmsg'.
    + change (framer (sess w1)) with f. by rewrite Hmsg', app_nil_r, <- !app_assoc.
    + intros w2 [] [Hi2 Hs2]. msteps. split; [split; [lia|by left]|]. rewrite <- (ztake_zdrop n data) at 1.
      rewrite app_assoc. by apply winv_app.
  - msteps. eapply runs_mono; [by apply (cleanup_closable c tk)|]. intros w2 [] [? ?]. msteps. split; [apply took_ended; [done|by left]|done].
  - msteps. eapply runs_mono; [by apply (cleanup_closable c tk)|]. intros w2 [] [? ?]. msteps. split; [apply took_ended; [done|by left]|done].
  - msteps. eapply runs_mono; [by apply (cleanup_closable c tk)|]. intros w2 [] [? ?]. msteps. split; [apply took_ended; [done|by left]|done].
  - exfalso. specialize (Hrun []).
    by apply run_trailer in Hrun.
Qed.

(** ** The header *)

(** A session that has not received its first message. *)
Definition greeting w : Prop :=
  cleanupStarted (sess w) = false /\ closeAfterSend (sess w) = false /\ state (sess w) = WaitHeader.

Lemma greeting_parts c tk rx w :
  winv c tk rx w -> greeting w ->
  refusing c tk w [] /\ listening (framer (sess w)) MessageType.UploadHeader MessageType.ResultRequest rx.
Proof.
  intros (ph & sent & Hi & Hst & Hw & Hob) (Hcs & Hca & Est). unfold stage in Hst. rewrite Hcs, Est, Hca in Hst.
  destruct Hst as (-> & -> & ? & ? & ? & ?). split; [|done]. split_and!; try done. by left.
Qed.

(** A result is being sent and [wire] is written. *)
Definition sending c tk w (wire : list bytes) : Prop :=
  exists ph sent, ParserThread.Inv (System.mk (parser w) c ph sent tk) /\ (ph = System.Delivered \/ ph = System.Receiving) /\
    cleanupStarted (sess w) = false /\ closeAfterSend (sess w) = false /\ state (sess w) = SendingResult /\
    TcpSocket.wire (sock w) = wire /\ wired (sess w) /\ obsOk (observer w).

(** It is written completely. *)
Lemma sending_winv c tk rx w wire : sending c tk w wire -> answered rx wire -> winv c tk rx w /\ settled (sess w).
Proof.
  intros (ph & sent & ? & ? & Hcs & ? & Est & <- & ? & ?) ?. split; [|right; by rewrite Est].
  apply (winv_parts c tk rx w ph sent); try done. unfold stage. by rewrite Hcs, Est.
Qed.

(** A send of it may fail; what was written before conforms. *)
Lemma send_inv c tk rx w wire d reason (k : M unit) :
  sending c tk w wire -> conforms rx wire ->
  (forall w1, sending c tk w1 (wire ++ [d]) -> runs k w1 (fun w' _ => winv c tk rx w' /\ settled (sess w'))) ->
  runs (bind (onSock (fun k => TcpSocket.send uv k d)) (fun rc => if negb (rc =? 0) then cleanup uv reason else k)) w
    (fun w' _ => winv c tk rx w' /\ settled (sess w')).
Proof.
  intros (ph & sent & Hi & Hph & Hcs & Hca & Est & Hwire & Hw & Hob) Hc Hk. msteps.
  pose proof (send_wire uv (sock w) d) as W. destruct (Z.eqb_spec (TcpSocket.send uv (sock w) d).2 0); msteps.
  - apply Hk. exists ph, sent. cbn [sess sock parser observer]. rewrite W, Hwire. by split_and!.
  - eapply runs_mono; [apply (cleanup_closable c tk rx)|intros ? [] [? ?]; split; [done|by left; left]].
    exists ph, sent. cbn [sess sock parser observer]. rewrite W, app_nil_r, Hwire. split_and!; try done; try apply Hw.
    destruct Hph as [->| ->]; done.
Qed.

(** The framed request [r]. *)
Lemma handleResultRequest_inv c tk rx w :
  refusing c tk w [] -> closeAfterSend (sess w) = false -> state (sess w) = WaitHeader ->
  (forall d, run MessageType.UploadHeader MessageType.ResultRequest [] (rx ++ d) =
             (DecodeStatus.Ok, Framer.message (framer (sess w)))) ->
  (exists rest, rx = Framer.message (framer (sess w)) ++ rest) ->
  runs (handleResultRequest uv) w (fun w' _ => winv c tk rx w' /\ settled (sess w')).
Proof.
  intros Hr Hca Est Hrun [rest Erx]. pose proof Hr as (Hi & Hcs & Hwire & Hw & Hob & [(_ & _ & Hrb & _)|[? _]]); [|congruence].
  pose proof (refusing_closable c tk rx w [] Hr) as Hcl. set (msg := Framer.message (framer (sess w))) in *.
  assert (Hfail : forall status reason, refused rx status 0 ->
    runs (failWithAck uv status reason) w (fun w' _ => winv c tk rx w' /\ settled (sess w'))).
  { intros status reason Hre. eapply runs_mono; [apply (failWithAck_inv c tk rx _ _ w [] Hr)|intros w' [] [? ?]; split; [done|by left]].
    by rewrite Hrb. }
  assert (Hclose : forall reason, runs (cleanup uv reason) w (fun w' _ => winv c tk rx w' /\ settled (sess w'))).
  { intros reason. eapply runs_mono; [by apply (cleanup_closable c tk rx)|]. intros w' [] [? ?]. split; [done|by left; left]. }
  unfold handleResultRequest. msteps.
  destruct (decodeResultRequest_Ret (Framer.message (framer (sess w)))) as (st & request & E & Ed).
  eapply runs_lift; [exact E|]. cbn beta iota. destruct st; try (by apply Hclose).
  2:{ apply Hfail, refused_value. exact (decode_unintelligible _ _ _ _ Hrun Ed). }
  pose proof (run_judge _ _ _ _ _ _ (Hrun []) ltac:(done)) as Hj.
  destruct (encodes_framed _ _ _ _ _ Hj Ed) as [Hen _]. assert (Hreq : requested rx request) by (by exists msg, rest).
  assert (Hoff : 0 <= rr_startOffset request) by (destruct Hen as ((_ & _ & ? & _) & _); lia).
  msteps. assert (Hho : hasObserver (sess w) = true) by apply Hw. rewrite Hho.
  destruct (lookupRetainedResult _ _ _ _) as [kept|] eqn:El; [|by apply Hfail, (refused_claim _ request)].
  apply lookup_claim in El as (Hk & Hclaim). apply Hob in Hk. assert (Hans : answersClaim kept request) by done.
  destruct (Z.ltb_spec (zlen (kept_csv kept)) (rr_startOffset request)) as [|Hle]; [by apply Hfail, (refused_offset _ request kept)|].
  msteps. eapply runs_mono; [apply transition_quiet|]. intros w1 [] Hq. pose proof Hq as (Es & Ew & Eo & _).
  cbn in Es, Ew, Eo. apply (send_inv c tk rx w1 []); [|constructor|].
  { exists System.Receiving, []. rewrite Es, Ew, Eo. split_and!; try done; [by apply (quiet_Inv c tk _ _ _ _ Hq)|by right]. }
  intros w2 Hs2. cbn [app] in Hs2. case_bool_decide as Ebody.
  - mstep. apply (sending_winv c tk rx _ _ Hs2). apply (answered_end _ kept request Hreq Hans).
    apply (f_equal zlen) in Ebody. rewrite zlen_zdrop in Ebody by lia. change (zlen []) with 0 in Ebody. lia.
  - apply (send_inv c tk rx w2 _ _ _ _ Hs2); [by apply (conf_again _ kept request)|]. intros w3 Hs3. msteps.
    apply (sending_winv c tk rx _ _ Hs3). apply (answered_rest _ kept request Hreq Hans). split; [done|].
    destruct (Z.eq_dec (rr_startOffset request) (zlen (kept_csv kept))) as [E1|]; [|lia]. exfalso. apply Ebody, zlen_0_inv.
    rewrite zlen_zdrop by lia. lia.
Qed.

Lemma consumeHeader_inv c tk rx w data :
  winv c tk rx w -> greeting w -> data <> [] ->
  runs (consumeHeader uv data) w (took c tk rx data).
Proof.
  intros Hi Hg Hne. destruct (greeting_parts c tk rx w Hi Hg) as [Hr Hl]. destruct Hg as (_ & Hca & Est).
  unfold consumeHeader. mstep. destruct (feed_listening _ _ _ _ data Hl) as (f & st & n & E & Hf & Hn & Hpost).
  eapply runs_mono; [by apply (feedFramer_runs _ _ _ _ E)|]. intros w1 r [-> ->]. cbn beta iota.
  set (w1 := withSess w (setFramer (sess w) f)).
  assert (Hr1 : refusing c tk w1 []).
  { destruct Hr as (? & ? & ? & (? & ? & ? & _) & ? & ?). by split_and!. }
  pose proof Hr1 as (Hi1 & Hcs & Hwire & Hw & Hob & [(_ & _ & Hrb & Hpc)|[? _]]); [|cbn in *; congruence].
  assert (Hclose : forall reason, runs (bind (cleanup uv reason) (fun _ => ret 0)) w1 (took c tk rx data)).
  { intros reason. mstep. eapply runs_mono; [apply (cleanup_closable c tk (rx ++ data)); by apply (refusing_closable c tk _ w1 [])|].
    intros w2 [] [? ?]. msteps. apply took_ended; [done|by left]. }
  assert (Hfail : forall status reason, refused (rx ++ data) status 0 ->
    runs (bind (failWithAck uv status reason) (fun _ => ret 0)) w1 (took c tk rx data)).
  { intros status reason Hre. mstep. eapply runs_mono; [apply (failWithAck_inv c tk (rx ++ data) _ _ w1 [] Hr1); by rewrite Hrb|].
    intros w2 [] [? ?]. msteps. by apply took_ended. }
  case_bool_decide as Es.
  { subst st. destruct Hpost as [-> Hl']. msteps. apply took_all; [done|]. exists System.Receiving, []. split; [done|].
    split; [|done]. unfold stage. cbn in Hcs, Hrb, Hpc, Hwire |- *. by rewrite Hcs, Est, Hca. }
  destruct Hpost as (Hpos & Hmsg & Hj & Hrun).
  destruct st; try done; try (by apply Hclose).
  2:{ apply Hfail, refused_value. rewrite <- (ztake_zdrop n data), app_assoc. apply unintelligible_app.
      apply (run_unintelligible _ DecodeStatus.BadValue (rx ++ ztake n data)); [|done]. intros d. by rewrite <- app_assoc. }
  msteps. destruct (messageType_Ret f Hf) as [ty Ety]. eapply runs_lift; [exact Ety|]. cbn beta.
  destruct (Z.eqb_spec ty (MessageType.to_u8 MessageType.ResultRequest)) as [Hty|Hty]; msteps.
  { eapply runs_mono; [apply (handleResultRequest_inv c tk (rx ++ ztake n data) w1); try done|].
    - intros d. change (framer (sess w1)) with f. by rewrite Hmsg, <- app_assoc.
    - exists []. change (framer (sess w1)) with f. by rewrite Hmsg, app_nil_r.
    - intros w2 [] [? _]. msteps. split; [done|]. by left. }
  destruct (decodeUploadHeader_Ret (Framer.message f)) as (st & header & E1 & Ed).
  eapply runs_lift; [exact E1|]. cbn beta iota. destruct st; try (by apply Hclose).
  2:{ apply Hfail, refused_value. rewrite Hmsg in Ed. rewrite <- (ztake_zdrop n data), app_assoc. apply unintelligible_app.
      eapply decode_unintelligible; [|exact Ed]. intros d. by rewrite <- app_assoc. }
  rewrite Hmsg in Ed. destruct (encodes_framed _ _ _ _ _ Hj Ed) as [Hen _].
  msteps. eapply runs_mono; [apply transition_quiet|]. intros w2 [] Hq. msteps. split; [done|]. left. split; [done|].
  eapply winv_quiet; [|exact Hq]. pose proof Hen as ((Hsize & _) & _).
  apply (winv_parts c tk _ _ System.Receiving []); try done.
  - unfold stage. cbn in Hcs, Hrb, Hpc, Hwire |- *. rewrite Hcs. split; [done|]. split; [|split_and!; try done].
    + unfold payloadIs. cbn. rewrite Hrb, Hpc. change (zlen []) with 0. split; [done|]. split; [done|lia].
    + exists (rx ++ ztake n data), header, []. cbn. rewrite !app_nil_r. split_and!; try done. by apply listening_reset.
  - destruct Hw as (? & ? & ? & _). split_and!; try done. by apply reset_wf.
Qed.

(** ** The payload *)

Definition withParser w (p : ParserThread.t (Q := Q)) : world (Q := Q) (Ob := Ob) := mkWorld (sess w) (sock w) (timer w) p (observer w).

Lemma pushSlot_inv c tk w sent d :
  ParserThread.Inv (System.mk (parser w) c System.Receiving sent tk) ->
  qroom (ParserThread.ring (parser w)) 1 -> zlen d <= chunkCapacity (ParserThread.ring (parser w)) ->
  zlen (concat (sent ++ [d])) <= kMaxFileSize ->
  runs (pushSlot d) w (fun w' ok =>
    if ok then exists p, w' = withParser w p /\ ParserThread.Inv (System.mk p c System.Receiving (sent ++ [d]) tk) /\
                 chunkCapacity (ParserThread.ring p) = chunkCapacity (ParserThread.ring (parser w)) /\
                 forall n, qroom (ParserThread.ring (parser w)) (n + 1) -> qroom (ParserThread.ring p) n
    else w' = w /\ qfull (ParserThread.ring (parser w)) = true).
Proof.
  intros Hi Hr Hd Hz. pose proof Hi as (q & Hq & _). cbn [System.thread] in Hq.
  pose proof (qpush_queued _ q d Hq Hr Hd) as Hp. unfold runs, pushSlot, ParserThread.pushSlot.
  destruct (qfull _); [rewrite Hp; by eexists _, false|]. destruct Hp as (r' & E & Hq' & Hc & Hroom).
  rewrite E. cbn [obind]. eexists _, true. split; [done|]. eexists. split; [done|]. split; [|done].
  apply (ParserThread.push_Inv _ d _ Hi Hr). cbn [System.fire System.ph System.thread System.sent System.at_ System.taken].
  rewrite bool_decide_eq_true_2 by done. apply Z.leb_le in Hd, Hz. rewrite Hd, Hz. cbn [andb].
  unfold ParserThread.pushSlot. by rewrite E.
Qed.

Lemma Inv_capacity c ph sent tk (p : ParserThread.t (Q := Q)) :
  ParserThread.Inv (System.mk p c ph sent tk) -> 0 < chunkCapacity (ParserThread.ring p).
Proof. intros (q & Hq & _). by eapply qcapacity_pos. Qed.

(** The copy loop pushes the rest of the payload, or the session is cut. *)
Lemma copyLoop_inv c tk rx payload take fuel : forall w copied sent,
  ParserThread.Inv (System.mk (parser w) c System.Receiving sent tk) ->
  conforms rx (TcpSocket.wire (sock w)) -> wired (sess w) -> obsOk (observer w) -> cleanupStarted (sess w) = false ->
  0 <= copied <= take -> take = zlen payload -> take - copied < Z.of_nat fuel ->
  qroom (ParserThread.ring (parser w)) (take - copied) -> zlen (concat sent) + (take - copied) <= kMaxFileSize ->
  runs (copyLoop uv fuel payload copied take) w (fun w' ok =>
    if ok then exists p sent', w' = withParser w p /\ ParserThread.Inv (System.mk p c System.Receiving sent' tk) /\
                 concat sent' = concat sent ++ zdrop copied payload /\
                 forall n, qroom (ParserThread.ring (parser w)) (n + (take - copied)) -> qroom (ParserThread.ring p) n
    else winv c tk rx w' /\ cleanupStarted (sess w') = true).
Proof.
  induction fuel as [|fuel IH]; intros w copied sent Hi Hc Hw Hob Hcs Hle Et Hfuel Hroom Hmax; [lia|].
  cbn [copyLoop]. destruct (Z.ltb_spec copied take).
  2:{ mstep. exists (parser w), sent. split; [by destruct w|]. split; [done|]. split.
      - unfold zdrop. rewrite drop_ge, app_nil_r; [done|unfold zlen in *; lia].
      - intros n. by replace (n + (take - copied)) with n by lia. }
  pose proof (Inv_capacity _ _ _ _ _ Hi) as Hcap. msteps. destruct Hw as (Hp & Hw'). rewrite Hp.
  set (chunk := Z.min _ _). assert (Hck : 0 < chunk <= take - copied) by lia.
  assert (Hsl : zlen (slice payload copied chunk) = chunk) by (apply zlen_slice; lia).
  eapply runs_lift; [apply copyN_Ret; lia|]. mstep.
  eapply runs_mono; [apply (pushSlot_inv c tk w sent)|]; try done.
  - eapply qroom_le; [exact Hroom|lia].
  - rewrite Hsl. lia.
  - rewrite concat_app, zlen_app. cbn [concat]. rewrite app_nil_r, Hsl. lia.
  - intros w1 [].
    2:{ intros [-> _]. msteps. eapply runs_mono; [apply (cleanup_closable c tk rx)|intros w2 [] [? ?]; by msteps].
        exists System.Receiving, sent. by split_and!. }
    intros (p & -> & Hi1 & Hcap1 & Hroom1). msteps.
    eapply runs_mono; [apply (IH (withParser w p) (copied + chunk) (sent ++ [slice payload copied chunk])); try done; cbn [parser withParser]; try lia|].
    + apply Hroom1. eapply qroom_le; [exact Hroom|lia].
    + rewrite concat_app, zlen_app. cbn [concat]. rewrite app_nil_r, Hsl. lia.
    + intros w2 [] Hpost; [|done]. destruct Hpost as (p2 & sent2 & -> & Hi2 & Es & Hr2). exists p2, sent2.
      split; [done|]. split; [done|]. split.
      * rewrite Es, concat_app, <- app_assoc. f_equal. cbn [concat]. rewrite app_nil_r.
        unfold slice. rewrite <- zdrop_zdrop by lia. apply ztake_zdrop.
      * intros n Hn. apply Hr2, Hroom1. eapply qroom_le; [exact Hn|lia].
Qed.

(** A session in the middle of its payload. *)
Definition receiving w : Prop :=
  cleanupStarted (sess w) = false /\ closeAfterSend (sess w) = false /\ state (sess w) = Receiving /\
  receivedBytes (sess w) < fileSize (sess w).

(** The header was read, then the payload so far. *)
Definition inPayload (rx : bytes) (s : Session.t) (sent : list bytes) : Prop :=
  exists m h, rx = m ++ concat sent /\ encodes m (MsgUploadHeader h) /\ uh_fileSize h = fileSize s /\
    listening (framer s) MessageType.UploadTrailer MessageType.UploadTrailer [].

Lemma inPayload_more rx s sent sent' d :
  inPayload rx s sent -> concat sent' = concat sent ++ d -> inPayload (rx ++ d) s sent'.
Proof. intros (m & h & -> & ?) E. exists m, h. by rewrite E, app_assoc. Qed.

Lemma receiving_parts c tk rx w :
  winv c tk rx w -> receiving w ->
  exists sent, ParserThread.Inv (System.mk (parser w) c System.Receiving sent tk) /\ payloadIs (sess w) sent /\
    TcpSocket.wire (sock w) = [] /\ wired (sess w) /\ obsOk (observer w) /\ inPayload rx (sess w) sent.
Proof.
  intros (ph & sent & Hi & Hst & Hw & Hob) (Hcs & Hca & Est & Hlt). unfold stage in Hst.
  rewrite Hcs, Est in Hst. destruct Hst as (-> & Hp & _ & Hwire & m & h & acc & -> & Hm & Hh & Hl & Hacc).
  rewrite (Hacc Hlt), app_nil_r in *. exists sent. split_and!; try done. by exists m, h.
Qed.

(** The session after [takePayload]. *)
Definition tookPayload (s : Session.t) (data : bytes) : Session.t :=
  let take := Z.min (u64 (fileSize s - receivedBytes s)) (zlen data) in
  setReceived s (u64 (receivedBytes s + take)) (Crc32.crc32 (payloadCrc s) (ztake take data)).

Lemma takePayload_spec w data sent :
  payloadIs (sess w) sent ->
  let take := Z.min (fileSize (sess w) - receivedBytes (sess w)) (zlen data) in
  runs (takePayload data) w (fun w' n => n = take /\ w' = withSess w (tookPayload (sess w) data)) /\
  0 <= take <= zlen data /\ zlen (concat sent) + take <= fileSize (sess w) <= kMaxFileSize /\
  forall sent', concat sent' = concat sent ++ ztake take data -> payloadIs (tookPayload (sess w) data) sent'.
Proof.
  intros (Er & Ec & Hle). pose proof (zlen_nonneg data). pose proof (zlen_nonneg (concat sent)). cbn zeta.
  assert (Hu : u64 (fileSize (sess w) - receivedBytes (sess w)) = fileSize (sess w) - receivedBytes (sess w)).
  { apply uwrap_small. unfold is_uint, kMaxFileSize in *. lia. }
  split; [|split; [lia|split; [lia|]]].
  - unfold takePayload, tookPayload. msteps. by rewrite Hu.
  - intros sent' Es. unfold payloadIs, tookPayload. cbn -[Z.min]. rewrite Hu, Es, zlen_app, zlen_ztake by lia.
    rewrite (uwrap_small 64) by (unfold is_uint, kMaxFileSize in *; lia).
    split; [lia|]. split; [rewrite Ec; apply crc32_app|lia].
Qed.


(** Only a push changes the ring. *)
Definition keepsRing {A} (m : M A) : Prop :=
  forall w w' a, m w = Ret (w', a) -> ParserThread.ring (parser w') = ParserThread.ring (parser w).

Lemma ring_bind {A B} (m : M A) (k : A -> M B) : keepsRing m -> (forall a, keepsRing (k a)) -> keepsRing (bind m k).
Proof.
  intros Hm Hk w w' b. unfold bind. destruct (m w) as [[w1 a]| |] eqn:E; try done. cbn [obind fst snd].
  intros E2. by rewrite (Hk _ _ _ _ E2), (Hm _ _ _ E).
Qed.
Lemma ring_ret {A} (a : A) : keepsRing (ret a).
Proof. by intros w w' b [= <- _]. Qed.
Lemma ring_get {A} (f : world -> A) : keepsRing (get f).
Proof. by intros w w' b [= <- _]. Qed.
Lemma ring_modS f : keepsRing (modS f).
Proof. by intros w w' b [= <- _]. Qed.
Lemma ring_modO f : keepsRing (modO f).
Proof. by intros w w' b [= <- _]. Qed.
Lemma ring_modTimer f : keepsRing (modTimer f).
Proof. by intros w w' b [= <- _]. Qed.
Lemma ring_modP f : (forall p, ParserThread.ring (f p) = ParserThread.ring p) -> keepsRing (modP f).
Proof. intros Hf w w' b [= <- _]. apply Hf. Qed.
Lemma ring_onSock f : keepsRing (onSock f).
Proof. intros w w' b. unfold onSock. destruct (f (sock w)). by intros [= <- _]. Qed.
Lemma ring_lift {A} (m : outcome A) : keepsRing (lift m).
Proof. intros w w' b. unfold lift. destruct m; try done. by intros [= <- _]. Qed.

Ltac keeps_step :=
  lazymatch goal with
  | |- keepsRing (bind _ _) => apply ring_bind; [|intros ?]
  | |- keepsRing (ret _) => apply ring_ret
  | |- keepsRing (get _) => apply ring_get
  | |- keepsRing (field _) => apply ring_get
  | |- keepsRing isReading => apply ring_get
  | |- keepsRing ringFull => apply ring_get
  | |- keepsRing (modS _) => apply ring_modS
  | |- keepsRing (modO _) => apply ring_modO
  | |- keepsRing (modTimer _) => apply ring_modTimer
  | |- keepsRing (modP _) => by apply ring_modP
  | |- keepsRing (onSock _) => apply ring_onSock
  | |- keepsRing (lift _) => apply ring_lift
  | |- keepsRing (if ?b then _ else _) => destruct b
  | |- keepsRing (match ?x with _ => _ end) => destruct x
  end.
Ltac keeps := repeat (keeps_step || done).

Lemma cleanup_keeps reason : keepsRing (cleanup uv reason).
Proof. unfold cleanup. keeps. Qed.
Lemma failWithAck_keeps status reason : keepsRing (failWithAck uv status reason).
Proof. unfold failWithAck. keeps. apply cleanup_keeps. Qed.
Lemma resumeReading_keeps : keepsRing (resumeReading uv).
Proof. unfold resumeReading. keeps. Qed.
Lemma applyBackpressure_keeps : keepsRing (applyBackpressure uv).
Proof. unfold applyBackpressure. keeps. apply resumeReading_keeps. Qed.
Lemma transition_keeps next : keepsRing (transition uv next).
Proof. unfold transition, armTimer. keeps. apply resumeReading_keeps. Qed.
Lemma feedFramer_keeps data : keepsRing (feedFramer data).
Proof. unfold feedFramer. keeps. Qed.

Lemma handleResultRequest_keeps : keepsRing (handleResultRequest uv).
Proof.
  unfold handleResultRequest, closeSilently.
  keeps; first [apply cleanup_keeps|apply failWithAck_keeps|apply transition_keeps].
Qed.

Lemma consumeHeader_keeps data : keepsRing (consumeHeader uv data).
Proof.
  unfold consumeHeader, closeSilently. keeps;
    first [apply cleanup_keeps|apply failWithAck_keeps|apply transition_keeps|apply feedFramer_keeps|apply handleResultRequest_keeps].
Qed.

Lemma consumeTrailer_keeps data : keepsRing (consumeTrailer uv data).
Proof.
  unfold consumeTrailer, verifyAndAck, analyzeAndSendResult, closeSilently. keeps;
    first [apply cleanup_keeps|apply failWithAck_keeps|apply transition_keeps|apply feedFramer_keeps].
Qed.

Lemma consumeDone_keeps data : keepsRing (consumeDone uv data).
Proof. unfold consumeDone, closeSilently. keeps; first [apply cleanup_keeps|apply feedFramer_keeps]. Qed.

Lemma runs_keeps {A} (m : M A) w (P : world -> A -> Prop) :
  runs m w P -> keepsRing m ->
  runs m w (fun w' a => P w' a /\ ParserThread.ring (parser w') = ParserThread.ring (parser w)).
Proof. intros (w' & a & E & HP) Hk. exists w', a. split; [done|]. split; [done|]. by eapply Hk. Qed.

Lemma quiet_ring w w' : quiet w w' -> ParserThread.ring (parser w') = ParserThread.ring (parser w).
Proof. by intros (_ & _ & _ & [->|[b ->]]). Qed.

(** A payload that was pushed is accounted for. *)
Lemma winv_pushed c tk rx w data sent p :
  payloadIs (tookPayload (sess w) data) sent -> ParserThread.Inv (System.mk p c System.Receiving sent tk) ->
  cleanupStarted (sess w) = false -> closeAfterSend (sess w) = false -> state (sess w) = Receiving ->
  TcpSocket.wire (sock w) = [] -> wired (sess w) -> obsOk (observer w) -> inPayload rx (sess w) sent ->
  winv c tk rx (withParser (withSess w (tookPayload (sess w) data)) p).
Proof.
  intros Hp Hi Hcs Hca Est Hwire Hw Hob (m & h & -> & Hm & Hh & Hl). apply (winv_parts c tk _ _ System.Receiving sent); try done.
  unfold stage. cbn -[tookPayload]. unfold tookPayload at 1 2 4. cbn. rewrite Hcs, Est. split_and!; try done.
  exists m, h, []. by rewrite app_nil_r.
Qed.

Lemma consumePayload_inv c tk rx w data :
  winv c tk rx w -> receiving w -> data <> [] -> qroom (ParserThread.ring (parser w)) (zlen data) ->
  runs (consumePayload uv data) w (fun w' n => took c tk rx data w' n /\
    (n <> 0 -> qroom (ParserThread.ring (parser w')) (zlen data - n))).
Proof.
  intros Hi Hr Hne Hroom. destruct (receiving_parts c tk rx w Hi Hr) as (sent & Hi1 & Hp & Hwire & Hw & Hob & Hin).
  destruct Hr as (Hcs & Hca & Est & Hlt). unfold consumePayload. mstep.
  assert (Hz : 0 < zlen data) by (destruct (decide (zlen data <= 0)) as [E|]; [by apply zlen_0_inv in E|lia]).
  destruct (takePayload_spec w data sent Hp) as (Ht & Hn & Hmax & Hp'). cbn zeta in *.
  assert (Hpos : 0 < Z.min (fileSize (sess w) - receivedBytes (sess w)) (zlen data)) by lia.
  set (take := Z.min _ _) in *. clearbody take.
  eapply runs_mono; [exact Ht|]. intros w1 n [-> ->]. mstep.
  assert (Ez : take = zlen (ztake take data)) by (rewrite zlen_ztake by lia; lia).
  eapply runs_mono; [apply (copyLoop_inv c tk (rx ++ data) _ _ _ _ _ sent); cbn [sess sock parser observer withSess]; try done; try lia|].
  - rewrite Hwire. constructor.
  - unfold zlen in *. lia.
  - eapply qroom_le; [exact Hroom|lia].
  - intros w2 [] Hpost; msteps; [|destruct Hpost as [? ?]; split; [by apply took_ended; [|left]|done]].
    destruct Hpost as (p & sent' & -> & Hi2 & Es & Hroom2). rewrite zdrop_0 in Es.
    eapply runs_mono; [apply applyBackpressure_quiet|]. intros w3 [] Hq. msteps. split.
    + split; [done|]. left. split; [done|]. eapply winv_quiet; [|exact Hq].
      apply (winv_pushed c tk (rx ++ ztake take data) w data sent' p (Hp' _ Es)); try done. by apply (inPayload_more _ _ sent).
    + intros _. rewrite (quiet_ring _ _ Hq). cbn [parser withParser]. apply Hroom2. eapply qroom_le; [exact Hroom|lia].
Qed.

(** ** Reading *)

Lemma winv_framer_done c tk rx w f :
  winv c tk rx w -> state (sess w) = WaitDone -> cleanupStarted (sess w) = false -> framerWf f ->
  winv c tk rx (withSess w (setFramer (sess w) f)).
Proof.
  intros (ph & sent & Hi & Hst & (? & ? & ? & _) & Hob) Est Hcs Hf. exists ph, sent. split_and!; try done.
  unfold stage in *. cbn. by rewrite Hcs, Est in *.
Qed.

Lemma consumeDone_inv c tk rx w data :
  winv c tk rx w -> cleanupStarted (sess w) = false -> state (sess w) = WaitDone -> data <> [] ->
  runs (consumeDone uv data) w (took c tk rx data).
Proof.
  intros Hi Hcs Est Hne. unfold consumeDone. mstep. assert (Hw : wired (sess w)) by (by destruct Hi as (? & ? & _ & _ & ? & _)).
  destruct (feed_safe (framer (sess w)) data ltac:(apply Hw)) as (f & st & n & E & Hf & Hn & _ & _ & Hall).
  eapply runs_mono; [by apply (feedFramer_runs _ _ _ _ E)|]. intros w1 r [-> ->]. cbn beta iota.
  assert (Hi1 : winv c tk (rx ++ data) (withSess w (setFramer (sess w) f))).
  { apply winv_app; [by apply winv_framer_done|]. right. cbn. by rewrite Est. }
  assert (Hna : state (sess (withSess w (setFramer (sess w) f))) <> Analyzing) by (cbn; by rewrite Est).
  destruct st; msteps; [|by rewrite (Hall eq_refl); apply took_all|..];
    (eapply runs_mono; [by apply (cleanup_inv c tk)|]; intros w2 [] [? ?]; msteps;
     first [split; [done|]; right; split; [by left|done] | apply took_ended; [done|by left]]).
Qed.

(** Data arrived while the result was being computed: the one way a session is
    cut in [Analyzing] from inside a read. *)
Definition cutReading (s : Session.t) : Prop :=
  cleanupStarted s = true /\ finishReason s = bs "unexpected data in " ++ stateName Analyzing.

Lemma consume_inv c tk rx w data :
  winv c tk rx w -> ~ ended (sess w) -> data <> [] -> qroom (ParserThread.ring (parser w)) (zlen data) ->
  runs (consume uv data) w (fun w' r =>
    match r with
    | Some n => took c tk rx data w' n /\ (n <> 0 -> qroom (ParserThread.ring (parser w')) (zlen data - n))
    | None => winv c tk (rx ++ data) w' \/ cutReading (sess w')
    end).
Proof.
  intros Hi Hend Hne Hroom. unfold consume. msteps. unfold ended in Hend.
  destruct (cleanupStarted (sess w)) eqn:Hcs; [tauto|]. destruct (closeAfterSend (sess w)) eqn:Hca; [tauto|]. clear Hend.
  assert (Hkeep : forall (m : M Z), runs m w (took c tk rx data) -> keepsRing m ->
    runs m w (fun w' n => took c tk rx data w' n /\ (n <> 0 -> qroom (ParserThread.ring (parser w')) (zlen data - n)))).
  { intros m Hm Hk. eapply runs_mono; [by apply runs_keeps|]. intros w' n (Ht & E). split; [done|].
    intros _. rewrite E. eapply qroom_le; [exact Hroom|]. destruct Ht. lia. }
  assert (Hother : forall reason, state (sess w) <> WaitHeader -> state (sess w) <> Receiving -> state (sess w) <> Analyzing ->
    runs (cleanup uv reason) w (fun w' _ => winv c tk (rx ++ data) w')).
  { intros reason H1 H2 H3. eapply runs_mono; [apply (cleanup_inv c tk rx _ w Hi H3)|]. intros w' [] [? ?].
    apply winv_app; [done|]. by left; left. }
  destruct (state (sess w)) eqn:Est; msteps.
  - eapply runs_mono; [apply Hkeep; [by apply (consumeHeader_inv c tk rx)|apply consumeHeader_keeps]|]. intros w' n ?. by msteps.
  - destruct (Z.ltb_spec (receivedBytes (sess w)) (fileSize (sess w))).
    + eapply runs_mono; [by apply (consumePayload_inv c tk rx)|]. intros w' n ?. by msteps.
    + eapply runs_mono; [apply Hkeep; [eapply runs_mono; [apply (consumeTrailer_inv c tk rx w data Hi)|by intros ? ? [? _]]|apply consumeTrailer_keeps]|].
      * destruct Hi as (ph & sent & _ & Hst & _). unfold stage in Hst. rewrite Hcs, Est in Hst.
        destruct Hst as (_ & (Er & _ & ?) & _). split_and!; try done. lia.
      * done.
      * intros w' n ?. by msteps.
  - eapply runs_mono; [by apply Hother|]. intros w' [] ?. msteps. by left.
  - eapply runs_mono; [by apply cleanup_runs|]. intros w' [] [? E]. msteps. right. by split.
  - eapply runs_mono; [by apply Hother|]. intros w' [] ?. msteps. by left.
  - eapply runs_mono; [apply Hkeep; [by apply (consumeDone_inv c tk rx)|apply consumeDone_keeps]|]. intros w' n ?. by msteps.
  - eapply runs_mono; [by apply Hother|]. intros w' [] ?. msteps. by left.
Qed.

Lemma readLoop_inv c tk fuel : forall rx w data,
  winv c tk rx w -> qroom (ParserThread.ring (parser w)) (zlen data) -> (length data < fuel)%nat ->
  runs (readLoop uv fuel data) w (fun w' _ => winv c tk (rx ++ data) w' \/ cutReading (sess w')).
Proof.
  induction fuel as [|fuel IH]; intros rx w data Hi Hroom Hfuel; [lia|]. cbn [readLoop]. msteps.
  destruct (bool_decide_reflect (data = [])) as [->|Hne]; cbn [orb]; msteps; [left; by rewrite app_nil_r|].
  destruct (cleanupStarted (sess w)) eqn:Hcs; cbn [orb]; msteps; [left; apply winv_app; [done|by left; left]|].
  destruct (closeAfterSend (sess w)) eqn:Hca; msteps; [left; apply winv_app; [done|by left; right]|].
  eapply runs_mono; [apply (consume_inv c tk rx w data Hi); try done; unfold ended; rewrite Hcs, Hca; by intros [?|?]|].
  intros w1 [n|]; [|intros ?; by msteps]. intros ((Hn & Htook) & Hroom1).
  assert (Hz : zlen (zdrop n data) = zlen data - n) by (rewrite zlen_zdrop by lia; lia).
  destruct (Z.eqb_spec n 0) as [->|Hn0]; msteps; [destruct Htook as [[? _]|[_ ?]]; [lia|by left]|].
  destruct Htook as [[_ Hi1]|[He Hi1]].
  - replace (rx ++ data) with ((rx ++ ztake n data) ++ zdrop n data) by (by rewrite <- app_assoc, ztake_zdrop). apply IH; [done|rewrite Hz; by apply Hroom1|]. unfold zlen in *. lia.
  - destruct fuel as [|fuel]; [unfold zlen in *; lia|]. cbn [readLoop]. msteps.
    destruct He as [->| ->]; rewrite ?orb_true_r; cbn [orb]; msteps; by left.
Qed.

(** The slot lent by [onAllocate] is still the next free one. *)
Definition slotLent w (data : bytes) : Prop :=
  receiving w /\ qfull (ParserThread.ring (parser w)) = false /\
  zlen data <= chunkCapacity (ParserThread.ring (parser w)).

Lemma readSlot_inv c tk rx w data :
  winv c tk rx w -> slotLent w data -> qroom (ParserThread.ring (parser w)) 1 ->
  runs (readSlot uv data) w (fun w' _ => winv c tk (rx ++ data) w').
Proof.
  intros Hi (Hr & Hfull & Hcap) Hroom. destruct (receiving_parts c tk rx w Hi Hr) as (sent & Hi1 & Hp & Hwire & Hw & Hob & Hin).
  destruct Hr as (Hcs & Hca & Est & Hlt). unfold readSlot. msteps. set (w0 := mkWorld _ _ _ _ _).
  destruct (takePayload_spec w0 data sent Hp) as (Ht & Hn & Hmax & Hp'). cbn zeta in *.
  set (take := Z.min _ _) in *. assert (Etake : take = Z.min (fileSize (sess w) - receivedBytes (sess w)) (zlen data)) by done.
  clearbody take. eapply runs_mono; [exact Ht|]. intros w1 n [-> ->]. mstep.
  assert (Ez : zlen (ztake take data) = take) by (rewrite zlen_ztake by lia; lia).
  assert (Es : concat (sent ++ [ztake take data]) = concat sent ++ ztake take data) by (rewrite concat_app; cbn; by rewrite app_nil_r).
  eapply runs_mono; [apply (pushSlot_inv c tk _ sent); try done; [rewrite Ez; cbn; lia|rewrite Es, zlen_app; lia]|].
  intros w2 [] Hpost; [|destruct Hpost as [_ Hf]; cbn in Hf; by rewrite Hfull in Hf].
  destruct Hpost as (p & -> & Hi2 & _). msteps. eapply runs_mono; [apply applyBackpressure_quiet|]. intros w3 [] Hq.
  pose proof Hq as (Eq & _). cbn [sess withParser withSess] in Eq.
  assert (Hi3 : winv c tk (rx ++ ztake take data) w3).
  { eapply winv_quiet; [|exact Hq].
    apply (winv_pushed c tk _ w0 data (sent ++ [ztake take data]) p (Hp' _ Es)); try done. by apply (inPayload_more _ _ sent). }
  replace (rx ++ data) with ((rx ++ ztake take data) ++ zdrop take data) by (by rewrite <- app_assoc, ztake_zdrop).
  case_bool_decide as Etail; msteps; [by rewrite Etail, app_nil_r|].
  eapply runs_mono; [apply (consumeTrailer_inv c tk _ w3 _ Hi3); [|done]|by intros w4 n [_ ?]; msteps].
  assert (Hall : take = fileSize (sess w) - receivedBytes (sess w)).
  { destruct (decide (take = zlen data)) as [E|E]; [|lia]. exfalso. apply Etail, zlen_0_inv. rewrite zlen_zdrop by lia. lia. }
  unfold trailing. rewrite Eq. split; [done|]. split; [done|].
  destruct (Hp' _ Es) as (Er & _). rewrite Er, Es, zlen_app, Ez. destruct Hp as (Er0 & _). cbn. lia.
Qed.

(** ** The other callbacks *)

Lemma winv_slot c tk rx w b : winv c tk rx w -> winv c tk rx (withSess w (setSlotAcquired (sess w) b)).
Proof. intros (ph & sent & Hi & Hst & Hw & Hob). by exists ph, sent. Qed.

Lemma winv_sock c tk rx w k :
  winv c tk rx w -> TcpSocket.wire k = TcpSocket.wire (sock w) ->
  winv c tk rx (mkWorld (sess w) k (timer w) (parser w) (observer w)).
Proof. intros (ph & sent & Hi & Hst & Hw & Hob) E. exists ph, sent. cbn [sess sock parser observer]. by rewrite E. Qed.

(** A lent buffer: a ring slot only in the middle of the payload. *)
Lemma onAllocate_spec c tk rx w suggested :
  winv c tk rx w ->
  runs (onAllocate suggested) w (fun w' r =>
    winv c tk rx w' /\ parser w' = parser w /\ slotAcquired (sess w') = r.1 /\
    (r.1 = true -> receiving w' /\ qfull (ParserThread.ring (parser w')) = false /\
                   r.2 = chunkCapacity (ParserThread.ring (parser w')))).
Proof.
  intros Hi. unfold onAllocate. msteps. destruct (_ && _ && _ && _) eqn:E; msteps.
  2:{ split; [by apply (winv_slot c tk rx w false)|]. by split_and!. }
  rewrite !andb_true_iff, negb_true_iff, bool_decide_eq_true, Z.ltb_lt in E. destruct E as (((Est & Hlt) & _) & Hfull).
  split; [by apply (winv_slot c tk rx w true)|]. split; [done|]. split; [done|]. intros _. split; [|done].
  destruct Hi as (ph & sent & _ & Hst & _). unfold stage in Hst. cbn in Est, Hlt. rewrite Est in Hst. unfold receiving. cbn.
  destruct (cleanupStarted (sess w)); [by destruct Hst|]. by destruct Hst as (_ & _ & Hca & _).
Qed.

Lemma onRead_inv c tk rx w data :
  winv c tk rx w -> (slotAcquired (sess w) = true -> slotLent w data) ->
  qroom (ParserThread.ring (parser w)) (zlen data + 1) ->
  runs (onRead uv data) w (fun w' _ => winv c tk (rx ++ data) w' \/ cutReading (sess w')).
Proof.
  intros Hi Hslot Hroom. unfold onRead. msteps.
  assert (Hi1 : winv c tk rx (mkWorld (sess w) (sock w) (Timer.restart uv (timer w)) (parser w) (observer w)))
    by (by destruct Hi as (ph & sent & ?); exists ph, sent).
  pose proof (zlen_nonneg data). destruct (slotAcquired (sess w)).
  - eapply runs_mono; [apply (readSlot_inv c tk rx); [done|by apply Hslot|]|intros w' [] ?; by left].
    eapply qroom_le; [exact Hroom|lia].
  - apply readLoop_inv; [done| |lia]. eapply qroom_le; [exact Hroom|lia].
Qed.

(** The session is not in [Analyzing], or nothing can end it there. *)
Lemma onSendComplete_inv c tk rx w status :
  winv c tk rx w -> runs (onSendComplete uv status) w (fun w' _ => winv c tk rx w').
Proof.
  intros Hi. unfold onSendComplete. destruct (_ =? _); msteps; [|done].
  destruct (closeAfterSend (sess w)) eqn:Hca; msteps.
  { eapply runs_mono; [apply (cleanup_inv c tk rx); [done|]|by intros w' [] [? _]]. intros Est.
    destruct Hi as (ph & sent & _ & Hst & _). unfold stage in Hst. rewrite Est in Hst.
    destruct (cleanupStarted _); [by destruct Hst|]. destruct Hst as (_ & _ & H1 & _). congruence. }
  destruct Hi as (ph & sent & Hi & Hst & (? & ? & ? & Hf) & Hob). case_bool_decide as Est; msteps.
  2:{ by apply (winv_parts c tk rx _ ph sent). }
  eapply runs_mono; [apply transition_quiet|]. intros w2 [] Hq. eapply winv_quiet; [|exact Hq].
  apply (winv_parts c tk rx _ ph sent); try done.
  - unfold stage in *. cbn. rewrite Est in Hst. destruct (cleanupStarted (sess w)); [by destruct Hst|done].
  - split_and!; try done. by apply reset_wf.
Qed.

Lemma onError_inv c tk rx w status where_ :
  winv c tk rx w -> state (sess w) <> Analyzing -> runs (onError uv status where_) w (fun w' _ => winv c tk rx w').
Proof. intros Hi Hna. eapply runs_mono; [by apply (cleanup_inv c tk rx)|by intros w' [] [? _]]. Qed.

Lemma onTimeout_inv c tk rx w :
  winv c tk rx w -> state (sess w) <> Analyzing -> runs (onTimeout uv) w (fun w' _ => winv c tk rx w').
Proof. intros Hi Hna. unfold onTimeout. msteps. eapply runs_mono; [by apply (cleanup_inv c tk rx)|by intros w' [] [? _]]. Qed.

Lemma onClosed_inv c tk rx w : winv c tk rx w -> runs onClosed w (fun w' _ => winv c tk rx w').
Proof.
  intros Hi. unfold onClosed. msteps. destruct (finished (sess w)); msteps; [done|].
  destruct Hi as (ph & sent & Hi & Hst & Hw & Hob). change (hasObserver _) with (hasObserver (sess w)).
  destruct (hasObserver (sess w)); msteps; exists ph, sent; cbn [sess sock parser observer]; split_and!; try done; try apply Hw.
  intros k. cbn. rewrite retainedOf_finished. apply Hob.
Qed.

(** The completed analysis reaches the session that waits for it. *)
Lemma onAnalysisComplete_inv c tk rx w :
  winv c tk rx w -> ParserThread.completionSent (parser w) = true ->
  let '(p, res) := ParserThread.takeResult (parser w) in
  exists tk', runs (onAnalysisComplete uv res) (withParser w p) (fun w' _ => winv c tk' rx w').
Proof.
  intros (ph & sent & Hi & Hst & Hw & Hob) Hcs. destruct (ParserThread.takeResult (parser w)) as [p res] eqn:Et.
  pose proof Hi as (q & _ & _ & Hfit & Hm). cbn [System.sent] in Hfit.
  destruct (ParserThread.completion_phase _ q Hm Hcs) as (_ & Hph). cbn in Hph. subst ph.
  exists (tk ++ [(sent, res)]). assert (Hi1 : ParserThread.Inv (System.mk p c System.Delivered sent (tk ++ [(sent, res)]))).
  { apply (ParserThread.take_Inv _ _ Hi). cbn [System.fire System.thread]. rewrite Hcs, Et. done. }
  assert (Hup : uploadResult (concat sent) res).
  { split; [done|]. destruct Hi1 as (_ & _ & Hgood & _). apply Forall_app in Hgood as [_ Hgood]. by apply Forall_inv in Hgood. }
  unfold stage in Hst. destruct (cleanupStarted (sess w)) eqn:Ecs; [by destruct Hst as (_ & ? & _)|].
  destruct (state (sess w)) eqn:Est; try (by destruct Hst); try (by destruct Hst as ([?|?] & _)).
  destruct Hst as (_ & (Er & Ec & _) & Hca & Erf & Hwire & h & Hu).
  unfold onAnalysisComplete. msteps. cbn [sess withParser]. rewrite Ecs, Est. cbn [orb]. rewrite bool_decide_eq_true_2 by done.
  msteps. change (hasObserver _) with (hasObserver (sess w)). destruct Hw as (? & Ho & ? & ?). rewrite Ho. msteps.
  eapply runs_mono; [apply transition_quiet|]. intros w1 [] Hq. pose proof Hq as (Es & Ew & Eo & _). cbn in Es, Ew, Eo.
  assert (Hgood : obsOk (observer w1)).
  { intros k. rewrite Eo, retainedOf_retained. intros [= <-]. exists (concat sent), res. cbn. split_and!; try done; congruence. }
  rewrite Hwire, Er in Ew. cbn [csv setCsv].
  apply runs_mono with (P := fun w' _ => winv c (tk ++ [(sent, res)]) rx w' /\ settled (sess w')); [|by intros w' [] [? _]].
  apply (send_inv c _ rx w1 _ _ _ _) with (2 := conf_ack _ h _ Hfit Hu).
  { exists System.Delivered, sent. rewrite Es, Ew. split_and!; try done; [by apply (quiet_Inv c _ _ _ _ _ Hq)|by left]. }
  intros w2 Hs2. apply (send_inv c _ rx w2 _ _ _ _ Hs2 (conf_header _ h _ _ Hu Hup)).
  intros w3 Hs3. msteps. exact (sending_winv _ _ _ _ _ Hs3 (answered_upload _ h _ _ Hu Hup)).
Qed.

(** A session starts on an idle parser; when it cannot, it is cleaned up. *)
Lemma start_inv c tk (p : ParserThread.t (Q := Q)) sent k tm (o : Ob) chunkSize timeouts :
  ParserThread.Inv (System.mk p c System.NoSession sent tk) -> ParserThread.abortPending p = false ->
  TcpSocket.wire k = [] -> obsOk o ->
  runs (start uv) (mkWorld (Session.make chunkSize timeouts true true true) k tm p o)
    (fun w' ok => winv c tk [] w' /\ (ok = false -> cleanupStarted (sess w') = true) /\ observer w' = o).
Proof.
  intros Hi Hab Hwire Hob. unfold start. mstep. mstep. cbn [hasSocket make negb]. msteps.
  destruct (Z.eqb_spec (TcpSocket.startRead uv k).2 0) as [E0|E0]; msteps.
  - cbn [hasParser make]. msteps. eapply runs_mono; [apply armTimer_quiet|]. intros w1 [] Hq. msteps.
    split; [|split; [done|by destruct Hq as (_ & _ & -> & _)]].
    eapply winv_quiet; [|exact Hq]. apply (winv_parts c tk [] _ System.Receiving []); cbn [sess sock parser observer]; try done.
    + apply (ParserThread.begin_Inv _ _ Hi). cbn [System.fire System.ph System.thread].
      rewrite bool_decide_eq_true_2 by done. by rewrite Hab.
    + rewrite startRead_wire, Hwire. unfold stage. cbn. split_and!; try done.
  - eapply runs_mono; [apply runs_and; [apply (cleanup_closable c tk [])|apply cleanup_observer]|intros w1 [] [[? ?] ?]; by msteps].
    exists System.NoSession, sent. cbn [sess sock parser observer]. rewrite startRead_wire, Hwire.
    split_and!; try done. constructor.
Qed.
End Inv.
