(* ===== verification/SessionKeeps.v ===== *)
(** * Predicates every session handler keeps

    A predicate that does not depend on the bytes received is kept by a handler
    when its primitive steps, [cleanup] and [transition] keep it: [Stable] is
    that list of conditions, and the handlers follow from it once and for all.
    Two instances are used: a socket closes only after the session's cleanup
    (in [Server]) and the timer runs exactly in the states that wait for the
    peer (here). *)

From S2P Require Import Prelude StringView Crc32 Protocol Codec Framer Ring Analysis ParserThread Net Session SessionInv.
Import SessionState Session.

Section Keeps.
Context (uv : Uv) {Q : Type} `{HQ : ChunkQueue Q} {Ob : Type} `{HO : ISessionObserver Ob}.
Implicit Types w : world (Q := Q) (Ob := Ob).

(** Sessions a [Stable] predicate cannot tell apart. *)
Definition sameCourse (s s' : Session.t) : Prop :=
  cleanupStarted s' = cleanupStarted s /\ state s' = state s /\ timeouts s' = timeouts s.

Definition keeps {A} (J : world -> Prop) (m : M A) : Prop := forall w w' a, m w = Ret (w', a) -> J w -> J w'.

Class Stable (J : world -> Prop) := {
  stable_sess w s : sameCourse (sess w) s -> J w -> J (mkWorld s (sock w) (timer w) (parser w) (observer w));
  stable_sock w k : TcpSocket.closing k = TcpSocket.closing (sock w) -> J w ->
    J (mkWorld (sess w) k (timer w) (parser w) (observer w));
  stable_parser w p : J w -> J (mkWorld (sess w) (sock w) (timer w) p (observer w));
  stable_retained w r : J w -> J (mkWorld (sess w) (sock w) (timer w) (parser w) (onResultRetained (observer w) r));
  stable_restart w : J w -> J (mkWorld (sess w) (sock w) (Timer.restart uv (timer w)) (parser w) (observer w));
  stable_cleanup reason : keeps J (cleanup uv reason);
  stable_armed w next : J w ->
    J (mkWorld (setState (sess w) next) (sock w)
         (let timeout := timeoutForState next (timeouts (sess w)) in
          if timeout =? 0 then (Timer.stop uv (timer w)).1 else (Timer.start uv (timer w) timeout).1)
         (parser w) (observer w)) }.

Context (J : world -> Prop) `{HJ : Stable J}.

Lemma keeps_bind {A B} (m : M A) (k : A -> M B) : keeps J m -> (forall a, keeps J (k a)) -> keeps J (bind m k).
Proof.
  intros Hm Hk w w' b. unfold bind. destruct (m w) as [[w1 a]| |] eqn:E; try done. cbn [obind fst snd].
  intros E2 Hw. eapply Hk; [exact E2|]. by eapply Hm.
Qed.
Lemma keeps_ret {A} (a : A) : keeps J (ret a).
Proof. by intros w w' b [= <- _]. Qed.
Lemma keeps_get {A} (f : world -> A) : keeps J (get f).
Proof. by intros w w' b [= <- _]. Qed.
Lemma keeps_lift {A} (m : outcome A) : keeps J (lift m).
Proof. intros w w' b. unfold lift. destruct m; try done. by intros [= <- _]. Qed.
Lemma keeps_modS f : (forall s, sameCourse s (f s)) -> keeps J (modS f).
Proof. intros Hf w w' b [= <- _] Hw. by apply stable_sess. Qed.
Lemma keeps_modO r : keeps J (modO (fun o => onResultRetained o r)).
Proof. intros w w' b [= <- _]. apply stable_retained. Qed.
Lemma keeps_modTimer : keeps J (modTimer (Timer.restart uv)).
Proof. intros w w' b [= <- _]. apply stable_restart. Qed.
Lemma keeps_modP f : keeps J (modP f).
Proof. intros w w' b [= <- _]. apply stable_parser. Qed.
Lemma keeps_onSock f : (forall k, TcpSocket.closing (f k).1 = TcpSocket.closing k) -> keeps J (onSock f).
Proof.
  intros Hf w w' b. unfold onSock. specialize (Hf (sock w)). destruct (f (sock w)) as [k rc]. intros [= <- _].
  by apply stable_sock.
Qed.
Lemma keeps_pushSlot d : keeps J (pushSlot d).
Proof.
  intros w w' b. unfold pushSlot. destruct (ParserThread.pushSlot _ _) as [[p|]| |]; try done; cbn [obind];
    intros [= <- _]; [apply stable_parser|done].
Qed.

Ltac keeps_step :=
  lazymatch goal with
  | |- keeps J (bind _ _) => apply keeps_bind; [|intros ?]
  | |- keeps J (ret _) => apply keeps_ret
  | |- keeps J (get _) => apply keeps_get
  | |- keeps J (field _) => apply keeps_get
  | |- keeps J isReading => apply keeps_get
  | |- keeps J ringFull => apply keeps_get
  | |- keeps J (modS _) => by apply keeps_modS
  | |- keeps J (modO _) => apply keeps_modO
  | |- keeps J (modTimer _) => apply keeps_modTimer
  | |- keeps J (modP _) => apply keeps_modP
  | |- keeps J (pushSlot _) => apply keeps_pushSlot
  | |- keeps J (onSock _) => apply keeps_onSock; intros ?; first [apply send_closing|apply startRead_closing|apply stopRead_closing]
  | |- keeps J (lift _) => apply keeps_lift
  | |- keeps J (cleanup _ _) => apply stable_cleanup
  | |- keeps J (closeSilently _ _) => apply stable_cleanup
  | |- keeps J (if ?b then _ else _) => destruct b
  | |- keeps J (match ?x with _ => _ end) => destruct x
  end.
Ltac keeps_all := repeat (keeps_step || done).

Lemma keeps_failWithAck status reason : keeps J (failWithAck uv status reason).
Proof. unfold failWithAck. keeps_all. Qed.
Lemma keeps_resumeReading : keeps J (resumeReading uv).
Proof. unfold resumeReading. keeps_all. Qed.
Lemma keeps_applyBackpressure : keeps J (applyBackpressure uv).
Proof. unfold applyBackpressure. keeps_all; apply keeps_resumeReading. Qed.
Lemma keeps_feedFramer data : keeps J (feedFramer data).
Proof. unfold feedFramer. keeps_all. Qed.
Lemma keeps_takePayload data : keeps J (takePayload data).
Proof. unfold takePayload. keeps_all. Qed.

(** The state changes and its timer is armed before anything else happens. *)
Lemma keeps_transition next : keeps J (transition uv next).
Proof.
  intros w w' [] E Hw. unfold transition in E. revert E. unfold bind at 1, field at 1, get at 1. cbn [obind fst snd].
  case_bool_decide; [by intros [= <-]|]. unfold bind at 1, modS at 1. cbn [obind fst snd].
  pose proof (stable_armed w next Hw) as Ha. cbv zeta in Ha. unfold armTimer, bind at 1, bind at 1, bind at 1, field, get.
  cbn [obind fst snd sess state timeouts setState].
  destruct (timeoutForState next (timeouts (sess w)) =? 0); unfold modTimer; cbn [obind fst snd sess sock timer parser observer];
    destruct (_ && _); try (by intros [= <-]); intros E; by apply (keeps_resumeReading _ _ _ E).
Qed.

Lemma keeps_consumeTrailer data : keeps J (consumeTrailer uv data).
Proof.
  unfold consumeTrailer, verifyAndAck, analyzeAndSendResult.
  keeps_all; first [apply keeps_failWithAck|apply keeps_transition|apply keeps_feedFramer].
Qed.
Lemma keeps_copyLoop fuel payload : forall copied take, keeps J (copyLoop uv fuel payload copied take).
Proof. induction fuel as [|fuel IH]; intros copied take; cbn [copyLoop]; [done|]. keeps_all; apply IH. Qed.

Lemma keeps_consume data : keeps J (consume uv data).
Proof.
  unfold consume, consumeHeader, handleResultRequest, consumePayload, consumeDone.
  keeps_all; first [apply keeps_failWithAck|apply keeps_transition|apply keeps_feedFramer|apply keeps_consumeTrailer
                   |apply keeps_takePayload|apply keeps_copyLoop|apply keeps_applyBackpressure].
Qed.
Lemma keeps_readLoop fuel : forall data, keeps J (readLoop uv fuel data).
Proof. induction fuel as [|fuel IH]; intros data; cbn [readLoop]; [done|]. keeps_all; first [apply keeps_consume|apply IH]. Qed.
Lemma keeps_onRead data : keeps J (onRead uv data).
Proof.
  unfold onRead, readSlot.
  keeps_all; first [apply keeps_takePayload|apply keeps_applyBackpressure|apply keeps_consumeTrailer|apply keeps_readLoop].
Qed.
Lemma keeps_onAllocate suggested : keeps J (onAllocate suggested).
Proof. unfold onAllocate. keeps_all. Qed.
Lemma keeps_onSendComplete status : keeps J (onSendComplete uv status).
Proof. unfold onSendComplete. keeps_all; apply keeps_transition. Qed.
Lemma keeps_onAnalysisComplete res : keeps J (onAnalysisComplete uv res).
Proof. unfold onAnalysisComplete. keeps_all; apply keeps_transition. Qed.
Lemma keeps_onTimeout : keeps J (onTimeout uv).
Proof. unfold onTimeout. keeps_all. Qed.
End Keeps.
