(* ===== verification/Server.v ===== *)
(** * The server: session manager, parser thread and one session at a time
    (server/src/session/SessionManager.h, .cpp)

    [Server.fire] is one callback of the event loop, or one action of the
    parser thread: the whole server is the interleaving of these.  What libuv
    decides (which callback runs, what a read brings, how a write ends) is the
    event; what it answers to calls is [Uv].  [uv_idle_init] and
    [uv_idle_start] always succeed on a live handle, as documented.  The theorem
    of this file is about every run in which no session is cut while its result
    is being computed. *)

From stdpp Require Import sets.
From S2P Require Import Prelude StringView Crc32 Protocol Codec Framer Ring Reassembler Analysis ParserThread Net Session Exchange SessionInv SessionKeeps.
Import SessionState.

Module SessionManager.
Record t := mk {
  retained : RetainedResult;
  hasRetained : bool;
  pendingConnection : bool;
  sessionFinished : bool;
  closing : bool;
  completedSessions : Z;
  reaper : bool;             (* _reaper != nullptr *)
  reaperActive : bool }.     (* the idle handle is started *)

Definition noRetained : RetainedResult := mkRetained [] 0 0 [] 0.
Definition init : t := mk noRetained false false false false 0 true false.

Definition setPending (m : t) (b : bool) : t :=
  mk (retained m) (hasRetained m) b (sessionFinished m) (closing m) (completedSessions m) (reaper m) (reaperActive m).

Definition onResultRetained (m : t) (r : RetainedResult) : t :=
  mk r true (pendingConnection m) (sessionFinished m) (closing m) (completedSessions m) (reaper m) (reaperActive m).

Definition retainedResult (m : t) (filename : bytes) (fileSize uploadCrc32 : Z) : option RetainedResult :=
  if negb (hasRetained m) || negb (bool_decide (kept_filename (retained m) = filename)) ||
     negb (kept_fileSize (retained m) =? fileSize) || negb (kept_uploadCrc32 (retained m) =? uploadCrc32)
  then None
  else Some (retained m).

Definition onSessionFinished (m : t) : t :=
  mk (retained m) (hasRetained m) (pendingConnection m) true (closing m) (completedSessions m) (reaper m)
     (reaperActive m || (reaper m && negb (closing m))).

(** [onReapCb] up to the session's destruction: [true] when it is destroyed. *)
Definition reap (m : t) : t * bool :=
  if negb (sessionFinished m) then
    (mk (retained m) (hasRetained m) (pendingConnection m) false (closing m) (completedSessions m) (reaper m) false, false)
  else
    (mk (retained m) (hasRetained m) (pendingConnection m) false (closing m) (u64 (completedSessions m + 1)) (reaper m)
        false, true).

(** [close] on the manager's own members. *)
Definition setClosed (m : t) : t :=
  mk (retained m) (hasRetained m) (pendingConnection m) (sessionFinished m) true (completedSessions m) false false.
End SessionManager.

#[export] Instance manager_observer : ISessionObserver SessionManager.t := {
  onResultRetained := SessionManager.onResultRetained;
  lookupRetainedResult := SessionManager.retainedResult;
  onSessionFinished := SessionManager.onSessionFinished }.

(** The manager hands out a retained result only to the claim it is filed under. *)
#[export, refine] Instance manager_retains : RetainingObserver SessionManager.t := {
  retainedOf m := if SessionManager.hasRetained m then Some (SessionManager.retained m) else None }.
Proof.
  - done.
  - done.
  - intros m name size crc k. cbn [lookupRetainedResult manager_observer]. unfold SessionManager.retainedResult.
    destruct (SessionManager.hasRetained m); [|done]. cbn [negb orb]. case_bool_decide as E1; [|done]. cbn [negb orb].
    destruct (Z.eqb_spec (kept_fileSize (SessionManager.retained m)) size) as [E2|]; [|done]. cbn [negb orb].
    destruct (Z.eqb_spec (kept_uploadCrc32 (SessionManager.retained m)) crc) as [E3|]; [|done]. cbn [negb].
    intros [= <-]. by split_and!.
Defined.

Module Server.
Section Events.
Context (uv : Uv) {Q : Type} `{ChunkQueue Q}.

Record t := mk {
  listener : Listener.t;
  mgr : SessionManager.t;
  session : option (Session.t * TcpSocket.t * Timer.t);
  parser : ParserThread.t (Q := Q);
  at_ : ParserThread.pc;
  chunkSize : Z;
  socketBufferSize : Z;
  timeouts : SessionTimeouts }.

Definition world : Type := Session.world (Q := Q) (Ob := SessionManager.t).

Definition setMgr (s : t) (m : SessionManager.t) : t :=
  mk (listener s) m (session s) (parser s) (at_ s) (chunkSize s) (socketBufferSize s) (timeouts s).
Definition setListener (s : t) (l : Listener.t) : t :=
  mk l (mgr s) (session s) (parser s) (at_ s) (chunkSize s) (socketBufferSize s) (timeouts s).
Definition setParser (s : t) (p : ParserThread.t) : t :=
  mk (listener s) (mgr s) (session s) p (at_ s) (chunkSize s) (socketBufferSize s) (timeouts s).
Definition setSession (s : t) (x : option (Session.t * TcpSocket.t * Timer.t)) : t :=
  mk (listener s) (mgr s) x (parser s) (at_ s) (chunkSize s) (socketBufferSize s) (timeouts s).

(** The current session sees the manager and the parser. *)
Definition worldOf (s : t) (x : Session.t * TcpSocket.t * Timer.t) : world :=
  Session.mkWorld x.1.1 x.1.2 x.2 (parser s) (mgr s).
Definition backFrom (s : t) (w : world) : t :=
  mk (listener s) (Session.observer w) (Some (Session.sess w, Session.sock w, Session.timer w)) (Session.parser w)
     (at_ s) (chunkSize s) (socketBufferSize s) (timeouts s).

(** A callback of the session, if there is one. *)
Definition onSession (s : t) (m : Session.M unit) : outcome t :=
  match session s with
  | None => Ret s
  | Some x => let* r := m (worldOf s x) in Ret (backFrom s r.1)
  end.

Definition acceptIfIdle (s : t) : outcome t :=
  if SessionManager.closing (mgr s) || bool_decide (is_Some (session s)) then Ret s
  else
    let '(l, accepted) := Listener.acceptPending uv (listener s) in
    match accepted with
    | None => Ret (setListener s l)
    | Some socket =>
        let s := setMgr (setListener s l) (SessionManager.setPending (mgr s) false) in
        let socket :=
          if 0 <? socketBufferSize s
          then (TcpSocket.applyBufferSizes uv socket (socketBufferSize s) (socketBufferSize s)).1 else socket in
        let fresh := Session.make (chunkSize s) (timeouts s) true true true in
        let* r := Session.start uv (worldOf s (fresh, socket, Timer.make uv (Listener.calls l))) in
        let s := backFrom s r.1 in
        Ret (if r.2 then s else setSession s None)
    end.

Definition acceptWhenParserIdle (s : t) : outcome t :=
  if ParserThread.abortPending (parser s) then Ret s else acceptIfIdle s.

Definition onConnection (s : t) : outcome t :=
  if SessionManager.closing (mgr s) then Ret s
  else if bool_decide (is_Some (session s)) then Ret (setMgr s (SessionManager.setPending (mgr s) true))
  else acceptWhenParserIdle s.

Definition onReapCb (s : t) : outcome t :=
  let '(m, destroyed) := SessionManager.reap (mgr s) in
  let s := setMgr s m in
  if destroyed then acceptWhenParserIdle (setSession s None) else Ret s.

Definition close (s : t) : t :=
  mk (Listener.close (listener s)) (SessionManager.setClosed (mgr s)) None (ParserThread.stop (parser s)) (at_ s)
     (chunkSize s) (socketBufferSize s) (timeouts s).

Inductive event :=
| EvParser                                       (* the parser thread runs one action *)
| EvConnection (status : Z)                      (* Listener::onConnectionCb *)
| EvRead (suggested nread : Z) (data : bytes)    (* alloc and read callbacks *)
| EvWritten (request : nat) (status : Z)         (* onWriteCb *)
| EvTimeout                                      (* the session's timer *)
| EvClosed                                       (* onCloseCb *)
| EvCompletion                                   (* the three async handles *)
| EvResume
| EvAbortDone
| EvReap                                         (* the idle handle *)
| EvShutdown.                                    (* SessionManager::close *)

(** [onAllocCb] and [onReadCb] of the session's socket: libuv never reads more
    than it was lent. *)
Definition onReadable (suggested nread : Z) (data : bytes) : Session.M bool := fun w =>
  let* r := Session.onAllocate suggested w in
  let '(w, (_, capacity)) := r in
  match TcpSocket.onReadCb nread with
  | TcpSocket.OnRead =>
      if (zlen data =? nread) && (nread <=? capacity)
      then let* r := Session.onRead uv data w in Ret (r.1, true) else Ret (w, false)
  | TcpSocket.Nothing => Ret (w, true)
  | TcpSocket.OnError status where_ => let* r := Session.onError uv status where_ w in Ret (r.1, true)
  end.

Definition setSock (x : Session.t * TcpSocket.t * Timer.t) (k : TcpSocket.t) : Session.t * TcpSocket.t * Timer.t :=
  (x.1.1, k, x.2).

(** [None]: the event cannot happen now. *)
Definition fire (s : t) (ev : event) : outcome (option t) :=
  let yes m := let* s := m in Ret (Some s) in
  match ev with
  | EvParser =>
      let* r := ParserThread.parserStep (parser s) (at_ s) in
      match r with
      | None => Ret None
      | Some (p, c) =>
          Ret (Some (mk (listener s) (mgr s) (session s) p c (chunkSize s) (socketBufferSize s) (timeouts s)))
      end
  | EvConnection status =>
      match Listener.onConnectionCb (listener s) status with
      | Some 0 => yes (onConnection s)
      | _ => Ret (Some s)
      end
  | EvRead suggested nread data =>
      match session s with
      | Some x =>
          if TcpSocket.reading x.1.2 then
            let* r := onReadable suggested nread data (worldOf s x) in
            Ret (if r.2 then Some (backFrom s r.1) else None)
          else Ret None
      | None => Ret None
      end
  | EvWritten request status =>
      match session s with
      | Some x =>
          if existsb (fun p => Nat.eqb p.1 request) (TcpSocket.pendingWrites x.1.2) then
            let* r := Session.onSendComplete uv status (worldOf s (setSock x (TcpSocket.onWriteCb x.1.2 request))) in
            let s := backFrom s r.1 in
            if status =? 0 then Ret (Some s) else yes (onSession s (Session.onError uv status (bs "write")))
          else Ret None
      | None => Ret None
      end
  | EvTimeout =>
      match session s with
      | Some x =>
          if Timer.isActive x.2 then
            let '(tm, armed) := Timer.onTimeoutCb x.2 in
            let s := setSession s (Some (x.1.1, x.1.2, tm)) in
            if armed then yes (onSession s (Session.onTimeout uv)) else Ret (Some s)
          else Ret None
      | None => Ret None
      end
  | EvClosed =>
      match session s with
      | Some x =>
          if TcpSocket.closing x.1.2 && negb (TcpSocket.closed x.1.2) then
            yes (onSession (setSession s (Some (setSock x (TcpSocket.onCloseCb x.1.2)))) Session.onClosed)
          else Ret None
      | None => Ret None
      end
  | EvCompletion =>
      if ParserThread.completionSent (parser s) && negb (SessionManager.closing (mgr s)) then
        let '(p, res) := ParserThread.takeResult (parser s) in
        yes (onSession (setParser s p) (Session.onAnalysisComplete uv res))
      else Ret None
  | EvResume =>
      if ParserThread.resumeSent (parser s) && negb (SessionManager.closing (mgr s)) then
        let p := parser s in
        let s := setParser s (ParserThread.setSignals p (ParserThread.completionSent p) false (ParserThread.abortDoneSent p)) in
        yes (onSession s (Session.resumeReading uv))
      else Ret None
  | EvAbortDone =>
      if ParserThread.abortDoneSent (parser s) && negb (SessionManager.closing (mgr s)) then
        let p := parser s in
        let s := setParser s (ParserThread.setSignals p (ParserThread.completionSent p) (ParserThread.resumeSent p) false) in
        yes (acceptWhenParserIdle s)
      else Ret None
  | EvReap => if SessionManager.reaperActive (mgr s) then yes (onReapCb s) else Ret None
  | EvShutdown => Ret (Some (close s))
  end.

Definition init (r : Q) (l : Listener.t) (chunkSize socketBufferSize : Z) (timeouts : SessionTimeouts) : t :=
  mk l SessionManager.init None (ParserThread.make r) ParserThread.PWait chunkSize socketBufferSize timeouts.

(** Without a session nothing was read. *)
Definition current (s : t) (rx : bytes) : bytes := match session s with Some _ => rx | None => [] end.

(** What the current session has read, [rx], after one more event. *)
Definition heard (s : t) (ev : event) (rx : bytes) : bytes :=
  match ev with
  | EvRead _ nread data => if 0 <? nread then rx ++ data else rx
  | EvReap => if SessionManager.sessionFinished (mgr s) then [] else rx
  | EvShutdown => []
  | _ => current s rx
  end.

(** Runs in which every step satisfies [ok], with what the current session has
    read. *)
Inductive reachable (ok : t -> event -> t -> Prop) (s0 : t) : t -> bytes -> Prop :=
| reach_init : reachable ok s0 s0 []
| reach_step s rx ev s' :
    reachable ok s0 s rx -> fire s ev = Ret (Some s') -> ok s ev s' -> reachable ok s0 s' (heard s ev rx).
End Events.
End Server.

(** ** The server's invariant *)

Section Runs.
Context (uv : Uv) {Q : Type} `{HQ : ChunkQueue Q}.
Import Session.
Implicit Types w : Server.world (Q := Q).
Implicit Types s : Server.t (Q := Q).

(** A socket closes, and a session reports its end, only after its cleanup. *)
Definition closesLast w : Prop :=
  TcpSocket.closing (sock w) = true \/ SessionManager.sessionFinished (observer w) = true -> cleanupStarted (sess w) = true.

Lemma last_cleanup reason : keeps closesLast (cleanup uv reason).
Proof.
  intros w w' [] E Hw. destruct (cleanupStarted (sess w)) eqn:Ecs.
  - unfold cleanup, bind, field, get in E. cbn [obind fst snd] in E. rewrite Ecs in E. by injection E as <-.
  - destruct (cleanup_runs uv reason w Ecs) as (w1 & [] & E1 & Hcs & _). rewrite E in E1. injection E1 as <-. by intros _.
Qed.

#[local] Instance closesLast_stable : Stable uv closesLast.
Proof.
  split; try done.
  - intros w x (Hc & _) Hw. unfold closesLast in *. cbn. by rewrite Hc.
  - intros w k Hk Hw. unfold closesLast in *. cbn. by rewrite Hk.
  - apply last_cleanup.
Qed.

Lemma last_timer f : keeps closesLast (modTimer (Q := Q) f).
Proof. by intros w w' [] [= <-]. Qed.

Lemma last_start : keeps closesLast (start uv).
Proof.
  unfold start. apply keeps_bind; [apply keeps_get|intros hasK]. destruct hasK; cbn [negb]; [|apply keeps_ret].
  apply keeps_bind; [apply (keeps_onSock uv closesLast), startRead_closing|intros rc]. destruct (rc =? 0); cbn [negb].
  - apply keeps_bind; [apply keeps_get|intros hasP]. apply keeps_bind; [destruct hasP; [apply (keeps_modP uv closesLast)|apply keeps_ret]|intros _].
    apply keeps_bind; [|intros _; apply keeps_ret]. unfold armTimer. do 2 (apply keeps_bind; [apply keeps_get|intros ?]).
    case_match; apply last_timer.
  - apply keeps_bind; [apply last_cleanup|intros _; apply keeps_ret].
Qed.

Definition srvInv s (rx : bytes) : Prop :=
  exists tk,
    match Server.session s with
    | Some x => winv (Server.at_ s) tk rx (Server.worldOf s x) /\ closesLast (Server.worldOf s x)
    | None =>
        exists ph sent, ParserThread.Inv (System.mk (Server.parser s) (Server.at_ s) ph sent tk) /\
          (SessionManager.closing (Server.mgr s) = false ->
             ph = System.NoSession /\ SessionManager.sessionFinished (Server.mgr s) = false) /\
          obsOk (Server.mgr s)
    end.

(** A callback that ends well for the current session. *)
Lemma onSession_inv s rx x tk (m : M unit) :
  Server.session s = Some x -> runs m (Server.worldOf s x) (fun w' _ => winv (Server.at_ s) tk rx w') -> keeps closesLast m ->
  closesLast (Server.worldOf s x) -> exists s', Server.onSession s m = Ret s' /\ srvInv s' rx.
Proof.
  intros Ex (w' & [] & E & Hi) Hk Hl. unfold Server.onSession. rewrite Ex, E. cbn [obind fst].
  eexists. split; [done|]. exists tk. cbn. destruct w'. split; [done|]. by eapply Hk.
Qed.

(** With no session and no abort pending the next one may start. *)
Lemma acceptIfIdle_inv s rx :
  srvInv s rx -> (Server.session s = None -> rx = []) -> ParserThread.abortPending (Server.parser s) = false ->
  exists s', Server.acceptIfIdle uv s = Ret s' /\ srvInv s' rx.
Proof.
  intros Hi Hnone Hab. unfold Server.acceptIfIdle. destruct (SessionManager.closing (Server.mgr s)) eqn:Ecl; cbn [orb]; [by eauto|].
  destruct (Server.session s) as [x|] eqn:Ex; [rewrite bool_decide_eq_true_2 by done; by eauto|].
  rewrite bool_decide_eq_false_2 by (by intros []). destruct Hi as (tk & Hi). rewrite Ex in Hi.
  destruct Hi as (ph & sent & Hi & Hph & Hob). destruct (Hph Ecl) as [-> Hfin]. rewrite (Hnone eq_refl).
  unfold Listener.acceptPending. destruct (_ || _).
  { eexists. split; [done|]. exists tk. cbn. rewrite Ex. exists System.NoSession, sent. by rewrite Ecl. }
  destruct (negb _); [eexists; split; [done|]; exists tk; cbn; rewrite Ex; exists System.NoSession, sent; by rewrite Ecl|].
  destruct (negb _); [eexists; split; [done|]; exists tk; cbn; rewrite Ex; exists System.NoSession, sent; by rewrite Ecl|].
  cbv zeta. match goal with |- context [Server.worldOf _ (_, ?k, ?k')] => set (socket := k); set (tm := k') end.
  assert (Hs : TcpSocket.wire socket = [] /\ TcpSocket.closing socket = false).
  { unfold socket, TcpSocket.applyBufferSizes. by repeat case_match; simplify_eq/=. }
  clearbody socket tm. cbn [Server.chunkSize Server.timeouts Server.setMgr Server.setListener Server.worldOf fst snd].
  set (s1 := Server.setMgr _ _). set (w := Server.worldOf _ _).
  destruct (start_inv uv (Server.at_ s) tk (Server.parser s) sent socket tm
              (SessionManager.setPending (Server.mgr s) false) (Server.chunkSize s) (Server.timeouts s))
    as (w' & ok & E & Hi' & Hok & Hobs); try done; [apply Hs|].
  change (Session.start uv w) with (Session.start uv (mkWorld (Session.make (Server.chunkSize s) (Server.timeouts s) true true true)
    socket tm (Server.parser s) (SessionManager.setPending (Server.mgr s) false))). rewrite E. cbn [obind fst snd].
  assert (Hl : closesLast w').
  { eapply last_start; [exact E|]. intros [H1|H1]; cbn in H1; [by destruct Hs; congruence|congruence]. }
  eexists. split; [done|]. exists tk. destruct ok; cbn; [by destruct w'|].
  destruct Hi' as (ph & sent' & Hi' & Hst & _ & Hob'). unfold stage in Hst. rewrite (Hok eq_refl) in Hst.
  destruct Hst as (_ & -> & _). exists System.NoSession, sent'. split; [done|]. split; [|done]. intros _. split; [done|].
  by rewrite Hobs.
Qed.

Lemma acceptWhenParserIdle_inv s rx :
  srvInv s rx -> (Server.session s = None -> rx = []) -> exists s', Server.acceptWhenParserIdle uv s = Ret s' /\ srvInv s' rx.
Proof.
  intros Hi Hnone. unfold Server.acceptWhenParserIdle. destruct (ParserThread.abortPending _) eqn:Hab; [by eauto|].
  by apply acceptIfIdle_inv.
Qed.

(** The manager's flags that the invariant does not look at. *)
Lemma srvInv_mgr s rx m :
  srvInv s rx -> SessionManager.retained m = SessionManager.retained (Server.mgr s) ->
  SessionManager.hasRetained m = SessionManager.hasRetained (Server.mgr s) ->
  SessionManager.sessionFinished m = SessionManager.sessionFinished (Server.mgr s) ->
  SessionManager.closing m = SessionManager.closing (Server.mgr s) -> srvInv (Server.setMgr s m) rx.
Proof.
  intros (tk & Hi) E1 E2 E3 E4. exists tk. cbn. destruct (Server.session s) as [x|].
  - destruct Hi as ((ph & sent & Hi & Hst & Hw & Hob) & Hl). split.
    + exists ph, sent. split_and!; try done. unfold obsOk in *. cbn in *. by rewrite E1, E2.
    + unfold closesLast in *. cbn in *. by rewrite E3.
  - destruct Hi as (ph & sent & Hi & Hph & Hob). exists ph, sent. split; [done|]. rewrite E3, E4. split; [done|].
    unfold obsOk in *. cbn in *. by rewrite E1, E2.
Qed.

Lemma onReap_inv s rx :
  srvInv s rx -> exists s', Server.onReapCb uv s = Ret s' /\
    srvInv s' (if SessionManager.sessionFinished (Server.mgr s) then [] else rx).
Proof.
  intros Hi. unfold Server.onReapCb, SessionManager.reap.
  destruct (SessionManager.sessionFinished (Server.mgr s)) eqn:Hf; cbn [negb].
  - apply acceptWhenParserIdle_inv; [|done]. destruct Hi as (tk & Hi). exists tk. cbn. destruct (Server.session s) as [x|].
    + destruct Hi as ((ph & sent & Hi & Hst & _ & Hob) & Hl). exists ph, sent. split; [done|]. split; [|done]. intros _.
      split; [|done]. unfold stage in Hst. rewrite Hl in Hst by (by right). tauto.
    + destruct Hi as (ph & sent & Hi & Hph & Hob). exists ph, sent. split; [done|]. split; [|done].
      intros Hc. destruct (Hph Hc). congruence.
  - eexists. split; [done|]. by apply srvInv_mgr.
Qed.

(** ** Steps *)

Definition analyzing s : Prop :=
  match Server.session s with Some x => state x.1.1 = Analyzing | None => False end.

(** What a run must respect: the ring's counters do not wrap, and nothing ends
    the session while its result is being computed. *)
Definition undisturbed s (ev : Server.event) : Prop :=
  match ev with
  | Server.EvRead _ nread data =>
      qroom (ParserThread.ring (Server.parser s)) (zlen data + 1) /\ (nread < 0 -> ~ analyzing s)
  | Server.EvWritten _ status => status <> 0 -> ~ analyzing s
  | Server.EvTimeout => ~ analyzing s
  | _ => True
  end.

Definition notCut s : Prop := match Server.session s with Some x => ~ cutReading x.1.1 | None => True end.

Definition calmStep s ev s' : Prop := undisturbed s ev /\ notCut s'.

Definition stepOk s (rx : bytes) ev : Prop :=
  exists o, Server.fire uv s ev = Ret o /\ forall s', o = Some s' -> notCut s' -> srvInv s' rx.

(** Without a session the invariant does not look at what was read. *)
Lemma srvInv_none s rx rx' : Server.session s = None -> srvInv s rx -> srvInv s rx'.
Proof. intros E (tk & Hi). exists tk. by rewrite E in *. Qed.

Lemma srvInv_current s rx : srvInv s rx -> srvInv s (Server.current s rx).
Proof. intros Hi. unfold Server.current. destruct (Server.session s) eqn:E; [done|]. by apply (srvInv_none _ rx). Qed.

(** A handler's outcome as the event's. *)
Lemma stepOk_yes s rx ev m :
  Server.fire uv s ev = (let* s := m in Ret (Some s)) -> (exists s', m = Ret s' /\ srvInv s' rx) -> stepOk s rx ev.
Proof. intros E (s' & -> & Hi). exists (Some s'). split; [by rewrite E|]. by intros ? [= <-]. Qed.

Lemma stepOk_no s rx ev : Server.fire uv s ev = Ret None -> stepOk s rx ev.
Proof. intros E. by exists None. Qed.

Lemma stepOk_same s rx ev s' : Server.fire uv s ev = Ret (Some s') -> srvInv s' rx -> stepOk s rx ev.
Proof. intros E Hi. exists (Some s'). split; [done|]. by intros ? [= <-]. Qed.

Lemma parser_step s rx : srvInv s rx -> stepOk s rx Server.EvParser.
Proof.
  intros (tk & Hi). unfold stepOk. cbn [Server.fire].
  assert (Hs : forall ph sent, ParserThread.Inv (System.mk (Server.parser s) (Server.at_ s) ph sent tk) ->
    exists r, ParserThread.parserStep (Server.parser s) (Server.at_ s) = Ret r /\
      match r with None => True | Some (p, c) => ParserThread.Inv (System.mk p c ph sent tk) end).
  { intros ph sent HI. apply (ParserThread.parser_Inv _ HI). }
  destruct (Server.session s) as [x|] eqn:Ex.
  - destruct Hi as ((ph & sent & Hi & Hst & Hw & Hob) & Hl). destruct (Hs ph sent Hi) as (r & -> & Hr). cbn [obind].
    destruct r as [[p c]|]; (eexists; split; [done|]); [|done]. intros s' [= <-] _. exists tk. cbn.
    rewrite ?Ex. split; [|done]. by exists ph, sent.
  - destruct Hi as (ph & sent & Hi & Hph & Hob). destruct (Hs ph sent Hi) as (r & -> & Hr). cbn [obind].
    destruct r as [[p c]|]; (eexists; split; [done|]); [|done]. intros s' [= <-] _. exists tk. cbn.
    rewrite ?Ex. by exists ph, sent.
Qed.

Lemma connection_step s rx status :
  srvInv s rx -> (Server.session s = None -> rx = []) -> stepOk s rx (Server.EvConnection status).
Proof.
  intros Hi Hnone. unfold stepOk. cbn [Server.fire]. destruct (Listener.onConnectionCb _ _) as [[| |]|];
    try (eexists; split; [done|]; by intros ? [= <-]).
  assert (Hc : exists s', Server.onConnection uv s = Ret s' /\ srvInv s' rx).
  { unfold Server.onConnection. destruct (SessionManager.closing _); [by eauto|]. case_bool_decide; [|by apply acceptWhenParserIdle_inv].
    eexists. split; [done|]. by apply srvInv_mgr. }
  destruct Hc as (s' & -> & Hi'). eexists. split; [done|]. by intros ? [= <-].
Qed.

Lemma onAllocate_state suggested w w' r : onAllocate suggested w = Ret (w', r) -> state (sess w') = state (sess w).
Proof. unfold onAllocate, bind, field, get, modS, ringFull, ret. cbn. by case_match; intros [= <- _]. Qed.

(** The current session's part of the invariant. *)
Lemma srvInv_session s rx x :
  srvInv s rx -> Server.session s = Some x ->
  exists tk, winv (Server.at_ s) tk rx (Server.worldOf s x) /\ closesLast (Server.worldOf s x).
Proof. intros (tk & Hi) Ex. exists tk. by rewrite Ex in Hi. Qed.

Lemma srvInv_back s rx tk w : winv (Server.at_ s) tk rx w -> closesLast w -> srvInv (Server.backFrom s w) rx.
Proof. intros Hi Hl. exists tk. cbn. by destruct w. Qed.

Lemma read_step s rx suggested nread data :
  srvInv s rx -> undisturbed s (Server.EvRead suggested nread data) ->
  stepOk s (if 0 <? nread then rx ++ data else rx) (Server.EvRead suggested nread data).
Proof.
  intros Hi (Hroom & Hna). unfold stepOk. cbn [Server.fire].
  destruct (Server.session s) as [x|] eqn:Ex; [|by exists None].
  destruct (TcpSocket.reading x.1.2); [|by exists None].
  destruct (srvInv_session s rx x Hi Ex) as (tk & Hw & Hl). unfold analyzing in Hna. rewrite Ex in Hna.
  destruct (onAllocate_spec (Server.at_ s) tk rx _ suggested Hw) as (w1 & [slot capacity] & E1 & Hw1 & Ep & Hsl & Hlent).
  pose proof (keeps_onAllocate uv closesLast _ _ _ _ E1 Hl) as Hl1. cbn [fst snd] in *.
  assert (Hst : state (sess w1) = state x.1.1) by (by eapply onAllocate_state in E1).
  unfold Server.onReadable. rewrite E1. cbn [obind]. unfold TcpSocket.onReadCb.
  destruct (Z.ltb_spec 0 nread) as [Hpos|Hpos].
  - destruct ((zlen data =? nread) && (nread <=? capacity)) eqn:Eg; [|by exists None].
    apply andb_true_iff in Eg as [E2 E3]. apply Z.eqb_eq in E2. apply Z.leb_le in E3.
    assert (Hq : qroom (ParserThread.ring (parser w1)) (zlen data + 1)) by (by rewrite Ep).
    destruct (onRead_inv uv (Server.at_ s) tk rx w1 data Hw1) as (w2 & [] & E4 & Hw2); [|done|].
    { rewrite Hsl. intros ->. destruct (Hlent eq_refl) as (? & ? & ?). split_and!; try done. lia. }
    rewrite E4. cbn [obind fst snd]. eexists. split; [done|]. intros s' [= <-] Hcut.
    destruct Hw2 as [Hw2|Hw2]; [|by destruct w2]. apply (srvInv_back s _ tk w2 Hw2). by eapply (keeps_onRead uv closesLast).
  - destruct (Z.eqb_spec nread 0); cbn [obind fst snd].
    { eexists. split; [done|]. intros s' [= <-] _. by apply (srvInv_back s _ tk). }
    destruct (onError_inv uv (Server.at_ s) tk rx w1 nread (if nread =? UV_EOF then bs "read(eof)" else bs "read") Hw1)
      as (w2 & [] & E4 & Hw2); [rewrite Hst; apply Hna; lia|].
    rewrite E4. cbn [obind fst snd]. eexists. split; [done|]. intros s' [= <-] _. apply (srvInv_back s _ tk w2 Hw2).
    by eapply last_cleanup.
Qed.

(** A replaced socket or timer that wrote nothing. *)
Lemma srvInv_replace s rx x k tm :
  srvInv s rx -> Server.session s = Some x -> TcpSocket.wire k = TcpSocket.wire x.1.2 ->
  TcpSocket.closing k = TcpSocket.closing x.1.2 -> srvInv (Server.setSession s (Some (x.1.1, k, tm))) rx.
Proof.
  intros Hi Ex E1 E2. destruct (srvInv_session s rx x Hi Ex) as (tk & (ph & sent & ? & ? & ? & ?) & Hl). exists tk. cbn.
  split; [exists ph, sent; cbn in *; by rewrite E1|]. unfold closesLast in *. cbn in *. by rewrite E2.
Qed.

Lemma onSession_step s rx x (m : M unit) :
  srvInv s rx -> Server.session s = Some x ->
  (forall tk, winv (Server.at_ s) tk rx (Server.worldOf s x) ->
     runs m (Server.worldOf s x) (fun w' _ => winv (Server.at_ s) tk rx w')) ->
  keeps closesLast m -> exists s', Server.onSession s m = Ret s' /\ srvInv s' rx.
Proof.
  intros Hi Ex Hm Hk. destruct (srvInv_session s rx x Hi Ex) as (tk & Hw & Hl). eapply onSession_inv; eauto.
Qed.

Lemma written_step s rx request status :
  srvInv s rx -> undisturbed s (Server.EvWritten request status) -> stepOk s rx (Server.EvWritten request status).
Proof.
  intros Hi Hna. unfold stepOk. cbn [Server.fire]. destruct (Server.session s) as [x|] eqn:Ex; [|by exists None].
  destruct (existsb _ _); [|by exists None]. cbn in Hna. unfold analyzing in Hna. rewrite Ex in Hna.
  set (y := Server.setSock x (TcpSocket.onWriteCb x.1.2 request)).
  assert (Hi1 : srvInv (Server.setSession s (Some y)) rx) by (by apply (srvInv_replace s rx x)).
  destruct (srvInv_session _ rx y Hi1 eq_refl) as (tk & Hw & Hl).
  change (Server.worldOf (Server.setSession s (Some y)) y) with (Server.worldOf s y) in *. cbn [Server.at_ Server.setSession] in *.
  destruct (onSendComplete_inv uv _ tk rx _ status Hw) as (w1 & [] & E1 & Hw1). rewrite E1. cbn [obind fst snd].
  pose proof (keeps_onSendComplete uv closesLast _ _ _ _ E1 Hl) as Hl1. pose proof (srvInv_back s _ tk w1 Hw1 Hl1) as Hi2.
  destruct (Z.eqb_spec status 0) as [|Hne]; [eexists; split; [done|]; by intros s' [= <-] _|].
  assert (Est : sess w1 = x.1.1).
  { unfold onSendComplete in E1. apply Z.eqb_neq in Hne. rewrite Hne in E1. by injection E1 as <-. }
  destruct (onSession_step (Server.backFrom s w1) rx (sess w1, sock w1, timer w1) (onError uv status (bs "write")))
    as (s2 & E2 & Hi3); [done|done| |apply last_cleanup|].
  - intros tk' Hw'. apply (onError_inv uv _ tk' rx); [done|]. cbn. rewrite Est. by apply Hna.
  - rewrite E2. cbn [obind]. eexists. split; [done|]. by intros s' [= <-] _.
Qed.

Lemma timeout_step s rx : srvInv s rx -> undisturbed s Server.EvTimeout -> stepOk s rx Server.EvTimeout.
Proof.
  intros Hi Hna. unfold stepOk. cbn [Server.fire]. destruct (Server.session s) as [x|] eqn:Ex; [|by exists None].
  destruct (Timer.isActive x.2); [|by exists None]. cbn in Hna. unfold analyzing in Hna. rewrite Ex in Hna.
  cbn [Timer.onTimeoutCb].
  set (tm := Timer.mk _ _ _ _ _).
  assert (Hi1 : srvInv (Server.setSession s (Some (x.1.1, x.1.2, tm))) rx) by (by apply (srvInv_replace s rx x)).
  destruct (Timer.callback x.2); [|eexists; split; [done|]; by intros s' [= <-] _].
  destruct (onSession_step (Server.setSession s (Some (x.1.1, x.1.2, tm))) rx (x.1.1, x.1.2, tm) (onTimeout uv)) as (s2 & E2 & Hi2); [done|done| | |].
  - intros tk' Hw'. by apply (onTimeout_inv uv _ tk' rx).
  - apply (keeps_onTimeout uv closesLast).
  - rewrite E2. cbn [obind]. eexists. split; [done|]. by intros s' [= <-] _.
Qed.

Lemma closed_step s rx : srvInv s rx -> stepOk s rx Server.EvClosed.
Proof.
  intros Hi. unfold stepOk. cbn [Server.fire]. destruct (Server.session s) as [x|] eqn:Ex; [|by exists None].
  destruct (TcpSocket.closing x.1.2) eqn:Ecl; cbn [andb]; [|by exists None]. destruct (TcpSocket.closed x.1.2); [by exists None|].
  cbn [negb]. set (y := Server.setSock x (TcpSocket.onCloseCb x.1.2)).
  assert (Hi1 : srvInv (Server.setSession s (Some y)) rx) by (by apply (srvInv_replace s rx x)).
  destruct (srvInv_session _ rx y Hi1 eq_refl) as (tk & Hw & Hl).
  destruct (onClosed_inv _ tk rx _ Hw) as (w1 & [] & E1 & Hw1).
  unfold Server.onSession. cbn [Server.session Server.setSession]. rewrite E1. cbn [obind fst].
  eexists. split; [done|]. intros s' [= <-] _. eapply srvInv_back; [exact Hw1|]. intros _.
  assert (Hcs : cleanupStarted (sess w1) = cleanupStarted x.1.1).
  { revert E1. unfold onClosed, bind, field, get, modS, modO, ret. cbn. by repeat case_match; intros [= <-]. }
  rewrite Hcs. apply Hl. by left.
Qed.

(** A signal that was delivered. *)
Lemma srvInv_signals s rx resume abortDone :
  srvInv s rx ->
  srvInv (Server.setParser s (ParserThread.setSignals (Server.parser s) (ParserThread.completionSent (Server.parser s)) resume abortDone)) rx.
Proof.
  intros (tk & Hi). exists tk. cbn. destruct (Server.session s) as [x|].
  - destruct Hi as ((ph & sent & Hi & ? & ? & ?) & Hl). split; [|done]. exists ph, sent. split; [|done].
    apply (ParserThread.signals_Inv _ resume abortDone Hi).
  - destruct Hi as (ph & sent & Hi & ? & ?). exists ph, sent. split; [|done].
    apply (ParserThread.signals_Inv _ resume abortDone Hi).
Qed.

Lemma completion_step s rx : srvInv s rx -> stepOk s rx Server.EvCompletion.
Proof.
  intros Hi. unfold stepOk. cbn [Server.fire]. destruct (ParserThread.completionSent _) eqn:Hcs; [|by exists None].
  destruct (SessionManager.closing _) eqn:Ecl; [by exists None|]. cbn [andb negb].
  destruct (Server.session s) as [x|] eqn:Ex.
  - destruct (srvInv_session s rx x Hi Ex) as (tk & Hw & Hl).
    pose proof (onAnalysisComplete_inv uv (Server.at_ s) tk rx _ Hw Hcs) as Hc. cbn [parser Server.worldOf] in Hc.
    destruct (ParserThread.takeResult (Server.parser s)) as [p res]. destruct Hc as (tk' & w1 & [] & E1 & Hw1).
    unfold Server.onSession. cbn [Server.session Server.setParser]. rewrite Ex.
    change (Server.worldOf (Server.setParser s p) x) with (withParser (Server.worldOf s x) p).
    rewrite E1. cbn [obind fst]. eexists. split; [done|]. intros s' [= <-] _. apply (srvInv_back (Server.setParser s p) rx tk' w1 Hw1).
    by eapply (keeps_onAnalysisComplete uv closesLast).
  - exfalso. destruct Hi as (tk & Hi). rewrite Ex in Hi. destruct Hi as (ph & sent & (q & _ & _ & _ & Hm) & Hph & _).
    destruct (ParserThread.completion_phase _ q Hm Hcs) as (_ & E). cbn in E. destruct (Hph Ecl). congruence.
Qed.

Lemma resume_step s rx : srvInv s rx -> stepOk s rx Server.EvResume.
Proof.
  intros Hi. unfold stepOk. cbn [Server.fire]. destruct (_ && _); [|by exists None].
  pose proof (srvInv_signals s rx false (ParserThread.abortDoneSent (Server.parser s)) Hi) as Hi1.
  set (s1 := Server.setParser _ _) in *. destruct (Server.session s1) as [x|] eqn:Ex.
  - destruct (onSession_step s1 rx x (resumeReading uv)) as (s2 & E2 & Hi2); [done|done| |apply (keeps_resumeReading uv closesLast)|].
    + intros tk Hw. eapply runs_mono; [apply resumeReading_quiet|]. intros w' [] Hq. by eapply winv_quiet.
    + rewrite E2. eexists. split; [done|]. by intros s' [= <-] _.
  - unfold Server.onSession. rewrite Ex. eexists. split; [done|]. by intros s' [= <-] _.
Qed.

Lemma shutdown_Inv s rx : srvInv s rx -> srvInv (Server.close s) rx.
Proof.
  intros (tk & Hi). exists tk. cbn. destruct (Server.session s) as [x|].
  - destruct Hi as ((ph & sent & Hi & _ & _ & Hob) & _). exists ph, sent. split; [apply (ParserThread.stop_Inv _ Hi)|]. by split.
  - destruct Hi as (ph & sent & Hi & _ & Hob). exists ph, sent. split; [apply (ParserThread.stop_Inv _ Hi)|]. by split.
Qed.

Lemma step_ok s rx ev : srvInv s rx -> undisturbed s ev -> stepOk s (Server.heard s ev rx) ev.
Proof.
  intros Hi Hu. pose proof (srvInv_current s rx Hi) as Hc.
  assert (Hnone : Server.session s = None -> Server.current s rx = []) by (unfold Server.current; by intros ->). destruct ev as [|status|suggested nread data|request status| | | | | | |].
  - by apply parser_step.
  - by apply connection_step.
  - by apply read_step.
  - by apply written_step.
  - by apply timeout_step.
  - by apply closed_step.
  - by apply completion_step.
  - by apply resume_step.
  - destruct (ParserThread.abortDoneSent (Server.parser s) && negb (SessionManager.closing (Server.mgr s))) eqn:E.
    + eapply stepOk_yes; [cbn [Server.fire]; by rewrite E|]. apply acceptWhenParserIdle_inv; [by apply srvInv_signals|exact Hnone].
    + apply stepOk_no. cbn [Server.fire]. by rewrite E.
  - destruct (SessionManager.reaperActive (Server.mgr s)) eqn:E.
    + eapply stepOk_yes; [cbn [Server.fire]; by rewrite E|]. by apply onReap_inv.
    + apply stepOk_no. cbn [Server.fire]. by rewrite E.
  - eapply stepOk_same; [done|]. eapply srvInv_none; [done|by apply shutdown_Inv].
Qed.

Lemma init_srvInv r l chunkSize buf ts : queued r [] -> srvInv (Server.init r l chunkSize buf ts) [].
Proof.
  intros Hr. exists []. cbn. exists System.NoSession, []. split; [by apply (ParserThread.calm_Inv_init r)|]. by split.
Qed.

Lemma reachable_srvInv r l chunkSize buf ts s rx :
  queued r [] -> Server.reachable uv calmStep (Server.init r l chunkSize buf ts) s rx -> srvInv s rx.
Proof.
  intros Hr. induction 1 as [|s rx ev s' _ IH E [Hu Hn]]; [by apply init_srvInv|].
  destruct (step_ok s rx ev IH Hu) as (o & Eo & Ho). rewrite E in Eo. injection Eo as <-. by apply Ho.
Qed.
End Runs.

(** ** Runs by evaluation *)

Section Demo.
Abbreviation rserver := (Server.t (Q := Ring.t)).

Definition analyzingb (s : rserver) : bool :=
  match Server.session s with Some x => bool_decide (Session.state x.1.1 = Analyzing) | None => false end.

Definition undisturbedb (s : rserver) (ev : Server.event) : bool :=
  match ev with
  | Server.EvRead _ nread data =>
      (Ring.tail (ParserThread.ring (Server.parser s)) + (zlen data + 1) <? 2 ^ 64) && negb ((nread <? 0) && analyzingb s)
  | Server.EvWritten _ status => (status =? 0) || negb (analyzingb s)
  | Server.EvTimeout => negb (analyzingb s)
  | _ => true
  end.

Definition notCutb (s : rserver) : bool :=
  match Server.session s with
  | Some x => negb (bool_decide (Session.finishReason x.1.1 = bs "unexpected data in " ++ stateName Analyzing))
  | None => true
  end.

(** The state after [evs], if each can happen and none disturbs an analysis,
    and what its session has read. *)
Fixpoint calmExec (uv : Uv) (s : rserver) (rx : bytes) (evs : list Server.event) : option (rserver * bytes) :=
  match evs with
  | [] => Some (s, rx)
  | ev :: evs =>
      match Server.fire uv s ev with
      | Ret (Some s') => if undisturbedb s ev && notCutb s' then calmExec uv s' (Server.heard s ev rx) evs else None
      | _ => None
      end
  end.

Lemma analyzingb_spec s : analyzing s -> analyzingb s = true.
Proof. unfold analyzing, analyzingb. destruct (Server.session s); [|done]. by intros ->. Qed.

Lemma undisturbedb_spec s ev : undisturbedb s ev = true -> undisturbed s ev.
Proof.
  destruct ev; cbn; try done.
  - rewrite andb_true_iff, Z.ltb_lt. intros [? Hn]. split; [done|]. intros Hlt Ha%analyzingb_spec.
    apply Z.ltb_lt in Hlt. by rewrite Hlt, Ha in Hn.
  - rewrite orb_true_iff, Z.eqb_eq. intros [?|Hn] Hne Ha%analyzingb_spec; [done|]. by rewrite Ha in Hn.
  - intros Hn Ha%analyzingb_spec. by rewrite Ha in Hn.
Qed.

Lemma calmExec_reachable uv s0 evs : forall s rx s' rx',
  Server.reachable uv calmStep s0 s rx -> calmExec uv s rx evs = Some (s', rx') -> Server.reachable uv calmStep s0 s' rx'.
Proof.
  induction evs as [|ev evs IH]; intros s rx s' rx' Hs; cbn [calmExec]; [by intros [= <- <-]|].
  destruct (Server.fire uv s ev) as [[s1|]| |] eqn:E; try done. destruct (_ && _) eqn:Eb; [|done]. apply IH.
  apply andb_true_iff in Eb as [Eu En]. eapply Server.reach_step; [done|exact E|]. split; [by apply undisturbedb_spec|].
  unfold notCutb in En. unfold notCut, cutReading. destruct (Server.session s1); [|done]. intros [_ Hc]. by rewrite Hc in En.
Qed.

(** A server on a ring of four slots of 64 bytes, listening. *)
Definition demoServer : rserver :=
  Server.init (Ring.make 4 64) (Listener.mk true true false 0) 64 0 defaultTimeouts.

Definition demoPayload : bytes := bs "first junk line" ++ [LF] ++ bs "second".

Definition readEv (data : bytes) : Server.event := Server.EvRead 65536 (zlen data) data.

(** The upload of [demoPayload], header and first payload bytes in one read. *)
Definition uploadEvents : list Server.event :=
  [Server.EvConnection 0;
   readEv (encodeUploadHeader (mkUploadHeader (zlen demoPayload) (bs "a.log")) ++ ztake 5 demoPayload);
   Server.EvParser; Server.EvParser;
   readEv (zdrop 5 demoPayload ++ encodeUploadTrailer (mkUploadTrailer (Crc32.crc32 0 demoPayload)))] ++
  repeat Server.EvParser 14.

(** ... its result, delivered and confirmed; the session is reaped. *)
Definition downloadEvents : list Server.event :=
  [Server.EvCompletion; Server.EvWritten 1 0; readEv encodeDownloadDone; Server.EvClosed; Server.EvReap].

(** A second client asks for the same result from offset 7. *)
Definition resumeEvents : list Server.event :=
  repeat Server.EvParser 6 ++
  [Server.EvAbortDone;
   readEv (encodeResultRequest (mkResultRequest (zlen demoPayload) (Crc32.crc32 0 demoPayload) 7 (bs "a.log")))].
End Demo.

(** ** Properties *)

(** C7: the server is safe.  Whatever libuv answers, however the callbacks, the
    parser thread, the peers and the connections interleave: as long as no
    session is cut while its result is being computed, no event leads to
    undefined behaviour or to a loop that does not end. *)
Theorem server_safe {Q} `{ChunkQueue Q} (uv : Uv) (r : Q) l chunkSize buf ts s rx ev :
  queued r [] -> Server.reachable uv calmStep (Server.init r l chunkSize buf ts) s rx -> undisturbed s ev ->
  exists o, Server.fire uv s ev = Ret o.
Proof.
  intros Hr Hs Hu. destruct (step_ok uv s rx ev (reachable_srvInv uv r l chunkSize buf ts s rx Hr Hs) Hu) as (o & E & _). eauto.
Qed.

Lemma server_safe_witness :
  exists s rx, calmExec uvFine demoServer [] uploadEvents = Some (s, rx) /\
    exists o, Server.fire uvFine s Server.EvCompletion = Ret o.
Proof.
  destruct (calmExec uvFine demoServer [] uploadEvents) as [[s rx]|] eqn:E; [|vm_compute in E; discriminate].
  assert (Hs : Server.reachable uvFine calmStep demoServer s rx)
    by (eapply calmExec_reachable; [apply Server.reach_init|exact E]).
  exists s, rx. split; [reflexivity|].
  apply (server_safe uvFine (Ring.make 4 64) (Listener.mk true true false 0) 64 0 defaultTimeouts s rx Server.EvCompletion);
    [apply ringRep_make; lia|exact Hs|exact I].
Defined.

(** C2: every reply is the right one for what was read.  In any such run, with
    [rx] the bytes the session has read, what it has written is nothing; a
    refusal that [rx] justifies (no header or request starts it, the trailer's
    CRC is not the payload's, the claim or its offset is refused); the
    acknowledgement of the upload [rx] starts with, whose trailer matches its
    payload, then the header and the CSV of the analysis of exactly that
    payload; or, for the request [rx] starts with, the header and the rest, from
    the requested offset, of a retained result that its claim names. *)
Theorem server_replies_conform {Q} `{ChunkQueue Q} (uv : Uv) (r : Q) l chunkSize buf ts s rx x :
  queued r [] -> Server.reachable uv calmStep (Server.init r l chunkSize buf ts) s rx -> Server.session s = Some x ->
  conforms rx (TcpSocket.wire x.1.2).
Proof.
  intros Hr Hs Ex. destruct (reachable_srvInv uv r l chunkSize buf ts s rx Hr Hs) as (tk & Hi). rewrite Ex in Hi.
  apply (winv_conforms _ _ _ _ (proj1 Hi)).
Qed.

Lemma server_replies_conform_witness :
  exists s rx x, calmExec uvFine demoServer [] (uploadEvents ++ downloadEvents ++ resumeEvents) = Some (s, rx) /\
    Server.session s = Some x /\ map zlen (TcpSocket.wire x.1.2) = [20; 163] /\ conforms rx (TcpSocket.wire x.1.2).
Proof.
  destruct (calmExec uvFine demoServer [] (uploadEvents ++ downloadEvents ++ resumeEvents)) as [[s rx]|] eqn:E;
    [|vm_compute in E; discriminate].
  assert (Hs : Server.reachable uvFine calmStep demoServer s rx)
    by (eapply calmExec_reachable; [apply Server.reach_init|exact E]).
  destruct (Server.session s) as [x|] eqn:Ex; [|vm_compute in E; injection E as <- <-; discriminate Ex].
  exists s, rx, x. split; [reflexivity|]. split; [exact Ex|]. split.
  - vm_compute in E. injection E as <- <-. vm_compute in Ex. injection Ex as <-. vm_compute. reflexivity.
  - apply (server_replies_conform uvFine (Ring.make 4 64) (Listener.mk true true false 0) 64 0 defaultTimeouts s rx x);
      [apply ringRep_make; lia|exact Hs|exact Ex].
Defined.

(** C6: a retained result belongs to its claim.  In any such run whatever a
    claim (file name, size, CRC) is answered with is the analysis of an upload
    of that size and CRC, with the CSV's own CRC. *)
Theorem server_claims_right {Q} `{ChunkQueue Q} (uv : Uv) (r : Q) l chunkSize buf ts s rx name size crc k :
  queued r [] -> Server.reachable uv calmStep (Server.init r l chunkSize buf ts) s rx ->
  SessionManager.retainedResult (Server.mgr s) name size crc = Some k ->
  exists data res, uploadResult data res /\ zlen data = size /\ Crc32.crc32 0 data = crc /\
    kept_filename k = name /\ kept_csv k = res_csv res /\ kept_csvCrc32 k = Crc32.crc32 0 (res_csv res).
Proof.
  intros Hr Hs Hk. destruct (reachable_srvInv uv r l chunkSize buf ts s rx Hr Hs) as (tk & Hi).
  assert (Hob : obsOk (Server.mgr s)) by (destruct (Server.session s); [by destruct Hi as ((? & ? & _ & _ & _ & ?) & _)|by destruct Hi as (? & ? & _ & _ & ?)]).
  change (lookupRetainedResult (Server.mgr s) name size crc = Some k) in Hk.
  apply lookup_claim in Hk as (Hk & Hn & Hsz & Hc). apply Hob in Hk as (data & res & Hup & E1 & E2 & E3 & E4).
  exists data, res. split; [done|]. split_and!; try congruence. rewrite E4.
  by destruct Hup as (_ & ? & ? & ? & ? & ? & _ & _ & _ & _ & _ & ? & _).
Qed.

Lemma server_claims_right_witness :
  exists s rx k data res, calmExec uvFine demoServer [] (uploadEvents ++ downloadEvents) = Some (s, rx) /\
    SessionManager.retainedResult (Server.mgr s) (bs "a.log") 22 (Crc32.crc32 0 demoPayload) = Some k /\
    uploadResult data res /\ kept_csv k = res_csv res.
Proof.
  destruct (calmExec uvFine demoServer [] (uploadEvents ++ downloadEvents)) as [[s rx]|] eqn:E; [|vm_compute in E; discriminate].
  assert (Hs : Server.reachable uvFine calmStep demoServer s rx)
    by (eapply calmExec_reachable; [apply Server.reach_init|exact E]).
  destruct (SessionManager.retainedResult (Server.mgr s) (bs "a.log") 22 (Crc32.crc32 0 demoPayload)) as [k|] eqn:Ek;
    [|vm_compute in E; injection E as <- <-; vm_compute in Ek; discriminate Ek].
  destruct (server_claims_right uvFine (Ring.make 4 64) (Listener.mk true true false 0) 64 0 defaultTimeouts s rx
              (bs "a.log") 22 (Crc32.crc32 0 demoPayload) k) as (data & res & H1 & H2 & H3 & H4 & H5 & H6);
    [apply ringRep_make; lia|exact Hs|exact Ek|].
  exists s, rx, k, data, res. split; [reflexivity|]. split; [exact Ek|]. split; [exact H1|exact H5].
Defined.
