(* ===== verification/ServerTimers.v ===== *)
(** * The session's timer

    The header of Session.h assigns a timer to the states that wait for the
    peer and to no other.  Here: in every run of the server in which no session
    is cleaned up during its analysis ([calmStep]), the timer of the current
    session runs exactly when its state has a timeout, with that timeout; so a
    session is never timed out by the server's own work. *)

From S2P Require Import Prelude StringView Protocol Codec Ring ParserThread Net Session SessionInv SessionKeeps Server.
Import SessionState Session.

Section Timers.
Context (uv : Uv) {Q : Type} `{HQ : ChunkQueue Q}.
Context (Hinit : forall n, uv_timer_init uv n = 0).
Context (Hstart : forall n, uv_timer_start uv n = 0) (Hstop : forall n, uv_timer_stop uv n = 0).
Implicit Types w : Server.world (Q := Q).
Implicit Types s : Server.t (Q := Q).

(** The timer a state asks for. *)
Definition armedFor (st : SessionState.t) (ts : SessionTimeouts) (tm : Timer.t) : Prop :=
  Timer.handle tm = true /\
  if timeoutForState st ts =? 0 then Timer.active tm = false
  else Timer.active tm = true /\ Timer.callback tm = true /\ Timer.timeoutMs tm = timeoutForState st ts.

Definition timerOk w : Prop := armedFor (state (sess w)) (timeouts (sess w)) (timer w).

Lemma armed_by st ts tm :
  Timer.handle tm = true ->
  armedFor st ts (let timeout := timeoutForState st ts in
                  if timeout =? 0 then (Timer.stop uv tm).1 else (Timer.start uv tm timeout).1).
Proof.
  intros Hh. unfold armedFor. cbv zeta. destruct (_ =? 0); unfold Timer.stop, Timer.start; rewrite Hh; cbn.
  - split; [done|]. by rewrite Hstop, andb_false_r.
  - split; [done|]. rewrite Hstart, orb_true_r. by split_and!.
Qed.

Lemma armed_restart st ts tm : armedFor st ts tm -> armedFor st ts (Timer.restart uv tm).
Proof.
  intros (Hh & Ha). unfold armedFor, Timer.restart, Timer.isActive. rewrite Hh. destruct (_ =? 0).
  - by rewrite Ha.
  - destruct Ha as (Ha & Hc & Ht). rewrite Ha. cbn. by rewrite Hh, Ha, Hc, Ht.
Qed.

Lemma cleanup_timer reason w :
  Timer.handle (timer w) = true -> cleanupStarted (sess w) = false ->
  runs (cleanup uv reason) w (fun w' _ => timerOk w').
Proof.
  intros Hh Hcs. unfold cleanup. apply runs_bind, runs_get. rewrite Hcs. apply runs_bind, runs_modS, runs_bind, runs_modTimer.
  assert (Ha : armedFor Cleanup (timeouts (sess w)) (Timer.stop uv (timer w)).1) by (by apply (armed_by Cleanup)).
  apply runs_bind, runs_get, runs_bind. cbn [sess timer sock parser observer]. destruct (hasParser _);
    [apply runs_modP|apply runs_ret]; apply runs_bind, runs_get; cbn [sess timer sock parser observer];
    (destruct (hasSocket _); [apply runs_bind, runs_onSock|]; by apply runs_ret).
Qed.

#[local] Instance timerOk_stable : Stable uv timerOk.
Proof.
  split.
  - intros w x (Hc & Hs & Ht) Ha. unfold timerOk in *. cbn. by rewrite Hs, Ht.
  - done.
  - done.
  - done.
  - intros w Ha. by apply armed_restart.
  - intros reason w w' [] E Hw. destruct (cleanupStarted (sess w)) eqn:Ecs.
    + unfold cleanup, bind, field, get in E. cbn [obind fst snd] in E. rewrite Ecs in E. by injection E as <-.
    + destruct (cleanup_timer reason w (proj1 Hw) Ecs) as (w1 & [] & E1 & H1). rewrite E in E1. by injection E1 as <-.
  - intros w next [Hh _]. by apply armed_by.
Qed.

(** The session of a server, if it has one, has the timer its state asks for. *)
Definition timed s : Prop := match Server.session s with Some x => timerOk (Server.worldOf s x) | None => True end.

Lemma onSession_timed s s' m : keeps timerOk m -> Server.onSession s m = Ret s' -> timed s -> timed s'.
Proof.
  intros Hk. unfold Server.onSession. destruct (Server.session s) as [x|] eqn:Ex; [|by intros [= <-]].
  destruct (m (Server.worldOf s x)) as [[w []]| |] eqn:E; try done. cbn [obind fst]. intros [= <-] Ht.
  unfold timed in *. rewrite Ex in Ht. cbn. exact (Hk _ _ _ E Ht).
Qed.

Lemma start_timed w w' ok : start uv w = Ret (w', ok) -> ok = true -> Timer.handle (timer w) = true -> timerOk w'.
Proof.
  unfold start, bind at 1, field at 1, get at 1. cbn [obind fst snd]. destruct (hasSocket (sess w)); cbn [negb]; [|by intros [= _ <-]].
  unfold bind at 1, onSock at 1. destruct (TcpSocket.startRead uv (sock w)) as [k rc]. cbn [obind fst snd].
  destruct (rc =? 0); cbn [negb].
  2:{ unfold bind at 1. destruct (cleanup uv _ _) as [[w1 []]| |]; try done. cbn [obind fst snd]. by intros [= _ <-]. }
  unfold bind at 1, field at 1, get at 1. cbn [obind fst snd sess]. unfold bind at 1.
  set (w1 := mkWorld _ _ _ _ _). set (p := if hasParser (sess w) then _ else _).
  assert (Hp : exists q, p w1 = Ret (mkWorld (sess w) k (timer w) q (observer w), tt)).
  { unfold p, w1. destruct (hasParser (sess w)); unfold modP, ret; cbn; eauto. }
  destruct Hp as [q ->]. cbn [obind fst snd]. unfold bind at 1, armTimer, bind at 1, field at 1, get at 1. cbn [obind fst snd].
  unfold bind at 1, field, get. cbn [obind fst snd sess]. intros E _ Hh.
  pose proof (armed_by (state (sess w)) (timeouts (sess w)) (timer w) Hh) as Ha. cbv zeta in Ha.
  destruct (_ =? 0); unfold modTimer in E; cbn [obind fst snd sess] in E; unfold ret in E; injection E as <- _; exact Ha.
Qed.

Lemma accept_timed s s' : Server.acceptWhenParserIdle uv s = Ret s' -> timed s -> timed s'.
Proof.
  unfold Server.acceptWhenParserIdle, Server.acceptIfIdle. destruct (ParserThread.abortPending _); [by intros [= <-]|].
  destruct (_ || _); [by intros [= <-]|]. destruct (Listener.acceptPending _ _) as [l [k|]]; [|by intros [= <-]].
  cbv zeta. destruct (start uv _) as [[w ok]| |] eqn:E; try done. cbn [obind fst snd]. intros [= <-] _.
  unfold timed. destruct ok; cbn; [|done]. apply (start_timed _ _ _ E); [done|]. cbn. by rewrite Hinit.
Qed.

Lemma backFrom_timed s w : timerOk w -> timed (Server.backFrom s w).
Proof. by destruct w. Qed.

Lemma read_timed s s' suggested nread data :
  Server.fire uv s (Server.EvRead suggested nread data) = Ret (Some s') -> timed s -> timed s'.
Proof.
  cbn [Server.fire]. unfold timed at 1. destruct (Server.session s) as [x|]; [|done]. destruct (TcpSocket.reading _); [|done].
  unfold Server.onReadable. destruct (onAllocate suggested (Server.worldOf s x)) as [[w1 [slot capacity]]| |] eqn:E1; try done.
  cbn [obind]. intros E Hw. apply (keeps_onAllocate uv timerOk _ _ _ _ E1) in Hw. revert E.
  destruct (TcpSocket.onReadCb nread) as [| |status where_].
  - destruct (_ && _); [|done]. destruct (onRead uv data w1) as [[w2 []]| |] eqn:E2; try done. cbn [obind fst snd].
    intros [= <-]. by apply backFrom_timed, (keeps_onRead uv timerOk _ _ _ _ E2).
  - cbn [obind fst snd]. intros [= <-]. by apply backFrom_timed.
  - destruct (onError uv status where_ w1) as [[w2 []]| |] eqn:E2; try done. cbn [obind fst snd].
    intros [= <-]. by apply backFrom_timed, (stable_cleanup _ _ _ _ _ E2).
Qed.

Lemma written_timed s s' request status :
  Server.fire uv s (Server.EvWritten request status) = Ret (Some s') -> timed s -> timed s'.
Proof.
  cbn [Server.fire]. unfold timed at 1. destruct (Server.session s) as [x|]; [|done]. destruct (existsb _ _); [|done].
  set (w0 := Server.worldOf s _). intros E Hw. assert (Hw0 : timerOk w0) by exact Hw. revert E.
  destruct (onSendComplete uv status w0) as [[w1 []]| |] eqn:E1; try done. cbn [obind fst snd].
  apply (keeps_onSendComplete uv timerOk _ _ _ _ E1) in Hw0. destruct (status =? 0); [intros [= <-]; by apply backFrom_timed|].
  destruct (Server.onSession _ _) as [s1| |] eqn:E2; try done. cbn [obind]. intros [= <-].
  eapply onSession_timed; [|exact E2|by apply backFrom_timed]. exact (stable_cleanup (Stable := timerOk_stable) _ _).
Qed.

(** A timer that fires ends the session, whose timer is then stopped. *)
Lemma timeout_timed s rx s' : srvInv s rx -> Server.fire uv s Server.EvTimeout = Ret (Some s') -> timed s -> timed s'.
Proof.
  intros Hi. cbn [Server.fire]. unfold timed at 1. destruct (Server.session s) as [x|] eqn:Ex; [|done].
  destruct (Timer.isActive x.2) eqn:Eact; [|done]. cbn [Timer.onTimeoutCb]. intros E (Hh & Ha). revert E.
  apply andb_true_iff in Eact as [_ Eact]. cbn [Server.worldOf timer sess] in Hh, Ha.
  destruct (timeoutForState _ _ =? 0) eqn:Et; [congruence|]. destruct Ha as (_ & -> & _).
  destruct (srvInv_session s rx x Hi Ex) as (tk & (ph & sent & _ & Hst & _) & _).
  unfold Server.onSession. cbn [Server.session Server.setSession]. set (w0 := Server.worldOf _ _).
  assert (Hcs : cleanupStarted (sess w0) = false).
  { cbn. unfold stage in Hst. cbn in Hst. destruct (cleanupStarted x.1.1); [|done]. destruct Hst as (Es & _). by rewrite Es in Et. }
  destruct (cleanup_timer (bs "timeout in " ++ stateName (state (sess w0))) w0 Hh Hcs) as (w1 & [] & E1 & H1).
  unfold onTimeout, bind, field, get. cbn [obind fst snd]. rewrite E1. cbn [obind fst]. intros [= <-]. by apply backFrom_timed.
Qed.

Lemma onClosed_timed w w' a : onClosed w = Ret (w', a) -> timerOk w -> timerOk w'.
Proof.
  unfold onClosed, bind, field, get, modS, modO, ret. cbn [obind fst snd].
  destruct (finished (sess w)); [by cbn; intros [= <-]|]. cbn [obind fst snd].
  destruct (hasObserver _); by intros [= <-].
Qed.

Lemma closed_timed s s' : Server.fire uv s Server.EvClosed = Ret (Some s') -> timed s -> timed s'.
Proof.
  cbn [Server.fire]. unfold timed at 1. destruct (Server.session s) as [x|]; [|done]. destruct (_ && _); [|done].
  intros E Hw. revert E. unfold Server.onSession. cbn [Server.session Server.setSession].
  destruct (onClosed _) as [[w1 []]| |] eqn:E1; try done. cbn [obind fst]. intros [= <-]. apply backFrom_timed.
  exact (onClosed_timed _ _ _ E1 Hw).
Qed.

Lemma step_timed s rx ev s' : srvInv s rx -> Server.fire uv s ev = Ret (Some s') -> timed s -> timed s'.
Proof.
  intros Hi E Ht. destruct ev as [|status|suggested nread data|request status| | | | | | |].
  - cbn [Server.fire] in E. destruct (ParserThread.parserStep _ _) as [[[p c]|]| |]; try done. by injection E as <-.
  - cbn [Server.fire] in E. destruct (Listener.onConnectionCb _ _) as [[| |]|]; try (by injection E as <-).
    unfold Server.onConnection in E. destruct (SessionManager.closing _); [by injection E as <-|].
    case_bool_decide; [by injection E as <-|]. destruct (Server.acceptWhenParserIdle _ _) as [s1| |] eqn:E1; try done.
    injection E as <-. by eapply accept_timed.
  - by eapply read_timed.
  - by eapply written_timed.
  - by eapply timeout_timed.
  - by eapply closed_timed.
  - cbn [Server.fire] in E. destruct (_ && _); [|done]. destruct (ParserThread.takeResult _) as [p res].
    destruct (Server.onSession _ _) as [s1| |] eqn:E1; try done. injection E as <-.
    eapply onSession_timed; [apply (keeps_onAnalysisComplete uv timerOk)|exact E1|exact Ht].
  - cbn [Server.fire] in E. destruct (_ && _); [|done]. destruct (Server.onSession _ _) as [s1| |] eqn:E1; try done.
    injection E as <-. eapply onSession_timed; [apply (keeps_resumeReading uv timerOk)|exact E1|exact Ht].
  - cbn [Server.fire] in E. destruct (_ && _); [|done].
    destruct (Server.acceptWhenParserIdle _ _) as [s1| |] eqn:E1; try done. injection E as <-. by eapply accept_timed.
  - cbn [Server.fire] in E. destruct (SessionManager.reaperActive _); [|done]. unfold Server.onReapCb in E.
    destruct (SessionManager.reap _) as [m []]; [|by injection E as <-].
    destruct (Server.acceptWhenParserIdle _ _) as [s1| |] eqn:E1; try done. injection E as <-. by eapply accept_timed.
  - by injection E as <-.
Qed.

Lemma reachable_timed r l chunkSize buf ts s rx :
  queued r [] -> Server.reachable uv calmStep (Server.init r l chunkSize buf ts) s rx -> timed s.
Proof.
  intros Hr. induction 1 as [|s rx ev s' Hs IH E Hc]; [done|]. eapply step_timed; [|exact E|done].
  by eapply (reachable_srvInv uv).
Qed.
End Timers.

(** ** Property *)


