(* ===== verification/ServerUploads.v ===== *)
(** * The service to a client that follows the protocol

    The converse of the conformity theorem: a session that has read a complete,
    valid upload, in whatever pieces, and has not been cleaned up has
    acknowledged it; it is analysing it, or has written the whole result. *)

From S2P Require Import Prelude StringView Crc32 Protocol Codec Framer Ring Analysis ParserThread Net Session Exchange SessionInv SessionKeeps Server.
Import SessionState Session.

Section Service.
Context (name data : bytes) (Hv : validUpload name data).
Abbreviation rx := (uploadStream name data).

(** The framers do not stop short of the end of their message. *)
Lemma not_listening_header f : ~ listening f MessageType.UploadHeader MessageType.ResultRequest rx.
Proof.
  intros (_ & _ & _ & _ & _ & Hr). unfold uploadStream in Hr.
  change (encodeUploadHeader ?h) with (encodeMessage (MsgUploadHeader h)) in Hr.
  rewrite run_encoded in Hr; [done|by apply validUpload_header|by left].
Qed.

Lemma not_uploading s sent : payloadIs s sent -> ~ uploading rx s sent.
Proof.
  intros (Er & _ & Hle) (m & h & acc & E & Hm & Hh & (_ & _ & _ & _ & _ & Hrun) & Hacc). unfold uploadStream in E.
  pose proof (encodes_encode _ (validUpload_header _ _ Hv)) as Hen. cbn [encodeMessage] in Hen.
  apply (encodes_unique _ _ _ _ _ _ Hen Hm) in E as (_ & [= <-] & E). cbn in Hh.
  assert (Hz : zlen (concat sent ++ acc) = zlen data + 12) by (rewrite <- E, zlen_app; reflexivity).
  rewrite zlen_app in Hz. destruct (Z.lt_ge_cases (receivedBytes s) (fileSize s)) as [Hlt|Hge].
  - rewrite (Hacc Hlt) in Hz. change (zlen []) with 0 in Hz. lia.
  - apply app_inj_1 in E as [_ <-]; [|unfold zlen in *; lia].
    change (encodeUploadTrailer ?t) with (encodeMessage (MsgUploadTrailer t)) in Hrun.
    rewrite <- (app_nil_r (encodeMessage _)) in Hrun at 1.
    rewrite run_encoded in Hrun; [done|apply crc_trailer|by left].
Qed.

(** What the session has written. *)
Definition served (s : Session.t) (wire : list bytes) : Prop :=
  state s = Analyzing /\ wire = [ackMsg AckStatus.Ok (zlen data)] \/
  (state s = SendingResult \/ state s = WaitDone) /\
  exists res, uploadResult data res /\
    wire = [ackMsg AckStatus.Ok (zlen data); headerMsg (res_csv res) (res_crc32 res); res_csv res].

Lemma stage_served s wire ph sent : stage rx s wire ph sent -> cleanupStarted s = false -> served s wire.
Proof.
  intros Hst Hcs. unfold stage in Hst. rewrite Hcs in Hst. pose proof (uploadStream_uploaded name data Hv) as Hu.
  assert (Hre : refusedWire rx wire -> False) by (intros (? & ? & Hr & _); by eapply upload_not_refused).
  assert (Hans : answered rx wire -> exists res, uploadResult data res /\
            wire = [ackMsg AckStatus.Ok (zlen data); headerMsg (res_csv res) (res_crc32 res); res_csv res]).
  { intros [h' data' res Hu' Hres|k r Hreq _ _|k r Hreq _ _]; try (by exfalso; eapply uploaded_not_requested).
    destruct (uploaded_unique _ _ _ _ _ _ _ Hu Hu') as (_ & -> & _). eauto. }
  unfold served. destruct (state s).
  - destruct Hst as (_ & _ & _ & _ & Hst). destruct (closeAfterSend s); [by apply Hre in Hst|].
    destruct Hst as [_ Hl]. by apply not_listening_header in Hl.
  - destruct Hst as (_ & Hp & _ & _ & Hup). by apply not_uploading in Hup.
  - by destruct Hst as (_ & _ & _ & Hr%Hre).
  - destruct Hst as (_ & (Er & _) & _ & _ & -> & h & Hu'). left. split; [done|].
    destruct (uploaded_unique _ _ _ _ _ _ _ Hu Hu') as (_ & Hd & _). by rewrite Er, Hd.
  - right. split; [by left|]. apply Hans. tauto.
  - right. split; [by right|]. apply Hans. tauto.
  - done.
Qed.
End Service.

Lemma upload_served {Q} `{ChunkQueue Q} (uv : Uv) (r : Q) l chunkSize buf ts s rx x name data :
  queued r [] -> Server.reachable uv calmStep (Server.init r l chunkSize buf ts) s rx -> Server.session s = Some x ->
  validUpload name data -> rx = uploadStream name data -> cleanupStarted x.1.1 = false ->
  served data x.1.1 (TcpSocket.wire x.1.2).
Proof.
  intros Hr Hs Ex Hv -> Hcs. destruct (reachable_srvInv uv r l chunkSize buf ts s _ Hr Hs) as (tk & Hi). rewrite Ex in Hi.
  destruct Hi as ((ph & sent & _ & Hst & _) & _). exact (stage_served name data Hv _ _ _ _ Hst Hcs).
Qed.

(** ** Property *)

(** C4: a valid upload is served.  In every run in which no session is cut while
    its result is being computed, a session that has read exactly the upload of
    [data] (a valid file name, at most the maximal size), in whatever pieces
    and with whatever interleaving, and that has not been cleaned up (by a
    timeout, an error of the peer or of libuv), has acknowledged all of it and
    is analysing it, or has written the complete result: the CSV of the
    analysis of [data] behind its header. *)
Theorem valid_upload_served {Q} `{ChunkQueue Q} (uv : Uv) (r : Q) l chunkSize buf ts s rx x name data :
  queued r [] -> Server.reachable uv calmStep (Server.init r l chunkSize buf ts) s rx -> Server.session s = Some x ->
  validUpload name data -> rx = uploadStream name data -> cleanupStarted x.1.1 = false ->
  served data x.1.1 (TcpSocket.wire x.1.2).
Proof. apply upload_served. Qed.

Lemma valid_upload_served_witness :
  exists s x, calmExec uvFine demoServer [] (uploadEvents ++ [Server.EvCompletion]) = Some (s, uploadStream (bs "a.log") demoPayload) /\
    Server.session s = Some x /\ state x.1.1 = SendingResult /\ served demoPayload x.1.1 (TcpSocket.wire x.1.2).
Proof.
  destruct (calmExec uvFine demoServer [] (uploadEvents ++ [Server.EvCompletion])) as [[s rx]|] eqn:E; [|vm_compute in E; discriminate].
  assert (Hs : Server.reachable uvFine calmStep demoServer s rx)
    by (eapply calmExec_reachable; [apply Server.reach_init|exact E]).
  assert (Erx : rx = uploadStream (bs "a.log") demoPayload) by (vm_compute in E; injection E as _ <-; vm_compute; reflexivity).
  destruct (Server.session s) as [x|] eqn:Ex; [|vm_compute in E; injection E as <- _; discriminate Ex].
  assert (Hst : state x.1.1 = SendingResult /\ cleanupStarted x.1.1 = false)
    by (vm_compute in E; injection E as <- _; vm_compute in Ex; injection Ex as <-; split; reflexivity).
  exists s, x. split; [by rewrite Erx|]. split; [exact Ex|]. split; [exact (proj1 Hst)|].
  apply (valid_upload_served uvFine (Ring.make 4 64) (Listener.mk true true false 0) 64 0 defaultTimeouts s rx x (bs "a.log") demoPayload);
    [apply ringRep_make; lia|exact Hs|exact Ex| |exact Erx|exact (proj2 Hst)].
  split; [vm_compute; discriminate|]. apply isValidFilename_spec. vm_compute. reflexivity.
Defined.
