(* ===== verification/ServerConfig.v ===== *)
(** * The server's configuration (server/src/app/ServerConfig.h, .cpp)

    Command line, configuration file and their composition.  A parser returns
    the object as it leaves it and an error message when it fails; the content
    of the configuration file, if it can be opened, is an argument.  A file has
    fewer than 2^31 lines. *)

From S2P Require Import Prelude StringView Charconv Protocol Ring.

Definition kMinPort : Z := 1024.
Definition kMinChunkSize : Z := 4 * 1024.
Definition kMaxChunkSize : Z := 1024 * 1024.
Definition kMinSendBufferSize : Z := 8 * 1024.
Definition kMaxSendBufferSize : Z := 16 * 1024 * 1024.

Record ServerConfig := mkConfig {
  cf_port : Z;
  cf_daemonize : bool;
  cf_chunkSize : Z;
  cf_sendBufferSize : Z;
  cf_logPath : bytes;
  cf_configPath : bytes }.
Definition defaultConfig : ServerConfig :=
  mkConfig kDefaultPort false (64 * 1024) 0 (bs "./server.log") (bs "./server.conf").

Record CommandLine := mkCommandLine {
  cl_configPath : bytes;
  cl_daemonize : bool;
  cl_hasPort : bool;
  cl_port : Z;
  cl_helpRequested : bool }.
Definition defaultCommandLine : CommandLine := mkCommandLine (bs "./server.conf") false false 0 false.

(** [ParseResult]: [None] is ok. *)
Abbreviation ParseResult := (option bytes).

(** ** Values *)

Definition isSpace (ch : byte) : bool := bool_decide (ch = " "%byte) || bool_decide (ch = Byte.x09) || bool_decide (ch = CR).

Fixpoint trimFront (text : bytes) : bytes :=
  match text with
  | ch :: rest => if isSpace ch then trimFront rest else text
  | [] => []
  end.
Definition trimBack (text : bytes) : bytes := rev (trimFront (rev text)).
Definition trim (text : bytes) : bytes := trimBack (trimFront text).

Definition parseUnsigned (token : bytes) : option Z :=
  match token with
  | ch :: _ =>
      if negb (isDigit ch) then None
      else
        let '(ec, out, rest) := fromCharsUint 64 token 0 in
        if bool_decide (ec = Success) && bool_decide (rest = []) then Some out else None
  | [] => None
  end.

Definition applyPort (value : bytes) (out : Z) : Z * ParseResult :=
  match parseUnsigned value with
  | None => (out, Some (bs "invalid port: '" ++ value ++ bs "' (expected a number)"))
  | Some number =>
      if (number <? kMinPort) || (65535 <? number) then
        (out, Some (bs "port out of range: " ++ value ++ bs " (allowed " ++ to_string kMinPort ++ bs "-65535; below "
                    ++ to_string kMinPort ++ bs " requires root to bind)"))
      else (u16 number, None)
  end.

Definition applySize (value : bytes) (out min max : Z) (name : bytes) (allowZero : bool) : Z * ParseResult :=
  match parseUnsigned value with
  | None => (out, Some (bs "invalid " ++ name ++ bs ": '" ++ value ++ bs "' (expected a number)"))
  | Some number =>
      if allowZero && (number =? 0) then (0, None)
      else if (number <? min) || (max <? number) then
        (out, Some (name ++ bs " out of range: " ++ value ++ bs " (allowed " ++ to_string min ++ bs "-" ++ to_string max
                    ++ (if allowZero then bs ", or 0 for kernel autotuning)" else bs ")")))
      else (number, None)
  end.

(** ** The command line *)

Definition usageText : bytes :=
  bs "Usage: server [-d] [-p PORT] [-c CONFIG]" ++ [LF] ++
  bs "  -d           run as a daemon (double-fork, detach from terminal)" ++ [LF] ++
  bs "  -p PORT      listen port (default: " ++ to_string kDefaultPort ++ bs ")" ++ [LF] ++
  bs "  -c CONFIG    config file path (default: ./server.conf)" ++ [LF] ++
  bs "  -h, --help   show this message" ++ [LF].

(** The loop over the arguments that are left. *)
Fixpoint parseArguments (args : list bytes) (out : CommandLine) : CommandLine * ParseResult :=
  match args with
  | [] => (out, None)
  | arg :: args =>
      if bool_decide (arg = bs "-h") || bool_decide (arg = bs "--help") then
        (mkCommandLine (cl_configPath out) (cl_daemonize out) (cl_hasPort out) (cl_port out) true, None)
      else if bool_decide (arg = bs "-d") then
        parseArguments args (mkCommandLine (cl_configPath out) true (cl_hasPort out) (cl_port out) (cl_helpRequested out))
      else if bool_decide (arg = bs "-p") then
        match args with
        | [] => (out, Some (bs "-p requires a port number"))
        | value :: args =>
            let '(port, error) := applyPort value (cl_port out) in
            match error with
            | Some _ => (mkCommandLine (cl_configPath out) (cl_daemonize out) (cl_hasPort out) port (cl_helpRequested out), error)
            | None => parseArguments args (mkCommandLine (cl_configPath out) (cl_daemonize out) true port (cl_helpRequested out))
            end
        end
      else if bool_decide (arg = bs "-c") then
        match args with
        | [] => (out, Some (bs "-c requires a config file path"))
        | value :: args =>
            if bool_decide (value = []) then (out, Some (bs "-c requires a non-empty path"))
            else parseArguments args (mkCommandLine value (cl_daemonize out) (cl_hasPort out) (cl_port out) (cl_helpRequested out))
        end
      else (out, Some (bs "unknown argument: '" ++ arg ++ bs "'"))
  end.
Definition parseCommandLine (argv : list bytes) (out : CommandLine) : CommandLine * ParseResult :=
  parseArguments (drop 1 argv) out.

(** ** The configuration file *)

(** The lines [std::getline] gives. *)
Fixpoint getlines (line text : bytes) : list bytes :=
  match text with
  | [] => if bool_decide (line = []) then [] else [line]
  | b :: text => if bool_decide (b = LF) then line :: getlines [] text else getlines (line ++ [b]) text
  end.

Definition setPort (c : ServerConfig) (p : Z) : ServerConfig :=
  mkConfig p (cf_daemonize c) (cf_chunkSize c) (cf_sendBufferSize c) (cf_logPath c) (cf_configPath c).
Definition setChunkSize (c : ServerConfig) (n : Z) : ServerConfig :=
  mkConfig (cf_port c) (cf_daemonize c) n (cf_sendBufferSize c) (cf_logPath c) (cf_configPath c).
Definition setSendBufferSize (c : ServerConfig) (n : Z) : ServerConfig :=
  mkConfig (cf_port c) (cf_daemonize c) (cf_chunkSize c) n (cf_logPath c) (cf_configPath c).
Definition setLogPath (c : ServerConfig) (p : bytes) : ServerConfig :=
  mkConfig (cf_port c) (cf_daemonize c) (cf_chunkSize c) (cf_sendBufferSize c) p (cf_configPath c).

(** The end of the loop's body: a key and its value. *)
Definition applyKey (key value where_ : bytes) (out : ServerConfig) : ServerConfig * ParseResult :=
  let failed (e : ParseResult) := match e with Some e => Some (e ++ where_) | None => None end in
  if bool_decide (key = bs "port") then
    let '(n, e) := applyPort value (cf_port out) in (setPort out n, failed e)
  else if bool_decide (key = bs "chunk_size") then
    let '(n, e) := applySize value (cf_chunkSize out) kMinChunkSize kMaxChunkSize (bs "chunk_size") false in (setChunkSize out n, failed e)
  else if bool_decide (key = bs "snd_buf_size") then
    let '(n, e) := applySize value (cf_sendBufferSize out) kMinSendBufferSize kMaxSendBufferSize (bs "snd_buf_size") true in
    (setSendBufferSize out n, failed e)
  else if bool_decide (key = bs "log_path") then (setLogPath out value, None)
  else (out, Some (bs "unknown config key: '" ++ key ++ bs "'" ++ where_)).

(** The loop's body on one line. *)
Definition parseLine (lineNumber : Z) (rawLine : bytes) (out : ServerConfig) : ServerConfig * ParseResult :=
  let line := trim rawLine in
  match line with
  | [] => (out, None)
  | ch :: _ =>
      if bool_decide (ch = "#"%byte) then (out, None)
      else
        let where_ := bs " (line " ++ to_string lineNumber ++ bs ")" in
        match vfind line "="%byte 0 with
        | None => (out, Some (bs "missing '=' in config" ++ where_ ++ bs ": '" ++ line ++ bs "'"))
        | Some separator =>
            let key := trim (ztake separator line) in
            let value := trim (zdrop (separator + 1) line) in
            if bool_decide (key = []) then (out, Some (bs "empty key in config" ++ where_))
            else if bool_decide (value = []) then (out, Some (bs "empty value for '" ++ key ++ bs "'" ++ where_))
            else applyKey key value where_ out
        end
  end.

Fixpoint parseLines (lineNumber : Z) (lines : list bytes) (out : ServerConfig) : ServerConfig * ParseResult :=
  match lines with
  | [] => (out, None)
  | line :: lines =>
      let '(out, e) := parseLine (lineNumber + 1) line out in
      match e with
      | Some _ => (out, e)
      | None => parseLines (lineNumber + 1) lines out
      end
  end.
Definition parseConfigText (text : bytes) (out : ServerConfig) : ServerConfig * ParseResult := parseLines 0 (getlines [] text) out.

Definition buildConfig (cli : CommandLine) (file : option bytes) : ServerConfig * ParseResult :=
  let d := defaultConfig in
  let out := mkConfig (cf_port d) (cf_daemonize d) (cf_chunkSize d) (cf_sendBufferSize d) (cf_logPath d) (cl_configPath cli) in
  let '(out, e) := match file with Some text => parseConfigText text out | None => (out, None) end in
  match e with
  | Some e => (out, Some (bs "config file '" ++ cl_configPath cli ++ bs "': " ++ e))
  | None =>
      let out := mkConfig (cf_port out) (cl_daemonize cli) (cf_chunkSize out) (cf_sendBufferSize out) (cf_logPath out) (cf_configPath out) in
      (if cl_hasPort cli then setPort out (cl_port cli) else out, None)
  end.

(** The beginning of main: what is printed, or the configuration to run with. *)
Definition configure (argv : list bytes) (files : bytes -> option bytes) : ServerConfig + bytes :=
  let '(cli, e) := parseCommandLine argv defaultCommandLine in
  match e with
  | Some e => inr (bs "error: " ++ e ++ [LF; LF] ++ usageText)
  | None =>
      if cl_helpRequested cli then inr usageText
      else
        let '(c, e) := buildConfig cli (files (cl_configPath cli)) in
        match e with
        | Some e => inr (bs "error: " ++ e ++ [LF])
        | None => inl c
        end
  end.

Example configure_demo :
  configure [bs "server"; bs "-p"; bs "9000"; bs "-d"]
    (fun _ => Some (bs "# demo" ++ [LF] ++ bs "port = 7000" ++ [CR; LF] ++ bs " chunk_size=131072 "))
  = inl (mkConfig 9000 true 131072 0 (bs "./server.log") (bs "./server.conf")).
Proof. vm_compute. reflexivity. Qed.
Example configure_rejects :
  configure [bs "server"] (fun _ => Some (bs "chunck_size=4096"))
  = inr (bs "error: config file './server.conf': unknown config key: 'chunck_size' (line 1)" ++ [LF]).
Proof. vm_compute. reflexivity. Qed.

(** ** What a text means

    A line is blank, a comment, or one of the four keys with a value; the
    settings a text lists, line by line, are what the parser applies. *)

Definition spaces (s : bytes) : Prop := forallb isSpace s = true.
Definition starts (s : bytes) : Prop := match s with ch :: _ => isSpace ch = false | [] => False end.
Definition word (s : bytes) : Prop := starts s /\ starts (rev s).
Definition decimal (s : bytes) (n : Z) : Prop := s <> [] /\ forallb isDigit s = true /\ digitsVal s = n.

Inductive setting := Idle | Port (n : Z) | ChunkSize (n : Z) | SendBufferSize (n : Z) | LogPath (path : bytes).

Definition applySetting (c : ServerConfig) (s : setting) : ServerConfig :=
  match s with
  | Idle => c
  | Port n => setPort c n
  | ChunkSize n => setChunkSize c n
  | SendBufferSize n => setSendBufferSize c n
  | LogPath p => setLogPath c p
  end.

Inductive assigns : bytes -> bytes -> setting -> Prop :=
| AssignPort v n : decimal v n -> kMinPort <= n <= 65535 -> assigns (bs "port") v (Port n)
| AssignChunkSize v n : decimal v n -> kMinChunkSize <= n <= kMaxChunkSize -> assigns (bs "chunk_size") v (ChunkSize n)
| AssignSendBufferSize v n :
    decimal v n -> n = 0 \/ kMinSendBufferSize <= n <= kMaxSendBufferSize -> assigns (bs "snd_buf_size") v (SendBufferSize n)
| AssignLogPath v : assigns (bs "log_path") v (LogPath v).

Inductive lineMeans : bytes -> setting -> Prop :=
| LineBlank l : spaces l -> lineMeans l Idle
| LineComment a l : spaces a -> lineMeans (a ++ "#"%byte :: l) Idle
| LineAssign a key b c value d s :
    spaces a -> spaces b -> spaces c -> spaces d -> word value -> assigns key value s ->
    lineMeans (a ++ key ++ b ++ "="%byte :: c ++ value ++ d) s.

(** ** Trimming *)

Lemma spaces_app a b : spaces (a ++ b) <-> spaces a /\ spaces b.
Proof. unfold spaces. rewrite forallb_app. apply andb_true_iff. Qed.
Lemma spaces_rev a : spaces (rev a) <-> spaces a.
Proof.
  unfold spaces. rewrite !forallb_forall. split; intros H x Hx; apply H; [by rewrite <- in_rev|by rewrite in_rev].
Qed.
Lemma spaces_no c a : isSpace c = false -> spaces a -> ~ c ∈ a.
Proof. unfold spaces. rewrite forallb_forall. intros Hc H Hin%list_elem_of_In%H. congruence. Qed.

Lemma trimFront_app a s : spaces a -> trimFront (a ++ s) = trimFront s.
Proof. induction a as [|ch a IH]; [done|]. unfold spaces. cbn. intros [-> H]%andb_true_iff. by apply IH. Qed.
Lemma trimFront_starts s : starts s -> trimFront s = s.
Proof. destruct s; [done|]. cbn. by intros ->. Qed.
Lemma trimFront_spec s : exists a, s = a ++ trimFront s /\ spaces a /\ (trimFront s = [] \/ starts (trimFront s)).
Proof.
  induction s as [|ch s (a & E & Ha & IH)]; [by exists []; split_and!; [done..|left]|]. cbn. destruct (isSpace ch) eqn:Hc.
  - exists (ch :: a). unfold spaces. cbn. rewrite Hc, <- E. auto.
  - exists []. split_and!; [done..|by right].
Qed.

Lemma starts_app a b : starts a -> starts (a ++ b).
Proof. destruct a; [done|exact id]. Qed.
Lemma word_app a m b : starts a -> starts (rev b) -> word (a ++ m ++ b).
Proof. intros Ha Hb. split; [by apply starts_app|]. rewrite !rev_app_distr, <- app_assoc. by apply starts_app. Qed.

Lemma trim_word a w b : spaces a -> spaces b -> word w -> trim (a ++ w ++ b) = w.
Proof.
  intros Ha Hb [Hs He]. unfold trim, trimBack. rewrite trimFront_app by done.
  rewrite (trimFront_starts (w ++ b)) by (by apply starts_app).
  rewrite rev_app_distr, trimFront_app, trimFront_starts by (done || by apply spaces_rev). apply rev_involutive.
Qed.
Lemma trim_spec s : exists a b, s = a ++ trim s ++ b /\ spaces a /\ spaces b /\ (trim s = [] \/ word (trim s)).
Proof.
  destruct (trimFront_spec s) as (a & E & Ha & Hs). unfold trim, trimBack.
  destruct (trimFront_spec (rev (trimFront s))) as (b & Eb & Hb & He).
  apply (f_equal (@rev byte)) in Eb. rewrite rev_involutive, rev_app_distr in Eb.
  exists a, (rev b). rewrite <- Eb, spaces_rev. split_and!; [done..|].
  destruct He as [->|He]; [by left|right]. unfold word. rewrite rev_involutive. split; [|done].
  destruct (rev (trimFront (rev (trimFront s)))) as [|ch r] eqn:Er.
  - apply (f_equal (@rev byte)) in Er. rewrite rev_involutive in Er. by rewrite Er in He.
  - rewrite Eb in Hs. by destruct Hs.
Qed.
Lemma trim_spaces s : trim s = [] <-> spaces s.
Proof.
  split.
  - destruct (trim_spec s) as (a & b & E & Ha & Hb & _). intros Hn. rewrite Hn in E. rewrite E, spaces_app. done.
  - intros H. unfold trim. rewrite <- (app_nil_r s), trimFront_app by done. done.
Qed.

(** ** Values and lines *)

Lemma parseUnsigned_spec v n : parseUnsigned v = Some n <-> decimal v n /\ n <= 2 ^ 64 - 1.
Proof.
  unfold parseUnsigned, decimal, fromCharsUint. split.
  - destruct v as [|ch v]; [done|]. destruct (negb (isDigit ch)) eqn:Hc; [done|].
    destruct (spanDigits (ch :: v)) as [d r] eqn:E. apply spanDigits_spec in E as [E D].
    destruct d as [|b d]; [done|]. destruct (Z.ltb_spec (2 ^ 64 - 1) (digitsVal (b :: d))); [done|].
    destruct (bool_decide_reflect (r = [])) as [->|]; [|done]. rewrite app_nil_r in E. rewrite E. by intros [= <-].
  - intros ((Hv & D & <-) & Hn). rewrite spanDigits_all by done. destruct v as [|ch v]; [done|].
    cbn [forallb] in D. apply andb_true_iff in D as [-> _].
    by destruct (Z.ltb_spec (2 ^ 64 - 1) (digitsVal (ch :: v))); [lia|].
Qed.

Lemma applyPort_spec v out n : applyPort v out = (n, None) <-> decimal v n /\ kMinPort <= n <= 65535.
Proof.
  unfold applyPort. split.
  - destruct (parseUnsigned v) as [k|] eqn:E; [|done]. apply parseUnsigned_spec in E as [E _].
    destruct (Z.ltb_spec k kMinPort), (Z.ltb_spec 65535 k); cbn; try done. unfold kMinPort in *.
    rewrite uwrap_small by (unfold is_uint; lia). intros [= <-]. split; [done|lia].
  - intros [D Hn]. unfold kMinPort in *. rewrite (proj2 (parseUnsigned_spec v n)) by (split; [done|lia]).
    destruct (Z.ltb_spec n 1024), (Z.ltb_spec 65535 n); cbn; try lia. by rewrite uwrap_small by (unfold is_uint; lia).
Qed.
Lemma applySize_spec v out min max name zero n :
  max <= 2 ^ 64 - 1 ->
  applySize v out min max name zero = (n, None) <-> decimal v n /\ (zero = true /\ n = 0 \/ min <= n <= max).
Proof.
  intros Hmax. unfold applySize. split.
  - destruct (parseUnsigned v) as [k|] eqn:E; [|done]. apply parseUnsigned_spec in E as [E _].
    destruct zero, (Z.eqb_spec k 0), (Z.ltb_spec k min), (Z.ltb_spec max k); cbn; try done; intros [= <-];
      (split; [congruence|]); first [by left|by right].
  - intros [D Hn]. rewrite (proj2 (parseUnsigned_spec v n)) by (split; [done|lia]).
    destruct zero, (Z.eqb_spec n 0), (Z.ltb_spec n min), (Z.ltb_spec max n); cbn; try by (exfalso; lia || naive_solver lia).
    all: by subst.
Qed.

Lemma applied_spec (r : Z * ParseResult) (f : Z -> ServerConfig) (w : bytes) c' :
  (let '(n, e) := r in (f n, match e with Some e => Some (e ++ w) | None => None end)) = (c', None) <->
  exists n, r = (n, None) /\ c' = f n.
Proof. destruct r as [n [e|]]; [naive_solver|]. split; [intros [= <-]; eauto|naive_solver]. Qed.

Lemma applyKey_spec key v w c c' :
  applyKey key v w c = (c', None) <-> exists s, assigns key v s /\ c' = applySetting c s.
Proof.
  unfold applyKey. repeat case_bool_decide; subst; rewrite ?applied_spec.
  - setoid_rewrite applyPort_spec. split; [intros (n & [D R] & ->); eexists; split; [by constructor|done]|].
    intros (s & Hs & ->). inversion Hs; subst. eauto.
  - setoid_rewrite applySize_spec; [|done]. split.
    + intros (n & [D [[? _]|R]] & ->); [done|]. eexists. split; [by constructor|done].
    + intros (s & Hs & ->). inversion Hs; subst. eauto.
  - setoid_rewrite applySize_spec; [|done]. split.
    + intros (n & [D R] & ->). eexists. split; [constructor; [done|naive_solver]|done].
    + intros (s & Hs & ->). inversion Hs; subst. eexists. split; [split; [done|naive_solver]|done].
  - split; [intros [= <-]; eexists; split; [constructor|done]|]. intros (s & Hs & ->). by inversion Hs.
  - split; [done|]. intros (s & Hs & ->). by destruct Hs.
Qed.

(** No setting's key holds an equals sign, or begins with a space or a hash. *)
Lemma assigns_key key v s :
  assigns key v s -> word key /\ ~ "="%byte ∈ key /\ (forall k, key <> "#"%byte :: k).
Proof. destruct 1; (split_and!; [done|by apply (bool_decide_unpack _)|done]). Qed.

Lemma trim_head a ch l : spaces a -> isSpace ch = false -> exists l', trim (a ++ ch :: l) = ch :: l'.
Proof.
  intros Ha Hc. unfold trim. rewrite trimFront_app by done. cbn. rewrite Hc. unfold trimBack. cbn.
  enough (forall s, exists t, trimFront (s ++ [ch]) = t ++ [ch]) as H.
  { destruct (H (rev l)) as [t ->]. rewrite rev_app_distr. cbn. eauto. }
  induction s as [|x s [t IH]]; cbn; [rewrite Hc; by exists []|]. destruct (isSpace x); [eauto|by exists (x :: s)].
Qed.

Lemma zdrop_sep (p : bytes) ch q : zdrop (zlen p + 1) (p ++ ch :: q) = q.
Proof. change (p ++ ch :: q) with (p ++ [ch] ++ q). rewrite app_assoc. by apply zdrop_pre; rewrite zlen_app. Qed.

(** The line, its key and its value as [parseLine] cuts them. *)
Lemma parseLine_assign a key b c value d k out s :
  spaces a -> spaces b -> spaces c -> spaces d -> word value -> assigns key value s ->
  parseLine k (a ++ key ++ b ++ "="%byte :: c ++ value ++ d) out = (applySetting out s, None).
Proof.
  intros Ha Hb Hc Hd Hv Hs. destruct (assigns_key _ _ _ Hs) as ([Ks Ke] & Keq & Kh). unfold parseLine.
  replace (a ++ key ++ b ++ "="%byte :: c ++ value ++ d) with (a ++ (key ++ (b ++ "="%byte :: c) ++ value) ++ d)
    by by rewrite <- !app_assoc.
  rewrite trim_word by (done || by apply word_app, Hv).
  destruct (key ++ (b ++ "="%byte :: c) ++ value) as [|ch r] eqn:E; [by destruct key|].
  rewrite bool_decide_eq_false_2 by (intros ->; destruct key; [done|]; by injection E as -> _; eapply Kh).
  replace (ch :: r) with ([] ++ (key ++ b) ++ "="%byte :: (c ++ value)) by by rewrite <- E, <- !app_assoc.
  assert (~ "="%byte ∈ b) by by apply spaces_no.
  rewrite vfind_pre by (done || by rewrite elem_of_app; naive_solver). rewrite Z.add_0_l. cbn [app].
  rewrite ztake_length_app.
  rewrite zdrop_sep.
  change (trim (key ++ b)) with (trim ([] ++ key ++ b)). rewrite (trim_word [] key b) by done.
  replace (c ++ value) with (c ++ value ++ []) by by rewrite app_nil_r. rewrite trim_word by done.
  rewrite !bool_decide_eq_false_2 by (intros ->; by destruct Hv || by destruct Hs). apply applyKey_spec. eauto.
Qed.

Lemma parseLine_spec k l c c' :
  parseLine k l c = (c', None) <-> exists s, lineMeans l s /\ c' = applySetting c s.
Proof.
  split.
  - unfold parseLine. destruct (trim_spec l) as (a & b & E & Ha & Hb & _).
    destruct (trim l) as [|ch r] eqn:Et; [intros [= <-]; exists Idle; split; [constructor; by apply trim_spaces|done]|].
    case_bool_decide as Hch.
    { intros [= <-]. exists Idle. rewrite E, Hch. split; [by apply (LineComment a (r ++ b))|done]. }
    destruct (vfind (ch :: r) _ 0) as [n|] eqn:Ef; [|done].
    apply (vfind_pre_inv []) in Ef as (p & q & Epq & _ & ->); [|done]. rewrite Epq in E |- *. rewrite Z.add_0_l, ztake_length_app.
    rewrite zdrop_sep.
    destruct (trim_spec p) as (a1 & b1 & Ep & Ha1 & Hb1 & _), (trim_spec q) as (a2 & b2 & Eq & Ha2 & Hb2 & Hq).
    repeat case_bool_decide; [done..|]. intros (s & Hs & ->)%applyKey_spec. exists s. split; [|done].
    destruct Hq as [|Hq]; [done|].
    replace l with ((a ++ a1) ++ trim p ++ b1 ++ "="%byte :: a2 ++ trim q ++ b2 ++ b).
    { constructor; try done; by apply spaces_app. }
    clear -E Ep Eq. generalize dependent (trim p). generalize dependent (trim q). intros ? -> ? ->.
    rewrite E, <- !app_assoc. cbn. by rewrite <- !app_assoc.
  - intros (s & Hl & ->). destruct Hl.
    + unfold parseLine. by rewrite (proj2 (trim_spaces l)).
    + unfold parseLine. destruct (trim_head a "#"%byte l) as [l' ->]; [done..|]. by rewrite bool_decide_eq_true_2.
    + by apply parseLine_assign.
Qed.

Lemma parseLines_spec ls : forall k c c',
  parseLines k ls c = (c', None) <-> exists ss, Forall2 lineMeans ls ss /\ c' = fold_left applySetting ss c.
Proof.
  induction ls as [|l ls IH]; intros k c c'; cbn [parseLines].
  - split; [intros [= <-]; by exists []|]. intros (ss & H%Forall2_nil_inv_l & ->). by subst.
  - destruct (parseLine (k + 1) l c) as [c1 [e|]] eqn:E.
    + split; [done|]. intros (ss & (s & ss' & Hs & _ & ->)%Forall2_cons_inv_l & ->).
      by rewrite (proj2 (parseLine_spec (k + 1) l c (applySetting c s))) in E by eauto.
    + apply parseLine_spec in E as (s & Hs & ->). rewrite IH. split.
      * intros (ss & Hss & ->). exists (s :: ss). eauto.
      * intros (ss & (s' & ss' & Hs' & Hss & ->)%Forall2_cons_inv_l & ->). exists ss'. split; [done|]. cbn. f_equal.
        pose proof (proj2 (parseLine_spec k l c _) (ex_intro _ s (conj Hs eq_refl))).
        pose proof (proj2 (parseLine_spec k l c _) (ex_intro _ s' (conj Hs' eq_refl))). congruence.
Qed.

(** ** What the arguments mean *)

Inductive argument := Daemonize | ListenPort (n : Z) | ConfigPath (path : bytes).

Definition applyArgument (c : CommandLine) (o : argument) : CommandLine :=
  match o with
  | Daemonize => mkCommandLine (cl_configPath c) true (cl_hasPort c) (cl_port c) (cl_helpRequested c)
  | ListenPort n => mkCommandLine (cl_configPath c) (cl_daemonize c) true n (cl_helpRequested c)
  | ConfigPath p => mkCommandLine p (cl_daemonize c) (cl_hasPort c) (cl_port c) (cl_helpRequested c)
  end.

Inductive argsMean : list bytes -> list argument -> Prop :=
| ArgsEnd : argsMean [] []
| ArgsDaemonize args os : argsMean args os -> argsMean (bs "-d" :: args) (Daemonize :: os)
| ArgsPort v n args os :
    decimal v n -> kMinPort <= n <= 65535 -> argsMean args os -> argsMean (bs "-p" :: v :: args) (ListenPort n :: os)
| ArgsConfig path args os : path <> [] -> argsMean args os -> argsMean (bs "-c" :: path :: args) (ConfigPath path :: os).

Lemma parseArguments_complete args os : argsMean args os -> forall c,
  parseArguments args c = (fold_left applyArgument os c, None).
Proof.
  induction 1 as [|args os _ IH|v n args os D R _ IH|path args os Hp _ IH]; intros c; [done|..]; cbn [parseArguments fold_left].
  - apply IH.
  - rewrite (proj2 (applyPort_spec v (cl_port c) n)) by done. apply IH.
  - rewrite (bool_decide_eq_false_2 (path = [])) by done. apply IH.
Qed.
Lemma parseArguments_sound args : forall c c',
  parseArguments args c = (c', None) -> cl_helpRequested c' = false ->
  exists os, argsMean args os /\ c' = fold_left applyArgument os c.
Proof.
  induction args as [args IH] using (well_founded_induction (well_founded_ltof _ (@length bytes))).
  intros c c'. destruct args as [|arg args]; [intros [= <-] _; exists []; by split; [constructor|]|]. cbn [parseArguments].
  destruct (_ || _); [by intros [= <-]|]. case_bool_decide; [subst|].
  { intros E1 Hh. apply IH in E1 as (os & Ho & ->); [|unfold ltof; cbn; lia|done]. exists (Daemonize :: os). by split; [constructor|]. }
  case_bool_decide; [subst; destruct args as [|v args]; [done|]|].
  { destruct (applyPort v (cl_port c)) as [n [e|]] eqn:E; [done|]. apply applyPort_spec in E as [D R].
    intros E1 Hh. apply IH in E1 as (os & Ho & ->); [|unfold ltof; cbn; lia|done]. exists (ListenPort n :: os). by split; [constructor|]. }
  case_bool_decide; [subst; destruct args as [|v args]; [done|]|done].
  case_bool_decide; [done|]. intros E1 Hh. apply IH in E1 as (os & Ho & ->); [|unfold ltof; cbn; lia|done].
  exists (ConfigPath v :: os). by split; [constructor|].
Qed.

(** A file that cannot be opened sets nothing. *)
Definition fileMeans (file : option bytes) (ss : list setting) : Prop :=
  match file with
  | Some text => Forall2 lineMeans (getlines [] text) ss
  | None => ss = []
  end.

(** The configuration that arguments and settings make: defaults, then the
    settings in order, then the arguments. *)
Definition configured (os : list argument) (ss : list setting) : ServerConfig :=
  let cli := fold_left applyArgument os defaultCommandLine in
  let d := defaultConfig in
  let c := fold_left applySetting ss
    (mkConfig (cf_port d) false (cf_chunkSize d) (cf_sendBufferSize d) (cf_logPath d) (cl_configPath cli)) in
  mkConfig (if cl_hasPort cli then cl_port cli else cf_port c) (cl_daemonize cli) (cf_chunkSize c) (cf_sendBufferSize c)
    (cf_logPath c) (cf_configPath c).

Lemma applyArguments_help os : forall c, cl_helpRequested (fold_left applyArgument os c) = cl_helpRequested c.
Proof. induction os as [|o os IH]; intros c; [done|]. cbn. rewrite IH. by destruct o. Qed.

Lemma buildConfig_spec cli file c :
  buildConfig cli file = (c, None) <-> exists ss, fileMeans file ss /\
    c = let d := defaultConfig in
        let c := fold_left applySetting ss
          (mkConfig (cf_port d) false (cf_chunkSize d) (cf_sendBufferSize d) (cf_logPath d) (cl_configPath cli)) in
        mkConfig (if cl_hasPort cli then cl_port cli else cf_port c) (cl_daemonize cli) (cf_chunkSize c) (cf_sendBufferSize c)
          (cf_logPath c) (cf_configPath c).
Proof.
  unfold buildConfig, fileMeans. destruct file as [text|].
  - unfold parseConfigText. split.
    + destruct (parseLines 0 _ _) as [c1 [e|]] eqn:E; [done|]. apply parseLines_spec in E as (ss & Hss & ->).
      intros [= <-]. exists ss. split; [done|]. by destruct (cl_hasPort cli).
    + intros (ss & Hss & ->). erewrite (proj2 (parseLines_spec _ 0 _ _)) by (exists ss; split; [exact Hss|reflexivity]).
      by destruct (cl_hasPort cli).
  - split; [intros [= <-]; exists []; split; [done|]; by destruct (cl_hasPort cli)|].
    intros (ss & -> & ->). by destruct (cl_hasPort cli).
Qed.

Lemma configure_means argv files c :
  configure argv files = inl c <->
  exists os ss, argsMean (drop 1 argv) os /\
    fileMeans (files (cl_configPath (fold_left applyArgument os defaultCommandLine))) ss /\ c = configured os ss.
Proof.
  unfold configure, parseCommandLine. split.
  - destruct (parseArguments _ _) as [cli [e|]] eqn:E; [done|]. destruct (cl_helpRequested cli) eqn:Hh; [done|].
    apply parseArguments_sound in E as (os & Ho & ->); [|done].
    destruct (buildConfig _ _) as [c1 [e|]] eqn:Eb; [done|]. intros [= <-]. apply buildConfig_spec in Eb as (ss & Hss & ->). eauto.
  - intros (os & ss & Ho & Hss & ->). rewrite (parseArguments_complete _ _ Ho), applyArguments_help. cbn [cl_helpRequested defaultCommandLine].
    by erewrite (proj2 (buildConfig_spec _ _ _)) by (exists ss; split; [exact Hss|reflexivity]).
Qed.


(** ** Validity *)

Definition configOk (c : ServerConfig) : Prop :=
  kMinPort <= cf_port c <= 65535 /\ kMinChunkSize <= cf_chunkSize c <= kMaxChunkSize /\
  (cf_sendBufferSize c = 0 \/ kMinSendBufferSize <= cf_sendBufferSize c <= kMaxSendBufferSize) /\ cf_logPath c <> [].

Lemma lineMeans_ok l s c : lineMeans l s -> configOk c -> configOk (applySetting c s).
Proof.
  unfold configOk. destruct 1 as [| |a key b d value e s _ _ _ _ [Hv _] Hs]; [done..|].
  destruct Hs; cbn; naive_solver.
Qed.
Lemma settings_ok ls ss : Forall2 lineMeans ls ss -> forall c, configOk c -> configOk (fold_left applySetting ss c).
Proof. induction 1; intros c Hc; [done|]. cbn. eauto using lineMeans_ok. Qed.
Lemma arguments_ok args os : argsMean args os -> forall c, (cl_hasPort c = true -> kMinPort <= cl_port c <= 65535) ->
  let c' := fold_left applyArgument os c in cl_hasPort c' = true -> kMinPort <= cl_port c' <= 65535.
Proof. induction 1; intros c Hc; [done|..]; cbn; eauto. Qed.

(** C21: whatever the arguments and the configuration file are, a
    configuration the server starts with has a port that needs no privilege
    and fits 16 bits, a chunk size between 4 KiB and 1 MiB, a send buffer size
    that is zero or between 8 KiB and 16 MiB (so the narrowing to int is
    exact) and a log path; and the ring the server allocates for that chunk
    size has at least two slots and stays within its memory budget. *)
Theorem config_valid argv files c :
  configure argv files = inl c ->
  configOk c /\ 0 <= cf_sendBufferSize c < 2 ^ 31 /\
  kMinSlotCount <= ringSlotCountFor (cf_chunkSize c) /\ ringSlotCountFor (cf_chunkSize c) * cf_chunkSize c <= kRingBudgetBytes.
Proof.
  intros H. assert (configOk c) as Hc.
  { apply configure_means in H as (os & ss & Ho & Hss & ->). pose proof (arguments_ok _ _ Ho defaultCommandLine ltac:(done)) as Hp.
    assert (forall path, configOk (fold_left applySetting ss (mkConfig kDefaultPort false (64 * 1024) 0 (bs "./server.log") path))) as Hs.
    { intros path. assert (configOk (mkConfig kDefaultPort false (64 * 1024) 0 (bs "./server.log") path)) by (split_and!; auto; done).
      destruct (files _); [by eapply settings_ok|by cbn in Hss; subst]. }
    unfold configured. specialize (Hs (cl_configPath (fold_left applyArgument os defaultCommandLine))).
    destruct (cl_hasPort _) eqn:E; [|exact Hs]. split; [exact (Hp E)|exact (proj2 Hs)]. }
  destruct Hc as (Hport & Hchunk & Hsend & Hlog). unfold kMinChunkSize, kMaxChunkSize, kMinSendBufferSize, kMaxSendBufferSize in *.
  destruct (ringSlotCountFor_budget (cf_chunkSize c)) as (R1 & R2 & _); [lia|]. split_and!; try done; lia.
Qed.

Lemma config_valid_witness :
  configOk (mkConfig 7000 false 131072 0 (bs "./server.log") (bs "./server.conf")) /\
  ringSlotCountFor 131072 * 131072 <= kRingBudgetBytes.
Proof.
  assert (configure [bs "server"] (fun _ => Some (bs "port = 7000" ++ [CR; LF] ++ bs " chunk_size=131072 ")) =
    inl (mkConfig 7000 false 131072 0 (bs "./server.log") (bs "./server.conf"))) as H by (vm_compute; reflexivity).
  split; apply (config_valid _ _ _ H).
Defined.
