(* ===== verification/Logger.v ===== *)
(** * The logger (common/util/Logger.h, .cpp)

    A log line goes to the console or to <base>/logs/<YYYYMMDD>/<name>, which is
    rotated when it would grow beyond its limit and left for a new directory at
    midnight; [pruneOldLogs] removes old dates.  The state is the logger and the
    disk: directories, names of files and, apart from the names, the contents
    (a file that is open keeps its content when its name is moved or removed, as
    POSIX has it).  The operating system is a parameter: any call may fail, a
    write after leaving some bytes, a removal after some of the files, and
    [readdir] lists names in an order of its own.  The mutex makes an operation
    one step.  A base name is one file name; there are no symbolic links. *)

From stdpp Require Import gmap.
From S2P Require Import Prelude StringView Charconv OMap Level.

#[export] Instance byte_countable : Countable byte.
Proof. refine (inj_countable Byte.to_N Byte.of_N _). intros b. apply Byte.of_to_N. Defined.

Definition kMaxLogFileBytes : Z := 10 * 1024 * 1024.
Definition kLogRetentionDays : Z := 7.
Definition kLogPruneHour : Z := 3.
Definition kLogsFolder : bytes := bs "logs".
Definition kMaxRotationIndex : nat := 999.
Definition kDateLength : Z := 8.

(** ** Time *)

(** [std::tm] (the year in full) and the functions of <ctime> that depend on
    the time zone; [None] is an error. *)
Record Tm := mkTm { tm_year : Z; tm_mon : Z; tm_mday : Z; tm_hour : Z; tm_min : Z; tm_sec : Z }.
Record Zone := mkZone { localTimeOf : Z -> option Tm; mktime : Tm -> option Z }.

(** [std::strftime] into a buffer of [size] characters. *)
Definition strftime (size : Z) (text : bytes) : option bytes := if zlen text <? size then Some text else None.
Definition formatYear (y : Z) : bytes := if y <? 0 then "-"%byte :: to_string (- y) else to_string y.

Definition dateStringOf (local : Tm) : bytes :=
  default [] (strftime 16 (formatYear (tm_year local) ++ fixedDigits 2 (tm_mon local) ++ fixedDigits 2 (tm_mday local))).

Definition prefixOf (local : Tm) : bytes :=
  default [] (strftime 32 (bs "[" ++ formatYear (tm_year local) ++ bs "-" ++ fixedDigits 2 (tm_mon local) ++ bs "-" ++
    fixedDigits 2 (tm_mday local) ++ bs " " ++ fixedDigits 2 (tm_hour local) ++ bs ":" ++ fixedDigits 2 (tm_min local) ++
    bs ":" ++ fixedDigits 2 (tm_sec local) ++ bs "]")).

(** ** The disk *)

(** A path is the list of its components. *)
Abbreviation path := (list bytes).

Record World := mkWorld {
  dirs : gset path;
  names : gmap path nat;          (* directory entries of files: inode numbers *)
  content : gmap nat bytes;       (* inodes *)
  nextInode : nat;
  console : bytes;
  calls : nat }.                  (* calls of the operating system so far *)

Inductive call := Mkdir | OpenAppend | FileSize | Exists | Rename | Write | ListDir | IsDirectory | RemoveAll | Increment.

(** [fault n c = Some k]: the [n]-th call, a [c], fails, after [k] of its parts;
    [leftover n line] is what reaches the file of a line whose write fails, by
    the time the stream is closed. *)
Record Os := mkOs {
  fault : nat -> call -> option nat;
  leftover : nat -> bytes -> bytes;
  readdir : nat -> list bytes -> list bytes }.

Definition fileAt (w : World) (p : path) : option bytes :=
  match names w !! p with Some i => content w !! i | None => None end.

Definition setTree (w : World) (d : gset path) (n : gmap path nat) : World :=
  mkWorld d n (content w) (nextInode w) (console w) (calls w).
Definition setContent (w : World) (i : nat) (c : bytes) : World :=
  mkWorld (dirs w) (names w) (<[i := c]> (content w)) (nextInode w) (console w) (calls w).
Definition called (w : World) : World :=
  mkWorld (dirs w) (names w) (content w) (nextInode w) (console w) (S (calls w)).
Definition print (w : World) (line : bytes) : World :=
  mkWorld (dirs w) (names w) (content w) (nextInode w) (console w ++ line) (calls w).

(** The paths above [p] and [p] itself, outermost first. *)
Definition ancestors (p : path) : list path := map (fun n => take (S n) p) (seq 0 (length p)).
Definition parentOf (p : path) : path := removelast p.

(** Makes the missing ones of [ps]; a file in the way or [budget] stops it. *)
Fixpoint mkdirs (n : gmap path nat) (budget : option nat) (ps : list path) (d : gset path) : gset path * bool :=
  match ps with
  | [] => (d, true)
  | p :: ps =>
      if bool_decide (is_Some (n !! p)) then (d, false)
      else if bool_decide (p ∈ d) then mkdirs n budget ps d
      else
        match budget with
        | Some O => (d, false)
        | Some (S k) => mkdirs n (Some k) ps ({[p]} ∪ d)
        | None => mkdirs n None ps ({[p]} ∪ d)
        end
  end.

Section Calls.
Context (os : Os).

Definition failing (w : World) (c : call) : option nat := fault os (calls w) c.

(** [fs::create_directories]: without error? *)
Definition createDirectories (p : path) (w : World) : World * bool :=
  let '(d, ok) := mkdirs (names w) (failing w Mkdir) (ancestors p) (dirs w) in
  (called (setTree w d (names w)), ok).

(** [std::ofstream] in append mode: the inode. *)
Definition openAppend (p : path) (w : World) : World * option nat :=
  match failing w OpenAppend with
  | Some _ => (called w, None)
  | None =>
      if bool_decide (p ∈ dirs w) || negb (bool_decide (parentOf p ∈ dirs w)) then (called w, None)
      else
        match names w !! p with
        | Some i => (called w, Some i)
        | None =>
            let i := nextInode w in
            (called (mkWorld (dirs w) (<[p := i]> (names w)) (<[i := []]> (content w)) (S i) (console w) (calls w)), Some i)
        end
  end.

Definition fileSize (p : path) (w : World) : World * option Z :=
  (called w, match failing w FileSize with Some _ => None | None => option_map zlen (fileAt w p) end).

Definition exists_ (p : path) (w : World) : World * bool :=
  (called w,
   match failing w Exists with
   | Some _ => false
   | None => bool_decide (is_Some (names w !! p)) || bool_decide (p ∈ dirs w)
   end).

(** [fs::rename] of a file: takes the place of a file that has the new name. *)
Definition rename (old new : path) (w : World) : World * bool :=
  match failing w Rename, names w !! old with
  | None, Some i => if bool_decide (new ∈ dirs w) then (called w, false) else (called (setTree w (dirs w) (<[new := i]> (delete old (names w)))), true)
  | _, _ => (called w, false)
  end.

(** A line and the flush that follows it. *)
Definition write (i : nat) (line : bytes) (w : World) : World * bool :=
  let old := default [] (content w !! i) in
  match failing w Write with
  | None => (called (setContent w i (old ++ line)), true)
  | Some _ => (called (setContent w i (old ++ leftover os (calls w) line)), false)
  end.

(** [fs::is_directory] without error. *)
Definition isDirectory (p : path) (w : World) : World * bool :=
  (called w, match failing w IsDirectory with Some _ => false | None => bool_decide (p ∈ dirs w) end).

Definition under (top p : path) : Prop := top `prefix_of` p.

(** [fs::remove_all]: a failure leaves the directory and some of its files. *)
Definition removeAll (p : path) (w : World) : World * bool :=
  match failing w RemoveAll with
  | None => (called (setTree w (filter (fun q => ~ under p q) (dirs w)) (filter (fun e => ~ under p e.1) (names w))), true)
  | Some k =>
      let gone := take k (elements (dom (filter (fun e => under p e.1) (names w)))) in
      (called (setTree w (dirs w) (filter (fun e => e.1 ∉ gone) (names w))), false)
  end.

(** The names in a directory. *)
Definition childOf (root p : path) : option bytes := if bool_decide (parentOf p = root) then List.hd_error (rev p) else None.
Definition children (root : path) (w : World) : list bytes :=
  base.omap (childOf root) (elements (dirs w ∪ dom (names w))).

(** [fs::directory_iterator]: none when the directory cannot be read. *)
Definition listDirectory (root : path) (w : World) : World * option (list bytes) :=
  (called w,
   match failing w ListDir with
   | Some _ => None
   | None => if bool_decide (root ∈ dirs w) then Some (readdir os (calls w) (children root w)) else None
   end).
Definition increment (w : World) : World * bool := (called w, bool_decide (failing w Increment = None)).
End Calls.

(** ** The logger *)

Module Logger.
Record t := mk {
  file : option nat;              (* _file: the inode it has open *)
  bad : bool;                     (* _file.fail() *)
  fileRequested : bool;
  toFile : bool;
  baseDir : bytes;
  baseName : bytes;
  activeDate : bytes;
  activePath : path;
  bytesWritten : Z }.

Definition initial : t := mk None false false false [] [] [] [] 0.

Definition setBase (l : t) (dir name : bytes) : t :=
  mk (file l) (bad l) (fileRequested l) (toFile l) dir name (activeDate l) (activePath l) (bytesWritten l).
Definition setRequested (l : t) (b : bool) : t :=
  mk (file l) (bad l) b (toFile l) (baseDir l) (baseName l) (activeDate l) (activePath l) (bytesWritten l).
Definition setBytesWritten (l : t) (n : Z) : t :=
  mk (file l) (bad l) (fileRequested l) (toFile l) (baseDir l) (baseName l) (activeDate l) (activePath l) n.
Definition setBad (l : t) : t :=
  mk (file l) true (fileRequested l) (toFile l) (baseDir l) (baseName l) (activeDate l) (activePath l) (bytesWritten l).
(** [_file.close(); _toFile = false] *)
Definition closeSink (l : t) : t :=
  mk None false (fileRequested l) false (baseDir l) (baseName l) (activeDate l) (activePath l) (bytesWritten l).

Definition levelTag (level : LogLevel.t) : bytes :=
  match level with
  | LogLevel.Info => bs "Info"
  | LogLevel.Warn => bs "Warn"
  | LogLevel.Error => bs "Error"
  end.

Definition rotationSuffix (index : nat) : bytes :=
  let number := to_string (Z.of_nat index) in
  bs "_" ++ repeat "0"%byte (3 - length number) ++ number.

Definition isDateName (name : bytes) : bool := (zlen name =? kDateLength) && forallb isDigit name.

(** [path::stem] and [path::extension] of a file name: the last dot, unless it
    begins the name. *)
Fixpoint splitDot (name : bytes) : option (bytes * bytes) :=
  match name with
  | [] => None
  | b :: name =>
      match splitDot name with
      | Some (s, e) => Some (b :: s, e)
      | None => if bool_decide (b = "."%byte) then Some ([], b :: name) else None
      end
  end.
Definition stemExtension (name : bytes) : bytes * bytes :=
  if bool_decide (name = bs "..") then (name, [])
  else
    match splitDot name with
    | Some ([], _) | None => (name, [])
    | Some (s, e) => (s, e)
    end.
Definition candidate (active : path) (index : nat) : path :=
  let '(stem, extension) := stemExtension (List.last active []) in
  parentOf active ++ [stem ++ rotationSuffix index ++ extension].

Section Operations.
Context (os : Os) (zone : Zone).

Definition openForDateLocked (date : bytes) (l : t) (w : World) : t * World * bool :=
  let directory := [baseDir l; kLogsFolder; date] in
  let '(w, made) := createDirectories os directory w in
  if negb made then (l, w, false)
  else
    let p := directory ++ [baseName l] in
    let '(w, opened) := openAppend os p w in
    match opened with
    | None => (l, w, false)
    | Some i =>
        let '(w, existing) := fileSize os p w in
        (mk (Some i) false (fileRequested l) true (baseDir l) (baseName l) date p (default 0 existing), w, true)
    end.

Definition openFile (now : Z) (dir name : bytes) (l : t) (w : World) : t * World * bool :=
  if bool_decide (name = []) then (l, w, false)
  else
    match localTimeOf zone now with
    | None => (l, w, false)
    | Some local =>
        let today := dateStringOf local in
        if bool_decide (today = []) then (l, w, false)
        else
          let previousDir := baseDir l in
          let previousName := baseName l in
          let l := setBase l (if bool_decide (dir = []) then bs "." else dir) name in
          let '(l, w, ok) := openForDateLocked today l w in
          if negb ok then (setBase l previousDir previousName, w, false)
          else (setRequested l true, w, true)
    end.

(** The loop over the indices that are left: was the file renamed? *)
Fixpoint rotateLoop (tries : nat) (active : path) (w : World) : World * bool :=
  match tries with
  | O => (w, false)
  | S tries =>
      let index := (kMaxRotationIndex - tries)%nat in
      let '(w, taken) := exists_ os (candidate active index) w in
      if taken then rotateLoop tries active w else rename os active (candidate active index) w
  end.
Definition rotateLocked (l : t) (w : World) : t * World :=
  let l := closeSink l in
  let '(w, renamed) := rotateLoop kMaxRotationIndex (activePath l) w in
  let '(l, w, _) := openForDateLocked (activeDate l) l w in
  (if renamed then l else setBytesWritten l 0, w).

Definition close (l : t) : t := initial.

Definition activeFilePath (l : t) : path := if toFile l then activePath l else [].

(** What a line is, and the date it belongs to. *)
Definition lineOf (level : LogLevel.t) (now : Z) (message : bytes) : bytes :=
  match localTimeOf zone now with Some local => prefixOf local | None => [] end ++
  bs " [" ++ levelTag level ++ bs "] " ++ message ++ [LF].
Definition todayOf (now : Z) : bytes := match localTimeOf zone now with Some local => dateStringOf local | None => [] end.

(** The first half of [log]: rollover, recovery, rotation. *)
Definition prepare (today line : bytes) (l : t) (w : World) : t * World :=
  if negb (fileRequested l) then (l, w)
  else
    let '(l, w) :=
      if toFile l && negb (bool_decide (today = [])) && negb (bool_decide (today = activeDate l))
      then (openForDateLocked today l w).1 else (l, w) in
    let '(l, w) :=
      if negb (toFile l) then (openForDateLocked (if bool_decide (today = []) then activeDate l else today) l w).1 else (l, w) in
    if toFile l && (kMaxLogFileBytes <? bytesWritten l + zlen line) then rotateLocked l w else (l, w).

(** [_file << line; _file.flush()]: did it work?  A stream that has failed, or
    is not open, takes nothing. *)
Definition put (line : bytes) (l : t) (w : World) : t * World * bool :=
  match file l, bad l with
  | Some i, false => let '(w, ok) := write os i line w in (if ok then l else setBad l, w, ok)
  | _, _ => (l, w, false)
  end.
Definition counting (line : bytes) (r : t * World * bool) : t * World :=
  let '(l, w, ok) := r in (if ok then setBytesWritten l (bytesWritten l + zlen line) else l, w).

(** The second half: the line, and one more try on a new stream. *)
Definition emit (today line : bytes) (l : t) (w : World) : t * World :=
  if negb (toFile l) then (l, print w line)
  else
    let '(l, w, ok) := put line l w in
    if ok then counting line (l, w, ok)
    else
      let l := closeSink l in
      let '(l, w, opened) := openForDateLocked (if bool_decide (today = []) then activeDate l else today) l w in
      if opened then counting line (put line l w) else (l, w).

Definition log (level : LogLevel.t) (now : Z) (message : bytes) (l : t) (w : World) : t * World :=
  let today := todayOf now in
  let line := lineOf level now message in
  let '(l, w) := prepare today line l w in
  emit today line l w.

(** The loop over the entries of the directory. *)
Fixpoint pruneLoop (root : path) (active cutoff : bytes) (entries : list bytes) (removed : Z) (w : World) : World * Z :=
  match entries with
  | [] => (w, removed)
  | name :: entries =>
      let entry := root ++ [name] in
      let '(w, directory) := isDirectory os entry w in
      let '(w, removed) :=
        if directory && isDateName name && negb (bool_decide (name = active)) && bytesLt name cutoff then
          let '(w, ok) := removeAll os entry w in (w, if ok then removed + 1 else removed)
        else (w, removed) in
      let '(w, ok) := increment os w in
      if ok then pruneLoop root active cutoff entries removed w else (w, removed)
  end.

(** The date of the oldest directory that is kept, if it can be computed. *)
Definition cutoffOf (referenceTime keepDays : Z) : option bytes :=
  match localTimeOf zone referenceTime with
  | None => None
  | Some local =>
      match mktime zone (mkTm (tm_year local) (tm_mon local) (tm_mday local) 12 0 0) with
      | None => None
      | Some midday =>
          match localTimeOf zone (midday - (keepDays - 1) * 24 * 60 * 60) with
          | None => None
          | Some cutoffLocal =>
              let cutoff := dateStringOf cutoffLocal in if bool_decide (cutoff = []) then None else Some cutoff
          end
      end
  end.

Definition pruneOldLogs (referenceTime keepDays : Z) (l : t) (w : World) : World * Z :=
  if negb (fileRequested l) || bool_decide (baseDir l = []) || (keepDays <? 1) then (w, 0)
  else
    match cutoffOf referenceTime keepDays with
    | None => (w, 0)
    | Some cutoff =>
        let root := [baseDir l; kLogsFolder] in
        let '(w, entries) := listDirectory os root w in
        match entries with
        | None => (w, 0)
        | Some entries => pruneLoop root (activeDate l) cutoff entries 0 w
        end
    end.
End Operations.
End Logger.

(** ** A demonstration *)

Definition demoZone : Zone := mkZone (fun t => Some (mkTm 2026 8 17 (t / 3600) (t / 60 mod 60) (t mod 60))) (fun _ => Some 43200).
Definition healthyOs : Os := mkOs (fun _ _ => None) (fun _ _ => []) (fun _ l => l).
Definition emptyWorld : World := mkWorld {[ [bs "."] ]} ∅ ∅ 0 [] 0.

Example log_demo :
  let '(l, w, ok) := Logger.openFile healthyOs demoZone 0 [] (bs "server.log") Logger.initial emptyWorld in
  let '(l, w) := Logger.log healthyOs demoZone LogLevel.Warn 37230 (bs "hello") l w in
  ok = true /\ fileAt w [bs "."; bs "logs"; bs "20260817"; bs "server.log"] = Some (bs "[2026-08-17 10:20:30] [Warn] hello" ++ [LF]).
Proof. vm_compute. split; reflexivity. Qed.
Example candidate_demo : Logger.candidate [bs "a"; bs "server.log"] 7 = [bs "a"; bs "server_007.log"].
Proof. vm_compute. reflexivity. Qed.
