(* ===== verification/LogFiles.v ===== *)
(** * Where the lines go on a healthy disk

    When no call fails, a line is the end of the file of its day, a file that
    would outgrow its limit is set aside under the first free number with all
    its content, and no other file changes. *)

From stdpp Require Import gmap.
From S2P Require Import Prelude StringView Charconv Logger LogKeeping Level.
Import Logger.

Definition healthy (os : Os) : Prop := forall n c, fault os n c = None.

Definition dayPath (l : t) (date : bytes) : path := [baseDir l; kLogsFolder; date; baseName l].

(** Nothing is in the way of the day's file. *)
Definition room (l : t) (date : bytes) (w : World) : Prop :=
  (forall p, p ∈ ancestors [baseDir l; kLogsFolder; date] -> names w !! p = None) /\ dayPath l date ∉ dirs w.
Definition free (active : path) (w : World) (k : nat) : Prop :=
  names w !! candidate active k = None /\ candidate active k ∉ dirs w.

(** The logger writes to inode [i], named [p], with content [c]. *)
Definition sinkAt (l : t) (w : World) (p : path) (i : nat) (c : bytes) : Prop :=
  file l = Some i /\ bad l = false /\ toFile l = true /\ activePath l = p /\ names w !! p = Some i /\ content w !! i = Some c /\
  bytesWritten l = zlen c.

(** No two names share a file. *)
Definition nameInj (w : World) : Prop := forall p q i, names w !! p = Some i -> names w !! q = Some i -> p = q.

Definition sameBase (l l' : t) : Prop :=
  baseDir l' = baseDir l /\ baseName l' = baseName l /\ fileRequested l' = fileRequested l.

Lemma mkdirs_all (n : gmap path nat) ps : forall d,
  (forall p, p ∈ ps -> n !! p = None) ->
  exists d', mkdirs n None ps d = (d', true) /\ forall q, q ∈ d' <-> q ∈ d \/ q ∈ ps.
Proof.
  induction ps as [|p ps IH]; intros d Hn; cbn [mkdirs]; [exists d; set_solver|].
  rewrite bool_decide_eq_false_2 by (rewrite Hn; [by intros [? ?]|set_solver]).
  case_bool_decide.
  - destruct (IH d) as (d' & E & H'); [set_solver|]. exists d'. split; [done|]. set_solver.
  - destruct (IH ({[p]} ∪ d)) as (d' & E & H'); [set_solver|]. exists d'. split; [done|]. set_solver.
Qed.

(** What opening the day's file does to the names and contents. *)
Definition openedAt (p : path) (i : nat) (w w' : World) : Prop :=
  (names w !! p = Some i /\ names w' = names w /\ content w' = content w) \/
  (names w !! p = None /\ names w' = <[p := i]> (names w) /\ content w' = <[i := []]> (content w) /\ content w !! i = None).

Lemma openedAt_files p i w w' : worldOk w -> openedAt p i w w' -> forall q, q <> p -> fileAt w' q = fileAt w q.
Proof.
  intros [W1 _] [(_ & En & Ec)|(_ & En & Ec & Hi)] q Hq; unfold fileAt; rewrite En, Ec; [done|].
  rewrite lookup_insert_ne by done. destruct (names w !! q) as [j|] eqn:E; [|done].
  rewrite lookup_insert_ne; [done|]. intros <-. destruct (W1 _ _ E). congruence.
Qed.
Lemma openedAt_inj p i w w' : worldOk w -> nameInj w -> openedAt p i w w' -> nameInj w'.
Proof.
  intros [W1 _] Hj [(_ & En & Ec)|(_ & En & Ec & Hi)] q r j; rewrite En; [by apply Hj|].
  rewrite !lookup_insert_Some. intros [[<- <-]|[? H1]] [[<- E]|[? H2]]; try done; [..|by eapply Hj].
  - destruct (W1 _ _ H2). congruence.
  - subst j. destruct (W1 _ _ H1). congruence.
Qed.

Section Healthy.
Context (os : Os) (zone : Zone) (Hos : healthy os).

Lemma open_healthy date l w :
  worldOk w -> room l date w ->
  exists l' w' i, openForDateLocked os date l w = (l', w', true) /\
    sinkAt l' w' (dayPath l date) i (default [] (fileAt w (dayPath l date))) /\ sameBase l l' /\ activeDate l' = date /\
    openedAt (dayPath l date) i w w' /\ (forall q, q ∈ dirs w' <-> q ∈ dirs w \/ q ∈ ancestors [baseDir l; kLogsFolder; date]).
Proof.
  intros [W1 W2] [Hn Hd]. unfold openForDateLocked, createDirectories, failing. rewrite Hos.
  destruct (mkdirs_all (names w) (ancestors [baseDir l; kLogsFolder; date]) (dirs w) Hn) as (d & -> & Hd').
  cbn [negb app]. change [baseDir l; kLogsFolder; date; baseName l] with (dayPath l date). unfold openAppend, failing. rewrite Hos.
  cbn [dirs called setTree]. rewrite bool_decide_eq_false_2 by (rewrite Hd'; intros [?|Ha]; [done|cbn in Ha; set_solver]).
  rewrite bool_decide_eq_true_2 by (apply Hd'; right; cbn; set_solver). cbn [negb orb names content nextInode called setTree].
  destruct (names w !! dayPath l date) as [i|] eqn:E.
  - destruct (W1 _ _ E) as [c Ec]. unfold fileSize, failing. rewrite Hos. eexists _, _, i. split; [reflexivity|]. split_and!; try done.
    + unfold sinkAt, fileAt. cbn. by rewrite E, Ec.
    + by left.
  - unfold fileSize, failing. rewrite Hos. eexists _, _, (nextInode w). split; [reflexivity|].
    assert (content w !! nextInode w = None) as Hi by (apply eq_None_not_Some; intros [c Hc%W2]; lia). split_and!; try done.
    + unfold sinkAt, fileAt. cbn. by rewrite E, !lookup_insert_eq.
    + right. split_and!; done.
Qed.

(** The file is set aside under a free number. *)
Definition setAside (active : path) (k i : nat) (w w' : World) : Prop :=
  dirs w' = dirs w /\ names w' = <[candidate active k := i]> (delete active (names w)) /\ content w' = content w /\
  nextInode w' = nextInode w.

Lemma rotateLoop_healthy active i n : forall w,
  (n <= kMaxRotationIndex)%nat -> names w !! active = Some i ->
  (exists k, (kMaxRotationIndex - n < k <= kMaxRotationIndex)%nat /\ free active w k) ->
  exists k w', (0 < k <= kMaxRotationIndex)%nat /\ free active w k /\ rotateLoop os n active w = (w', true) /\ setAside active k i w w'.
Proof.
  induction n as [|n IH]; intros w Hle Hi (k & Hk & Hfree); [lia|]. cbn [rotateLoop].
  unfold exists_, failing. rewrite Hos. set (j := (kMaxRotationIndex - n)%nat) in *.
  destruct (bool_decide (is_Some (names w !! candidate active j)) || bool_decide (candidate active j ∈ dirs w)) eqn:Et.
  - destruct (IH (called w)) as (k' & w' & ? & ? & -> & ?); [lia|done| |by eauto 10]. exists k. split; [|done].
    assert (k <> j); [|lia]. intros ->. destruct Hfree as [Hf1 Hf2]. rewrite Hf1 in Et.
    apply orb_true_iff in Et as [[? ?]%bool_decide_eq_true|?%bool_decide_eq_true]; done.
  - apply orb_false_iff in Et as [Hn%bool_decide_eq_false Hd%bool_decide_eq_false]. exists j.
    unfold rename, failing. rewrite Hos. cbn [names called dirs]. rewrite Hi, bool_decide_eq_false_2 by done.
    eexists. split; [lia|]. split; [split; [by apply eq_None_not_Some|done]|]. split; [reflexivity|done].
Qed.

(** A logger that writes to a file, at the end of what it has counted. *)
Definition logging (l : t) (w : World) : Prop :=
  worldOk w /\ nameInj w /\ fileRequested l = true /\
  exists i c, sinkAt l w (dayPath l (activeDate l)) i c.

(** The world after a line was put at the end of inode [i]. *)
Lemma put_healthy line l w p i c :
  sinkAt l w p i c ->
  exists w', counting line (put os line l w) = (setBytesWritten l (bytesWritten l + zlen line), w') /\ put os line l w = (l, w', true) /\
    names w' = names w /\ dirs w' = dirs w /\ content w' = <[i := c ++ line]> (content w) /\ nextInode w' = nextInode w.
Proof.
  intros (Hf & Hb & _ & _ & _ & Hc & _). unfold put, write, failing. rewrite Hf, Hb, Hos, Hc. eexists. split; [reflexivity|]. done.
Qed.

Lemma emit_healthy today line l w i c :
  worldOk w -> nameInj w -> sinkAt l w (dayPath l today) i c -> activeDate l = today -> fileRequested l = true ->
  exists l' w', emit os today line l w = (l', w') /\ logging l' w' /\ sameBase l l' /\ activeDate l' = today /\
    fileAt w' (dayPath l today) = Some (c ++ line) /\ forall q, q <> dayPath l today -> fileAt w' q = fileAt w q.
Proof.
  intros [W1 W2] Hj Hs Ha Hr. unfold emit. destruct (put_healthy line l w _ i c Hs) as (w' & Ec & Ep & En & Ed & Eco & Ei).
  destruct Hs as (Hf & Hb & Ht & Hp & Hn & Hc & Hbw). rewrite Ht, Ep. cbn [negb]. rewrite <- Ep, Ec.
  eexists _, w'. split; [reflexivity|]. unfold logging, worldOk, nameInj, fileAt, sinkAt. rewrite En, Eco, Ei. split_and!; try done.
  - intros q j Hq. rewrite lookup_insert_is_Some'. right. by eapply W1.
  - intros j d. rewrite lookup_insert_Some. intros [[<- _]|[_ Hd]]; eapply W2; eauto.
  - exists i, (c ++ line). subst today. cbn. rewrite lookup_insert_eq, zlen_app, Hbw. done.
  - by rewrite Hn, lookup_insert_eq.
  - intros q Hq. destruct (names w !! q) as [j|] eqn:Eq; [|done]. rewrite lookup_insert_ne; [done|].
    intros <-. apply Hq. by eapply Hj.
Qed.

Lemma candidate_length p k : p <> [] -> length (candidate p k) = length p.
Proof.
  intros Hp. unfold candidate, parentOf. destruct (stemExtension _). rewrite length_app. cbn.
  rewrite (app_removelast_last [] Hp) at 2. by rewrite length_app.
Qed.
Lemma ancestors_length p q : q ∈ ancestors p -> (length q <= length p)%nat.
Proof. unfold ancestors. rewrite list_elem_of_fmap. intros (n & -> & _). rewrite length_take. lia. Qed.

Lemma rotate_healthy today l w i c :
  worldOk w -> nameInj w -> sinkAt l w (dayPath l today) i c -> activeDate l = today -> room l today w ->
  (exists k, (0 < k <= kMaxRotationIndex)%nat /\ free (dayPath l today) w k) ->
  exists l' w' j k, rotateLocked os l w = (l', w') /\ worldOk w' /\ nameInj w' /\ sinkAt l' w' (dayPath l today) j [] /\
    sameBase l l' /\ activeDate l' = today /\ (0 < k <= kMaxRotationIndex)%nat /\ fileAt w (candidate (dayPath l today) k) = None /\
    fileAt w' (candidate (dayPath l today) k) = Some c /\
    (forall q, q <> dayPath l today -> q <> candidate (dayPath l today) k -> fileAt w' q = fileAt w q).
Proof.
  intros Hw Hj Hs Ha [Hroom Hd] Hfree. set (p := dayPath l today) in *.
  assert (advances (l, w) (rotateLocked os l w)) as Hadv by (apply advances_rotate; intros; apply Hos).
  destruct Hs as (Hf & Hb & Ht & Hp & Hn & Hc & Hbw). unfold rotateLocked in *. cbn [activePath closeSink activeDate] in *. rewrite Hp, Ha in *.
  destruct (rotateLoop_healthy p i kMaxRotationIndex w) as (k & w1 & Hk & [Hcn Hcd] & E1 & Ed & En & Ec & Ei); [done..|by rewrite Nat.sub_diag|].
  assert (length (candidate p k) = 4%nat) as Hlen by by rewrite candidate_length.
  assert (candidate p k <> p) as Hcp by congruence.
  assert (advances (closeSink l, w) (closeSink l, w1)) as Hadv1.
  { replace w1 with (rotateLoop os kMaxRotationIndex p w).1 by by rewrite E1. apply advances_rotateLoop. intros; apply Hos. }
  destruct (Hadv1 Hw) as (Hw1 & _); [done|]. cbn in Hw1. rewrite E1 in *.
  destruct (open_healthy today (closeSink l) w1 Hw1) as (l2 & w2 & j & E2 & Hsink & Hbase & Hdate & Hopen & _).
  { split; [|rewrite Ed; exact Hd]. intros q Hq. rewrite En. pose proof (ancestors_length _ _ Hq) as Hql. cbn [length] in Hql.
    rewrite lookup_insert_ne by (intros <-; rewrite Hlen in Hql; lia). rewrite lookup_delete_None. right. by apply Hroom. }
  change (dayPath (closeSink l) today) with p in *. rewrite E2 in *.
  assert (fileAt w1 p = None) as Hp1.
  { unfold fileAt. rewrite En, lookup_insert_ne, lookup_delete_eq by done. done. }
  rewrite Hp1 in Hsink. cbn in Hsink. exists l2, w2, j, k. split; [done|]. destruct (Hadv Hw) as (Hw2 & _).
  { intros i' [= <-]%(eq_trans (eq_sym Hf)). by eapply Hw. }
  assert (nameInj w1) as Hj1.
  { intros q r x. rewrite En, !lookup_insert_Some, !lookup_delete_Some.
    intros [[<- <-]|[_ [Hq H1]]] [[<- E]|[_ [Hr H2]]]; try done; [..|by eapply Hj].
    - destruct Hr. by eapply Hj.
    - subst x. destruct Hq. by eapply Hj. }
  split; [exact Hw2|]. split; [exact (openedAt_inj p j w1 w2 Hw1 Hj1 Hopen)|]. do 4 (split; [done|]). split; [unfold fileAt; by rewrite Hcn|]. split.
  - rewrite (openedAt_files p j w1 w2) by done. unfold fileAt. by rewrite En, lookup_insert_eq, Ec.
  - intros q Hq Hqc. rewrite (openedAt_files p j w1 w2) by done. unfold fileAt. by rewrite En, Ec, lookup_insert_ne, lookup_delete_ne by done.
Qed.

Lemma splitDot_app name s e : splitDot name = Some (s, e) -> name = s ++ e.
Proof.
  revert s. induction name as [|b name IH]; intros s; cbn; [done|]. destruct (splitDot name) as [[s' e']|] eqn:E.
  - intros [= <- <-]. cbn. f_equal. by apply IH.
  - case_bool_decide; [|done]. by intros [= <- <-].
Qed.
Lemma stemExtension_app name s e : stemExtension name = (s, e) -> name = s ++ e.
Proof.
  unfold stemExtension. case_bool_decide; [intros [= <- <-]; by rewrite app_nil_r|].
  destruct (splitDot name) as [[[|b s'] e']|] eqn:E; intros [= <- <-]; rewrite ?app_nil_r; try done. by apply splitDot_app.
Qed.
Lemma candidate_ne p k : p <> [] -> candidate p k <> p.
Proof.
  intros Hp. unfold candidate, parentOf. destruct (stemExtension _) as [s e] eqn:E. apply stemExtension_app in E.
  rewrite (app_removelast_last [] Hp) at 2. intros [_ [= H]]%app_inj_2; [|done]. rewrite E in H. apply (f_equal length) in H.
  unfold rotationSuffix in H. rewrite !length_app in H. cbn [length] in H. rewrite !length_app in H. lia.
Qed.

Lemma room_opened l l' w w' i date :
  sameBase l l' -> room l date w -> openedAt (dayPath l date) i w w' ->
  (forall q, q ∈ dirs w' <-> q ∈ dirs w \/ q ∈ ancestors [baseDir l; kLogsFolder; date]) -> room l' date w'.
Proof.
  intros (Hb & Hn & _) [R1 R2] Ho Hd. unfold room, dayPath. rewrite Hb, Hn. split.
  - intros q Hq. destruct Ho as [(_ & -> & _)|(_ & -> & _)]; [by apply R1|].
    rewrite lookup_insert_ne; [by apply R1|]. intros <-. pose proof (ancestors_length _ _ Hq) as H. cbn in H. lia.
  - rewrite Hd. intros [?|H%ancestors_length]; [done|]. cbn in H. lia.
Qed.
Lemma free_opened l w w' i date k :
  free (dayPath l date) w k -> openedAt (dayPath l date) i w w' ->
  (forall q, q ∈ dirs w' <-> q ∈ dirs w \/ q ∈ ancestors [baseDir l; kLogsFolder; date]) -> free (dayPath l date) w' k.
Proof.
  intros [F1 F2] Ho Hd. pose proof (candidate_ne (dayPath l date) k ltac:(done)) as Hne. split.
  - destruct Ho as [(_ & -> & _)|(_ & -> & _)]; [done|]. by rewrite lookup_insert_ne by congruence.
  - rewrite Hd. intros [?|H%ancestors_length]; [done|]. rewrite candidate_length in H by done. cbn in H. lia.
Qed.

(** The day's file is the sink. *)
Lemma ready_healthy today l w :
  logging l w -> today <> [] -> room l today w -> (exists k, (0 < k <= kMaxRotationIndex)%nat /\ free (dayPath l today) w k) ->
  exists l1 w1 i,
    (if toFile l && negb (bool_decide (today = [])) && negb (bool_decide (today = activeDate l))
     then (openForDateLocked os today l w).1 else (l, w)) = (l1, w1) /\
    worldOk w1 /\ nameInj w1 /\ sinkAt l1 w1 (dayPath l today) i (default [] (fileAt w (dayPath l today))) /\ sameBase l l1 /\
    activeDate l1 = today /\ room l today w1 /\ (exists k, (0 < k <= kMaxRotationIndex)%nat /\ free (dayPath l today) w1 k) /\
    (forall q, q <> dayPath l today -> fileAt w1 q = fileAt w q).
Proof.
  intros (Hw & Hj & Hr & i & c & Hs) Ht Hroom Hfree. pose proof Hs as (Hf & _ & Hto & _ & Hn & Hc & _). rewrite Hto, bool_decide_eq_false_2 by done. cbn [negb andb].
  case_bool_decide as Hd; cbn [negb].
  - exists l, w, i. rewrite <- Hd in *. unfold fileAt at 1. rewrite Hn, Hc. done.
  - destruct (open_healthy today l w Hw Hroom) as (l1 & w1 & j & E & Hs1 & Hb & Hdate & Ho & Hdirs).
    assert (advances (l, w) (openForDateLocked os today l w).1) as Hadv by (apply advances_openForDate; intros; apply Hos).
    destruct (Hadv Hw) as (Hw1 & _); [intros x [= <-]%(eq_trans (eq_sym Hf)); by eapply Hw|]. rewrite E in *.
    exists l1, w1, j. split; [done|]. split; [exact Hw1|]. split; [exact (openedAt_inj _ _ _ _ Hw Hj Ho)|]. do 3 (split; [done|]).
    split; [by apply (room_opened l l w w1 j)|]. split; [|by apply (openedAt_files _ j)].
    destruct Hfree as (k & Hk & Hfree). exists k. split; [done|]. by apply (free_opened l w w1 j).
Qed.

Lemma logging_path l l' w' p :
  logging l' w' -> sameBase l l' -> activeDate l' = activeDate l -> p = dayPath l (activeDate l) -> activePath l' = p.
Proof. intros (_ & _ & _ & i & c & Hs) (Hb & Hn & _) Hd ->. destruct Hs as (_ & _ & _ & -> & _). unfold dayPath. congruence. Qed.

Lemma log_healthy level now message l w local :
  logging l w -> localTimeOf zone now = Some local -> dateStringOf local <> [] -> room l (dateStringOf local) w ->
  (exists k, (0 < k <= kMaxRotationIndex)%nat /\ free (dayPath l (dateStringOf local)) w k) ->
  let p := dayPath l (dateStringOf local) in
  let line := lineOf zone level now message in
  let old := default [] (fileAt w p) in
  exists l' w', log os zone level now message l w = (l', w') /\ logging l' w' /\ activePath l' = p /\
    ((zlen old + zlen line <= kMaxLogFileBytes /\ fileAt w' p = Some (old ++ line) /\ (forall q, q <> p -> fileAt w' q = fileAt w q)) \/
     (kMaxLogFileBytes < zlen old + zlen line /\ fileAt w' p = Some line /\
      exists k, (0 < k <= kMaxRotationIndex)%nat /\ fileAt w (candidate p k) = None /\ fileAt w' (candidate p k) = Some old /\
        (forall q, q <> p -> q <> candidate p k -> fileAt w' q = fileAt w q))).
Proof.
  intros Hl Hz Ht Hroom Hfree p line old. unfold log, todayOf, prepare. rewrite Hz. fold line.
  destruct (ready_healthy _ l w Hl Ht Hroom Hfree) as (l1 & w1 & i & E & Hw1 & Hj1 & Hs1 & Hb1 & Hd1 & Hroom1 & Hfree1 & Hq1).
  pose proof Hl as (_ & _ & Hr & _). rewrite Hr. cbn [negb]. rewrite E. fold p in Hs1, Hfree1, Hq1. fold old in Hs1.
  assert (p = dayPath l1 (dateStringOf local)) as Hp1 by (unfold p, dayPath; by destruct Hb1 as (-> & -> & _)).
  assert (room l1 (dateStringOf local) w1) as Hroom1' by (unfold room; destruct Hb1 as (-> & _); by rewrite <- Hp1; apply Hroom1).
  assert (fileRequested l1 = true) as Hr1 by (destruct Hb1 as (_ & _ & ->); done).
  pose proof Hs1 as (_ & _ & Hto & _ & _ & _ & Hbw). rewrite Hto. cbn [negb]. rewrite Hto, Hbw. cbn [andb].
  destruct (Z.ltb_spec kMaxLogFileBytes (zlen old + zlen line)) as [Hbig|Hsmall].
  - rewrite Hp1 in Hs1, Hfree1.
    destruct (rotate_healthy _ l1 w1 i old Hw1 Hj1 Hs1 Hd1 Hroom1' Hfree1) as (l2 & w2 & j & k & E2 & Hw2 & Hj2 & Hs2 & Hb2 & Hd2 & Hk & Hn2 & Hc2 & Hq2).
    rewrite E2, <- Hp1 in *. assert (p = dayPath l2 (dateStringOf local)) as Hp2 by (rewrite Hp1; unfold dayPath; by destruct Hb2 as (-> & -> & _)).
    rewrite Hp2 in Hs2. destruct (emit_healthy _ line l2 w2 j [] Hw2 Hj2 Hs2 Hd2) as (l3 & w3 & E3 & Hl3 & Hb3 & Hd3 & Hf3 & Hq3).
    { destruct Hb2 as (_ & _ & ->). done. }
    rewrite <- Hp2 in *. exists l3, w3. split; [done|]. split; [done|]. split; [apply (logging_path l2 l3 w3); congruence|]. right.
    split; [done|]. split; [done|]. pose proof (candidate_ne p k ltac:(done)) as Hne. exists k. split; [done|].
    rewrite <- (Hq1 (candidate p k)), Hq3 by done. split_and!; try done. intros q Hqp Hqk. by rewrite Hq3, Hq2, Hq1.
  - rewrite Hp1 in Hs1. destruct (emit_healthy _ line l1 w1 i old Hw1 Hj1 Hs1 Hd1 Hr1) as (l3 & w3 & E3 & Hl3 & Hb3 & Hd3 & Hf3 & Hq3).
    rewrite <- Hp1 in *. exists l3, w3. split; [done|]. split; [done|]. split; [apply (logging_path l1 l3 w3); congruence|]. left.
    split; [done|]. split; [done|]. intros q Hq. by rewrite Hq3, Hq1.
Qed.

Lemma openFile_healthy now dir name l w local :
  worldOk w -> sinkOk l w -> nameInj w -> name <> [] -> localTimeOf zone now = Some local -> dateStringOf local <> [] ->
  let base := setBase l (if bool_decide (dir = []) then bs "." else dir) name in room base (dateStringOf local) w ->
  exists l' w', openFile os zone now dir name l w = (l', w', true) /\ logging l' w' /\ sameBase (setRequested base true) l'.
Proof.
  intros Hw Hsk Hj Hn Hz Ht base Hroom. unfold openFile. rewrite bool_decide_eq_false_2, Hz, bool_decide_eq_false_2 by done. fold base.
  destruct (open_healthy _ base w Hw Hroom) as (l1 & w1 & i & E & Hs1 & Hb1 & Hd1 & Ho1 & _).
  assert (advances (base, w) (openForDateLocked os (dateStringOf local) base w).1) as Hadv by (apply advances_openForDate; intros; apply Hos).
  destruct (Hadv Hw Hsk) as (Hw1 & _). rewrite E in *. cbn [negb]. eexists _, w1. split; [reflexivity|]. split; [|by destruct Hb1 as (? & ? & ?)].
  split; [exact Hw1|]. split; [exact (openedAt_inj _ _ _ _ Hw Hj Ho1)|]. split; [done|].
  exists i, (default [] (fileAt w (dayPath base (dateStringOf local)))). unfold dayPath in *. cbn [activeDate setRequested baseDir baseName]. rewrite Hd1.
  destruct Hb1 as (-> & -> & _). exact Hs1.
Qed.
End Healthy.

(** C27: on a disk where no call fails, a line that is logged is the end of
    the file <base>/logs/<day>/<name> of its local day, also across midnight:
    it is appended to what the file holds as long as the file stays within 10
    MiB; otherwise the file, with all it holds, is first renamed to a free name
    with a number, and the line begins a new one.  No other file changes, and
    the logger is ready for the next line. *)
Theorem line_reaches_file os zone level now message l w local :
  healthy os -> logging l w -> localTimeOf zone now = Some local -> dateStringOf local <> [] -> room l (dateStringOf local) w ->
  (exists k, (0 < k <= kMaxRotationIndex)%nat /\ free (dayPath l (dateStringOf local)) w k) ->
  let p := dayPath l (dateStringOf local) in
  let line := lineOf zone level now message in
  let old := default [] (fileAt w p) in
  exists l' w', log os zone level now message l w = (l', w') /\ logging l' w' /\ activePath l' = p /\
    ((zlen old + zlen line <= kMaxLogFileBytes /\ fileAt w' p = Some (old ++ line) /\ (forall q, q <> p -> fileAt w' q = fileAt w q)) \/
     (kMaxLogFileBytes < zlen old + zlen line /\ fileAt w' p = Some line /\
      exists k, (0 < k <= kMaxRotationIndex)%nat /\ fileAt w (candidate p k) = None /\ fileAt w' (candidate p k) = Some old /\
        (forall q, q <> p -> q <> candidate p k -> fileAt w' q = fileAt w q))).
Proof. intros Hos. by apply log_healthy. Qed.

Definition demoLogger : t := mk (Some 0%nat) false true true (bs ".") (bs "server.log") (bs "20260817") logPath 8.
Lemma line_reaches_file_witness :
  exists l' w', log healthyOs demoZone LogLevel.Info 0 (bs "hello") demoLogger demoWorld = (l', w') /\
    fileAt w' logPath = Some (bs "earlier" ++ [LF] ++ bs "[2026-08-17 00:00:00] [Info] hello" ++ [LF]).
Proof.
  destruct (line_reaches_file healthyOs demoZone LogLevel.Info 0 (bs "hello") demoLogger demoWorld (mkTm 2026 8 17 0 0 0))
    as (l' & w' & E & _ & _ & H).
  - done.
  - split; [exact demoWorld_ok|]. split; [|split; [done|]].
    + intros p q i. unfold demoWorld. cbn [names]. rewrite !lookup_singleton_Some. by intros [<- _] [<- _].
    + exists 0%nat, (bs "earlier" ++ [LF]). by vm_compute.
  - done.
  - done.
  - split; [|by vm_compute]. intros p Hp. cbn in Hp. rewrite !elem_of_cons, elem_of_nil in Hp.
    destruct Hp as [->|[->|[->|[]]]]; by vm_compute.
  - exists 1%nat. split; [unfold kMaxRotationIndex; lia|]. by vm_compute.
  - exists l', w'. split; [exact E|]. destruct H as [(_ & Hf & _)|(Hbig & _)]; [exact Hf|by vm_compute in Hbig].
Defined.

(** When the directory of an open file is removed by somebody else, the writes
    still succeed and their lines are in no file that has a name: nothing
    notices that the directory is missing. *)
Lemma deleted_logs_not_recreated :
  let w := (removeAll healthyOs [bs "."; bs "logs"] demoWorld).1 in
  let w' := (log healthyOs demoZone LogLevel.Info 0 (bs "hello") demoLogger w).2 in
  names w' = ∅ /\ console w' = [] /\ [bs "."; bs "logs"] ∉ dirs w'.
Proof. cbv zeta. apply (bool_decide_unpack _). by vm_compute. Qed.
