(* ===== verification/LogPruning.v ===== *)
(** * Which logs are pruned (pruneOldLogs of common/util/Logger.cpp)

    First what happens to the disk for a given cut-off date; then, for a time
    zone that behaves as time zones do, that the cut-off is the day it should
    be: a directory of a date goes exactly when the date is as many days back as
    the retention allows, or more. *)

From stdpp Require Import gmap.
From S2P Require Import Prelude StringView Charconv LineParser Calendar OMap Logger LogKeeping LogFiles.
Import Logger.

(** A name that is pruned. *)
Definition expired (active cutoff name : bytes) : bool :=
  isDateName name && negb (bool_decide (name = active)) && bytesLt name cutoff.

(** Nothing at [p] changes. *)
Definition untouched (w w' : World) (p : path) : Prop := (p ∈ dirs w' <-> p ∈ dirs w) /\ names w' !! p = names w !! p.
Definition gone (w : World) (p : path) : Prop := (p ∉ dirs w) /\ names w !! p = None.

Lemma untouched_refl w p : untouched w w p.
Proof. done. Qed.
Lemma untouched_trans w1 w2 w3 p : untouched w1 w2 p -> untouched w2 w3 p -> untouched w1 w3 p.
Proof. intros [D1 N1] [D2 N2]. split; [tauto|congruence]. Qed.

Section Pruning.
Context (os : Os) (root : path) (active cutoff : bytes).

Lemma removeAll_untouched top w p : ~ under top p -> untouched w (removeAll os top w).1 p.
Proof.
  intros Hu. unfold removeAll. destruct (failing os w RemoveAll) as [k|]; (split; [cbn; set_solver|]); cbn.
  - rewrite map_lookup_filter. destruct (names w !! p) as [i|] eqn:E; [|done]. cbn. rewrite option_guard_True; [done|].
    cbn. intros Hin%subseteq_take. apply elem_of_elements, elem_of_dom in Hin as [j Hj].
    apply map_lookup_filter_Some in Hj as [_ Hj]. done.
  - rewrite map_lookup_filter. destruct (names w !! p) as [i|] eqn:E; [|done]. cbn. by rewrite option_guard_True.
Qed.
Lemma removeAll_gone top w p :
  (gone w p -> gone (removeAll os top w).1 p) /\ (healthy os -> under top p -> gone (removeAll os top w).1 p).
Proof.
  unfold removeAll, gone. split.
  - intros [Hd Hn]. destruct (failing os w RemoveAll) as [k|]; cbn; (split; [set_solver|]); by apply map_lookup_filter_None; left.
  - intros Hos Hu. unfold failing. rewrite Hos. cbn. split; [set_solver|]. apply map_lookup_filter_None. right. intros i _ H. by apply H.
Qed.

(** One entry. *)
Definition visit (name : bytes) (removed : Z) (w : World) : World * Z :=
  let '(w, directory) := isDirectory os (root ++ [name]) w in
  if directory && expired active cutoff name then
    let '(w, ok) := removeAll os (root ++ [name]) w in (w, if ok then removed + 1 else removed)
  else (w, removed).

Lemma pruneLoop_cons name entries removed w :
  pruneLoop os root active cutoff (name :: entries) removed w =
    let '(w, removed) := visit name removed w in
    let '(w, ok) := increment os w in
    if ok then pruneLoop os root active cutoff entries removed w else (w, removed).
Proof. cbn [pruneLoop]. unfold visit, expired. destruct (isDirectory os _ w). by rewrite !andb_assoc. Qed.

Lemma visit_untouched name removed w p :
  (expired active cutoff name = true -> ~ under (root ++ [name]) p) -> untouched w (visit name removed w).1 p.
Proof.
  unfold visit, isDirectory. intros Hu. destruct (_ && expired active cutoff name) eqn:E; [|exact (untouched_refl w p)].
  apply andb_true_iff in E as [_ E]. specialize (Hu E). pose proof (removeAll_untouched (root ++ [name]) (called w) p Hu) as H.
  destruct (removeAll os _ (called w)). exact H.
Qed.
Lemma visit_gone name removed w p : gone w p -> gone (visit name removed w).1 p.
Proof.
  unfold visit, isDirectory. intros Hg. destruct (_ && _); [|done]. pose proof (proj1 (removeAll_gone (root ++ [name]) (called w) p) Hg) as H.
  destruct (removeAll os _ (called w)). exact H.
Qed.
Lemma visit_removes name removed w p :
  healthy os -> expired active cutoff name = true -> root ++ [name] ∈ dirs w -> under (root ++ [name]) p ->
  gone (visit name removed w).1 p.
Proof.
  unfold visit, isDirectory, failing. intros Hos He Hd Hu. rewrite Hos, bool_decide_eq_true_2 by done. cbn [andb].
  rewrite He. pose proof (proj2 (removeAll_gone (root ++ [name]) (called w) p) Hos Hu) as H.
  destruct (removeAll os _ (called w)). exact H.
Qed.

Lemma pruneLoop_untouched entries p :
  (forall name, expired active cutoff name = true -> ~ under (root ++ [name]) p) ->
  forall removed w, untouched w (pruneLoop os root active cutoff entries removed w).1 p.
Proof.
  intros Hu. induction entries as [|name entries IH]; intros removed w; [exact (untouched_refl w p)|]. rewrite pruneLoop_cons.
  pose proof (visit_untouched name removed w p (Hu name)) as H1. destruct (visit name removed w) as [w1 r1]. unfold increment.
  destruct (bool_decide _); [|exact H1]. eapply untouched_trans; [exact H1|]. apply (IH r1 (called w1)).
Qed.
Lemma pruneLoop_gone entries p : forall removed w, gone w p -> gone (pruneLoop os root active cutoff entries removed w).1 p.
Proof.
  induction entries as [|name entries IH]; intros removed w Hg; [done|]. rewrite pruneLoop_cons.
  pose proof (visit_gone name removed w p Hg) as H1. destruct (visit name removed w) as [w1 r1]. unfold increment.
  destruct (bool_decide _); [|exact H1]. by apply IH.
Qed.
Lemma pruneLoop_removes entries p name :
  healthy os -> expired active cutoff name = true -> under (root ++ [name]) p -> name ∈ entries ->
  forall removed w, root ++ [name] ∈ dirs w -> gone (pruneLoop os root active cutoff entries removed w).1 p.
Proof.
  intros Hos He Hu Hin. induction entries as [|name1 entries IH]; intros removed w Hd; [set_solver|]. rewrite pruneLoop_cons.
  destruct (decide (name1 = name)) as [->|Hne].
  - pose proof (visit_removes name removed w p Hos He Hd Hu) as H1. destruct (visit name removed w) as [w1 r1]. unfold increment.
    destruct (bool_decide _); [|exact H1]. by apply pruneLoop_gone.
  - pose proof (visit_untouched name1 removed w (root ++ [name])) as [H1 _].
    { intros _ Hp. apply Hne. unfold under in Hp. apply prefix_app_inv in Hp. destruct Hp as [k Hp]. by injection Hp. }
    destruct (visit name1 removed w) as [w1 r1]. unfold increment, failing. rewrite Hos. cbn [bool_decide].
    rewrite bool_decide_eq_true_2 by done. apply IH; [set_solver|]. by apply H1.
Qed.

Lemma children_dirs name w : root ++ [name] ∈ dirs w -> name ∈ children root w.
Proof.
  intros Hd. unfold children. apply list_elem_of_omap. exists (root ++ [name]). split; [set_solver|].
  unfold childOf, parentOf. rewrite removelast_last, bool_decide_eq_true_2, rev_app_distr by done. done.
Qed.
End Pruning.

(** ** Dates as names *)

Definition dateName (y m d : Z) : bytes := fixedDigits 4 y ++ fixedDigits 2 m ++ fixedDigits 2 d.

Lemma digitsVal_app a b : digitsVal (a ++ b) = digitsVal a * 10 ^ zlen b + digitsVal b.
Proof.
  induction b as [|x b IH] using rev_ind.
  - rewrite app_nil_r. change (digitsVal []) with 0. change (zlen (@nil byte)) with 0. lia.
  - rewrite app_assoc, !digitsVal_snoc, IH, zlen_app, Z.pow_add_r by (try apply zlen_nonneg; done).
    change (10 ^ zlen [x]) with 10. lia.
Qed.

(** Digit strings of one length compare as their values. *)
Lemma bytesLt_digits a : forall b,
  length a = length b -> forallb isDigit a = true -> forallb isDigit b = true -> bytesLt a b = (digitsVal a <? digitsVal b).
Proof.
  induction a as [|x a IH]; intros [|y b] Hl Ha Hb; try done. cbn in Hl. injection Hl as Hl. cbn [forallb] in Ha, Hb.
  apply andb_true_iff in Ha as [Hx Ha], Hb as [Hy Hb]. cbn [bytesLt]. rewrite (IH b) by done.
  change (x :: a) with ([x] ++ a). change (y :: b) with ([y] ++ b). rewrite !digitsVal_app.
  change (digitsVal [x]) with (0 + digitVal x). change (digitsVal [y]) with (0 + digitVal y).
  pose proof (digitsVal_range a Ha). pose proof (digitsVal_range b Hb). apply isDigit_range in Hx, Hy. unfold digitVal in *.
  assert (zlen a = zlen b) as Hz by (unfold zlen; lia). rewrite Hz in *. set (P := 10 ^ zlen b) in *.
  destruct (Z.ltb_spec (b2z x) (b2z y)), (Z.eqb_spec (b2z x) (b2z y)), (Z.ltb_spec (digitsVal a) (digitsVal b)); cbn [orb andb];
    symmetry; first [apply Z.ltb_lt|apply Z.ltb_ge]; nia.
Qed.

Lemma formatYear_four y : 1000 <= y <= 9999 -> formatYear y = fixedDigits 4 y.
Proof.
  intros Hy. unfold formatYear. destruct (Z.ltb_spec y 0); [lia|]. destruct (to_string_spec y) as (D & V & _); [unfold is_uint; lia|].
  rewrite <- V at 2. symmetry. apply fixedDigits_of; [|done]. unfold to_string. cbn [digitsOf].
  rewrite (proj2 (Z.ltb_ge y 10)), (proj2 (Z.ltb_ge (y / 10) 10)), (proj2 (Z.ltb_ge (y / 10 / 10) 10)), (proj2 (Z.ltb_lt (y / 10 / 10 / 10) 10)); [done|..].
  all: rewrite ?Z.div_div by lia; first [apply Z.div_lt_upper_bound|apply Z.div_le_lower_bound|idtac]; lia.
Qed.

Lemma dateName_digits y m d : forallb isDigit (dateName y m d) = true /\ zlen (dateName y m d) = 8.
Proof. unfold dateName. by rewrite !forallb_app, !fixedDigits_digits, !zlen_app, !zlen_fixedDigits. Qed.
Lemma dateName_isDateName y m d : isDateName (dateName y m d) = true.
Proof. unfold isDateName. destruct (dateName_digits y m d) as [-> ->]. done. Qed.
Lemma dateName_val y m d : validDate y m d -> digitsVal (dateName y m d) = y * 10000 + m * 100 + d.
Proof.
  intros (Hy & Hm & Hd). pose proof (monthDays_le y m). unfold dateName. rewrite !digitsVal_app, !fixedDigits_val, !zlen_app, !zlen_fixedDigits by (cbn; lia).
  cbn. lia.
Qed.

Lemma dateName_order y1 m1 d1 y2 m2 d2 :
  validDate y1 m1 d1 -> validDate y2 m2 d2 ->
  bytesLt (dateName y1 m1 d1) (dateName y2 m2 d2) = (daysFromCivil y1 m1 d1 <? daysFromCivil y2 m2 d2).
Proof.
  intros V1 V2. destruct (dateName_digits y1 m1 d1) as [D1 L1], (dateName_digits y2 m2 d2) as [D2 L2].
  rewrite bytesLt_digits, !dateName_val by (done || unfold zlen in *; lia).
  pose proof (monthDays_le y1 m1). pose proof (monthDays_le y2 m2).
  assert (forall y m d y' m' d', validDate y m d -> validDate y' m' d' -> y * 10000 + m * 100 + d < y' * 10000 + m' * 100 + d' ->
    daysFromCivil y m d < daysFromCivil y' m' d') as Hmono.
  { intros y m d y' m' d' V V' Hlt. apply daysFromCivil_mono; [done..|]. pose proof (monthDays_le y m). pose proof (monthDays_le y' m').
    destruct V as (? & ? & ?), V' as (? & ? & ?). unfold dateLt. lia. }
  destruct (Z.ltb_spec (y1 * 10000 + m1 * 100 + d1) (y2 * 10000 + m2 * 100 + d2)) as [Hlt|Hge]; symmetry.
  - apply Z.ltb_lt. by apply Hmono.
  - apply Z.ltb_ge. destruct (Z.eq_dec (y1 * 10000 + m1 * 100 + d1) (y2 * 10000 + m2 * 100 + d2)) as [He|Hne].
    + assert (y1 = y2 /\ m1 = m2 /\ d1 = d2) as (-> & -> & ->); [|lia]. destruct V1 as (? & ? & ?), V2 as (? & ? & ?). lia.
    + apply Z.lt_le_incl, Hmono; [done..|lia].
Qed.

(** ** Time zones *)

Definition dayOf (tm : Tm) : Z := daysFromCivil (tm_year tm) (tm_mon tm) (tm_mday tm).
Definition secondOf (tm : Tm) : Z := tm_hour tm * 3600 + tm_min tm * 60 + tm_sec tm.
Definition noonOf (tm : Tm) : Tm := mkTm (tm_year tm) (tm_mon tm) (tm_mday tm) 12 0 0.

(** Between [lo] and [hi] local time is the calendar reading of the time shifted
    by an offset that moves by at most eight hours, and [mktime] finds noon of a
    day to within three hours (a daylight saving flag may be stale). *)
Record zoneOk (zone : Zone) (off : Z -> Z) (lo hi : Z) : Prop := {
  zone_local t : lo <= t <= hi -> exists tm, localTimeOf zone t = Some tm /\
    validDate (tm_year tm) (tm_mon tm) (tm_mday tm) /\ 1000 <= tm_year tm /\ 0 <= secondOf tm < 86400 /\
    86400 * dayOf tm + secondOf tm = t + off t;
  zone_noon t tm : lo <= t <= hi -> localTimeOf zone t = Some tm -> exists m, mktime zone (noonOf tm) = Some m /\
    Z.abs (m - t) <= 86400 /\ Z.abs (m + off m - (86400 * dayOf tm + 43200)) <= 3 * 3600;
  zone_shift t t' : lo <= t <= hi -> lo <= t' <= hi -> Z.abs (off t - off t') <= 8 * 3600 }.

Lemma cutoffOf_spec zone off lo hi ref keepDays tm :
  zoneOk zone off lo hi -> 1 <= keepDays -> lo + keepDays * 86400 <= ref <= hi - 86400 -> localTimeOf zone ref = Some tm ->
  exists y m d, validDate y m d /\ cutoffOf zone ref keepDays = Some (dateName y m d) /\ daysFromCivil y m d = dayOf tm - (keepDays - 1).
Proof.
  intros [Zl Zn Zs] Hk Hr Htm. unfold cutoffOf. rewrite Htm. destruct (Zn ref tm ltac:(lia) Htm) as (mid & Em & Hm1 & Hm2).
  unfold noonOf in Em. rewrite Em. set (t := mid - (keepDays - 1) * 24 * 60 * 60).
  destruct (Zl t) as (c & Ec & Vc & Yc & Sc & Hc); [lia|]. rewrite Ec.
  assert (dateStringOf c = dateName (tm_year c) (tm_mon c) (tm_mday c)) as Hdate.
  { unfold dateStringOf, strftime. rewrite formatYear_four by (destruct Vc as (? & _); lia). fold (dateName (tm_year c) (tm_mon c) (tm_mday c)).
    destruct (dateName_digits (tm_year c) (tm_mon c) (tm_mday c)) as [_ ->]. done. }
  exists (tm_year c), (tm_mon c), (tm_mday c). split; [done|]. rewrite Hdate.
  rewrite bool_decide_eq_false_2 by (intros He; pose proof (dateName_digits (tm_year c) (tm_mon c) (tm_mday c)) as [_ HL]; rewrite He in HL; done).
  split; [done|]. fold (dayOf c). pose proof (Zs t mid ltac:(lia) ltac:(lia)). lia.
Qed.

Definition logsRoot (l : t) : path := [baseDir l; kLogsFolder].

(** C26: pruning keeps exactly the days it should.  On a logger that writes to
    files, for a reference time in local day D: nothing changes outside the
    date-named directories of <base>/logs, in the directory of the active date,
    or in a directory of a date less than [keepDays] days before D, whatever
    calls fail; and when no call fails, every directory of a date [keepDays] or
    more days before D is gone with all that was in it, except the active one. *)
Theorem prune_retention os zone off lo hi ref keepDays l w tm :
  zoneOk zone off lo hi -> 1 <= keepDays -> lo + keepDays * 86400 <= ref <= hi - 86400 -> localTimeOf zone ref = Some tm ->
  fileRequested l = true -> baseDir l <> [] ->
  let w' := (pruneOldLogs os zone ref keepDays l w).1 in
  (forall p, (forall name, under (logsRoot l ++ [name]) p -> isDateName name = true ->
      name = activeDate l \/ exists y m d, validDate y m d /\ name = dateName y m d /\ dayOf tm - daysFromCivil y m d < keepDays) ->
    untouched w w' p) /\
  (healthy os -> (forall n names, readdir os n names ≡ₚ names) -> logsRoot l ∈ dirs w ->
    forall y m d p, validDate y m d -> keepDays <= dayOf tm - daysFromCivil y m d -> dateName y m d <> activeDate l ->
      logsRoot l ++ [dateName y m d] ∈ dirs w -> under (logsRoot l ++ [dateName y m d]) p -> gone w' p).
Proof.
  intros Hz Hk Hr Htm Hf Hb. destruct (cutoffOf_spec zone off lo hi ref keepDays tm Hz Hk Hr Htm) as (cy & cm & cd & Vc & Ec & Dc).
  unfold pruneOldLogs. rewrite Hf, bool_decide_eq_false_2, (proj2 (Z.ltb_ge keepDays 1)) by done. cbn [negb orb]. rewrite Ec.
  fold (logsRoot l). unfold listDirectory. split.
  - intros p Hp. destruct (match failing os w ListDir with Some _ => None | None => _ end) as [entries|]; [|exact (untouched_refl w p)].
    apply (fun H => untouched_trans w (called w) _ p (untouched_refl w p) (pruneLoop_untouched os _ _ _ entries p H 0 (called w))).
    intros name He Hu. unfold expired in He. apply andb_true_iff in He as [[He Ha]%andb_true_iff Hlt].
    destruct (Hp name Hu He) as [->|(y & m & d & V & -> & Hd)]; [by rewrite bool_decide_eq_true_2 in Ha|].
    rewrite dateName_order in Hlt by done. apply Z.ltb_lt in Hlt. lia.
  - intros Hos Hperm Hroot y m d p V Hd Hne Hdir Hu. unfold failing. rewrite Hos, bool_decide_eq_true_2 by done.
    apply (pruneLoop_removes os _ _ _ _ p (dateName y m d)); [done| |done| |done].
    + unfold expired. rewrite dateName_isDateName, bool_decide_eq_false_2, dateName_order by done. apply Z.ltb_lt. lia.
    + rewrite Hperm. by apply children_dirs.
Qed.

(** August 2026 in UTC. *)
Definition august : Z := daysFromCivil 2026 8 1.
Definition augustZone : Zone :=
  mkZone (fun t => Some (mkTm 2026 8 (1 + (t / 86400 - august)) (t mod 86400 / 3600) (t mod 86400 mod 3600 / 60) (t mod 86400 mod 3600 mod 60)))
    (fun tm => Some (86400 * dayOf tm + secondOf tm)).
Lemma august_day d : 1 <= d <= 31 -> daysFromCivil 2026 8 d = august + (d - 1).
Proof.
  intros Hd. unfold august. assert (forall e, 1 <= e <= 31 -> validDate 2026 8 e) as Hv by (intros e He; unfold validDate; cbn; lia).
  rewrite !daysFromCivil_closed by (apply Hv; lia). lia.
Qed.
Lemma august_ok : zoneOk augustZone (fun _ => 0) (august * 86400) ((august + 30) * 86400).
Proof.
  assert (forall s, s / 3600 * 3600 + s mod 3600 / 60 * 60 + s mod 3600 mod 60 = s) as Hsec.
  { intros s. pose proof (Z.div_mod s 3600 ltac:(lia)). pose proof (Z.div_mod (s mod 3600) 60 ltac:(lia)). lia. }
  split.
  - intros t Ht. eexists. split; [reflexivity|]. cbn [tm_year tm_mon tm_mday].
    assert (august <= t / 86400 <= august + 30) as Hq by (split; [apply Z.div_le_lower_bound|apply Z.div_le_upper_bound]; lia).
    pose proof (Z.mod_pos_bound t 86400 ltac:(lia)). pose proof (Z.div_mod t 86400 ltac:(lia)).
    unfold dayOf, secondOf. cbn [tm_year tm_mon tm_mday tm_hour tm_min tm_sec]. rewrite august_day, Hsec by lia.
    split; [unfold validDate; cbn; lia|]. lia.
  - intros t tm Ht [= <-]. eexists. split; [reflexivity|]. unfold noonOf, dayOf, secondOf. cbn [tm_year tm_mon tm_mday tm_hour tm_min tm_sec].
    assert (august <= t / 86400 <= august + 30) as Hq by (split; [apply Z.div_le_lower_bound|apply Z.div_le_upper_bound]; lia).
    rewrite august_day by lia. pose proof (Z.mod_pos_bound t 86400 ltac:(lia)). pose proof (Z.div_mod t 86400 ltac:(lia)). lia.
  - lia.
Qed.

Lemma prune_retention_witness :
  let l := mk (Some 0%nat) false true true (bs ".") (bs "server.log") (bs "20260817") [] 0 in
  let dir (d : bytes) := [bs "."; bs "logs"; d] in
  let w := mkWorld {[ [bs "."]; [bs "."; bs "logs"]; dir (bs "20260810"); dir (bs "20260811"); dir (bs "20260817") ]}
    {[ dir (bs "20260810") ++ [bs "server.log"] := 0%nat ]} {[ 0%nat := bs "old" ]} 1 [] 0 in
  let w' := (pruneOldLogs healthyOs augustZone ((august + 16) * 86400) 7 l w).1 in
  gone w' (dir (bs "20260810") ++ [bs "server.log"]) /\ untouched w w' (dir (bs "20260811")).
Proof.
  intros l dir w w'.
  destruct (prune_retention healthyOs augustZone (fun _ => 0) (august * 86400) ((august + 30) * 86400) ((august + 16) * 86400) 7 l w
    (mkTm 2026 8 17 0 0 0) august_ok) as [Hkeep Hgone]; [lia|lia|by vm_compute|done|done|]. split.
  - apply (Hgone (fun _ _ => eq_refl) (fun _ _ => reflexivity _)) with (y := 2026) (m := 8) (d := 10);
      [|unfold validDate; cbn; lia|by vm_compute|by vm_compute| |by exists [bs "server.log"]].
    + by apply (bool_decide_unpack _); vm_compute.
    + by apply (bool_decide_unpack _); vm_compute.
  - apply Hkeep. intros name [k Hk] _. right. exists 2026, 8, 11. split; [unfold validDate; cbn; lia|]. split; [|by vm_compute].
    by injection Hk.
Defined.
