(* ===== verification/ServerApp.v ===== *)
(** * The server process (server/src/app/ServerApp.h, .cpp and the start of main)

    What the application object adds to the sessions: the start of the loop and
    its handles, the daily pruning of the logs, and the shutdown on a signal.
    Sessions appear here by the handles they own (their behaviour is the model
    of the session manager); the loop is the set of its handles.  Closing a
    handle that is not open is undefined.  [uv_run] returns when no handle is
    left.  The answers of libuv are parameters. *)

From stdpp Require Import gmap.
From S2P Require Import Prelude StringView Charconv Ring Logger ServerConfig Level.

Inductive handle :=
| HSigterm | HSigint | HListener | HReaper | HCompletion | HResume | HAbortDone | HPrune
| HSocket (n : nat) | HTimer (n : nat).

#[export] Instance handle_eq_dec : EqDecision handle.
Proof. solve_decision. Defined.
Definition handleCode (h : handle) : nat * nat :=
  match h with
  | HSigterm => (0, 0) | HSigint => (0, 1) | HListener => (0, 2) | HReaper => (0, 3) | HCompletion => (0, 4)
  | HResume => (0, 5) | HAbortDone => (0, 6) | HPrune => (0, 7) | HSocket n => (1, n) | HTimer n => (2, n)
  end%nat.
Definition handleOf (c : nat * nat) : option handle :=
  match c with
  | (0, 0) => Some HSigterm | (0, 1) => Some HSigint | (0, 2) => Some HListener | (0, 3) => Some HReaper
  | (0, 4) => Some HCompletion | (0, 5) => Some HResume | (0, 6) => Some HAbortDone | (0, 7) => Some HPrune
  | (1, n) => Some (HSocket n) | (2, n) => Some (HTimer n) | _ => None
  end%nat.
#[export] Instance handle_countable : Countable handle.
Proof. refine (inj_countable handleCode handleOf _). by intros []. Defined.

(** In use, or closing with its close callback to come; others are not there. *)
Inductive hstate := Open | Closing.
Abbreviation loop := (gmap handle hstate).

(** What libuv answers. *)
Record Answers := mkAnswers {
  loop_init : Z;
  handle_init : handle -> Z;            (* uv_signal_init, uv_tcp_init, uv_idle_init, uv_async_init, uv_timer_init *)
  signal_start : handle -> Z;
  listen_rc : bytes -> Z -> Z -> Z;     (* address, port, backlog: uv_ip4_addr, uv_tcp_bind and uv_listen *)
  strerror : Z -> bytes }.

Definition kListenBacklog : Z := 128.
Definition kPruneCheckIntervalMs : Z := 60 * 60 * 1000.
Definition SIGINT : Z := 2.
Definition SIGTERM : Z := 15.

Definition signalName (signum : Z) : bytes :=
  if signum =? SIGTERM then bs "SIGTERM" else if signum =? SIGINT then bs "SIGINT" else bs "signal " ++ to_string signum.

(** ** The handles of the session manager *)

(** A session: its number, whether its socket and timer have a handle, and
    whether the socket is closing or closed. *)
Record Sess := mkSess { s_number : nat; s_socket : bool; s_closing : bool; s_closed : bool; s_timer : bool }.

Record Manager := mkManager {
  m_listener : bool;              (* _listener._handle *)
  m_listenerClosing : bool;
  m_reaper : bool;                (* _reaper *)
  m_asyncs : list handle;         (* the async handles the parser thread holds *)
  m_started : bool;               (* _parser._started *)
  m_session : option Sess;
  m_closing : bool;
  m_accepted : nat }.

Section Loop.
Context (uv : Answers).

Definition initHandle (h : handle) (l : loop) : loop * Z :=
  let rc := handle_init uv h in (if rc =? 0 then <[h := Open]> l else l, rc).

Definition uvClose (h : handle) (l : loop) : outcome loop :=
  match l !! h with Some Open => Ret (<[h := Closing]> l) | _ => UB end.
(** [if (!uv_is_closing(h)) uv_close(h)] *)
Definition closeOnce (h : handle) (l : loop) : outcome loop :=
  match l !! h with Some Closing => Ret l | _ => uvClose h l end.

(** SessionManager::SessionManager *)
Definition makeManager (l : loop) : Manager * loop :=
  let '(l, rc1) := initHandle HListener l in
  let '(l, rc2) := initHandle HReaper l in
  (mkManager (rc1 =? 0) false (rc2 =? 0) [HCompletion; HResume; HAbortDone] false None false 0, l).

Definition setAsyncs (m : Manager) (hs : list handle) (started : bool) : Manager :=
  mkManager (m_listener m) (m_listenerClosing m) (m_reaper m) hs started (m_session m) (m_closing m) (m_accepted m).
Definition setSess (m : Manager) (s : option Sess) : Manager :=
  mkManager (m_listener m) (m_listenerClosing m) (m_reaper m) (m_asyncs m) (m_started m) s (m_closing m) (m_accepted m).

(** ParserThread::start *)
Definition asyncName (h : handle) : bytes :=
  match h with HCompletion => bs "completion" | HResume => bs "resume" | _ => bs "abortDone" end.
Fixpoint initAsyncs (hs : list handle) (l : loop) : loop * option bytes :=
  match hs with
  | [] => (l, None)
  | h :: hs =>
      let '(l, rc) := initHandle h l in
      if negb (rc =? 0) then (l, Some (bs "uv_async_init(" ++ asyncName h ++ bs "): " ++ strerror uv rc)) else initAsyncs hs l
  end.
Definition startParser (m : Manager) (l : loop) : Manager * loop * option bytes :=
  if m_started m then (m, l, None)
  else
    let '(l, e) := initAsyncs [HCompletion; HResume; HAbortDone] l in
    match e with
    | Some _ => (m, l, e)
    | None => (setAsyncs m (m_asyncs m) true, l, None)
    end.

(** ParserThread::closeHandles and stop: the thread has ended before the handles
    are closed. *)
Fixpoint closeHandles (hs : list handle) (l : loop) : outcome loop :=
  match hs with
  | [] => Ret l
  | h :: hs => let* l := closeOnce h l in closeHandles hs l
  end.
Definition stopParser (m : Manager) (l : loop) : outcome (Manager * loop) :=
  let* l := closeHandles (m_asyncs m) l in
  Ret (setAsyncs m [] false, l).

(** ~Session: ~Timer and ~TcpSocket. *)
Definition destroySession (m : Manager) (l : loop) : outcome (Manager * loop) :=
  match m_session m with
  | None => Ret (m, l)
  | Some s =>
      let* l := if s_timer s then closeOnce (HTimer (s_number s)) l else Ret l in
      let* l := if s_socket s && negb (s_closed s) then closeOnce (HSocket (s_number s)) l else Ret l in
      Ret (setSess m None, l)
  end.

Definition closeListener (m : Manager) (l : loop) : outcome (Manager * loop) :=
  if negb (m_listener m) || m_listenerClosing m then Ret (m, l)
  else
    let* l := uvClose HListener l in
    Ret (mkManager (m_listener m) true (m_reaper m) (m_asyncs m) (m_started m) (m_session m) (m_closing m) (m_accepted m), l).

Definition closeReaper (m : Manager) (l : loop) : outcome (Manager * loop) :=
  if negb (m_reaper m) then Ret (m, l)
  else
    let* l := closeOnce HReaper l in
    Ret (mkManager (m_listener m) (m_listenerClosing m) false (m_asyncs m) (m_started m) (m_session m) (m_closing m) (m_accepted m), l).

(** SessionManager::close *)
Definition closeManager (m : Manager) (l : loop) : outcome (Manager * loop) :=
  let m := mkManager (m_listener m) (m_listenerClosing m) (m_reaper m) (m_asyncs m) (m_started m) (m_session m) true (m_accepted m) in
  let* r := closeListener m l in
  let* r := destroySession r.1 r.2 in
  let* r := stopParser r.1 r.2 in
  closeReaper r.1 r.2.

(** acceptIfIdle, as far as handles go: does uv_accept answer 0, and does
    Session::start succeed? *)
Definition accept (m : Manager) (accepted started : bool) (l : loop) : outcome (Manager * loop) :=
  if m_closing m || bool_decide (is_Some (m_session m)) || negb (m_listener m) || m_listenerClosing m then Ret (m, l)
  else
    let n := m_accepted m in
    let m := mkManager (m_listener m) (m_listenerClosing m) (m_reaper m) (m_asyncs m) (m_started m) None (m_closing m) (S n) in
    let '(l, rc) := initHandle (HSocket n) l in
    if negb (rc =? 0) then Ret (m, l)
    else if negb accepted then let* l := closeOnce (HSocket n) l in Ret (m, l)
    else
      let '(l, rc) := initHandle (HTimer n) l in
      let m := setSess m (Some (mkSess n true false false (rc =? 0))) in
      if started then Ret (m, l) else destroySession m l.

(** The session closes its socket. *)
Definition closeSocket (m : Manager) (l : loop) : outcome (Manager * loop) :=
  match m_session m with
  | Some s =>
      if negb (s_socket s) || s_closing s then Ret (m, l)
      else
        let* l := uvClose (HSocket (s_number s)) l in
        Ret (setSess m (Some (mkSess (s_number s) (s_socket s) true (s_closed s) (s_timer s))), l)
  | None => Ret (m, l)
  end.
End Loop.

(** ** The log of a daemon *)

(** [path::parent_path] and [path::filename]: the last slash. *)
Fixpoint splitSlash (p : bytes) : option (bytes * bytes) :=
  match p with
  | [] => None
  | b :: p =>
      match splitSlash p with
      | Some (d, f) => Some (b :: d, f)
      | None => if bool_decide (b = "/"%byte) then Some ([b], p) else None
      end
  end.
Fixpoint dropSlashes (rev_ : bytes) : bytes :=
  match rev_ with
  | b :: r => if bool_decide (b = "/"%byte) then dropSlashes r else rev_
  | [] => []
  end.
Definition parentAndName (p : bytes) : bytes * bytes :=
  match splitSlash p with
  | None => ([], p)
  | Some (d, f) => let stripped := rev (dropSlashes (rev d)) in (if bool_decide (stripped = []) then d else stripped, f)
  end.

(** main, between daemonize and the pid file: the file sink and the pruning at
    the start. *)
Definition startDaemonLog (os : Os) (zone : Zone) (now : Z) (c : ServerConfig) (lg : Logger.t) (w : World) : Logger.t * World * bool :=
  let '(dir, name) := parentAndName (cf_logPath c) in
  let name := if bool_decide (name = []) then bs "server.log" else name in
  let '(lg, w, ok) := Logger.openFile os zone now dir name lg w in
  if negb ok then (lg, w, false)
  else
    let '(w, pruned) := Logger.pruneOldLogs os zone now kLogRetentionDays lg w in
    if 0 <? pruned
    then (Logger.log os zone LogLevel.Info now (bs "Pruned " ++ to_string pruned ++ bs " expired log directory(ies) at startup") lg w, true)
    else (lg, w, true).

Example parentAndName_demo :
  map parentAndName [bs "./server.log"; bs "server.log"; bs "/x"; bs "var//log/s.log"; bs "dir/"] =
  [(bs ".", bs "server.log"); ([], bs "server.log"); (bs "/", bs "x"); (bs "var//log", bs "s.log"); (bs "dir", [])].
Proof. vm_compute. reflexivity. Qed.

(** ** The application *)

Module ServerApp.
Record t := mk {
  config : ServerConfig;
  handles : loop;
  loopReady : bool;
  sessions : option Manager;
  pruneTimer : option bool;       (* does it have a handle? *)
  pruneArmed : bool;
  lastPruneDate : bytes;
  shuttingDown : bool;
  blocked : bool;                 (* SIGTERM and SIGINT are blocked *)
  logger : Logger.t;
  disk : World }.

Definition make (c : ServerConfig) (lg : Logger.t) (w : World) : t := mk c ∅ false None None false [] false false lg w.

Definition setHandles (a : t) (l : loop) : t :=
  mk (config a) l (loopReady a) (sessions a) (pruneTimer a) (pruneArmed a) (lastPruneDate a) (shuttingDown a) (blocked a) (logger a) (disk a).
Definition setSessions (a : t) (m : Manager) (l : loop) : t :=
  mk (config a) l (loopReady a) (Some m) (pruneTimer a) (pruneArmed a) (lastPruneDate a) (shuttingDown a) (blocked a) (logger a) (disk a).
Definition setTimer (a : t) (timer : option bool) (armed : bool) (l : loop) : t :=
  mk (config a) l (loopReady a) (sessions a) timer armed (lastPruneDate a) (shuttingDown a) (blocked a) (logger a) (disk a).
Definition setDate (a : t) (date : bytes) : t :=
  mk (config a) (handles a) (loopReady a) (sessions a) (pruneTimer a) (pruneArmed a) date (shuttingDown a) (blocked a) (logger a) (disk a).
Definition setFlags (a : t) (down blk : bool) : t :=
  mk (config a) (handles a) (loopReady a) (sessions a) (pruneTimer a) (pruneArmed a) (lastPruneDate a) down blk (logger a) (disk a).
Definition setLogs (a : t) (lg : Logger.t) (w : World) : t :=
  mk (config a) (handles a) (loopReady a) (sessions a) (pruneTimer a) (pruneArmed a) (lastPruneDate a) (shuttingDown a) (blocked a) lg w.

Section App.
Context (uv : Answers) (os : Os) (zone : Zone).

Definition logs (level : LogLevel.t) (now : Z) (message : bytes) (a : t) : t :=
  let '(lg, w) := Logger.log os zone level now message (logger a) (disk a) in setLogs a lg w.

Definition armPruneTimer (a : t) : t :=
  match pruneTimer a with
  | None => a
  | Some h => setTimer a (pruneTimer a) (pruneArmed a || h) (handles a)
  end.

Fixpoint initSignals (hs : list handle) (l : loop) : loop * option bytes :=
  match hs with
  | [] => (l, None)
  | h :: hs =>
      let '(l, rc) := initHandle uv h l in
      if negb (rc =? 0) then (l, Some (bs "uv_signal_init: " ++ strerror uv rc))
      else
        let rc := signal_start uv h in
        if negb (rc =? 0) then (l, Some (bs "uv_signal_start: " ++ strerror uv rc)) else initSignals hs l
  end.

(** The listener's answer: without a handle, UV_EINVAL (-22). *)
Definition listen (m : Manager) (ip : bytes) (port backlog : Z) : Z :=
  if m_listener m then listen_rc uv ip port backlog else -22.

Definition init (a : t) : t * option bytes :=
  let rc := loop_init uv in
  if negb (rc =? 0) then (a, Some (bs "uv_loop_init: " ++ strerror uv rc))
  else
    let a := mk (config a) (handles a) true (sessions a) (pruneTimer a) (pruneArmed a) (lastPruneDate a) (shuttingDown a)
      (blocked a) (logger a) (disk a) in
    let '(l, e) := initSignals [HSigterm; HSigint] (handles a) in
    let a := setHandles a l in
    match e with
    | Some _ => (a, e)
    | None =>
        let '(m, l) := makeManager uv (handles a) in
        let '(m, l, e) := startParser uv m l in
        let a := setSessions a m l in
        match e with
        | Some _ => (a, e)
        | None =>
            let rc := listen m (bs "0.0.0.0") (cf_port (config a)) kListenBacklog in
            if negb (rc =? 0) then
              (a, Some (bs "listen on port " ++ to_string (cf_port (config a)) ++ bs ": " ++ strerror uv rc))
            else if bool_decide (Logger.activeFilePath (logger a) = []) then (a, None)
            else
              let '(l, rc) := initHandle uv HPrune (handles a) in
              (armPruneTimer (setTimer a (Some (rc =? 0)) false l), None)
        end
    end.

(** Does a tick at [now] prune, and for which date? *)
Definition pruneDue (last : bytes) (now : Z) : option bytes :=
  match localTimeOf zone now with
  | Some local =>
      if tm_hour local =? kLogPruneHour then
        let today := dateStringOf local in
        if negb (bool_decide (today = [])) && negb (bool_decide (last = today)) then Some today else None
      else None
  | None => None
  end.

Definition onPruneTick (now : Z) (a : t) : t :=
  let a :=
    match pruneDue (lastPruneDate a) now with
    | Some today =>
        let a := setDate a today in
        let '(w, pruned) := Logger.pruneOldLogs os zone now kLogRetentionDays (logger a) (disk a) in
        let a := setLogs a (logger a) w in
        if 0 <? pruned then logs LogLevel.Info now (bs "Pruned " ++ to_string pruned ++ bs " expired log directory(ies)") a else a
    | None => a
    end in
  armPruneTimer a.

(** The timer fires once: it is not armed while its callback runs. *)
Definition tick (now : Z) (a : t) : t :=
  if pruneArmed a then onPruneTick now (setTimer a (pruneTimer a) false (handles a)) else a.

Definition shutdown (a : t) : outcome t :=
  let a := setFlags a (shuttingDown a) true in
  let* a :=
    match sessions a with
    | Some m => let* r := closeManager m (handles a) in Ret (setSessions a r.1 r.2)
    | None => Ret a
    end in
  let* l := match pruneTimer a with Some true => closeOnce HPrune (handles a) | _ => Ret (handles a) end in
  let a := setTimer a None false l in
  let* l := closeOnce HSigterm (handles a) in
  let* l := closeOnce HSigint l in
  Ret (setHandles a l).

Definition onSignal (signum now : Z) (a : t) : outcome t :=
  if shuttingDown a then
    Ret (logs LogLevel.Warn now (bs "Ignoring " ++ signalName signum ++ bs " (shutdown already in progress)") a)
  else
    let a := setFlags a true (blocked a) in
    let a := logs LogLevel.Info now (bs "Received " ++ signalName signum ++ bs " — starting graceful shutdown") a in
    shutdown a.

(** run: the lines before and after [uv_run], which answers [rc]. *)
Definition runBegin (now pid : Z) (a : t) : t :=
  logs LogLevel.Info now (bs "Server started (port " ++ to_string (cf_port (config a)) ++ bs ", pid " ++ to_string pid ++ bs ")") a.
Definition runEnd (now rc : Z) (a : t) : t :=
  let a := if negb (rc =? 0) then logs LogLevel.Warn now (bs "uv_run returned with " ++ to_string rc ++ bs " active handle(s) remaining") a else a in
  logs LogLevel.Info now (bs "Server stopped") a.

(** ** Events *)

Inductive event :=
| EvSignal (signum now : Z)
| EvTick (now : Z)
| EvAccept (accepted started : bool)
| EvCloseSocket                        (* the session closes its socket *)
| EvReap                               (* the finished session is destroyed *)
| EvClosed (h : handle).               (* libuv has closed a handle *)

Definition onManager (f : Manager -> loop -> outcome (Manager * loop)) (a : t) : outcome t :=
  match sessions a with
  | Some m => let* r := f m (handles a) in Ret (setSessions a r.1 r.2)
  | None => Ret a
  end.

(** The session is told that its socket is closed. *)
Definition markClosed (h : handle) (m : Manager) : Manager :=
  match m_session m with
  | Some s =>
      if bool_decide (h = HSocket (s_number s))
      then setSess m (Some (mkSess (s_number s) (s_socket s) (s_closing s) true (s_timer s))) else m
  | None => m
  end.
Definition onClosed (h : handle) (a : t) : option t :=
  match handles a !! h with
  | Some Closing =>
      let a := setHandles a (delete h (handles a)) in
      Some (match sessions a with Some m => setSessions a (markClosed h m) (handles a) | None => a end)
  | _ => None
  end.

Definition step (e : event) (a : t) : outcome (option t) :=
  match e with
  | EvSignal signum now => let* a := onSignal signum now a in Ret (Some a)
  | EvTick now => Ret (Some (tick now a))
  | EvAccept accepted started => let* a := onManager (fun m l => accept uv m accepted started l) a in Ret (Some a)
  | EvCloseSocket => let* a := onManager closeSocket a in Ret (Some a)
  | EvReap => let* a := onManager destroySession a in Ret (Some a)
  | EvClosed h => Ret (onClosed h a)
  end.
End App.
End ServerApp.
