(* ===== verification/ServerLife.v ===== *)
(** * The life of the server process

    The loop's open handles are exactly those the application owns, from a
    successful start to the end of the shutdown, so that every handle is closed
    once and the loop ends; and the logs are pruned at most once a day, at the
    hour set for it. *)

From Stdlib Require Import Sorting.Sorted.
From stdpp Require Import gmap.
From S2P Require Import Prelude StringView Charconv OMap Logger ServerConfig ServerApp Level.
Import ServerApp.

(** Who owns an open handle: the signals, the pruning timer, the manager. *)
Definition owns (sig prune : bool) (m : Manager) (h : handle) : bool :=
  match h with
  | HSigterm | HSigint => sig
  | HPrune => prune
  | HListener => m_listener m && negb (m_listenerClosing m)
  | HReaper => m_reaper m
  | HCompletion | HResume | HAbortDone => m_started m
  | HSocket n => match m_session m with Some s => bool_decide (s_number s = n) && negb (s_closing s) | None => false end
  | HTimer n => match m_session m with Some s => bool_decide (s_number s = n) && s_timer s | None => false end
  end.

Definition opens (l : loop) (P : handle -> bool) : Prop := forall h, l !! h = Some Open <-> P h = true.

Definition numbered (n : nat) (l : loop) : Prop := forall k, (n <= k)%nat -> l !! HSocket k = None /\ l !! HTimer k = None.

Definition managerOk (m : Manager) (l : loop) : Prop :=
  numbered (m_accepted m) l /\ m_asyncs m = (if m_started m then [HCompletion; HResume; HAbortDone] else []) /\
  match m_session m with
  | None => True
  | Some s => (s_number s < m_accepted m)%nat /\ s_socket s = true /\ (s_closed s = true -> s_closing s = true) /\
      (s_closing s = true -> s_closed s = false -> l !! HSocket (s_number s) = Some Closing)
  end.

Definition inv (sig prune : bool) (m : Manager) (l : loop) : Prop := opens l (owns sig prune m) /\ managerOk m l.

Lemma opens_ext l P Q : (forall h, P h = Q h) -> opens l P -> opens l Q.
Proof. intros H Ho h. rewrite <- H. apply Ho. Qed.
Lemma opens_close l P Q h :
  opens l P -> (forall h', Q h' = P h' && negb (bool_decide (h' = h))) -> opens (<[h := Closing]> l) Q.
Proof.
  intros Ho HQ h'. rewrite HQ. destruct (decide (h' = h)) as [->|Hne].
  - rewrite lookup_insert_eq, bool_decide_eq_true_2, andb_false_r by done. done.
  - rewrite lookup_insert_ne, bool_decide_eq_false_2, andb_true_r by done. apply Ho.
Qed.
Lemma opens_open l P Q h :
  opens l P -> (forall h', Q h' = P h' || bool_decide (h' = h)) -> opens (<[h := Open]> l) Q.
Proof.
  intros Ho HQ h'. rewrite HQ. destruct (decide (h' = h)) as [->|Hne].
  - rewrite lookup_insert_eq, bool_decide_eq_true_2, orb_true_r by done. done.
  - rewrite lookup_insert_ne, bool_decide_eq_false_2, orb_false_r by done. apply Ho.
Qed.
Lemma numbered_insert n l h x :
  numbered n l -> (forall k, (n <= k)%nat -> h <> HSocket k /\ h <> HTimer k) -> numbered n (<[h := x]> l).
Proof. intros Hn Hh k Hk. destruct (Hh k Hk). rewrite !lookup_insert_ne by done. by apply Hn. Qed.
Lemma numbered_le n n' l : numbered n l -> (n <= n')%nat -> numbered n' l.
Proof. intros Hn Hle k Hk. apply Hn. lia. Qed.

Lemma uvClose_open h l : l !! h = Some Open -> uvClose h l = Ret (<[h := Closing]> l).
Proof. unfold uvClose. by intros ->. Qed.
Lemma closeOnce_open h l : l !! h = Some Open -> closeOnce h l = Ret (<[h := Closing]> l).
Proof. unfold closeOnce, uvClose. by intros ->. Qed.
Lemma closeOnce_closing h l : l !! h = Some Closing -> closeOnce h l = Ret l.
Proof. unfold closeOnce. by intros ->. Qed.

(** Two ownerships that differ in known handles. *)
Ltac owned :=
  intros []; cbn;
  repeat match goal with H : m_session _ = _ |- _ => rewrite H end; cbn;
  repeat match goal with H : ?b = true |- context [?b] => rewrite H | H : ?b = false |- context [?b] => rewrite H end; cbn;
  repeat case_bool_decide; simplify_eq; cbn; rewrite ?andb_true_r, ?andb_false_r, ?orb_false_r, ?orb_true_r; done.

Section Manager.
Context (sig prune : bool).

Lemma closeListener_inv m l :
  inv sig prune m l -> exists m' l', closeListener m l = Ret (m', l') /\ inv sig prune m' l' /\
    m_listener m' && negb (m_listenerClosing m') = false /\
    m' = mkManager (m_listener m) (m_listenerClosing m') (m_reaper m) (m_asyncs m) (m_started m) (m_session m) (m_closing m) (m_accepted m).
Proof.
  intros [Ho (Hn & Ha & Hs)]. unfold closeListener. destruct (negb (m_listener m) || m_listenerClosing m) eqn:E.
  - exists m, l. split; [done|]. split; [done|]. split; [by destruct (m_listener m), (m_listenerClosing m)|by destruct m].
  - apply orb_false_iff in E as [El%negb_false_iff Ec]. rewrite uvClose_open by (apply Ho; cbn; by rewrite El, Ec).
    eexists _, _. split; [reflexivity|]. split; [|split; [cbn; by rewrite andb_false_r|done]]. split; [|split; [|split; [done|]]].
    + eapply opens_close; [exact Ho|]. owned.
    + by apply numbered_insert.
    + cbn. destruct (m_session m) as [s|]; [|done]. rewrite lookup_insert_ne by done. done.
Qed.

Lemma destroySession_inv m l :
  inv sig prune m l -> exists m' l', destroySession m l = Ret (m', l') /\ inv sig prune m' l' /\ m' = setSess m None /\
    (m_session m = None -> l' = l).
Proof.
  intros [Ho (Hn & Ha & Hs)]. unfold destroySession. destruct (m_session m) as [s|] eqn:Es.
  2: { exists m, l. split; [done|]. split; [split; [done|]; unfold managerOk; by rewrite Es|]. destruct m; cbn in *; by subst. }
  destruct Hs as (Hlt & Hk & Hc & Hcl). rewrite Hk. cbn [andb].
  assert (exists l1, (if s_timer s then closeOnce (HTimer (s_number s)) l else Ret l) = Ret l1 /\
    opens l1 (owns sig prune (setSess m (Some (mkSess (s_number s) true (s_closing s) (s_closed s) false)))) /\
    numbered (m_accepted m) l1 /\ l1 !! HSocket (s_number s) = l !! HSocket (s_number s)) as (l1 & -> & Ho1 & Hn1 & Hk1).
  { destruct (s_timer s) eqn:Et.
    - rewrite closeOnce_open by (apply Ho; cbn; by rewrite Es, Et, bool_decide_eq_true_2). eexists. split; [reflexivity|]. split_and!.
      + eapply opens_close; [exact Ho|]. owned.
      + apply numbered_insert; [done|]. intros k Hk'. split; [done|]. intros [= Ek]. lia.
      + by rewrite lookup_insert_ne.
    - exists l. split; [done|]. split; [|done]. eapply opens_ext; [|exact Ho]. owned. }
  cbn [obind]. destruct (s_closed s) eqn:Ecl; cbn [negb].
  - specialize (Hc eq_refl). eexists _, _. split; [reflexivity|]. split; [|done]. split; [|done]. eapply opens_ext; [|exact Ho1]. owned.
  - destruct (s_closing s) eqn:Ec.
    + rewrite closeOnce_closing by (rewrite Hk1; by apply Hcl). eexists _, _. split; [reflexivity|]. split; [|done].
      split; [|done]. eapply opens_ext; [|exact Ho1]. owned.
    + rewrite closeOnce_open by (apply Ho1; cbn; by rewrite bool_decide_eq_true_2). eexists _, _. split; [reflexivity|]. split; [|done].
      split; [eapply opens_close; [exact Ho1|]; owned|]. split; [|done]. apply numbered_insert; [done|].
      intros k Hk'. cbn in Hk'. split; [|done]. intros [= Ek]. lia.
Qed.

Lemma stopParser_inv m l :
  inv sig prune m l -> exists m' l', stopParser m l = Ret (m', l') /\ inv sig prune m' l' /\ m' = setAsyncs m [] false.
Proof.
  intros [Ho (Hn & Ha & Hs)]. unfold stopParser. rewrite Ha. destruct (m_started m) eqn:Est; cbn [closeHandles obind].
  - rewrite (closeOnce_open HCompletion) by (apply Ho; cbn; done). cbn [obind].
    rewrite (closeOnce_open HResume) by (rewrite lookup_insert_ne by done; apply Ho; cbn; done). cbn [obind].
    rewrite (closeOnce_open HAbortDone) by (rewrite !lookup_insert_ne by done; apply Ho; cbn; done). cbn [obind].
    eexists _, _. split; [reflexivity|]. split; [|done]. split; [|split; [by repeat apply numbered_insert|split; [done|]]].
    + intros h. destruct (decide (h = HCompletion \/ h = HResume \/ h = HAbortDone)) as [[->|[->| ->]]|Hne].
      1-3: cbn; rewrite ?lookup_insert_eq, ?(lookup_insert_ne _ HAbortDone), ?(lookup_insert_ne _ HResume), ?lookup_insert_eq by done; done.
      rewrite !lookup_insert_ne by naive_solver. rewrite (Ho h). destruct h; cbn; try done; naive_solver.
    + cbn. destruct (m_session m) as [s|]; [|done]. by rewrite !lookup_insert_ne by done.
  - eexists _, _. split; [reflexivity|]. split; [|done]. split; [|done]. eapply opens_ext; [|exact Ho]. owned.
Qed.

Lemma closeReaper_inv m l :
  inv sig prune m l -> exists m' l', closeReaper m l = Ret (m', l') /\ inv sig prune m' l' /\
    m' = mkManager (m_listener m) (m_listenerClosing m) false (m_asyncs m) (m_started m) (m_session m) (m_closing m) (m_accepted m).
Proof.
  intros [Ho (Hn & Ha & Hs)]. unfold closeReaper. destruct (m_reaper m) eqn:Er; cbn [negb].
  - rewrite closeOnce_open by (by apply Ho). eexists _, _. split; [reflexivity|]. split; [|done].
    split; [eapply opens_close; [exact Ho|]; owned|]. split; [by apply numbered_insert|]. split; [done|].
    cbn. destruct (m_session m) as [s|]; [|done]. by rewrite lookup_insert_ne by done.
  - exists m, l. split; [done|]. split; [done|]. destruct m; cbn in *; by subst.
Qed.

(** After it the manager owns nothing. *)
Lemma closeManager_inv m l :
  inv sig prune m l -> exists m' l', closeManager m l = Ret (m', l') /\ inv sig prune m' l' /\ m_closing m' = true /\
    m_session m' = None /\ forall h, owns false false m' h = false.
Proof.
  intros Hi. unfold closeManager. set (m0 := mkManager _ _ _ _ _ _ true _).
  assert (inv sig prune m0 l) as H0 by (split; [eapply opens_ext; [|apply Hi]; by intros []|apply Hi]).
  destruct (closeListener_inv m0 l H0) as (m1 & l1 & -> & H1 & Hl & E1). cbn [obind fst snd].
  destruct (destroySession_inv m1 l1 H1) as (m2 & l2 & -> & H2 & E2 & _). cbn [obind fst snd].
  destruct (stopParser_inv m2 l2 H2) as (m3 & l3 & -> & H3 & E3). cbn [obind fst snd].
  destruct (closeReaper_inv m3 l3 H3) as (m4 & l4 & -> & H4 & E4). exists m4, l4. split; [done|]. split; [done|].
  subst m4 m3 m2. rewrite E1. split; [done|]. split; [done|]. intros []; try done. cbn in *. by rewrite E1 in Hl.
Qed.

Lemma closeSocket_inv m l :
  inv sig prune m l -> exists m' l', closeSocket m l = Ret (m', l') /\ inv sig prune m' l' /\ m_closing m' = m_closing m /\
    (m_session m = None -> m_session m' = None /\ l' = l).
Proof.
  intros [Ho (Hn & Ha & Hs)]. unfold closeSocket. destruct (m_session m) as [s|] eqn:Es.
  2: { exists m, l. split; [done|]. split; [|done]. split; [done|]. unfold managerOk. by rewrite Es. }
  destruct Hs as (Hlt & Hk & Hc & Hcl). rewrite Hk. cbn [negb orb]. destruct (s_closing s) eqn:Ec.
  { exists m, l. split; [done|]. split; [|done]. split; [done|]. unfold managerOk. rewrite Es, Ec. done. }
  rewrite uvClose_open by (apply Ho; cbn; by rewrite Es, Ec, bool_decide_eq_true_2). eexists _, _. split; [reflexivity|]. split.
  2: { split; [done|]. done. }
  split; [eapply opens_close; [exact Ho|]; owned|]. split; [apply numbered_insert; [done|]; intros k Hk'; cbn in Hk'; split; [|done]; intros [= Ek]; lia|].
  split; [done|]. cbn. split_and!; try done. intros _ _. by rewrite lookup_insert_eq.
Qed.

Lemma accept_inv uv m accepted started l :
  inv sig prune m l -> exists m' l', accept uv m accepted started l = Ret (m', l') /\ inv sig prune m' l' /\ m_closing m' = m_closing m /\
    (m_closing m = true -> m_session m = None -> m_session m' = None /\ l' = l).
Proof.
  intros [Ho (Hn & Ha & Hs)]. unfold accept. destruct (_ || _ || _ || _) eqn:E; [exists m, l; by split|].
  apply orb_false_iff in E as [[[Hc Hse%bool_decide_eq_false]%orb_false_iff _]%orb_false_iff _]. set (n := m_accepted m).
  assert (m_session m = None) as Es by (destruct (m_session m); [by destruct Hse|done]).
  set (m1 := mkManager _ _ _ _ _ None _ _). unfold initHandle. destruct (Hn n) as [Hk Ht]; [lia|].
  assert (inv sig prune m1 l) as H1.
  { split; [eapply opens_ext; [|exact Ho]; intros []; cbn; by rewrite ?Es|]. split; [by eapply numbered_le; [exact Hn|cbn; lia]|done]. }
  assert (forall h k, (S n <= k)%nat -> (h = HSocket n \/ h = HTimer n) -> h <> HSocket k /\ h <> HTimer k) as Hnum.
  { intros h k Hk' [->| ->]; split; try done; intros [= Ek]; lia. }
  destruct (handle_init uv (HSocket n) =? 0); cbn [negb]; [|exists m1, l; split; [done|]; split; [exact H1|]; split; [done|congruence]].
  assert (numbered (S n) (<[HSocket n := Open]> l)) as Hn1 by (apply numbered_insert; [apply H1|]; intros k Hk'; apply Hnum; auto).
  destruct accepted; cbn [negb].
  - set (timer := handle_init uv (HTimer n) =? 0). set (m2 := setSess m1 _).
    assert (inv sig prune m2 (if timer then <[HTimer n := Open]> (<[HSocket n := Open]> l) else <[HSocket n := Open]> l)) as H2.
    { split; [|split; [|split; [exact Ha|cbn; split_and!; try done; lia]]].
      - intros h. destruct (decide (h = HTimer n)) as [->|Hht]; [|destruct (decide (h = HSocket n)) as [->|Hhk]].
        + cbn. rewrite bool_decide_eq_true_2 by done. cbn. destruct timer; [by rewrite lookup_insert_eq|]. rewrite lookup_insert_ne, Ht by done. done.
        + cbn. rewrite bool_decide_eq_true_2 by done. destruct timer; rewrite ?(lookup_insert_ne _ (HTimer n)), lookup_insert_eq by done; done.
        + destruct timer; rewrite !lookup_insert_ne by done; rewrite (Ho h); destruct h; cbn; rewrite ?Es; try done; rewrite bool_decide_eq_false_2 by congruence; done.
      - destruct timer; [|done]. apply numbered_insert; [done|]. intros k Hk'. apply Hnum; auto. }
    destruct started; [eexists m2, _; split; [reflexivity|]; split; [done|]; split; [done|congruence]|].
    destruct (destroySession_inv m2 _ H2) as (m3 & l3 & -> & H3 & -> & _). eexists _, l3. split; [reflexivity|]. split; [done|]. split; [done|congruence].
  - rewrite closeOnce_open by by rewrite lookup_insert_eq. cbn [obind]. rewrite insert_insert_eq. eexists m1, _. split; [reflexivity|].
    split; [|split; [done|congruence]]. destruct H1 as [Ho1 (Hn1' & Ha1 & _)]. split; [|split; [apply numbered_insert; [done|]; intros k Hk'; apply Hnum; auto|done]].
    eapply opens_close; [exact Ho1|]. intros h'. case_bool_decide; [|by rewrite andb_true_r]. subst. by cbn.
Qed.

Lemma closed_inv h m l :
  inv sig prune m l -> l !! h = Some Closing -> inv sig prune (markClosed h m) (delete h l) /\ m_closing (markClosed h m) = m_closing m.
Proof.
  intros [Ho (Hn & Ha & Hs)] Hh. assert (opens (delete h l) (owns sig prune m)) as Ho1.
  { intros h'. destruct (decide (h' = h)) as [->|Hne]; [|by rewrite lookup_delete_ne].
    rewrite lookup_delete_eq. split; [done|]. intros Hw%Ho. congruence. }
  assert (numbered (m_accepted m) (delete h l)) as Hn1.
  { intros k Hk. destruct (Hn k Hk). by rewrite !lookup_delete_None; auto. }
  unfold markClosed. destruct (m_session m) as [s|] eqn:Es; [|by split; [split; [done|split; [done|by rewrite Es]]|]].
  destruct Hs as (Hlt & Hk & Hc & Hcl). case_bool_decide as Hb; (split; [|done]).
  - assert (s_closing s = true) as Ec.
    { destruct (s_closing s) eqn:Ec; [done|]. assert (l !! HSocket (s_number s) = Some Open) by (apply Ho; cbn; by rewrite Es, Ec, bool_decide_eq_true_2). congruence. }
    split; [eapply opens_ext; [|exact Ho1]; intros []; cbn; by rewrite ?Es|]. split; [done|]. split; [done|]. cbn. done.
  - split; [done|]. split; [done|]. split; [done|]. rewrite Es. split_and!; try done. intros H1 H2. rewrite lookup_delete_ne by done. by apply Hcl.
Qed.
End Manager.

(** ** The application *)

Definition prunes (a : t) : bool := bool_decide (pruneTimer a = Some true).

Definition appInv (a : t) : Prop :=
  exists m, sessions a = Some m /\ inv (negb (shuttingDown a)) (prunes a) m (handles a) /\
    (shuttingDown a = true -> m_closing m = true /\ m_session m = None /\ pruneTimer a = None /\ forall h, handles a !! h <> Some Open).

Section App.
Context (uv : Answers) (os : Os) (zone : Zone).

(** What the log lines leave alone. *)
Definition sameHandles (a a' : t) : Prop :=
  handles a' = handles a /\ sessions a' = sessions a /\ pruneTimer a' = pruneTimer a /\ shuttingDown a' = shuttingDown a.
Lemma sameHandles_trans a1 a2 a3 : sameHandles a1 a2 -> sameHandles a2 a3 -> sameHandles a1 a3.
Proof. unfold sameHandles. intuition congruence. Qed.
Lemma appInv_same a a' : sameHandles a a' -> appInv a -> appInv a'.
Proof. intros (Eh & Es & Et & Ed). unfold appInv, prunes. by rewrite Eh, Es, Et, Ed. Qed.
Lemma logs_same level now message a : sameHandles a (logs os zone level now message a).
Proof. unfold logs. by destruct (Logger.log _ _ _ _ _ _ _). Qed.
Lemma arm_same a : sameHandles a (armPruneTimer a).
Proof. unfold armPruneTimer. destruct (pruneTimer a) eqn:E; [|done]. by rewrite <- E. Qed.

Lemma init_handles m0 l0 m l e :
  initSignals uv [HSigterm; HSigint] ∅ = (l0, None) -> makeManager uv l0 = (m0, l) ->
  startParser uv m0 l = (m, e, None) -> m_listener m = true -> inv true false m e /\ m_closing m = false.
Proof.
  cbn [initSignals]. unfold initHandle. destruct (handle_init uv HSigterm =? 0); [cbn [negb]|done].
  destruct (signal_start uv HSigterm =? 0); [cbn [negb]|done]. destruct (handle_init uv HSigint =? 0); [cbn [negb]|done].
  destruct (signal_start uv HSigint =? 0); [cbn [negb]|done]. intros [= <-]. unfold makeManager, initHandle.
  destruct (handle_init uv HListener =? 0) eqn:El, (handle_init uv HReaper =? 0) eqn:Er; intros [= <- <-];
    unfold startParser; cbn [m_started initAsyncs]; unfold initHandle;
    (destruct (handle_init uv HCompletion =? 0); [cbn [negb]|done]);
    (destruct (handle_init uv HResume =? 0); [cbn [negb]|done]);
    (destruct (handle_init uv HAbortDone =? 0); [cbn [negb]|done]); intros [= <- <-]; cbn [m_listener setAsyncs]; intros Hl; try done.
  all: split; [|done]; split; [|split; [|done]].
  all: first [intros [| | | | | | | |n|n]; cbn; by simplify_map_eq|intros k _; by simplify_map_eq].
Qed.

Lemma init_inv c lg w a : init uv (make c lg w) = (a, None) -> appInv a.
Proof.
  unfold init. destruct (loop_init uv =? 0); [cbn [negb]|done]. cbn [handles make].
  destruct (initSignals uv [HSigterm; HSigint] ∅) as [l0 e0] eqn:E0. destruct e0; [done|]. cbn [handles setHandles].
  destruct (makeManager uv l0) as [m0 l1] eqn:E1. destruct (startParser uv m0 l1) as [[m l2] e2] eqn:E2. destruct e2; [done|].
  cbn [config setSessions make]. destruct (listen uv m _ _ _ =? 0) eqn:Els; [cbn [negb]|done].
  assert (m_listener m = true) as Hl by (unfold listen in Els; by destruct (m_listener m)).
  destruct (init_handles m0 l0 m l1 l2 E0 E1 E2 Hl) as [[Ho (Hn & Ha & Hs)] Hc].
  case_bool_decide; [intros [= <-]; by exists m|].
  destruct (initHandle uv HPrune _) as [l3 rc] eqn:E3. intros [= <-]. eapply appInv_same; [apply arm_same|].
  exists m. split; [done|]. split; [|done]. unfold initHandle in E3. injection E3 as <- <-. unfold prunes. cbn.
  destruct (handle_init uv HPrune =? 0).
  - split; [eapply opens_open; [exact Ho|]; intros []; cbn; by rewrite ?orb_false_r|]. split; [by apply numbered_insert|]. split; [done|].
    cbn in *. destruct (m_session m) as [s|]; [|done]. by rewrite lookup_insert_ne.
  - done.
Qed.

Lemma managerOk_insert m l h x :
  managerOk m l -> (forall k, h <> HSocket k /\ h <> HTimer k) -> managerOk m (<[h := x]> l).
Proof.
  intros (Hn & Ha & Hs) Hh. split; [apply numbered_insert; auto|]. split; [done|]. destruct (m_session m) as [s|]; [|done].
  rewrite lookup_insert_ne by apply Hh. done.
Qed.

Lemma shutdown_inv a m :
  sessions a = Some m -> inv true (prunes a) m (handles a) -> shuttingDown a = true ->
  exists a', shutdown a = Ret a' /\ appInv a' /\ shuttingDown a' = true.
Proof.
  intros Es Hi Hd. unfold shutdown. cbn [sessions setFlags handles]. rewrite Es.
  destruct (closeManager_inv true (prunes a) m (handles a) Hi) as (m' & l' & -> & [Ho Hm] & Hc & Hse & Hnone). cbn [obind fst snd pruneTimer setSessions handles setFlags].
  assert (exists l1, (match pruneTimer a with Some true => closeOnce HPrune l' | _ => Ret l' end) = Ret l1 /\ opens l1 (owns true false m') /\ managerOk m' l1)
    as (l1 & -> & Ho1 & Hm1).
  { unfold prunes in Ho. destruct (pruneTimer a) as [[]|] eqn:Et.
    - rewrite closeOnce_open by (apply Ho; done). eexists. split; [reflexivity|]. split; [|apply managerOk_insert; done].
      eapply opens_close; [exact Ho|]. intros []; cbn; by rewrite ?andb_true_r.
    - exists l'. done.
    - exists l'. done. }
  cbn [obind handles setTimer]. rewrite closeOnce_open by (by apply Ho1). cbn [obind].
  rewrite closeOnce_open by (rewrite lookup_insert_ne by done; by apply Ho1). cbn [obind]. eexists. split; [reflexivity|].
  split; [|exact Hd]. assert (opens (<[HSigint := Closing]> (<[HSigterm := Closing]> l1)) (owns false false m')) as Ho2.
  { intros h. rewrite Hnone. split; [|done]. destruct (decide (h = HSigint)) as [->|H1]; [by rewrite lookup_insert_eq|].
    rewrite lookup_insert_ne by done. destruct (decide (h = HSigterm)) as [->|H2]; [by rewrite lookup_insert_eq|].
    rewrite lookup_insert_ne by done. intros Hh%Ho1. specialize (Hnone h). destruct h; cbn in *; congruence. }
  exists m'. cbn. rewrite Hd. split; [done|]. split; [split; [exact Ho2|by repeat apply managerOk_insert]|].
  intros _. split; [done|]. split; [done|]. split; [done|]. intros h Hh%Ho2. congruence.
Qed.

Lemma tick_same now a : sameHandles a (tick os zone now a).
Proof.
  unfold tick. destruct (pruneArmed a); [|done]. set (a0 := setTimer a _ false _). assert (sameHandles a a0) as H0 by done. clearbody a0.
  unfold onPruneTick. set (a1 := match pruneDue _ _ _ with Some _ => _ | None => _ end).
  assert (sameHandles a a1) as H1.
  { subst a1. destruct (pruneDue _ _ _) as [b|]; [|done]. destruct (Logger.pruneOldLogs _ _ _ _ _ _) as [w n].
    destruct (0 <? n); [|exact H0]. eapply sameHandles_trans; [|apply logs_same]. exact H0. }
  eapply sameHandles_trans; [exact H1|apply arm_same].
Qed.

(** An operation of the manager in the application; once the manager is
    closing it opens nothing. *)
Lemma onManager_inv f a :
  (forall m, inv (negb (shuttingDown a)) (prunes a) m (handles a) -> exists m' l', f m (handles a) = Ret (m', l') /\
    inv (negb (shuttingDown a)) (prunes a) m' l' /\ m_closing m' = m_closing m /\
    (m_closing m = true -> m_session m = None -> m_session m' = None /\ l' = handles a)) ->
  appInv a -> exists a', onManager f a = Ret a' /\ appInv a' /\ shuttingDown a' = shuttingDown a.
Proof.
  intros Hf (m & Es & Hi & Hd). unfold onManager. rewrite Es. destruct (Hf m Hi) as (m' & l' & -> & Hi' & Hc & Hl). cbn [obind fst snd].
  eexists. split; [reflexivity|]. split; [|done]. exists m'. cbn. split; [done|]. split; [exact Hi'|]. intros Hsd. destruct (Hd Hsd) as (Hm & Hse & Hp & Hno).
  destruct (Hl Hm Hse) as [Hse' ->]. rewrite Hc. done.
Qed.

Lemma signal_inv signum now a :
  appInv a -> exists a', onSignal os zone signum now a = Ret a' /\ appInv a' /\ shuttingDown a' = true.
Proof.
  intros Hi. unfold onSignal. destruct (shuttingDown a) eqn:Hd.
  - eexists. split; [reflexivity|]. pose proof (logs_same LogLevel.Warn now (bs "Ignoring " ++ signalName signum ++ bs " (shutdown already in progress)") a) as Hs.
    split; [by eapply appInv_same|]. destruct Hs as (_ & _ & _ & ->). done.
  - destruct Hi as (m & Es & Hm & _). set (a1 := logs os zone _ _ _ _).
    assert (sameHandles (setFlags a true (blocked a)) a1) as (E1 & E2 & E3 & E4) by apply logs_same.
    apply (shutdown_inv a1 m); [by rewrite E2| |by rewrite E4]. unfold prunes. rewrite E1, E3. rewrite Hd in Hm. exact Hm.
Qed.

Lemma step_inv e a :
  appInv a -> exists r, step uv os zone e a = Ret r /\ forall a', r = Some a' -> appInv a' /\ (shuttingDown a = true -> shuttingDown a' = true).
Proof.
  intros Hi. assert (forall m : outcome t, (exists a', m = Ret a' /\ appInv a' /\ (shuttingDown a = true -> shuttingDown a' = true)) ->
    exists r, (let* a := m in Ret (Some a)) = Ret r /\ forall a', r = Some a' -> appInv a' /\ (shuttingDown a = true -> shuttingDown a' = true)) as Hret.
  { intros m (a' & -> & H). eexists. split; [reflexivity|]. by intros ? [= <-]. }
  assert (forall f, (exists a', onManager f a = Ret a' /\ appInv a' /\ shuttingDown a' = shuttingDown a) ->
    exists a', onManager f a = Ret a' /\ appInv a' /\ (shuttingDown a = true -> shuttingDown a' = true)) as Hman.
  { intros f (a' & ? & ? & E). exists a'. rewrite E. done. }
  destruct e as [signum now|now|accepted started| | |h]; cbn [step].
  - apply Hret. destruct (signal_inv signum now a Hi) as (a' & E & H' & Hd). exists a'. done.
  - eexists. split; [reflexivity|]. intros a' [= <-]. pose proof (tick_same now a) as Hs. split; [by eapply appInv_same|].
    destruct Hs as (_ & _ & _ & ->). done.
  - apply Hret, Hman, onManager_inv; [|done]. intros m Hm. by apply accept_inv.
  - apply Hret, Hman, onManager_inv; [|done]. intros m Hm.
    destruct (closeSocket_inv _ _ m _ Hm) as (m' & l' & E & Hm' & Hc & Hl). exists m', l'. eauto.
  - apply Hret, Hman, onManager_inv; [|done]. intros m Hm.
    destruct (destroySession_inv _ _ m _ Hm) as (m' & l' & E & Hm' & -> & Hl). eexists _, l'. eauto 10.
  - eexists. split; [reflexivity|]. unfold onClosed. destruct (handles a !! h) as [[]|] eqn:Eh; try done. intros a' [= <-].
    destruct Hi as (m & Es & Hm & Hd). cbn [sessions setHandles]. rewrite Es. split; [|done].
    destruct (closed_inv _ _ h m _ Hm Eh) as [Hm' Hc]. exists (markClosed h m). split; [done|]. split; [exact Hm'|].
    intros Hsd. destruct (Hd Hsd) as (H1 & H2 & H3 & H4). rewrite Hc. split; [done|]. split; [unfold markClosed; by rewrite H2|]. split; [done|].
    intros h'. cbn. intros [_ Hh']%lookup_delete_Some. by eapply H4.
Qed.

(** During the shutdown handles only go away. *)
Lemma step_down e a a' :
  appInv a -> shuttingDown a = true -> step uv os zone e a = Ret (Some a') ->
  handles a' = handles a \/ exists h, handles a !! h = Some Closing /\ handles a' = delete h (handles a).
Proof.
  intros (m & Es & Hi & Hd) Hsd. destruct (Hd Hsd) as (Hc & Hse & Hp & Hno).
  destruct e as [signum now|now|accepted started| | |h]; cbn [step].
  - unfold onSignal. rewrite Hsd. intros [= <-]. left. apply logs_same.
  - intros [= <-]. left. apply tick_same.
  - unfold onManager, accept. rewrite Es, Hc. cbn [orb obind fst snd]. intros [= <-]. by left.
  - unfold onManager, closeSocket. rewrite Es, Hse. intros [= <-]. by left.
  - unfold onManager, destroySession. rewrite Es, Hse. intros [= <-]. by left.
  - unfold onClosed. destruct (handles a !! h) as [[]|] eqn:Eh; try done. intros [= <-]. right. exists h. split; [done|].
    cbn [sessions setHandles]. by rewrite Es.
Qed.
End App.

Definition demoAnswers : Answers := mkAnswers 0 (fun _ => 0) (fun _ => 0) (fun _ _ _ => 0) (fun _ => []).
(** A start that fails half way through the async handles leaves one that was
    never initialised; stopping the parser, which its destructor does, closes
    it. *)
Lemma failed_start_closes_uninitialised :
  let uv := mkAnswers 0 (fun h => if bool_decide (h = HResume) then -24 else 0) (fun _ => 0) (fun _ _ _ => 0) (fun _ => []) in
  let '(a, e) := init uv (make defaultConfig Logger.initial (mkWorld ∅ ∅ ∅ 0 [] 0)) in
  e <> None /\ exists m, sessions a = Some m /\ stopParser m (handles a) = UB.
Proof. vm_compute. split; [done|]. eexists. split; reflexivity. Qed.

(** ** The daily pruning *)

Section Pruning.
Context (os : Os) (zone : Zone).

(** The dates for which a run of ticks prunes. *)
Fixpoint tickRun (ticks : list Z) (a : t) : list bytes :=
  match ticks with
  | [] => []
  | now :: ticks =>
      let a' := tick os zone now a in
      (if bool_decide (lastPruneDate a' = lastPruneDate a) then [] else [lastPruneDate a']) ++ tickRun ticks a'
  end.

(** The tick at [now] falls in the hour of pruning of date [d]. *)
Definition due (now : Z) (d : bytes) : Prop :=
  exists tm, localTimeOf zone now = Some tm /\ tm_hour tm = kLogPruneHour /\ dateStringOf tm = d /\ d <> [].

Lemma pruneDue_spec last now :
  match pruneDue zone last now with
  | Some d => due now d /\ d <> last
  | None => forall d, due now d -> d = last
  end.
Proof.
  unfold pruneDue, due. destruct (localTimeOf zone now) as [tm|]; [|naive_solver].
  destruct (Z.eqb_spec (tm_hour tm) kLogPruneHour); [|naive_solver]. repeat case_bool_decide; cbn; naive_solver.
Qed.

Lemma tick_date now a :
  pruneTimer a = Some true -> pruneArmed a = true ->
  pruneTimer (tick os zone now a) = Some true /\ pruneArmed (tick os zone now a) = true /\
  lastPruneDate (tick os zone now a) = default (lastPruneDate a) (pruneDue zone (lastPruneDate a) now).
Proof.
  intros Ht Ha. unfold tick. rewrite Ha. unfold onPruneTick. cbn [lastPruneDate setTimer].
  destruct (pruneDue zone (lastPruneDate a) now) as [d|]; cbn [default].
  - cbn [logger disk setDate setTimer]. destruct (Logger.pruneOldLogs _ _ _ _ _ _) as [w n]. unfold logs.
    destruct (0 <? n); [destruct (Logger.log _ _ _ _ _ _ _)|]; unfold armPruneTimer; cbn; by rewrite Ht.
  - unfold armPruneTimer. cbn. by rewrite Ht.
Qed.

(** The clock does not go back from one day to another. *)
Definition forward (now later : Z) : Prop := bytesLt (Logger.todayOf zone later) (Logger.todayOf zone now) = false.

Lemma due_today now d : due now d -> Logger.todayOf zone now = d.
Proof. intros (tm & E & _ & Hd & _). unfold Logger.todayOf. by rewrite E. Qed.

Lemma tickRun_dates ticks : forall a,
  pruneTimer a = Some true -> pruneArmed a = true -> StronglySorted forward ticks ->
  (forall now, now ∈ ticks -> bytesLt (Logger.todayOf zone now) (lastPruneDate a) = false) ->
  NoDup (tickRun ticks a) /\ forall d, d ∈ tickRun ticks a <-> d <> lastPruneDate a /\ exists now, now ∈ ticks /\ due now d.
Proof.
  induction ticks as [|now ticks IH]; intros a Ht Ha Hs Hl; cbn [tickRun]; [split; [constructor|set_solver]|].
  apply StronglySorted_inv in Hs as [Hs Hf]. destruct (tick_date now a Ht Ha) as (Ht' & Ha' & El).
  pose proof (pruneDue_spec (lastPruneDate a) now) as Hd. set (a' := tick os zone now a) in *.
  destruct (pruneDue zone (lastPruneDate a) now) as [d0|]; cbn in El.
  - destruct Hd as [Hdue Hne]. rewrite bool_decide_eq_false_2 by congruence. rewrite El. cbn [app].
    destruct (IH a' Ht' Ha' Hs) as [Hnd Hin].
    { intros later Hlater. rewrite El, <- (due_today now d0 Hdue). rewrite Forall_forall in Hf. apply Hf. by apply list_elem_of_In. }
    rewrite El in Hin. split; [constructor; [rewrite Hin; naive_solver|done]|]. intros d. rewrite elem_of_cons, Hin. split.
    + intros [->|[Hd0 (later & Hlater & Hdl)]]; [split; [done|]; exists now; set_solver|]. split; [|exists later; set_solver].
      intros ->. apply Hne. rewrite Forall_forall in Hf. apply (klt_total (K := bytes)); cbn.
      * rewrite <- (due_today now d0 Hdue). apply Hl. set_solver.
      * rewrite <- (due_today later _ Hdl), <- (due_today now d0 Hdue). apply Hf. by apply list_elem_of_In.
    + intros [Hdl (later & Hin' & Hdue')]. destruct (decide (d = d0)) as [->|Hdd]; [by left|right]. split; [done|].
      exists later. split; [|done]. apply elem_of_cons in Hin' as [->|]; [|done]. apply due_today in Hdue, Hdue'. congruence.
  - rewrite bool_decide_eq_true_2 by done. cbn [app]. destruct (IH a' Ht' Ha' Hs) as [Hnd Hin]; [intros later ?; rewrite El; apply Hl; set_solver|].
    split; [done|]. intros d. rewrite Hin, El. split; [intros [? (later & ? & ?)]; split; [done|]; exists later; set_solver|].
    intros [Hdl (later & Hin' & Hdue')]. split; [done|]. exists later. split; [|done]. apply elem_of_cons in Hin' as [->|]; [|done]. by apply Hd in Hdue'.
Qed.
End Pruning.

(** Pruning happens once a day, in its hour.  While the server runs with
    its pruning timer armed and its clock does not go back to an earlier day,
    the ticks of the timer prune for exactly the dates on which some tick falls
    between 3 and 4 o'clock local time, once for each, the date of the last
    pruning excepted. *)
Lemma pruned_once_a_day os zone ticks a :
  pruneTimer a = Some true -> pruneArmed a = true -> StronglySorted (forward zone) ticks ->
  (forall now, now ∈ ticks -> bytesLt (Logger.todayOf zone now) (lastPruneDate a) = false) ->
  NoDup (tickRun os zone ticks a) /\
  forall d, d ∈ tickRun os zone ticks a <-> d <> lastPruneDate a /\ exists now, now ∈ ticks /\ due zone now d.
Proof. apply tickRun_dates. Qed.

Definition demoApp : t := mk defaultConfig ∅ true None (Some true) true [] false false Logger.initial emptyWorld.

(** The timer runs an hour and then some: ticks an hour and a second apart step
    over the hour of pruning, and that day is not pruned. *)
Lemma pruning_hour_skipped : tickRun healthyOs demoZone [10799; 14400] demoApp = [].
Proof. vm_compute. reflexivity. Qed.
