(* ===== verification/Daemon.v ===== *)
(** * Processes and the pid file (server/src/app/Daemon.h, .cpp)

    Becoming a daemon splits the process twice: [daemonize] is a function from
    the process that calls it to all processes that come of it, each with what
    became of it there.  A process is what POSIX keeps for it and the code
    relies on: its numbers, its terminal, its descriptors, its mask and the
    signals it ignores.  Which calls of the kernel fail, and the number of a
    new process, are parameters. *)

From stdpp Require Import gmap.
From S2P Require Import Prelude StringView Charconv Logger.

(** What a descriptor refers to. *)
Inductive target := Terminal | DevNull | Elsewhere (n : nat).
#[export] Instance target_eq_dec : EqDecision target.
Proof. solve_decision. Defined.

Definition SIGHUP : Z := 1.
Definition SIGPIPE : Z := 13.
Definition STDIN_FILENO : nat := 0.
Definition STDOUT_FILENO : nat := 1.
Definition STDERR_FILENO : nat := 2.

Record Process := mkProcess {
  p_pid : Z;
  p_group : Z;                    (* process group *)
  p_session : Z;
  p_tty : bool;                   (* has a controlling terminal *)
  p_fds : gmap nat target;
  p_umask : Z;
  p_ignored : gset Z }.           (* signals with SIG_IGN *)

Definition setFds (p : Process) (fds : gmap nat target) : Process :=
  mkProcess (p_pid p) (p_group p) (p_session p) (p_tty p) fds (p_umask p) (p_ignored p).
Definition umask (p : Process) (mask : Z) : Process :=
  mkProcess (p_pid p) (p_group p) (p_session p) (p_tty p) (p_fds p) mask (p_ignored p).
Definition ignore (p : Process) (signum : Z) : Process :=
  mkProcess (p_pid p) (p_group p) (p_session p) (p_tty p) (p_fds p) (p_umask p) ({[signum]} ∪ p_ignored p).

Definition installProcessSignalDefaults (p : Process) : Process := ignore (ignore p SIGPIPE) SIGHUP.

(** ** The kernel *)

Inductive syscall := Fork | SetSid | OpenNull | Dup2 (to : nat).

(** [refuses n c = Some errno]: the [n]-th call, a [c], fails. *)
Record Kernel := mkKernel {
  refuses : nat -> syscall -> option Z;
  newPid : nat -> Z;              (* the process the [n]-th call makes *)
  errorText : Z -> bytes }.       (* std::strerror *)
Definition EPERM : Z := 1.

Section Calls.
Context (k : Kernel).

Definition errnoText (what : bytes) (errno : Z) : bytes := what ++ bs " failed: " ++ errorText k errno.

(** The new process is a copy with a number of its own. *)
Definition fork (n : nat) (p : Process) : Process + Z :=
  match refuses k n Fork with
  | Some errno => inr errno
  | None => inl (mkProcess (newPid k n) (p_group p) (p_session p) (p_tty p) (p_fds p) (p_umask p) (p_ignored p))
  end.

(** The leader of a process group cannot begin a session. *)
Definition setsid (n : nat) (p : Process) : Process + Z :=
  if p_pid p =? p_group p then inr EPERM
  else
    match refuses k n SetSid with
    | Some errno => inr errno
    | None => inl (mkProcess (p_pid p) (p_pid p) (p_pid p) false (p_fds p) (p_umask p) (p_ignored p))
    end.

(** A new descriptor is the lowest that is free. *)
Definition lowestFree (fds : gmap nat target) : nat :=
  default 0%nat (List.find (fun fd => bool_decide (fds !! fd = None)) (seq 0 (S (size fds)))).
Definition openNull (n : nat) (fds : gmap nat target) : nat * gmap nat target + Z :=
  match refuses k n OpenNull with
  | Some errno => inr errno
  | None => let fd := lowestFree fds in inl (fd, <[fd := DevNull]> fds)
  end.
Definition dup2 (n fd to : nat) (fds : gmap nat target) : gmap nat target + Z :=
  match refuses k n (Dup2 to) with
  | Some errno => inr errno
  | None => inl (match fds !! fd with Some what => <[to := what]> fds | None => fds end)
  end.

(** The calls [dup2(fd, 0) && dup2(fd, 1) && dup2(fd, 2)], up to the first that
    fails. *)
Fixpoint dupAll (n fd : nat) (tos : list nat) (fds : gmap nat target) : gmap nat target * option Z :=
  match tos with
  | [] => (fds, None)
  | to :: tos =>
      match dup2 n fd to fds with
      | inr errno => (fds, Some errno)
      | inl fds => dupAll (S n) fd tos fds
      end
  end.

Definition redirectStdioToDevNull (n : nat) (p : Process) : Process * option bytes :=
  match openNull n (p_fds p) with
  | inr errno => (p, Some (errnoText (bs "open(/dev/null)") errno))
  | inl (fd, fds) =>
      let '(fds, e) := dupAll (S n) fd [STDIN_FILENO; STDOUT_FILENO; STDERR_FILENO] fds in
      (setFds p (if (STDERR_FILENO <? fd)%nat then delete fd fds else fds), option_map (errnoText (bs "dup2")) e)
  end.

(** What became of a process inside [daemonize]: it left by [_exit], or the
    call returned, with an error message when it returned false. *)
Inductive fate := Left (code : Z) | Returned (error : option bytes).

Definition daemonize (p : Process) : list (Process * fate) :=
  match fork 0 p with
  | inr errno => [(p, Returned (Some (errnoText (bs "fork") errno)))]
  | inl child =>
      (p, Left 0) ::
      match setsid 1 child with
      | inr errno => [(child, Returned (Some (errnoText (bs "setsid") errno)))]
      | inl child =>
          match fork 2 child with
          | inr errno => [(child, Returned (Some (errnoText (bs "second fork") errno)))]
          | inl grandchild =>
              let '(grandchild, e) := redirectStdioToDevNull 3 (umask grandchild 23) in
              [(child, Left 0); (grandchild, Returned e)]
          end
      end
  end.
End Calls.

(** ** The pid file *)

Definition kPidFilePath : bytes := bs "./server.pid".
Definition pidPath : path := [bs "."; bs "server.pid"].

(** What the C library answers: [fopen]'s error, whether printing, flushing and
    closing succeed, what is in the file when one of them does not, and whether
    [std::remove] does. *)
Record PidIo := mkPidIo {
  fopen_errno : option Z;
  printed : bool;
  flushed : bool;
  closed : bool;
  partial : bytes;
  removes : bool }.

(** [std::fopen] with "w": the file, empty. *)
Definition openTruncate (p : path) (w : World) : option (nat * World) :=
  if bool_decide (p ∈ dirs w) || negb (bool_decide (parentOf p ∈ dirs w)) then None
  else
    match names w !! p with
    | Some i => Some (i, setContent w i [])
    | None =>
        let i := nextInode w in
        Some (i, mkWorld (dirs w) (<[p := i]> (names w)) (<[i := []]> (content w)) (S i) (console w) (calls w))
    end.

Definition ENOENT : Z := 2.
Definition writePidFile (k : Kernel) (io : PidIo) (pid : Z) (w : World) : World * option bytes :=
  let cannotOpen errno := Some (bs "cannot open pid file '" ++ kPidFilePath ++ bs "': " ++ errorText k errno) in
  match fopen_errno io, openTruncate pidPath w with
  | Some errno, _ => (w, cannotOpen errno)
  | None, None => (w, cannotOpen ENOENT)
  | None, Some (i, w) =>
      if negb (printed io) || negb (flushed io) || negb (closed io) then
        (setContent w i (partial io), Some (bs "cannot write pid file '" ++ kPidFilePath ++ bs "'"))
      else (setContent w i (to_string pid ++ [LF]), None)
  end.

Definition removePidFile (io : PidIo) (w : World) : World :=
  if removes io then setTree w (dirs w) (delete pidPath (names w)) else w.

(** ** Descriptors *)

Lemma lowestFree_free fds : fds !! lowestFree fds = None.
Proof.
  unfold lowestFree. destruct (List.find _ _) as [fd|] eqn:E; cbn.
  - apply List.find_some in E as [_ E]. by apply bool_decide_eq_true in E.
  - exfalso. assert (list_to_set (seq 0 (S (size fds))) ⊆ dom fds) as Hs.
    { intros fd Hfd%elem_of_list_to_set%list_elem_of_In. apply elem_of_dom.
      pose proof (List.find_none _ _ E fd Hfd) as H. apply bool_decide_eq_false in H.
      destruct (fds !! fd); [eauto|done]. }
    apply subseteq_size in Hs. rewrite size_list_to_set, length_seq, size_dom in Hs; [lia|apply NoDup_seq].
Qed.

Section Detached.
Context (k : Kernel).

(** What the descriptors are after the calls that succeeded. *)
Lemma dupAll_spec fd tos : forall n fds fds' e,
  fds !! fd = Some DevNull -> dupAll k n fd tos fds = (fds', e) ->
  fds' !! fd = Some DevNull /\
  (forall j, fds' !! j = fds !! j \/ j ∈ tos /\ fds' !! j = Some DevNull) /\
  (e = None -> forall j, j ∈ tos -> fds' !! j = Some DevNull).
Proof.
  induction tos as [|to tos IH]; intros n fds fds' e Hfd; cbn [dupAll].
  { intros [= <- <-]. split_and!; [done|by left|]. intros _ j Hj. by apply elem_of_nil in Hj. }
  unfold dup2. rewrite Hfd. destruct (refuses k n (Dup2 to)) as [errno|].
  { intros [= <- <-]. split_and!; [done|by left|done]. }
  intros E. apply IH in E as (H1 & H2 & H3); [|destruct (decide (to = fd)) as [->|]; by simplify_map_eq].
  split; [done|]. split.
  - intros j. destruct (H2 j) as [E|[Hj E]]; [|right; by rewrite elem_of_cons; auto].
    destruct (decide (to = j)) as [->|]; simplify_map_eq; [right; by rewrite elem_of_cons; auto|by left].
  - intros He j [->|Hj]%elem_of_cons; [|by apply H3]. destruct (H2 to) as [E|[_ E]]; simplify_map_eq; done.
Qed.

(** Standard streams end on /dev/null, and no other descriptor changes: none
    is left open, on any branch. *)
Lemma redirect_spec n p p' e :
  redirectStdioToDevNull k n p = (p', e) ->
  (forall fd, (2 < fd)%nat -> p_fds p' !! fd = p_fds p !! fd) /\
  (e = None -> forall fd, (fd <= 2)%nat -> p_fds p' !! fd = Some DevNull) /\
  p' = setFds p (p_fds p').
Proof.
  unfold redirectStdioToDevNull, openNull. destruct (refuses k n OpenNull) as [errno|].
  { intros [= <- <-]. split_and!; [done|done|by destruct p]. }
  set (fd := lowestFree (p_fds p)). destruct (dupAll _ _ _ _ _) as [fds e'] eqn:E. intros [= <- <-].
  pose proof (lowestFree_free (p_fds p)) as Hfree. fold fd in Hfree.
  apply dupAll_spec in E as (H1 & H2 & H3); [|by rewrite lookup_insert_eq].
  assert (forall j, (j <= 2)%nat -> j ∈ [STDIN_FILENO; STDOUT_FILENO; STDERR_FILENO]) as Hstd.
  { intros j Hj. unfold STDIN_FILENO, STDOUT_FILENO, STDERR_FILENO. rewrite !elem_of_cons. lia. }
  assert (forall j, (2 < j)%nat -> j <> fd -> fds !! j = p_fds p !! j) as Hrest.
  { intros j Hj Hne. destruct (H2 j) as [->|[Hin _]]; [by rewrite lookup_insert_ne|].
    unfold STDIN_FILENO, STDOUT_FILENO, STDERR_FILENO in Hin. rewrite !elem_of_cons, elem_of_nil in Hin. lia. }
  cbn [p_fds setFds]. split_and!; [| |done].
  - intros j Hj. destruct (Nat.ltb_spec STDERR_FILENO fd) as [Hl|Hl]; unfold STDERR_FILENO in Hl.
    + destruct (decide (fd = j)) as [<-|]; [by rewrite lookup_delete_eq|rewrite lookup_delete_ne by done; auto].
    + apply Hrest; lia.
  - intros He j Hj. destruct e'; [done|]. destruct (Nat.ltb_spec STDERR_FILENO fd) as [Hl|Hl]; unfold STDERR_FILENO in Hl.
    + rewrite lookup_delete_ne by lia. by apply H3, Hstd.
    + by apply H3, Hstd.
Qed.
End Detached.

(** ** Becoming a daemon *)

(** The number of a new process is no process, group or session there is. *)
Record freshPids (k : Kernel) (p : Process) : Prop := mkFresh {
  fresh_first : newPid k 0 <> p_group p;
  fresh_second : newPid k 2 <> newPid k 0 }.

Definition obeys (k : Kernel) : Prop := forall n c, refuses k n c = None.

(** Without a terminal and unable to get one: it leads neither its session nor
    its group. *)
Definition detached (p : Process) : Prop :=
  p_tty p = false /\ p_session p <> p_pid p /\ p_group p <> p_pid p.

Definition returns (r : Process * fate) : bool := match r.2 with Returned _ => true | Left _ => false end.

(** C24: becoming a daemon.  Of all processes the call makes exactly one
    returns from it, the others leave with code 0; the call succeeds when the
    kernel refuses nothing; and the process that returns from a success is a
    new one that has no terminal and can acquire none, with its three standard
    streams on /dev/null, every other descriptor as before, none left open, the
    signals ignored as before and a mask that keeps others from writing. *)
Theorem daemonize_detaches k p :
  freshPids k p ->
  (exists left q e, daemonize k p = left ++ [(q, Returned e)] /\ Forall (fun r => r.2 = Left 0) left /\ (obeys k -> e = None)) /\
  (forall q, (q, Returned None) ∈ daemonize k p ->
    detached q /\ p_pid q = newPid k 2 /\ p_umask q = 23 /\ p_ignored q = p_ignored p /\
    forall fd, p_fds q !! fd = if (fd <=? STDERR_FILENO)%nat then Some DevNull else p_fds p !! fd).
Proof.
  intros [H1 H2]. unfold daemonize, fork, setsid. destruct (refuses k 0 Fork) as [errno|] eqn:E0.
  { split; [|intros q [[= ]|[]%elem_of_nil]%elem_of_cons]. exists [], p, (Some (errnoText k (bs "fork") errno)). split_and!; [done..|].
    intros Hk. by rewrite Hk in E0. }
  cbn [p_pid p_group]. destruct (Z.eqb_spec (newPid k 0) (p_group p)); [done|].
  destruct (refuses k 1 SetSid) as [errno|] eqn:E1.
  { split; [|intros q [[= ]|[[= ]|[]%elem_of_nil]%elem_of_cons]%elem_of_cons].
    eexists [_], _, _. split_and!; [reflexivity|by repeat constructor|]. intros Hk. by rewrite Hk in E1. }
  destruct (refuses k 2 Fork) as [errno|] eqn:E2.
  { split; [|intros q [[= ]|[[= ]|[]%elem_of_nil]%elem_of_cons]%elem_of_cons].
    eexists [_], _, _. split_and!; [reflexivity|by repeat constructor|]. intros Hk. by rewrite Hk in E2. }
  destruct (redirectStdioToDevNull _ _ _) as [q e] eqn:Er. split.
  - eexists [_; _], q, e. split_and!; [reflexivity|by repeat constructor|]. intros Hk.
    revert Er. unfold redirectStdioToDevNull, openNull. rewrite Hk. unfold dupAll, dup2. rewrite !Hk. by intros [= _ <-].
  - intros q' [[= ]|[[= ]|[[= -> <-]|[]%elem_of_nil]%elem_of_cons]%elem_of_cons]%elem_of_cons.
    apply redirect_spec in Er as (Hrest & Hnull & Hq). rewrite Hq. cbn. split_and!; try done.
    intros fd. destruct (Nat.leb_spec fd STDERR_FILENO) as [Hl|Hl]; unfold STDERR_FILENO in Hl; [by apply Hnull|by apply Hrest].
Qed.

Definition demoKernel : Kernel := mkKernel (fun _ _ => None) (fun n => 101 + Z.of_nat n) (fun _ => bs "error").
Definition demoShell : Process :=
  mkProcess 100 100 90 true {[ 0%nat := Terminal; 1%nat := Terminal; 2%nat := Terminal; 5%nat := Elsewhere 7 ]} 18 ∅.
#[local] Instance process_inhabited : Inhabited (Process * fate) := populate (demoShell, Left 0).
Lemma daemonize_detaches_witness :
  exists q, (q, Returned None) ∈ daemonize demoKernel demoShell /\ p_fds q !! 5%nat = Some (Elsewhere 7) /\ p_fds q !! 1%nat = Some DevNull /\ detached q.
Proof.
  destruct (daemonize_detaches demoKernel demoShell) as [_ H]; [by split|].
  exists (daemonize demoKernel demoShell !!! 2%nat).1.
  assert (((daemonize demoKernel demoShell !!! 2%nat).1, Returned None) ∈ daemonize demoKernel demoShell) as Hin.
  { apply list_elem_of_lookup. exists 2%nat. vm_compute. reflexivity. }
  destruct (H _ Hin) as (Hd & _ & _ & _ & Hf). split_and!; [done|by rewrite Hf|by rewrite Hf|done].
Defined.
