(* ===== verification/LogApart.v ===== *)
(** * What the logger leaves alone

    A file whose path has two components, as the pid file's, and that has no
    second name is not touched by any operation of the logger, whatever the
    operating system answers. *)

From stdpp Require Import gmap.
From S2P Require Import Prelude StringView Charconv Logger Level.
Section Apart.
Context (p : path) (Hp : length p = 2%nat).

Record apart (l : Logger.t) (w : World) : Prop := mkApart {
  apart_names : forall q i, names w !! q = Some i -> (i < nextInode w)%nat;
  apart_sink : forall i, Logger.file l = Some i -> (i < nextInode w)%nat;
  apart_alone : forall q i, names w !! p = Some i -> names w !! q = Some i -> q = p;
  apart_other : forall i, names w !! p = Some i -> Logger.file l <> Some i;
  apart_active : length (Logger.activePath l) <> 2%nat }.

Definition spares (s s' : Logger.t * World) : Prop :=
  apart s.1 s.2 -> apart s'.1 s'.2 /\ fileAt s'.2 p = fileAt s.2 p.

#[local] Instance spares_preorder : PreOrder spares.
Proof.
  split; [by intros s|]. intros s1 s2 s3 H12 H23 H. destruct (H12 H) as [H2 E2]. destruct (H23 H2) as [H3 E3].
  split; [done|congruence].
Qed.

Lemma spares_same l l' w w' :
  names w' = names w -> content w' = content w -> nextInode w' = nextInode w ->
  (Logger.file l' = Logger.file l \/ Logger.file l' = None) ->
  (Logger.activePath l' = Logger.activePath l \/ length (Logger.activePath l') <> 2%nat) -> spares (l, w) (l', w').
Proof.
  intros En Ec Ei Hf Ha [H1 H2 H3 H4 H5]. cbn in *. split.
  - split; rewrite ?En, ?Ei; try done.
    + intros i Hi. destruct Hf as [Hf|Hf]; rewrite Hf in Hi; [by apply H2|done].
    + intros i Hi. destruct Hf as [->| ->]; [by apply H4|done].
    + by destruct Ha as [->|Ha].
  - unfold fileAt. by rewrite En, Ec.
Qed.

Context (os : Os) (zone : Zone).

Lemma spares_open l l' q w :
  length q = 4%nat -> (forall i, Logger.file l' = Some i -> (openAppend os q w).2 = Some i) ->
  Logger.activePath l' = q -> spares (l, w) (l', (openAppend os q w).1).
Proof.
  intros Hq Hf Ha. assert (q <> p) as Hqp by congruence.
  assert ((openAppend os q w).2 = None -> Logger.file l' = None) as Hnone.
  { intros E. destruct (Logger.file l') as [i|]; [|done]. rewrite E in Hf. by specialize (Hf i eq_refl). }
  unfold openAppend in *. destruct (failing os w OpenAppend).
  { apply spares_same; [done..|right; by apply Hnone|right; by rewrite Ha, Hq]. }
  destruct (_ || _).
  { apply spares_same; [done..|right; by apply Hnone|right; by rewrite Ha, Hq]. }
  clear Hnone. intros [H1 H2 H3 H4 H5].
  destruct (names w !! q) as [j|] eqn:E; cbn in *.
  - split; [|done]. split; cbn; try done; try congruence.
    + intros i [= <-]%Hf. by eapply H1.
    + intros i Hi [= ->]%Hf. by apply (H3 q) in Hi.
  - split.
    + split; cbn; try congruence.
      * intros r i [[_ <-]|[_ H%H1]]%lookup_insert_Some; lia.
      * intros i [= <-]%Hf. lia.
      * intros r i. rewrite lookup_insert_ne by done. intros Hi [[<- <-]|[_ Hr]]%lookup_insert_Some; [apply H1 in Hi; lia|by eapply H3].
      * intros i. rewrite lookup_insert_ne by done. intros Hi%H1 [= <-]%Hf. lia.
    + unfold fileAt. cbn. rewrite lookup_insert_ne by done. destruct (names w !! p) as [i|] eqn:Ei; [|done].
      rewrite lookup_insert_ne; [done|]. apply H1 in Ei. lia.
Qed.

Lemma spares_openForDate date l w : spares (l, w) (Logger.openForDateLocked os date l w).1.
Proof.
  unfold Logger.openForDateLocked, createDirectories. destruct (mkdirs _ _ _ _) as [d made]. set (w1 := called _).
  assert (spares (l, w) (l, w1)) as H1 by (apply spares_same; auto). destruct made; [|exact H1]. cbn [negb].
  etransitivity; [exact H1|]. set (q := _ ++ _). assert (length q = 4%nat) as Hq by done.
  pose proof (fun l' => spares_open l l' q w1 Hq) as H2.
  destruct (openAppend os q w1) as [w2 [i|]] eqn:E; cbn [fst] in *.
  - unfold fileSize. cbn [fst snd]. etransitivity; [apply (H2 (Logger.mk (Some i) false false false [] [] [] q 0)); done|].
    apply spares_same; auto.
  - intros Hl. destruct (H2 (Logger.mk None false false false [] [] [] q 0) ltac:(done) eq_refl Hl) as [[A1 A2 A3 A4 A5] Ef]. split; [|done].
    destruct Hl as [B1 B2 B3 B4 B5]. split; cbn [fst snd] in *; try done.
    + intros j Hj%B2. revert E. unfold openAppend. destruct (failing os w1 OpenAppend); [by intros [= <-]|].
      destruct (_ || _); [by intros [= <-]|]. by destruct (names w1 !! q).
    + revert E. unfold openAppend. destruct (failing os w1 OpenAppend); [by intros [= <-]|].
      destruct (_ || _); [by intros [= <-]|]. by destruct (names w1 !! q).
Qed.

Lemma spares_rename l active index w :
  length active <> 2%nat -> spares (l, w) (l, (rename os active (Logger.candidate active index) w).1).
Proof.
  intros Hl. assert (length (Logger.candidate active index) <> 2%nat) as Hc.
  { unfold Logger.candidate. destruct (Logger.stemExtension _). rewrite length_app. cbn. unfold parentOf.
    destruct active as [|a active _] using rev_ind; [done|]. rewrite removelast_last. rewrite length_app in Hl. cbn in Hl. lia. }
  unfold rename. destruct (failing os w Rename); [by apply spares_same; auto|].
  destruct (names w !! active) as [j|] eqn:E; [|by apply spares_same; auto].
  case_bool_decide; [by apply spares_same; auto|]. intros [H1 H2 H3 H4 H5]. cbn [fst snd] in *.
  assert (active <> p) by congruence. assert (Logger.candidate active index <> p) as Hcp by congruence.
  assert (names (called (setTree w (dirs w) (<[Logger.candidate active index := j]> (delete active (names w))))) !! p = names w !! p) as Ep.
  { cbn. by rewrite lookup_insert_ne, lookup_delete_ne. }
  split; [|by unfold fileAt; rewrite Ep]. split; rewrite ?Ep; try done; cbn.
  - intros r i [[_ <-]|[_ [_ Hr]%lookup_delete_Some]]%lookup_insert_Some; by eapply H1.
  - intros r i Hi [[_ <-]|[_ [_ Hr]%lookup_delete_Some]]%lookup_insert_Some; [by apply (H3 active) in Hi|by eapply H3].
Qed.

Lemma spares_rotateLoop l active n : length active <> 2%nat -> forall w, spares (l, w) (l, (Logger.rotateLoop os n active w).1).
Proof.
  intros Hl. induction n as [|n IH]; intros w; [reflexivity|]. cbn [Logger.rotateLoop]. unfold exists_.
  assert (spares (l, w) (l, called w)) as H by (apply spares_same; auto).
  match goal with |- context [if ?b then _ else _] => destruct b end;
    (etransitivity; [exact H|]); [apply IH|by apply spares_rename].
Qed.

Lemma spares_rotate l w : spares (l, w) (Logger.rotateLocked os l w).
Proof.
  enough (length (Logger.activePath l) <> 2%nat -> spares (l, w) (Logger.rotateLocked os l w)) as H by (intros Hl; apply H; [apply Hl|exact Hl]).
  intros Ha. unfold Logger.rotateLocked.
  etransitivity; [apply (spares_same l (Logger.closeSink l) w w); auto|].
  pose proof (spares_rotateLoop (Logger.closeSink l) (Logger.activePath (Logger.closeSink l)) kMaxRotationIndex Ha w) as H1.
  destruct (Logger.rotateLoop os _ _ w) as [w1 renamed]. etransitivity; [exact H1|].
  pose proof (spares_openForDate (Logger.activeDate (Logger.closeSink l)) (Logger.closeSink l) w1) as H2.
  destruct (Logger.openForDateLocked os _ _ w1) as [[l2 w2] ok]. etransitivity; [exact H2|]. destruct renamed; apply spares_same; auto.
Qed.

Lemma spares_prepare today line l w : spares (l, w) (Logger.prepare os today line l w).
Proof.
  unfold Logger.prepare. destruct (negb (Logger.fileRequested l)); [reflexivity|].
  set (a := if Logger.toFile l && _ && _ then _ else (l, w)).
  assert (spares (l, w) a) as Ha by (subst a; destruct (Logger.toFile l && _ && _); [apply spares_openForDate|reflexivity]).
  clearbody a. etransitivity; [exact Ha|]. destruct a as [l1 w1].
  set (b := if negb (Logger.toFile l1) then _ else (l1, w1)).
  assert (spares (l1, w1) b) as Hb by (subst b; destruct (negb (Logger.toFile l1)); [apply spares_openForDate|reflexivity]).
  clearbody b. etransitivity; [exact Hb|]. destruct b as [l2 w2]. destruct (Logger.toFile l2 && _); [apply spares_rotate|reflexivity].
Qed.

Lemma spares_put line l w : spares (l, w) (Logger.put os line l w).1.
Proof.
  unfold Logger.put, write. destruct (Logger.file l) as [j|] eqn:Ef; [|reflexivity]. destruct (Logger.bad l); [reflexivity|].
  assert (forall s l', Logger.file l' = Logger.file l -> Logger.activePath l' = Logger.activePath l ->
    spares (l, w) (l', called (setContent w j s))) as H.
  { intros s l' Hf Ha [H1 H2 H3 H4 H5]. cbn [fst snd] in *. split; [by split; cbn; rewrite ?Hf, ?Ha|].
    unfold fileAt. cbn. destruct (names w !! p) as [i|] eqn:Ei; [|done]. rewrite lookup_insert_ne; [done|].
    intros ->. by apply (H4 i). }
  destruct (failing os w Write); cbn; by apply H.
Qed.
Lemma spares_counting line s r : spares s r.1 -> spares s (Logger.counting line r).
Proof. intros H. etransitivity; [exact H|]. destruct r as [[l w] []]; apply spares_same; auto. Qed.

Lemma spares_log level now message l w : spares (l, w) (Logger.log os zone level now message l w).
Proof.
  unfold Logger.log. set (today := Logger.todayOf zone now). set (line := Logger.lineOf zone level now message).
  pose proof (spares_prepare today line l w) as H0. destruct (Logger.prepare os today line l w) as [l0 w0].
  etransitivity; [exact H0|]. unfold Logger.emit. destruct (negb (Logger.toFile l0)); [by apply spares_same; auto|].
  pose proof (spares_put line l0 w0) as H1. destruct (Logger.put os line l0 w0) as [[l1 w1] ok].
  destruct ok; [by apply (spares_counting line (l0, w0) (l1, w1, true))|]. etransitivity; [exact H1|].
  etransitivity; [apply (spares_same l1 (Logger.closeSink l1) w1 w1); auto|].
  set (date := if bool_decide (today = []) then _ else today).
  pose proof (spares_openForDate date (Logger.closeSink l1) w1) as H2.
  destruct (Logger.openForDateLocked os date (Logger.closeSink l1) w1) as [[l2 w2] opened]. etransitivity; [exact H2|].
  destruct opened; [|reflexivity]. apply spares_counting, spares_put.
Qed.

Lemma spares_openFile now dir name l w : spares (l, w) (Logger.openFile os zone now dir name l w).1.
Proof.
  unfold Logger.openFile. case_bool_decide; [reflexivity|]. destruct (localTimeOf zone now) as [local|]; [|reflexivity].
  case_bool_decide; [reflexivity|]. set (l1 := Logger.setBase l _ _). pose proof (spares_openForDate (dateStringOf local) l1 w) as H1.
  destruct (Logger.openForDateLocked os _ l1 w) as [[l2 w2] ok]. etransitivity; [apply (spares_same l l1 w w); auto|].
  etransitivity; [exact H1|]. destruct ok; apply spares_same; auto.
Qed.

(** Removing names below a directory of three components. *)
Lemma spares_filter l w w' (P : path * nat -> Prop) `{forall e, Decision (P e)} :
  (forall i, P (p, i)) -> names w' = filter P (names w) -> content w' = content w -> nextInode w' = nextInode w ->
  spares (l, w) (l, w').
Proof.
  intros HP En Ec Ei [H1 H2 H3 H4 H5]. cbn [fst snd] in *.
  assert (names w' !! p = names w !! p) as Ep.
  { rewrite En. destruct (names w !! p) as [i|] eqn:E; [by apply map_lookup_filter_Some_2|].
    apply map_lookup_filter_None_2. by left. }
  split; [|by unfold fileAt; rewrite Ep, Ec]. split; rewrite ?Ep, ?Ei; try done.
  - intros q i Hq. rewrite En in Hq. apply map_lookup_filter_Some_1_1 in Hq. by eapply H1.
  - intros q i Hi Hq. rewrite En in Hq. apply map_lookup_filter_Some_1_1 in Hq. by eapply H3.
Qed.

Lemma spares_removeAll l q w : length q = 3%nat -> spares (l, w) (l, (removeAll os q w).1).
Proof.
  intros Hq. assert (~ under q p) as Hn by (intros [r E]; apply (f_equal length) in E; rewrite length_app in E; lia).
  unfold removeAll. destruct (failing os w RemoveAll) as [k|]; cbn.
  - eapply (spares_filter l w _ (fun e => e.1 ∉ _)); [|done..]. intros i Hin.
    apply elem_of_take in Hin as (m & Hm & _). apply list_elem_of_lookup_2, elem_of_elements, elem_of_dom in Hm as [j Hj].
    by apply map_lookup_filter_Some_1_2 in Hj.
  - by eapply (spares_filter l w _ (fun e => ~ under q e.1)).
Qed.

Lemma spares_pruneLoop l root active cutoff entries : length root = 2%nat -> forall n w,
  spares (l, w) (l, (Logger.pruneLoop os root active cutoff entries n w).1).
Proof.
  intros Hr. induction entries as [|name entries IH]; intros n w; [reflexivity|]. cbn [Logger.pruneLoop]. unfold isDirectory, increment.
  cbn [fst snd].
  assert (forall w', spares (l, w') (l, called w')) as Hc by (intros; apply spares_same; auto).
  destruct (_ && _ && _ && _).
  - pose proof (spares_removeAll l (root ++ [name]) (called w) ltac:(rewrite length_app; cbn; lia)) as H1.
    destruct (removeAll os _ (called w)) as [w1 ok]. etransitivity; [apply Hc|]. etransitivity; [exact H1|].
    etransitivity; [apply Hc|]. destruct (bool_decide (failing os w1 Increment = None)); [apply IH|reflexivity].
  - etransitivity; [apply Hc|]. etransitivity; [apply Hc|].
    destruct (bool_decide (failing os (called w) Increment = None)); [apply IH|reflexivity].
Qed.

Lemma spares_prune now days l w : spares (l, w) (l, (Logger.pruneOldLogs os zone now days l w).1).
Proof.
  unfold Logger.pruneOldLogs. destruct (_ || _); [reflexivity|]. destruct (Logger.cutoffOf _ _ _) as [cutoff|]; [|reflexivity].
  unfold listDirectory. cbn [fst snd].
  etransitivity; [apply (spares_same l l w (called w)); auto|]. 
  match goal with |- context [match ?x with Some es => Logger.pruneLoop _ _ _ _ es _ _ | None => _ end] => destruct x end; [|reflexivity].
  by apply spares_pruneLoop.
Qed.
End Apart.
