(* ===== verification/ServerMain.v ===== *)
(** * The server's main (server/src/app/main.cpp)

    The whole program of the server: signals, arguments, becoming a daemon, the
    log, the pid file, the application object, and the way out.  [main] gives
    every process that comes of a start, each either at its end or serving, in
    the state in which the loop begins; [mainEnd] is the rest once the loop has
    returned.  In between the events of the loop are those of the application
    object.  The destructor of an application whose start failed runs after the
    last line of main and is not part of the model. *)

From stdpp Require Import gmap.
From S2P Require Import Prelude StringView Charconv Logger LogKeeping ServerConfig ServerApp ServerLife Level Daemon LogApart.

(** What a start depends on. *)
Record Host := mkHost {
  h_argv : list bytes;
  h_files : bytes -> option bytes;      (* what a configuration file holds *)
  h_kernel : Kernel;
  h_pidIo : PidIo;
  h_uv : Answers;
  h_os : Os;
  h_zone : Zone;
  h_clock : nat -> Z }.                 (* std::time at the points of main that ask for it *)

(** A process has ended with a code, or serves. *)
Inductive stage := Ended (code : Z) (lg : Logger.t) (w : World) | Serving (a : ServerApp.t).

(** Texts go where the descriptor leads. *)
Record Run := mkRun { r_process : Process; r_said : list (option target * bytes); r_stage : stage }.

Section Main.
Context (h : Host).

Definition stdoutOf (p : Process) (text : bytes) : list (option target * bytes) := [(p_fds p !! STDOUT_FILENO, text)].
Definition stderrOf (p : Process) (text : bytes) : list (option target * bytes) := [(p_fds p !! STDERR_FILENO, text)].

(** From the application object to the loop. *)
Definition startApp (p : Process) (c : ServerConfig) (lg : Logger.t) (w : World) : Run :=
  let '(a, e) := ServerApp.init (h_uv h) (ServerApp.make c lg w) in
  match e with
  | Some error =>
      let a := ServerApp.logs (h_os h) (h_zone h) LogLevel.Error (h_clock h 2) (bs "Initialization failed: " ++ error) a in
      let w := if cf_daemonize c then removePidFile (h_pidIo h) (ServerApp.disk a) else ServerApp.disk a in
      mkRun p (if cf_daemonize c then [] else stderrOf p (bs "error: " ++ error ++ [LF])) (Ended 1 (ServerApp.logger a) w)
  | None => mkRun p [] (Serving (ServerApp.runBegin (h_os h) (h_zone h) (h_clock h 3) (p_pid p) a))
  end.

(** In the process that returned from [daemonize]: the log and the pid file. *)
Definition startDaemon (p : Process) (c : ServerConfig) (w : World) : Run :=
  let '(lg, w, ok) := startDaemonLog (h_os h) (h_zone h) (h_clock h 0) c Logger.initial w in
  if negb ok then mkRun p [] (Ended 1 lg w)
  else
    let '(w, pidError) := writePidFile (h_kernel h) (h_pidIo h) (p_pid p) w in
    match pidError with
    | Some pidError =>
        let '(lg, w) := Logger.log (h_os h) (h_zone h) LogLevel.Error (h_clock h 1) pidError lg w in mkRun p [] (Ended 1 lg w)
    | None =>
        let '(lg, w) := Logger.log (h_os h) (h_zone h) LogLevel.Info (h_clock h 1)
          (bs "Daemonized (pid file " ++ kPidFilePath ++ bs ")") lg w in
        startApp p c lg w
    end.

Definition start (p : Process) (c : ServerConfig) (w : World) : list Run :=
  if cf_daemonize c then
    flat_map (fun r =>
      match r.2 with
      | Left code => [mkRun r.1 [] (Ended code Logger.initial w)]
      | Returned (Some error) =>
          [mkRun r.1 (stderrOf r.1 (bs "error: daemonize: " ++ error ++ [LF])) (Ended 1 Logger.initial w)]
      | Returned None => [startDaemon r.1 c w]
      end) (daemonize (h_kernel h) p)
  else [startApp p c Logger.initial w].

Definition main (p : Process) (w : World) : list Run :=
  let p := installProcessSignalDefaults p in
  let ends said code := [mkRun p said (Ended code Logger.initial w)] in
  let '(cli, e) := parseCommandLine (h_argv h) defaultCommandLine in
  match e with
  | Some e => ends (stderrOf p (bs "error: " ++ e ++ [LF; LF] ++ usageText)) 1
  | None =>
      if cl_helpRequested cli then ends (stdoutOf p usageText) 0
      else
        let '(c, e) := buildConfig cli (h_files h (cl_configPath cli)) in
        match e with
        | Some e => ends (stderrOf p (bs "error: " ++ e ++ [LF])) 1
        | None => start p c w
        end
  end.

(** The loop has returned [rc]. *)
Definition mainEnd (rc : Z) (p : Process) (a : ServerApp.t) : Run :=
  let a := ServerApp.runEnd (h_os h) (h_zone h) (h_clock h 4) rc a in
  let w := if cf_daemonize (ServerApp.config a) then removePidFile (h_pidIo h) (ServerApp.disk a) else ServerApp.disk a in
  mkRun p [] (Ended 0 (Logger.close (ServerApp.logger a)) w).

(** The events of the loop. *)
Definition serves (a a' : ServerApp.t) : Prop := exists e, ServerApp.step (h_uv h) (h_os h) (h_zone h) e a = Ret (Some a').

(** A state of a process of this start: at its end, or serving. *)
Inductive comes (p : Process) (w : World) : Run -> Prop :=
| comes_started r : r ∈ main p w -> comes p w r
| comes_serving q said a a' : comes p w (mkRun q said (Serving a)) -> serves a a' -> comes p w (mkRun q said (Serving a'))
| comes_ended q said a : comes p w (mkRun q said (Serving a)) -> ServerApp.handles a = ∅ -> comes p w (mainEnd 0 q a).
End Main.

(** ** The pid file and the log *)

Abbreviation state a := (ServerApp.logger a, ServerApp.disk a).
Definition keepsPid (a a' : ServerApp.t) : Prop :=
  ServerApp.config a' = ServerApp.config a /\ spares pidPath (state a) (state a').

#[local] Instance keepsPid_preorder : PreOrder keepsPid.
Proof.
  split; [by intros a|]. intros a1 a2 a3 [E12 H12] [E23 H23]. split; [congruence|]. intros H.
  destruct (H12 H) as [H2 E2]. destruct (H23 H2) as [H3 E3]. split; [done|congruence].
Qed.
Lemma keepsPid_same a a' :
  ServerApp.config a' = ServerApp.config a -> ServerApp.logger a' = ServerApp.logger a -> ServerApp.disk a' = ServerApp.disk a -> keepsPid a a'.
Proof. intros Ec El Ed. split; [done|]. unfold spares. cbn. by rewrite El, Ed. Qed.
Create HintDb pid.
#[local] Hint Resolve keepsPid_same : pid.

Section Steps.
Context (uv : Answers) (os : Os) (zone : Zone).

Lemma init_keeps a : keepsPid a (ServerApp.init uv a).1.
Proof.
  unfold ServerApp.init. destruct (negb (loop_init uv =? 0)); [by auto with pid|].
  destruct (ServerApp.initSignals _ _ _) as [l0 [e0|]]; [by auto with pid|].
  destruct (makeManager _ _) as [m l]. destruct (startParser _ _ _) as [[m' l'] [e1|]]; [by auto with pid|].
  destruct (negb _); [by auto with pid|]. destruct (bool_decide _); [by auto with pid|].
  destruct (initHandle _ _ _) as [l2 rc]. unfold ServerApp.armPruneTimer. by auto with pid.
Qed.

Lemma logs_keeps level now message a : keepsPid a (ServerApp.logs os zone level now message a).
Proof.
  unfold ServerApp.logs. pose proof (spares_log pidPath eq_refl os zone level now message (ServerApp.logger a) (ServerApp.disk a)) as H.
  destruct (Logger.log _ _ _ _ _ _ _) as [lg w]. by split.
Qed.

Lemma tick_keeps now a : keepsPid a (ServerApp.tick os zone now a).
Proof.
  unfold ServerApp.tick. destruct (ServerApp.pruneArmed a); [|reflexivity]. etransitivity.
  { apply (keepsPid_same a (ServerApp.setTimer a (ServerApp.pruneTimer a) false (ServerApp.handles a))); done. }
  set (b := ServerApp.setTimer _ _ _ _). clearbody b. unfold ServerApp.onPruneTick.
  set (b' := match ServerApp.pruneDue _ _ _ with Some _ => _ | None => _ end).
  assert (keepsPid b b') as Hb; [|etransitivity; [exact Hb|]; unfold ServerApp.armPruneTimer; destruct (ServerApp.pruneTimer b'); auto with pid].
  subst b'. destruct (ServerApp.pruneDue _ _ _) as [today|]; [|reflexivity].
  pose proof (spares_prune pidPath eq_refl os zone now kLogRetentionDays (ServerApp.logger b) (ServerApp.disk b)) as H.
  cbn [ServerApp.logger ServerApp.disk ServerApp.setDate]. destruct (Logger.pruneOldLogs _ _ _ _ _ _) as [w n].
  assert (keepsPid b (ServerApp.setLogs (ServerApp.setDate b today) (ServerApp.logger b) w)) as H1 by done.
  destruct (0 <? n); [|exact H1]. etransitivity; [exact H1|apply logs_keeps].
Qed.

Lemma shutdown_keeps a a' : ServerApp.shutdown a = Ret a' -> keepsPid a a'.
Proof.
  unfold ServerApp.shutdown. cbn [ServerApp.sessions ServerApp.setFlags ServerApp.handles].
  set (b := match ServerApp.sessions a with Some _ => _ | None => _ end).
  destruct b as [b'| |] eqn:E; cbn [obind]; try done.
  assert (keepsPid a b') as Hb.
  { subst b. destruct (ServerApp.sessions a) as [m|]; [|injection E as <-; auto with pid].
    destruct (closeManager _ _) as [r| |]; cbn [obind] in E; try done. injection E as <-. by auto with pid. }
  destruct (match ServerApp.pruneTimer b' with Some true => _ | _ => _ end) as [l| |]; cbn [obind]; try done.
  destruct (closeOnce _ _) as [l1| |]; cbn [obind]; try done. destruct (closeOnce _ _) as [l2| |]; cbn [obind]; try done.
  intros [= <-]. etransitivity; [exact Hb|]. auto with pid.
Qed.

Lemma step_keeps e a a' : ServerApp.step uv os zone e a = Ret (Some a') -> keepsPid a a'.
Proof.
  assert (forall f, (let* a := ServerApp.onManager f a in Ret (Some a)) = Ret (Some a') -> keepsPid a a') as Hm.
  { intros f. unfold ServerApp.onManager. destruct (ServerApp.sessions a) as [m|]; [|intros [= <-]; reflexivity].
    destruct (f m (ServerApp.handles a)) as [r| |]; cbn [obind]; try done. intros [= <-]. auto with pid. }
  destruct e as [signum now|now|accepted started| | |h]; cbn [ServerApp.step]; try apply Hm.
  - unfold ServerApp.onSignal. destruct (ServerApp.shuttingDown a); [intros [= <-]; apply logs_keeps|].
    destruct (ServerApp.shutdown _) as [b| |] eqn:E; cbn [obind]; try done. intros [= <-].
    apply shutdown_keeps in E. etransitivity; [|exact E]. etransitivity; [|apply logs_keeps]. auto with pid.
  - intros [= <-]. apply tick_keeps.
  - unfold ServerApp.onClosed. destruct (ServerApp.handles a !! h) as [[]|]; try done. intros [= <-].
    destruct (ServerApp.sessions _); auto with pid.
Qed.
End Steps.

Definition pidText (p : Process) : bytes := to_string (p_pid p) ++ [LF].
(** Nothing fails while the pid file is written. *)
Definition wholePid (io : PidIo) : Prop := printed io = true /\ flushed io = true /\ closed io = true.

Lemma fileAt_set w i c : names w !! pidPath = Some i -> fileAt (setContent w i c) pidPath = Some c.
Proof. intros E. unfold fileAt. cbn. by rewrite E, lookup_insert_eq. Qed.

Lemma openTruncate_spec lg w i w' :
  apart pidPath lg w -> openTruncate pidPath w = Some (i, w') -> apart pidPath lg w' /\ names w' !! pidPath = Some i.
Proof.
  intros [H1 H2 H3 H4 H5]. unfold openTruncate. destruct (_ || _); [done|].
  destruct (names w !! pidPath) as [j|] eqn:E; intros [= <- <-]; [split; [split; cbn; rewrite ?E; auto|done]|]. cbn. rewrite lookup_insert_eq. split; [|done]. split; cbn; try done.
  - intros q j [[_ <-]|[_ H%H1]]%lookup_insert_Some; lia.
  - intros j H%H2. lia.
  - intros q j [[_ <-]|[H _]]%lookup_insert_Some [[<- _]|[_ Hq]]%lookup_insert_Some; try done. apply H1 in Hq. lia.
  - intros j [[_ <-]|[H _]]%lookup_insert_Some Hf; [apply H2 in Hf; lia|done].
Qed.

Lemma writePidFile_spec k io p lg w w' e :
  apart pidPath lg w -> writePidFile k io (p_pid p) w = (w', e) ->
  apart pidPath lg w' /\ (e = None -> fileAt w' pidPath = Some (pidText p)) /\ (wholePid io -> e <> None -> w' = w).
Proof.
  intros Ha. unfold writePidFile. destruct (fopen_errno io); [by intros [= <- <-]|].
  destruct (openTruncate pidPath w) as [[i w1]|] eqn:E; [|by intros [= <- <-]].
  apply (openTruncate_spec lg) in E as [H1 E]; [|done]. assert (forall c, apart pidPath lg (setContent w1 i c)) as Hc by (intros c; by destruct H1).
  destruct (_ || _) eqn:Eio; intros [= <- <-].
  - split_and!; [done..|]. intros (E1 & E2 & E3). by rewrite E1, E2, E3 in Eio.
  - split_and!; [done| |done]. intros _. by apply fileAt_set.
Qed.

Lemma startDaemonLog_spares os zone now c lg w lg' w' ok :
  startDaemonLog os zone now c lg w = (lg', w', ok) -> spares pidPath (lg, w) (lg', w').
Proof.
  unfold startDaemonLog. destruct (parentAndName (cf_logPath c)) as [dir name]. set (n := if bool_decide _ then _ else _).
  pose proof (spares_openFile pidPath eq_refl os zone now dir n lg w) as H1.
  destruct (Logger.openFile os zone now dir n lg w) as [[lg1 w1] opened]. destruct opened; cbn [negb]; [|by intros [= <- <- <-]].
  pose proof (spares_prune pidPath eq_refl os zone now kLogRetentionDays lg1 w1) as H2.
  destruct (Logger.pruneOldLogs os zone now _ lg1 w1) as [w2 pruned]. cbn [fst] in *.
  assert (spares pidPath (lg, w) (lg1, w2)) as H12.
  { intros H. destruct (H1 H) as [Ha E]. destruct (H2 Ha) as [Hb E']. split; [done|]. cbn in *. congruence. }
  destruct (0 <? pruned); [|by intros [= <- <- <-]]. intros [= Elog <-] H. rewrite <- Elog. destruct (H12 H) as [Ha E].
  destruct (spares_log pidPath eq_refl os zone LogLevel.Info now (bs "Pruned " ++ to_string pruned ++ bs " expired log directory(ies) at startup") lg1 w2 Ha) as [Hb E'].
  cbn in *. split; [done|congruence].
Qed.

Lemma remove_file io w : removes io = true -> fileAt (removePidFile io w) pidPath = None.
Proof. intros Hr. unfold removePidFile. rewrite Hr. unfold fileAt. cbn. by rewrite lookup_delete_eq. Qed.

Section Life.
Context (h : Host).

(** What holds of a process that began with the disk [w]. *)
Definition lives (w : World) (r : Run) : Prop :=
  match r_stage r with
  | Serving a =>
      appInv a /\ apart pidPath (ServerApp.logger a) (ServerApp.disk a) /\
      fileAt (ServerApp.disk a) pidPath = if cf_daemonize (ServerApp.config a) then Some (pidText (r_process r)) else fileAt w pidPath
  | Ended _ _ w' => wholePid (h_pidIo h) -> removes (h_pidIo h) = true -> fileAt w' pidPath = fileAt w pidPath \/ fileAt w' pidPath = None
  end.

Lemma startApp_lives p c lg w w0 :
  apart pidPath lg w -> fileAt w pidPath = (if cf_daemonize c then Some (pidText p) else fileAt w0 pidPath) ->
  lives w0 (startApp h p c lg w).
Proof.
  intros Ha Hf. unfold startApp. pose proof (init_keeps (h_uv h) (ServerApp.make c lg w)) as [Hc Hk].
  pose proof (init_inv (h_uv h) c lg w) as Hi.
  destruct (ServerApp.init _ _) as [a e]. cbn [fst snd] in *. destruct (Hk Ha) as [Ha1 Ef1]. cbn in Ef1. destruct e as [error|].
  - set (b := ServerApp.logs _ _ _ _ _ _). assert (keepsPid a b) as [_ Hb] by apply logs_keeps. destruct (Hb Ha1) as [_ Ef2]. cbn in Ef2.
    unfold lives. cbn. intros _ Hr. destruct (cf_daemonize c); [right; by apply remove_file|]. left. congruence.
  - assert (keepsPid a (ServerApp.runBegin (h_os h) (h_zone h) (h_clock h 3) (p_pid p) a)) as [Hcb Hb] by apply logs_keeps.
    destruct (Hb Ha1) as [Ha2 Ef2]. unfold lives. cbn in *. split_and!.
    + eapply appInv_same; [apply logs_same|]. by apply Hi.
    + done.
    + rewrite Ef2, Ef1, Hf, Hcb, Hc. done.
Qed.

Lemma startDaemon_lives p c w : apart pidPath Logger.initial w -> cf_daemonize c = true -> lives w (startDaemon h p c w).
Proof.
  intros Ha Hc. unfold startDaemon. destruct (startDaemonLog _ _ _ _ _ _) as [[lg w1] ok] eqn:E1.
  apply startDaemonLog_spares in E1. destruct (E1 Ha) as [Ha1 Ef1]. cbn [fst snd] in *. destruct ok; cbn [negb]; [|intros _ _; by left].
  destruct (writePidFile _ _ _ _) as [w2 e2] eqn:E2. apply (writePidFile_spec _ _ _ lg) in E2 as (Ha2 & Hsome & Hnone); [|done].
  pose proof (fun level message => spares_log pidPath eq_refl (h_os h) (h_zone h) level (h_clock h 1) message lg w2 Ha2) as Hlog.
  destruct e2 as [pidError|].
  - specialize (Hlog LogLevel.Error pidError). destruct (Logger.log _ _ _ _ _ _ _) as [lg3 w3]. destruct Hlog as [_ Ef3]. cbn in Ef3.
    intros Hw _. left. cbn. rewrite Ef3, Hnone by done. done.
  - specialize (Hlog LogLevel.Info (bs "Daemonized (pid file " ++ kPidFilePath ++ bs ")")).
    destruct (Logger.log _ _ _ _ _ _ _) as [lg3 w3]. destruct Hlog as [Ha3 Ef3]. cbn [fst snd] in *.
    apply startApp_lives; [done|]. rewrite Ef3, Hsome, Hc by done. done.
Qed.

Lemma main_lives p w r : apart pidPath Logger.initial w -> r ∈ main h p w -> lives w r.
Proof.
  intros Ha. unfold main. set (p0 := installProcessSignalDefaults p).
  assert (forall q said code, lives w (mkRun q said (Ended code Logger.initial w))) as Hend by (intros q said code _ _; by left).
  destruct (parseCommandLine _ _) as [cli [e|]]; [intros ->%list_elem_of_singleton; apply Hend|].
  destruct (cl_helpRequested cli); [intros ->%list_elem_of_singleton; apply Hend|].
  destruct (buildConfig _ _) as [c [e|]]; [intros ->%list_elem_of_singleton; apply Hend|]. unfold start.
  destruct (cf_daemonize c) eqn:Hc.
  - intros Hr%list_elem_of_In. apply in_flat_map in Hr as ([q f] & _ & Hr). cbn [fst snd] in Hr.
    destruct f as [code|[error|]]; destruct Hr as [<-|[]]; [apply Hend..|]. by apply startDaemon_lives.
  - intros ->%list_elem_of_singleton. apply startApp_lives; [done|]. by rewrite Hc.
Qed.

Lemma comes_lives p w r : apart pidPath Logger.initial w -> comes h p w r -> lives w r.
Proof.
  intros Ha. induction 1 as [r Hr|q said a a' _ (Hi & Hap & Hf) [e E]|q said a _ (Hi & Hap & Hf) Hh].
  - by apply (main_lives p).
  - destruct (step_inv (h_uv h) (h_os h) (h_zone h) e a Hi) as (r & Er & Hr). rewrite E in Er. injection Er as <-.
    apply step_keeps in E as [Ec Hk]. destruct (Hk Hap) as [Hap' Ef]. cbn in Ef. unfold lives. cbn. split_and!; [by apply Hr|done|].
    by rewrite Ef, Ec.
  - unfold mainEnd, lives. cbn [r_stage]. set (b := ServerApp.runEnd _ _ _ _ _). intros _ Hr.
    assert (keepsPid a b) as [Ec Hk] by (apply logs_keeps). destruct (Hk Hap) as [_ Ef]. cbn in Ef.
    destruct (cf_daemonize (ServerApp.config b)) eqn:Hd; [right; by apply remove_file|]. left. rewrite Ef, Hf, <- Ec, Hd. done.
Qed.
End Life.


(** ** The way out *)

Lemma drains h a : appInv a -> ServerApp.shuttingDown a = true -> exists a', rtc (serves h) a a' /\ ServerApp.handles a' = ∅.
Proof.
  remember (size (ServerApp.handles a)) as n eqn:Hn. revert a Hn. induction n as [|n IH]; intros a Hn Hi Hd.
  { exists a. split; [done|]. by apply map_size_empty_inv. }
  destruct (map_choose (ServerApp.handles a)) as (hd & s & Hh); [intros E; rewrite E, map_size_empty in Hn; done|].
  assert (exists a', ServerApp.step (h_uv h) (h_os h) (h_zone h) (ServerApp.EvClosed hd) a = Ret (Some a') /\
    ServerApp.handles a' = delete hd (ServerApp.handles a)) as (a' & Es & Eh).
  { destruct Hi as (m & Em & Hi & Hno). destruct (Hno Hd) as (_ & _ & _ & Hopen). destruct s; [by apply Hopen in Hh|].
    cbn [ServerApp.step]. unfold ServerApp.onClosed. rewrite Hh. eexists. split; [reflexivity|]. cbn [ServerApp.sessions ServerApp.setHandles]. by rewrite Em. }
  destruct (step_inv (h_uv h) (h_os h) (h_zone h) (ServerApp.EvClosed hd) a Hi) as (r & Er & Hr). rewrite Es in Er. injection Er as <-.
  destruct (Hr a' eq_refl) as [Hi' Hd']. destruct (IH a') as (b & Hb & Eb); [|done|by apply Hd'|].
  - rewrite Eh, map_size_delete_Some; [lia|eauto].
  - exists b. split; [|done]. eapply rtc_l; [by eexists|done].
Qed.

(** C22: the server runs without fault until a signal ends it.  In every state
    in which a process of a start serves, whatever connections, closed sockets,
    finished sessions, pruning ticks and signals come in whatever order, no
    event closes a handle twice or one that was never initialised; a
    termination signal, whatever the state, begins the shutdown, after which
    handles only go away and further signals change nothing, and the closing of
    those that are left, finitely many, ends the loop: main returns 0, and the
    pid file of a daemon is gone when it can be removed. *)
Theorem main_ends h p w q said a :
  apart pidPath Logger.initial w -> comes h p w (mkRun q said (Serving a)) ->
  let step := ServerApp.step (h_uv h) (h_os h) (h_zone h) in
  (forall e, exists r, step e a = Ret r) /\
  (ServerApp.shuttingDown a = true -> forall e a', step e a = Ret (Some a') -> ServerApp.shuttingDown a' = true /\
    (ServerApp.handles a' = ServerApp.handles a \/
     exists hd, ServerApp.handles a !! hd = Some Closing /\ ServerApp.handles a' = delete hd (ServerApp.handles a))) /\
  (forall signum now, exists a1 a2 lg w', step (ServerApp.EvSignal signum now) a = Ret (Some a1) /\ ServerApp.shuttingDown a1 = true /\
    rtc (serves h) a1 a2 /\ comes h p w (mainEnd h 0 q a2) /\ r_stage (mainEnd h 0 q a2) = Ended 0 lg w' /\
    (cf_daemonize (ServerApp.config a) = true -> removes (h_pidIo h) = true -> fileAt w' pidPath = None)).
Proof.
  intros Ha Hc step. destruct (comes_lives h p w _ Ha Hc) as (Hi & _). cbn in Hi. split; [|split].
  { intros e. destruct (step_inv (h_uv h) (h_os h) (h_zone h) e a Hi) as (r & E & _). by exists r. }
  { intros Hd e a' E. split; [|by eapply step_down]. destruct (step_inv (h_uv h) (h_os h) (h_zone h) e a Hi) as (r & E' & Hr).
    unfold step in E. rewrite E in E'. injection E' as <-. by apply (Hr a'). }
  intros signum now. destruct (signal_inv (h_os h) (h_zone h) signum now a Hi) as (a1 & E1 & Hi1 & Hd1).
  destruct (drains h a1 Hi1 Hd1) as (a2 & H12 & Hh).
  assert (ServerApp.step (h_uv h) (h_os h) (h_zone h) (ServerApp.EvSignal signum now) a = Ret (Some a1)) as Es by (cbn; by rewrite E1).
  assert (comes h p w (mkRun q said (Serving a2)) /\ ServerApp.config a2 = ServerApp.config a) as [Hc2 Hcfg].
  { assert (comes h p w (mkRun q said (Serving a1)) /\ ServerApp.config a1 = ServerApp.config a) as H1.
    { split; [eapply comes_serving; [done|by eexists]|by eapply step_keeps]. }
    clear -H12 H1. induction H12 as [|x y z [e Exy] _ IH]; [done|]. apply IH. destruct H1 as [Hx Ex].
    split; [eapply comes_serving; [done|by eexists]|]. apply step_keeps in Exy as [-> _]. done. }
  exists a1, a2. eexists _, _. split_and!; [done|done|done|by eapply comes_ended|reflexivity|].
  intros Hd Hr. cbn. assert (ServerApp.config (ServerApp.runEnd (h_os h) (h_zone h) (h_clock h 4) 0 a2) = ServerApp.config a) as ->.
  { rewrite <- Hcfg. apply logs_keeps. }
  rewrite Hd. by apply remove_file.
Qed.

(** ** A start *)

Definition wholeIo : PidIo := mkPidIo None true true true [] true.
Definition demoHost : Host :=
  mkHost [bs "server"; bs "-d"] (fun _ => None) demoKernel wholeIo demoAnswers healthyOs demoZone (fun _ => 0).
(** The same, with the port taken. *)
Definition busyHost : Host :=
  mkHost [bs "server"; bs "-d"] (fun _ => None) demoKernel wholeIo
    (mkAnswers 0 (fun _ => 0) (fun _ => 0) (fun _ _ _ => -98) (fun _ => bs "address already in use")) healthyOs demoZone (fun _ => 0).

Definition nobody : Run := mkRun demoShell [] (Ended 0 Logger.initial emptyWorld).
Definition daemonRun (h : Host) (w : World) : Run := List.last (main h demoShell w) nobody.
Definition diskOf (r : Run) : World := match r_stage r with Serving a => ServerApp.disk a | Ended _ _ w => w end.

Lemma empty_apart : apart pidPath Logger.initial emptyWorld.
Proof. by split. Qed.
Definition isServing (r : Run) : bool := match r_stage r with Serving a => cf_daemonize (ServerApp.config a) | Ended _ _ _ => false end.
Definition codeOf (r : Run) : option Z := match r_stage r with Serving _ => None | Ended code _ _ => Some code end.

Lemma daemonRun_comes : comes demoHost demoShell emptyWorld (daemonRun demoHost emptyWorld).
Proof.
  apply comes_started. unfold daemonRun. assert (length (main demoHost demoShell emptyWorld) <> 0)%nat as Hl by (vm_compute; done).
  destruct (main demoHost demoShell emptyWorld) as [|r rs _] using rev_ind; [done|].
  rewrite last_last, elem_of_app. right. by apply list_elem_of_singleton.
Qed.
Lemma daemonRun_serves :
  exists q said a, daemonRun demoHost emptyWorld = mkRun q said (Serving a) /\ cf_daemonize (ServerApp.config a) = true /\ p_pid q = 103.
Proof.
  assert (isServing (daemonRun demoHost emptyWorld) = true /\ p_pid (r_process (daemonRun demoHost emptyWorld)) = 103) as [Hs Hp]
    by (split; vm_compute; reflexivity).
  destruct (daemonRun demoHost emptyWorld) as [q said [code lg w|a]]; [done|]. by exists q, said, a.
Qed.

Lemma main_ends_witness :
  exists q said a, daemonRun demoHost emptyWorld = mkRun q said (Serving a) /\
  exists a' lg w', r_stage (mainEnd demoHost 0 q a') = Ended 0 lg w' /\ fileAt w' pidPath = None.
Proof.
  pose proof daemonRun_comes as Hc. destruct daemonRun_serves as (q & said & a & E & Hd & _).
  exists q, said, a. split; [done|]. rewrite E in Hc.
  destruct (main_ends demoHost demoShell emptyWorld q said a empty_apart Hc) as (_ & _ & Hs).
  destruct (Hs SIGTERM 0) as (_ & a2 & lg & w' & _ & _ & _ & _ & E2 & Hf).
  exists a2, lg, w'. split; [done|]. by apply Hf.
Defined.

