(* ===== verification/Handles.v ===== *)
(** * Who frees a libuv handle (common/net: constructors, destructors, close and
    write callbacks of TcpSocket, Timer and Listener)

    A wrapper and the handle it made, with the memory of both: the owner may
    destroy the wrapper between callbacks, and a socket inside [onClosed], and
    the loop calls back later.  A step that touches freed memory, frees twice or closes a
    handle twice is undefined.  The three wrappers share the rules; [kind] says
    which operations a wrapper has.  libuv finishes the requests of a handle
    before it calls the close callback, and calls it once. *)

From S2P Require Import Prelude.

Inductive kind := KSocket | KTimer | KListener.

(** What the loop does with the handle: not initialised, in use, closing (with a
    close callback to come or not), closed. *)
Inductive loopState := Unknown | Open | Closing (callback : bool) | Gone.

(** The connect request of a socket: none, with libuv, or with libuv while its
    memory is gone. *)
Inductive connectState := NoConnect | Pending | Dangling.

Module Handle.
Record t := mk {
  alive : bool;                   (* the wrapper exists *)
  held : bool;                    (* _handle *)
  closing : bool;                 (* _closing *)
  closed : bool;                  (* _closed *)
  memory : bool;                  (* the handle has not been freed *)
  data : bool;                    (* handle->data is the wrapper, not null *)
  loop : loopState;
  writes : list (nat * bool);     (* write requests: does request->socket point to the wrapper? *)
  issued : nat;
  connect : connectState }.

Definition setOwner (h : t) (a hd : bool) : t :=
  mk a hd (closing h) (closed h) (memory h) (data h) (loop h) (writes h) (issued h) (connect h).
Definition setFlags (h : t) (cg cd : bool) : t :=
  mk (alive h) (held h) cg cd (memory h) (data h) (loop h) (writes h) (issued h) (connect h).
Definition setData (h : t) (d : bool) : t :=
  mk (alive h) (held h) (closing h) (closed h) (memory h) d (loop h) (writes h) (issued h) (connect h).
Definition setLoop (h : t) (l : loopState) : t :=
  mk (alive h) (held h) (closing h) (closed h) (memory h) (data h) l (writes h) (issued h) (connect h).
Definition setWrites (h : t) (ws : list (nat * bool)) : t :=
  mk (alive h) (held h) (closing h) (closed h) (memory h) (data h) (loop h) ws (issued h) (connect h).
Definition setConnect (h : t) (c : connectState) : t :=
  mk (alive h) (held h) (closing h) (closed h) (memory h) (data h) (loop h) (writes h) (issued h) c.

(** The constructors: a handle libuv did not initialise is dropped at once. *)
Definition make (ok : bool) : t :=
  if ok then mk true true false false true true Open [] 0 NoConnect
  else mk true false false false false false Unknown [] 0 NoConnect.

(** Access to the handle and its release. *)
Definition touch (h : t) : outcome unit := if memory h then Ret tt else UB.
Definition free (h : t) : outcome t :=
  if memory h then Ret (mk (alive h) (held h) (closing h) (closed h) false (data h) (loop h) (writes h) (issued h) (connect h)) else UB.

(** [uv_close]: once per handle. *)
Definition uvClose (h : t) (callback : bool) : outcome t :=
  let* _ := touch h in
  match loop h with Open => Ret (setLoop h (Closing callback)) | _ => UB end.

(** The destructors of Timer and Listener, and the end of TcpSocket's. *)
Definition destroyHandle (h : t) : outcome t :=
  if negb (held h) then Ret h
  else if closed h then free (setOwner h (alive h) false)        (* the unique_ptr frees it *)
  else
    let* _ := touch h in
    let h := setOwner (setData h false) (alive h) false in
    match loop h with
    | Open => uvClose h true
    | _ => Ret h
    end.

(** The rest of a destructor: a TcpSocket first takes its write requests off
    itself; its connect request goes with it. *)
Definition destroy (k : kind) (h : t) : outcome t :=
  let h :=
    match k with
    | KSocket =>
        setConnect (setWrites h (map (fun w => (w.1, false)) (writes h)))
          (match connect h with Pending => Dangling | c => c end)
    | _ => h
    end in
  let* h := destroyHandle h in
  Ret (setOwner h false (held h)).

(** TcpSocket::close and Listener::close. *)
Definition close (h : t) : outcome t :=
  if negb (held h) || closing h then Ret h else uvClose (setFlags h true (closed h)) true.

(** TcpSocket::connect and send, as far as requests go. *)
Definition connectTo (h : t) (address : bool) (rc : Z) : outcome t :=
  if negb (held h) then Ret h
  else if negb address then Ret h                      (* uv_ip4_addr refuses the text *)
  else
    let* _ := touch h in
    match connect h with
    | NoConnect => Ret (if rc =? 0 then setConnect h Pending else h)
    | _ => Ret (setConnect h Dangling)                 (* the old request is freed *)
    end.
Definition send (h : t) (rc : Z) : outcome t :=
  if negb (held h) || closing h then Ret h
  else
    let* _ := touch h in
    if rc =? 0 then
      Ret (mk (alive h) (held h) (closing h) (closed h) (memory h) (data h) (loop h) (writes h ++ [(issued h, true)]) (S (issued h)) (connect h))
    else Ret h.

(** ** Callbacks; [None]: libuv has no reason to call *)

(** A callback that finds its wrapper through a pointer uses it. *)
Definition through (h : t) (pointer : bool) : outcome unit := if pointer && negb (alive h) then UB else Ret tt.

Definition onWriteCb (h : t) (request : nat) : outcome (option t) :=
  match List.find (fun w => Nat.eqb w.1 request) (writes h) with
  | None => Ret None
  | Some w =>
      let* _ := through h w.2 in
      Ret (Some (setWrites h (List.filter (fun w => negb (Nat.eqb w.1 request)) (writes h))))
  end.

(** The request's data is the wrapper itself. *)
Definition onConnectCb (h : t) : outcome (option t) :=
  match connect h with
  | NoConnect => Ret None
  | Pending => let* _ := through h true in Ret (Some (setConnect h NoConnect))
  | Dangling => UB
  end.

(** onReadCb, onTimeoutCb and onConnectionCb go through handle->data. *)
Definition onEventCb (h : t) : outcome (option t) :=
  match loop h with
  | Open => let* _ := touch h in let* _ := through h (data h) in Ret (Some h)
  | _ => Ret None
  end.

(** The close callback; the owner of a socket may destroy it when it is told. *)
Definition onCloseCb (k : kind) (h : t) (destroyed : bool) : outcome (option t) :=
  match loop h, writes h, connect h with
  | Closing true, [], NoConnect =>
      let* _ := touch h in
      let h := setLoop h Gone in
      if negb (data h) then let* h := free h in Ret (Some h)
      else
        let* _ := through h true in
        let h := setFlags h (closing h) true in
        match k with
        | KSocket => if destroyed then let* h := destroy k h in Ret (Some h) else Ret (Some h)
        | _ => Ret (Some h)
        end
  | _, _, _ => Ret None
  end.

(** [uv_walk] with onWalkCloseCb: handles that are not closing are closed
    without a callback; the loop then forgets them. *)
Definition walk (h : t) : outcome t :=
  match loop h with
  | Open => uvClose h false
  | _ => Ret h
  end.
Definition forget (h : t) : t := match loop h with Closing false => setLoop h Gone | _ => h end.

(** ** Runs *)

Inductive event :=
| Connect (address : bool) (rc : Z) | Send (rc : Z) | Close | Destroy          (* the owner *)
| Written (request : nat) | Connected | Event | Closed (destroyed : bool).     (* the loop *)

Definition step (k : kind) (h : t) (e : event) : outcome (option t) :=
  let owner m := if alive h then let* h := m in Ret (Some h) else Ret None in
  match e with
  | Connect address rc => match k with KSocket => owner (connectTo h address rc) | _ => Ret None end
  | Send rc => match k with KSocket => owner (send h rc) | _ => Ret None end
  | Close => match k with KTimer => Ret None | _ => owner (close h) end
  | Destroy => owner (destroy k h)
  | Written request => onWriteCb h request
  | Connected => onConnectCb h
  | Event => onEventCb h
  | Closed destroyed => onCloseCb k h destroyed
  end.

(** The owner of a socket does not destroy it, nor connect it again, while a
    connection is in the making, and does not connect one it has closed. *)
Definition careful (h : t) (e : event) : Prop :=
  match e with
  | Connect _ _ => connect h = NoConnect /\ closing h = false
  | Destroy => connect h = NoConnect
  | _ => True
  end.

Inductive reachable (k : kind) : t -> Prop :=
| reach_make ok : reachable k (make ok)
| reach_step h e h' : reachable k h -> careful h e -> step k h e = Ret (Some h') -> reachable k h'.

(** What only the loop does. *)
Definition callback (e : event) : Prop := match e with Written _ | Connected | Closed _ => True | _ => False end.
(** The callbacks still owed for the handle. *)
Definition owed (h : t) : nat :=
  (length (writes h) + match loop h with Closing true => 1 | _ => 0 end + match connect h with NoConnect => 0 | _ => 1 end)%nat.
End Handle.

(** ** The life of a handle *)
Import Handle.

(** Only sockets have requests. *)
Definition requests (k : kind) (ws : list (nat * bool)) (c : connectState) : Prop :=
  c <> Dangling /\ (k = KSocket \/ ws = [] /\ c = NoConnect).

(** Never initialised; with its wrapper (in use, closing, closed); left to the
    loop by a wrapper that is gone; freed. *)
Inductive life (k : kind) : t -> Prop :=
| life_none a cg cd : life k (mk a false cg cd false false Unknown [] 0 NoConnect)
| life_open ws n c : requests k ws c -> life k (mk true true false false true true Open ws n c)
| life_closing ws n c : requests k ws c -> life k (mk true true true false true true (Closing true) ws n c)
| life_closed n : life k (mk true true true true true true Gone [] n NoConnect)
| life_orphan cg cd ws n : Forall (fun w => w.2 = false) ws -> life k (mk false false cg cd true false (Closing true) ws n NoConnect)
| life_freed cg cd d n : life k (mk false false cg cd false d Gone [] n NoConnect).

Lemma life_make k ok : life k (make ok).
Proof. destruct ok; constructor. split; [done|by right]. Qed.

(** A state in the shape a phase has. *)
Ltac lived := unfold setOwner, setFlags, setData, setLoop, setWrites, setConnect; cbn; constructor.

Lemma life_destroy k h : life k h -> alive h = true -> connect h = NoConnect -> exists h', destroy k h = Ret h' /\ life k h'.
Proof.
  assert (Hw : forall ws : list (nat * bool), Forall (fun w => w.2 = false) (map (fun w => (w.1, false)) ws)).
  { intros ws. apply Forall_map, Forall_forall. by intros []. }
  intros [a cg cd|ws n c [_ Hr]|ws n c [_ Hr]|n|cg cd ws n Hws|cg cd d n] Ha Hc; cbn in Ha, Hc; subst; try done;
    destruct k; cbn; (eexists; split; [reflexivity|]); try (by lived); destruct Hr as [|[-> _]]; try done; by lived.
Qed.

Lemma life_connectTo h address rc :
  life KSocket h -> connect h = NoConnect -> closing h = false -> exists h', connectTo h address rc = Ret h' /\ life KSocket h'.
Proof.
  assert (Hr : forall ws, requests KSocket ws NoConnect /\ requests KSocket ws Pending) by (intros ws; split; (split; [done|by left])).
  intros [] Hc Hg; cbn in Hc, Hg; subst; cbn; try done; try (eexists; (split; [reflexivity|]); by lived);
    (destruct address; [|by eexists; (split; [reflexivity|]); lived; apply Hr]; destruct (rc =? 0); eexists; (split; [reflexivity|]); lived; apply Hr).
Qed.

Lemma life_send h rc : life KSocket h -> exists h', send h rc = Ret h' /\ life KSocket h'.
Proof.
  intros [| | | | |]; cbn; try (eexists; (split; [reflexivity|]); by lived).
  destruct (rc =? 0); eexists; (split; [reflexivity|]); lived; [|done]. destruct H as [? _]. split; [done|by left].
Qed.

Lemma life_close k h : life k h -> alive h = true -> exists h', close h = Ret h' /\ life k h'.
Proof. intros [] Ha; cbn in *; try done; eexists; (split; [reflexivity|]); by lived. Qed.

Lemma requests_written k ws c f : requests k ws c -> requests k (List.filter f ws) c.
Proof. intros [? [?|[-> ?]]]; (split; [done|]); [by left|by right]. Qed.

Lemma life_written k h request : life k h -> exists r, onWriteCb h request = Ret r /\ forall h', r = Some h' -> life k h'.
Proof.
  intros Hl. unfold onWriteCb. destruct (List.find _ _) as [w|] eqn:Ew; [|by eexists].
  apply find_some in Ew as [Hin _]. destruct Hl; cbn in *; try done; unfold through; cbn.
  1-2: rewrite andb_false_r; eexists; (split; [reflexivity|]); intros h' [= <-]; lived; by apply requests_written.
  rewrite Forall_forall in H. rewrite (H w Hin). cbn. eexists. split; [reflexivity|].
  intros h' [= <-]. lived. apply Forall_forall. intros x [Hx _]%filter_In. by apply H.
Qed.

Lemma life_closedCb k h destroyed : life k h -> exists r, onCloseCb k h destroyed = Ret r /\ forall h', r = Some h' -> life k h'.
Proof.
  intros Hl. destruct Hl as [a cg cd|ws n c Hr|ws n c Hr|n|cg cd ws n Hws|cg cd d n]; cbn; try by eexists.
  - destruct ws; [|by eexists]. destruct c; try by eexists. destruct k; [destruct destroyed|..]; cbn; eexists; (split; [reflexivity|]); intros h' [= <-]; by lived.
  - destruct ws; [|by eexists]. eexists. split; [reflexivity|]. intros h' [= <-]. by lived.
Qed.

Lemma life_step k h e : life k h -> careful h e -> exists r, step k h e = Ret r /\ forall h', r = Some h' -> life k h'.
Proof.
  intros Hl Hc. assert (Hown : forall (m : outcome t), (alive h = true -> exists h', m = Ret h' /\ life k h') ->
    exists r, (if alive h then let* h := m in Ret (Some h) else Ret None) = Ret r /\ forall h', r = Some h' -> life k h').
  { intros m Hm. destruct (alive h); [|by eexists]. destruct (Hm eq_refl) as (h' & -> & ?). eexists. split; [reflexivity|]. by intros ? [= <-]. }
  destruct e as [address rc|rc| | |request| | |destroyed]; cbn [step careful] in *.
  - destruct k; try by eexists. apply Hown. intros _. destruct Hc. by apply life_connectTo.
  - destruct k; try by eexists. apply Hown. intros _. by apply life_send.
  - destruct k; try (by eexists); apply Hown; by apply life_close.
  - apply Hown. intros Ha. by apply life_destroy.
  - by apply life_written.
  - destruct Hl as [|ws n c Hr|ws n c Hr| | |]; cbn; try by eexists.
    all: destruct Hr as [? Hr]; destruct c; try done; [by eexists|]; eexists; (split; [reflexivity|]); intros h' [= <-]; lived; (split; [done|]);
      destruct Hr as [?|[? ?]]; [by left|done].
  - destruct Hl; cbn; try (by eexists). eexists. split; [reflexivity|]. intros h' [= <-]. by lived.
  - by apply life_closedCb.
Qed.

Lemma reachable_life k h : reachable k h -> life k h.
Proof.
  induction 1 as [ok|h e h' _ IH Hc E]; [apply life_make|]. destruct (life_step k h e IH Hc) as (r & E' & Hr).
  rewrite E in E'. injection E' as <-. by apply Hr.
Qed.

Lemma filter_shorter {A} (f : A -> bool) l x : In x l -> f x = false -> (length (List.filter f l) < length l)%nat.
Proof.
  intros Hin Hx. induction l as [|y l IH]; [done|]. cbn. pose proof (filter_length_le f l). destruct Hin as [->|Hin].
  - rewrite Hx. lia.
  - specialize (IH Hin). destruct (f y); cbn; lia.
Qed.

(** ** Properties *)


(** A socket destroyed with a write in flight and its close callback to come. *)
Definition steps (k : kind) (h : t) (es : list event) : outcome (option t) :=
  fold_left (fun r e => let* o := r in match o with Some h => step k h e | None => Ret None end) es (Ret (Some h)).




(** A socket that is destroyed while it connects leaves libuv a request
    whose memory is gone: the connect callback that libuv owes it is undefined,
    so the rule of [careful] cannot be dropped. *)
Lemma destroy_while_connecting :
  exists h, steps KSocket (make true) [Connect true 0; Destroy] = Ret (Some h) /\ step KSocket h Connected = UB.
Proof. eexists. split; reflexivity. Qed.

(** The order in handle(QuitCommand): a timer that is closed by [uv_walk] before
    its wrapper is destroyed is never freed, one that is destroyed first is. *)
Lemma walk_before_destroy_leaks :
  exists h, (let* h := walk (make true) in destroy KTimer (forget h)) = Ret h /\ memory h = true /\ owed h = 0%nat.
Proof. eexists. split; [reflexivity|]. split; reflexivity. Qed.
Lemma destroy_before_walk_frees :
  exists h, (let* h := destroy KTimer (make true) in let* h := walk h in onCloseCb KTimer h false) = Ret (Some h) /\ memory h = false.
Proof. eexists. split; reflexivity. Qed.
