(* ===== verification/Effects.v ===== *)
(** * Stateful code

    A handler that changes an object and may run into undefined behaviour is a
    function of the object's state; [runs] is its total execution: it ends, is
    defined, and its postcondition holds. *)

From S2P Require Import Prelude.

Definition SM (W A : Type) : Type := W -> outcome (W * A).

Section Monad.
Context {W : Type}.

Definition sret {A} (a : A) : SM W A := fun w => Ret (w, a).
Definition sbind {A B} (m : SM W A) (k : A -> SM W B) : SM W B := fun w => obind (m w) (fun r => k r.2 r.1).
Definition sget {A} (f : W -> A) : SM W A := fun w => Ret (w, f w).
Definition smod (f : W -> W) : SM W unit := fun w => Ret (f w, tt).
Definition slift {A} (m : outcome A) : SM W A := fun w => let* a := m in Ret (w, a).
Definition snoFuel {A} : SM W A := fun _ => NoFuel.
Definition sub {A} : SM W A := fun _ => UB.

Definition truns {A} (m : SM W A) (w : W) (P : W -> A -> Prop) : Prop := exists w' a, m w = Ret (w', a) /\ P w' a.

Lemma truns_ret {A} (a : A) w (P : W -> A -> Prop) : P w a -> truns (sret a) w P.
Proof. intros HP. by exists w, a. Qed.

Lemma truns_bind {A B} (m : SM W A) (k : A -> SM W B) w (P : W -> B -> Prop) :
  truns m w (fun w' a => truns (k a) w' P) -> truns (sbind m k) w P.
Proof. intros (w1 & a & E & w2 & b & E2 & HP). exists w2, b. split; [|done]. unfold sbind. by rewrite E. Qed.

Lemma truns_mono {A} (m : SM W A) w (P P' : W -> A -> Prop) :
  truns m w P -> (forall w' a, P w' a -> P' w' a) -> truns m w P'.
Proof. intros (w1 & a & E & HP) Hi. exists w1, a. split; [done|]. by apply Hi. Qed.

Lemma truns_get {A} (f : W -> A) w (P : W -> A -> Prop) : P w (f w) -> truns (sget f) w P.
Proof. intros HP. by exists w, (f w). Qed.

Lemma truns_mod f w (P : W -> unit -> Prop) : P (f w) tt -> truns (smod f) w P.
Proof. intros HP. by eexists _, _. Qed.

Lemma truns_lift {A} (m : outcome A) a w (P : W -> A -> Prop) : m = Ret a -> P w a -> truns (slift m) w P.
Proof. intros -> HP. by exists w, a. Qed.

(** Every outcome of [m] from a state with [J] has [J]. *)
Definition preserves {A} (J : W -> Prop) (m : SM W A) : Prop := forall w w' a, m w = Ret (w', a) -> J w -> J w'.

Lemma preserves_ret {A} (J : W -> Prop) (a : A) : preserves J (sret a).
Proof. by intros w w' b [= <- _]. Qed.
Lemma preserves_bind {A B} (J : W -> Prop) (m : SM W A) (k : A -> SM W B) :
  preserves J m -> (forall a, preserves J (k a)) -> preserves J (sbind m k).
Proof.
  intros Hm Hk w w' b. unfold sbind. destruct (m w) as [[w1 a]| |] eqn:E; try done. cbn [obind fst snd].
  intros E2 Hw. eapply Hk; [exact E2|]. by eapply Hm.
Qed.
Lemma preserves_get {A} (J : W -> Prop) (f : W -> A) : preserves J (sget f).
Proof. by intros w w' b [= <- _]. Qed.
Lemma preserves_mod (J : W -> Prop) f : (forall w, J w -> J (f w)) -> preserves J (smod f).
Proof. intros Hf w w' [] [= <-]. apply Hf. Qed.
Lemma preserves_lift {A} (J : W -> Prop) (m : outcome A) : preserves J (slift m).
Proof. intros w w' b. unfold slift. destruct m; try done. by intros [= <- _]. Qed.
End Monad.

Declare Scope effects_scope.
Delimit Scope effects_scope with eff.
Notation "'do' x <- m ; k" := (sbind m (fun x => k)) (at level 100, x name, m at level 90, k at level 200) : effects_scope.
Notation "m ;; k" := (sbind m (fun _ => k)) (at level 100, k at level 200, right associativity) : effects_scope.
