(* ===== verification/FileReader.v ===== *)
(** * The client's file reader (client/src/service/FileReader.h, .cpp)

    A thread that reads the file to upload into the ring the event loop sends
    from.  The thread is stepped one shared access at a time; a step that waits
    on the condition variable can be taken whenever its predicate holds, so
    wake-ups that are lost are not modelled.  What [std::ifstream::read] returns
    is an argument of the step. *)

From S2P Require Import Prelude StringView Ring.

(** The file system: the contents of the file at a path, if it can be opened. *)
Definition Files : Type := bytes -> option bytes.

Module FileReader.
Section Reader.
Context {Q : Type} `{ChunkQueue Q}.

Record t := mk {
  ring : Q;
  uploading : bool;
  quit : bool;
  file : option bytes;      (* what is left of the open file *)
  remaining : Z;
  error : bytes;
  abort : bool;
  readComplete : bool;
  failed : bool }.

Definition make (r : Q) : t := mk r false false None 0 [] false false false.

Definition setRing (s : t) (r : Q) : t :=
  mk r (uploading s) (quit s) (file s) (remaining s) (error s) (abort s) (readComplete s) (failed s).

(** [false] and a message when the upload cannot start. *)
Definition beginUpload (fs : Files) (s : t) (path : bytes) (expectedSize : Z) : t * option bytes :=
  if uploading s then (s, Some (bs "An upload is already in progress."))
  else
    match fs path with
    | None => (s, Some (bs "Cannot open the selected file."))
    | Some content => (mk (ring s) true (quit s) (Some content) expectedSize [] false false false, None)
    end.

Definition abortUpload (s : t) : t :=
  mk (ring s) (uploading s) (quit s) (file s) (remaining s) (error s) true (readComplete s) (failed s).

Definition takeError (s : t) : t * bytes :=
  (mk (ring s) (uploading s) (quit s) (file s) (remaining s) [] (abort s) (readComplete s) (failed s), error s).

(** [stop], up to the join. *)
Definition stop (s : t) : t :=
  mk (ring s) false true (file s) (remaining s) (error s) true (readComplete s) (failed s).

(** Where the thread is. *)
Inductive pc :=
| RWait                     (* run: waiting for an upload *)
| RTop                      (* readLoop: about to look at _abort *)
| RAcquire                  (* about to ask the ring for a slot *)
| RFull                     (* waiting for a free slot *)
| RRead                     (* a slot is lent *)
| RCommit (data : bytes)    (* [data] is in the slot *)
| RClose                    (* readLoop has returned *)
| RQuit.

(** One action, [actual] being [gcount()] where the action reads.  [None]: the
    thread sleeps, has ended, or [actual] is not a possible count.  The flag is
    a call of [_wake]. *)
Definition step (actual : Z) (s : t) (c : pc) : outcome (option (t * pc * bool)) :=
  match c with
  | RWait => Ret (if quit s then Some (s, RQuit, false) else if uploading s then Some (s, RTop, false) else None)
  | RTop => Ret (Some (s, if abort s then RClose else RAcquire, false))
  | RAcquire => Ret (Some (s, if qfull (ring s) then RFull else RRead, false))
  | RFull =>
      Ret (if quit s || abort s || negb (qfull (ring s))
           then Some (s, if quit s || abort s then RClose else RTop, false) else None)
  | RRead =>
      let toRead := Z.min (remaining s) (chunkCapacity (ring s)) in
      if 0 <? toRead then
        match file s with
        | None => UB
        | Some content =>
            if (actual <? 0) || (Z.min toRead (zlen content) <? actual) then Ret None
            else if actual <=? 0 then
              Ret (Some (mk (ring s) (uploading s) (quit s) (file s) (remaining s)
                            (bs "File ended earlier than its reported size.") (abort s) (readComplete s) true, RClose, true))
            else
              Ret (Some (mk (ring s) (uploading s) (quit s) (Some (zdrop actual content)) (u64 (remaining s - actual))
                            (error s) (abort s) (readComplete s) (failed s), RCommit (ztake actual content), false))
        end
      else
        Ret (Some (mk (ring s) (uploading s) (quit s) (file s) (remaining s) (error s) (abort s) true (failed s), RClose, true))
  | RCommit data =>
      let* r := qpush (ring s) data in
      match r with
      | None => UB      (* the slot was lent and the thread is the only producer *)
      | Some r => Ret (Some (setRing s r, RTop, true))
      end
  | RClose =>
      Ret (Some (mk (ring s) false (quit s) None (remaining s) (error s) (abort s) (readComplete s) (failed s), RWait, false))
  | RQuit => Ret None
  end.
End Reader.
End FileReader.
