(* ===== verification/ReaderWait.v ===== *)
(** * The reader's sleep (condition variable of client/src/service/FileReader.cpp)

    [FileReader.step] runs a waiting thread as soon as its condition holds.  Here
    the wait has its parts: the thread evaluates the condition with the mutex
    held, then sleeps, and only a notification wakes it.  The loop frees slots
    and sets the abort flag without the mutex, so it can do both between the
    evaluation and the sleep. *)

From S2P Require Import Prelude StringView Ring FileReader.

Module Sleeper.
Section Sleeper.
Context {Q : Type} `{ChunkQueue Q}.

(** Running at [c]; at [c] with the condition found false, about to sleep (the
    mutex is held); asleep at [c]. *)
Inductive place := Run (c : FileReader.pc) | Deciding (c : FileReader.pc) | Asleep (c : FileReader.pc).

Record t := mk { reader : FileReader.t (Q := Q); at_ : place }.

Definition waits (c : FileReader.pc) : bool := match c with FileReader.RWait | FileReader.RFull => true | _ => false end.

(** One action of the thread; [None]: it sleeps or has ended. *)
Definition thread (actual : Z) (s : t) : outcome (option t) :=
  match at_ s with
  | Run c =>
      let* r := FileReader.step actual (reader s) c in
      Ret (match r with
           | Some (r, c, _) => Some (mk r (Run c))
           | None => if waits c then Some (mk (reader s) (Deciding c)) else None
           end)
  | Deciding c => Ret (Some (mk (reader s) (Asleep c)))
  | Asleep _ => Ret None
  end.

(** [_cv.notify_all()] *)
Definition notify (s : t) : t := match at_ s with Asleep c => mk (reader s) (Run c) | _ => s end.

(** The actions of the loop, one shared access at a time: [ring().release()],
    [notifySpaceAvailable()], [_abort.store(true)]; [beginUpload] needs the
    mutex. *)
Inductive event := Thread (actual : Z) | Release | Notify | SetAbort | Begin (fs : Files) (path : bytes) (size : Z).

Definition fire (s : t) (e : event) : outcome (option t) :=
  match e with
  | Thread actual => thread actual s
  | Release => Ret (if qempty (FileReader.ring (reader s)) then None
                    else Some (mk (FileReader.setRing (reader s) (qpop (FileReader.ring (reader s)))) (at_ s)))
  | Notify => Ret (Some (notify s))
  | SetAbort => Ret (Some (mk (FileReader.abortUpload (reader s)) (at_ s)))
  | Begin fs path size =>
      match at_ s with
      | Deciding _ => Ret None
      | _ => Ret (Some (notify (mk (FileReader.beginUpload fs (reader s) path size).1 (at_ s))))
      end
  end.

(** Is there something for the thread to do? *)
Definition runnable (s : FileReader.t (Q := Q)) (c : FileReader.pc) : bool :=
  match c with
  | FileReader.RWait => FileReader.quit s || FileReader.uploading s
  | FileReader.RFull => FileReader.quit s || FileReader.abort s || negb (qfull (FileReader.ring s))
  | _ => true
  end.

(** The thread has no reason to sleep on. *)
Definition idle (s : t) : Prop :=
  match at_ s with
  | Deciding c | Asleep c => waits c = true /\ runnable (reader s) c = false
  | Run _ => True
  end.

(** The change and the notification that follows it. *)
Definition andNotify (s : t) (e : event) : outcome (option t) :=
  let* r := fire s e in Ret (notify <$> r).

(** Runs in which the loop frees slots and aborts only while the thread is not
    between the evaluation of its condition and its sleep. *)
Inductive undisturbed (s0 : t) : t -> Prop :=
| und_start : undisturbed s0 s0
| und_thread s actual s' : undisturbed s0 s -> fire s (Thread actual) = Ret (Some s') -> undisturbed s0 s'
| und_begin s fs path size s' : undisturbed s0 s -> fire s (Begin fs path size) = Ret (Some s') -> undisturbed s0 s'
| und_change s e s' :
    undisturbed s0 s -> e = Release \/ e = SetAbort -> (forall c, at_ s <> Deciding c) -> andNotify s e = Ret (Some s') ->
    undisturbed s0 s'.

Lemma step_None actual s c : FileReader.step actual s c = Ret None -> waits c = true -> runnable s c = false.
Proof. destruct c; cbn; try done; intros [= Hn] _; repeat case_match; try done; by destruct (FileReader.quit s), (FileReader.uploading s). Qed.

Lemma idle_fire s e : idle s -> e = Release \/ e = SetAbort -> (forall c, at_ s <> Deciding c) -> forall s', andNotify s e = Ret (Some s') -> idle s'.
Proof.
  intros Hi He Hd s'. unfold andNotify. destruct He as [-> | ->]; cbn.
  - destruct (qempty _); [done|]. intros [= <-]. unfold notify, idle. cbn. destruct (at_ s) as [c|c|c]; cbn; [done|by destruct (Hd c)|done].
  - intros [= <-]. unfold notify, idle. cbn. destruct (at_ s) as [c|c|c]; cbn; [done|by destruct (Hd c)|done].
Qed.

(** Unless the loop acts in that gap, the reader sleeps only while it has
    nothing to do. *)
Lemma sleeps_only_idle s0 s : idle s0 -> undisturbed s0 s -> idle s.
Proof.
  intros H0. induction 1 as [|s actual s' _ IH E|s fs path size s' _ IH E|s e s' _ IH He Hd E]; [done| | |by eapply idle_fire].
  - cbn in E. unfold thread in E. destruct (at_ s) as [c|c|c] eqn:Ea; [|by injection E as <-; unfold idle in *; rewrite Ea in IH|done].
    destruct (FileReader.step actual (reader s) c) as [[[[r c'] w]|]| |] eqn:Es; cbn in E; try done; [by injection E as <-|].
    destruct (waits c) eqn:Ew; [|done]. injection E as <-. split; [done|]. by eapply step_None.
  - cbn in E. destruct (at_ s) as [c|c|c] eqn:Ea; [by injection E as <-|done|by injection E as <-].
Qed.
End Sleeper.
End Sleeper.

(** In the gap, the notification is lost: the loop sends all chunks of a full
    ring while the reader is about to sleep, and the reader sleeps with an empty
    ring and a file half read; nothing is left that would wake it. *)
Definition stallRun : list Sleeper.event :=
  let fill := [Sleeper.Thread 0; Sleeper.Thread 0; Sleeper.Thread 4; Sleeper.Thread 0] in
  [Sleeper.Begin (fun _ => Some (bs "twelve bytes")) [] 12; Sleeper.Thread 0] ++ fill ++ fill ++
  [Sleeper.Thread 0; Sleeper.Thread 0; Sleeper.Thread 0] ++
  [Sleeper.Release; Sleeper.Notify; Sleeper.Release; Sleeper.Notify] ++ [Sleeper.Thread 0].
Definition runAll (s : Sleeper.t (Q := Ring.t)) (es : list Sleeper.event) : outcome (option Sleeper.t) :=
  fold_left (fun r e => let* o := r in match o with Some s => Sleeper.fire s e | None => Ret None end) es (Ret (Some s)).

Lemma lost_wakeup_stalls :
  match runAll (Sleeper.mk (FileReader.make (Ring.make 2 4)) (Sleeper.Run FileReader.RWait)) stallRun with
  | Ret (Some s) =>
      Sleeper.at_ s = Sleeper.Asleep FileReader.RFull /\ qempty (FileReader.ring (Sleeper.reader s)) = true /\
      FileReader.remaining (Sleeper.reader s) = 4 /\ FileReader.readComplete (Sleeper.reader s) = false /\
      forall actual, Sleeper.fire s (Sleeper.Thread actual) = Ret None
  | _ => False
  end.
Proof. by vm_compute. Qed.
