(* ===== verification/ClientUi.v ===== *)
(** * The client's screen state and commands
    (client/src/ui/UiState.h, .cpp, service/Command.h, ui/PingConsole.h, and the
    event pump of app/Application.cpp)

    What the worker tells the screen, what the screen allows and what it posts.
    The time a log line starts with is an argument; the line that also goes to
    the log file is left to [Logger]. *)

From S2P Require Import Prelude StringView Protocol Charconv Binary64 Level.

(** The tag of a level *)
Definition levelTag (level : LogLevel.t) : bytes :=
  match level with
  | LogLevel.Warn => bs "Warn"
  | LogLevel.Error => bs "Error"
  | LogLevel.Info => bs "Info"
  end.

Module LinkState.
Inductive t := Disconnected | Reconnecting | Connected.
#[global] Instance t_eq_dec : EqDecision t.
Proof. solve_decision. Defined.
End LinkState.

(** [client::SessionState] *)
Module ClientState.
Inductive t :=
| Idle | Connecting | SendingHeader | Streaming | WaitAck | WaitResult | ReceivingResult | RequestingResult | Done.
#[global] Instance t_eq_dec : EqDecision t.
Proof. solve_decision. Defined.
End ClientState.

Inductive Command :=
| ConnectCommand (ip : bytes) (port : Z)
| DisconnectCommand
| StartUploadCommand (path filename : bytes) (size : Z)
| CancelUploadCommand
| RequestResultCommand
| QuitCommand.

(** [TransferService::Event]: each [has...] flag with its value is an option. *)
Record Event := mkEvent {
  ev_link : option LinkState.t;
  ev_session : option ClientState.t;
  ev_uploadProgress : option double;
  ev_downloadProgress : option double;
  ev_resultClaim : option bool;
  ev_level : LogLevel.t;
  ev_message : bytes }.

Definition linkEvent (l : LinkState.t) : Event := mkEvent (Some l) None None None None LogLevel.Info [].
Definition sessionEvent (s : ClientState.t) : Event := mkEvent None (Some s) None None None LogLevel.Info [].
Definition uploadEvent (p : double) : Event := mkEvent None None (Some p) None None LogLevel.Info [].
Definition downloadEvent (p : double) : Event := mkEvent None None None (Some p) None LogLevel.Info [].
Definition claimEvent (b : bool) : Event := mkEvent None None None None (Some b) LogLevel.Info [].
Definition logEvent (level : LogLevel.t) (m : bytes) : Event := mkEvent None None None None None level m.

(** ** Gating *)

Definition isBusy (s : ClientState.t) : bool :=
  match s with
  | ClientState.Connecting | ClientState.SendingHeader | ClientState.Streaming | ClientState.WaitAck
  | ClientState.WaitResult | ClientState.ReceivingResult => true
  | _ => false
  end.

(** [bufferText]: up to the first NUL, within the array. *)
Fixpoint bufferText (buffer : bytes) : bytes :=
  match buffer with
  | [] => []
  | b :: rest => if bool_decide (b = Byte.x00) then [] else b :: bufferText rest
  end.

Definition kMega : Z := 1024 * 1024.
Definition humanSize (n : Z) : bytes :=
  snprintf 64
    (if kMega <=? n then printfFixed 1 (ddiv (doubleOfZ n) (doubleOfZ kMega)) ++ bs " MB" else to_string n ++ bs " bytes").

Record LogEntry := mkEntry { entry_level : LogLevel.t; entry_text : bytes }.

(** [formatEntry]; [stamp] is the local time.  The copy of a line that goes to
    the logger is left out. *)
Definition formatEntry (stamp : bytes) (level : LogLevel.t) (message : bytes) : bytes :=
  bs "[" ++ stamp ++ bs "] [" ++ levelTag level ++ bs "] " ++ message.

Module UiState.
Record t := mk {
  serverIp : bytes;            (* std::array<char, 64> *)
  serverPort : bytes;          (* std::array<char, 16> *)
  link : LinkState.t;
  session : ClientState.t;
  filePath : bytes;
  fileName : bytes;
  fileSize : Z;
  uploadProgress : double;
  downloadProgress : double;
  resultClaimAvailable : bool;
  logEntries : list LogEntry;
  logDirty : bool }.           (* there are lines the screen has not scrolled to *)

Definition kMaxLogEntries : Z := 1000.

(** The log window keeps the last entries. *)
Fixpoint popFront (fuel : nat) (entries : list LogEntry) : list LogEntry :=
  match fuel with
  | O => entries
  | S fuel => if kMaxLogEntries <? zlen entries then popFront fuel (drop 1 entries) else entries
  end.
Definition log (stamp : bytes) (s : t) (level : LogLevel.t) (message : bytes) : t :=
  let entries := logEntries s ++ [mkEntry level (formatEntry stamp level message)] in
  mk (serverIp s) (serverPort s) (link s) (session s) (filePath s) (fileName s) (fileSize s) (uploadProgress s)
     (downloadProgress s) (resultClaimAvailable s) (popFront (length entries) entries) true.
Definition clearLogDirty (s : t) : t :=
  mk (serverIp s) (serverPort s) (link s) (session s) (filePath s) (fileName s) (fileSize s) (uploadProgress s)
     (downloadProgress s) (resultClaimAvailable s) (logEntries s) false.

Definition canEditAddress (s : t) : bool := bool_decide (link s = LinkState.Disconnected) && negb (isBusy (session s)).
Definition canConnect (s : t) : bool := bool_decide (link s = LinkState.Disconnected) && negb (isBusy (session s)).
Definition canDisconnect (s : t) : bool := negb (bool_decide (link s = LinkState.Disconnected)).
Definition canBrowse (s : t) : bool := negb (isBusy (session s)).
Definition canSend (s : t) : bool :=
  bool_decide (link s = LinkState.Connected) && negb (isBusy (session s)) && negb (bool_decide (filePath s = [])).
Definition canCancelUpload (s : t) : bool :=
  bool_decide (session s = ClientState.SendingHeader) || bool_decide (session s = ClientState.Streaming).
Definition canSaveResult (s : t) : bool := bool_decide (session s = ClientState.Done).
Definition canRequestResult (s : t) : bool :=
  resultClaimAvailable s && bool_decide (link s = LinkState.Connected) && negb (isBusy (session s)).

Definition parsePort (s : t) : option Z :=
  let text := bufferText (serverPort s) in
  if bool_decide (text = []) then None
  else
    let '(ec, value, rest) := fromCharsUint 32 text 0 in
    if bool_decide (ec <> Success) || negb (bool_decide (rest = [])) then None
    else if (value =? 0) || (65535 <? value) then None
    else Some (u16 value).

(** One event of [pumpWorkerEvents]. *)
Definition applyEvent (stamp : bytes) (s : t) (e : Event) : t :=
  let s :=
    mk (serverIp s) (serverPort s) (default (link s) (ev_link e)) (default (session s) (ev_session e)) (filePath s)
       (fileName s) (fileSize s) (default (uploadProgress s) (ev_uploadProgress e))
       (default (downloadProgress s) (ev_downloadProgress e)) (default (resultClaimAvailable s) (ev_resultClaim e))
       (logEntries s) (logDirty s) in
  if bool_decide (ev_message e = []) then s else log stamp s (ev_level e) (ev_message e).

Definition pumpWorkerEvents (stamp : bytes) (s : t) (events : list Event) : t := fold_left (applyEvent stamp) events s.
End UiState.

(** ** isValidIpv4 *)

Fixpoint octetLoop (fuel : nat) (text : bytes) (value digits : Z) : option (Z * Z * bytes) :=
  match fuel with
  | O => None
  | S fuel =>
      match text with
      | b :: rest =>
          if isDigit b then
            let value := value * 10 + digitVal b in
            let digits := digits + 1 in
            if 3 <? digits then None else octetLoop fuel rest value digits
          else Some (value, digits, text)
      | [] => Some (value, digits, [])
      end
  end.

(** The loop over the octets that are left; [text] is what follows [pos]. *)
Fixpoint octets (n : nat) (text : bytes) : bool :=
  match octetLoop 5 text 0 0 with
  | None => false
  | Some (value, digits, rest) =>
      if (digits =? 0) || (255 <? value) then false
      else
        match n with
        | O => bool_decide (rest = [])
        | S n =>
            match rest with
            | b :: rest => if bool_decide (b = "."%byte) then octets n rest else false
            | [] => false
            end
        end
  end.

Definition isValidIpv4 (text : bytes) : bool :=
  if bool_decide (text = []) || (15 <? zlen text) then false else octets 3 text.

Example humanSize_mega : humanSize 506252493 = bs "482.8 MB".
Proof. vm_compute. reflexivity. Qed.
Example humanSize_small : humanSize 512 = bs "512 bytes".
Proof. vm_compute. reflexivity. Qed.

(** ** The addresses it accepts *)

(** One to three digits with a value of at most 255. *)
Definition octet (ds : bytes) : Prop :=
  forallb isDigit ds = true /\ 1 <= zlen ds <= 3 /\ fold_left (fun v b => v * 10 + digitVal b) ds 0 <= 255.

Fixpoint dotted (parts : list bytes) : bytes :=
  match parts with
  | [] => []
  | [p] => p
  | p :: parts => p ++ "."%byte :: dotted parts
  end.

(** What follows the digits of an octet. *)
Definition noDigit (rest : bytes) : Prop := match rest with b :: _ => isDigit b = false | [] => True end.

Lemma octetLoop_digits ds rest : forall fuel v n,
  forallb isDigit ds = true -> noDigit rest -> n + zlen ds <= 3 -> (length ds < fuel)%nat ->
  octetLoop fuel (ds ++ rest) v n = Some (fold_left (fun v b => v * 10 + digitVal b) ds v, n + zlen ds, rest).
Proof.
  induction ds as [|b ds IH]; intros [|fuel] v n Hd Hr Hn Hf; cbn in Hf; try lia.
  - cbn [app fold_left octetLoop]. change (zlen []) with 0. rewrite Z.add_0_r. destruct rest as [|b rest]; [done|]. cbn in Hr. by rewrite Hr.
  - cbn in Hd. apply andb_true_iff in Hd as [Hb Hd]. rewrite zlen_cons in Hn |- *. pose proof (zlen_nonneg ds).
    cbn [app octetLoop fold_left]. rewrite Hb, (proj2 (Z.ltb_ge 3 (n + 1))) by lia. rewrite IH; [|done|done|lia|lia].
    do 2 f_equal. f_equal. lia.
Qed.

Lemma octetLoop_inv fuel : forall text v n v' n' rest,
  octetLoop fuel text v n = Some (v', n', rest) -> n <= 3 ->
  exists ds, text = ds ++ rest /\ forallb isDigit ds = true /\ noDigit rest /\ n' = n + zlen ds /\ n' <= 3 /\
    v' = fold_left (fun v b => v * 10 + digitVal b) ds v.
Proof.
  induction fuel as [|fuel IH]; intros text v n v' n' rest E Hn; [done|]. cbn [octetLoop] in E. destruct text as [|b text].
  - injection E as <- <- <-. exists []. change (zlen []) with 0. split_and!; try done; lia.
  - destruct (isDigit b) eqn:Eb.
    + destruct (Z.ltb_spec 3 (n + 1)); [done|]. apply IH in E as (ds & -> & Hd & Hr & -> & Hle & ->); [|lia]. exists (b :: ds).
      rewrite zlen_cons in *. cbn [forallb fold_left]. rewrite Eb. split_and!; try done; lia.
    + injection E as <- <- <-. exists []. change (zlen []) with 0. split_and!; try done; lia.
Qed.

Lemma dotted_noDigit (l : list bytes) : noDigit (match l with [] => [] | _ => "."%byte :: dotted l end).
Proof. by destruct l. Qed.

Lemma dotted_cons p l : dotted (p :: l) = p ++ match l with [] => [] | _ => "."%byte :: dotted l end.
Proof. destruct l; [by cbn; rewrite app_nil_r|done]. Qed.

Lemma octets_dotted n : forall text,
  octets n text = true <-> exists parts, length parts = S n /\ Forall octet parts /\ text = dotted parts.
Proof.
  induction n as [|n IH]; intros text; (split; [|intros (parts & Hl & Ho & ->)]).
  - cbn [octets]. destruct (octetLoop 5 text 0 0) as [[[v n] rest]|] eqn:E; [|done].
    apply octetLoop_inv in E as (ds & -> & Hd & Hr & -> & Hle & ->); [|lia].
    destruct (Z.eqb_spec (0 + zlen ds) 0); [done|]. destruct (Z.ltb_spec 255 (fold_left (fun v b => v * 10 + digitVal b) ds 0)); [done|].
    cbn [orb]. intros ->%bool_decide_eq_true. exists [ds]. rewrite app_nil_r. split_and!; try done. repeat constructor; try done.
    pose proof (zlen_nonneg ds). lia.
  - destruct parts as [|p []]; try done. apply Forall_inv in Ho as (Hd & Hz & Hv). cbn [dotted octets].
    rewrite <- (app_nil_r p), (octetLoop_digits p [] 5 0 0) by (try done; unfold zlen in *; lia).
    rewrite (proj2 (Z.eqb_neq (0 + zlen p) 0)), (proj2 (Z.ltb_ge 255 _)) by lia. done.
  - cbn [octets]. destruct (octetLoop 5 text 0 0) as [[[v n'] rest]|] eqn:E; [|done].
    apply octetLoop_inv in E as (ds & -> & Hd & Hr & -> & Hle & ->); [|lia].
    destruct (Z.eqb_spec (0 + zlen ds) 0); [done|]. destruct (Z.ltb_spec 255 (fold_left (fun v b => v * 10 + digitVal b) ds 0)); [done|].
    cbn [orb]. destruct rest as [|b rest]; [done|]. case_bool_decide as Eb; [|done]. subst b. intros (parts & Hl & Ho & ->)%IH.
    exists (ds :: parts). rewrite dotted_cons. destruct parts as [|p parts]; [done|]. cbn in Hl |- *. split_and!; [lia| |done].
    constructor; [|done]. split_and!; try done. pose proof (zlen_nonneg ds). lia.
  - destruct parts as [|p [|p2 parts]]; try done. apply Forall_cons_iff in Ho as [(Hd & Hz & Hv) Ho]. rewrite dotted_cons. cbn [octets].
    rewrite octetLoop_digits by (try done; unfold zlen in *; lia).
    rewrite (proj2 (Z.eqb_neq (0 + zlen p) 0)), (proj2 (Z.ltb_ge 255 _)) by lia. cbn [orb]. rewrite bool_decide_eq_true_2 by done.
    apply IH. exists (p2 :: parts). split_and!; [cbn in *; lia|done|done].
Qed.

(** The addresses the ping console accepts are exactly the dotted quads:
    four decimal numbers of one to three digits, none above 255, and nothing
    else, so that no text the user types reaches the command line as anything
    but an address. *)
Lemma isValidIpv4_exact text :
  isValidIpv4 text = true <-> exists a b c d, octet a /\ octet b /\ octet c /\ octet d /\ text = dotted [a; b; c; d].
Proof.
  unfold isValidIpv4. split.
  - destruct (_ || _); [done|]. intros (parts & Hl & Ho & ->)%octets_dotted. destruct parts as [|a [|b [|c [|d []]]]]; try done.
    rewrite !Forall_cons_iff in Ho. exists a, b, c, d. tauto.
  - intros (a & b & c & d & Ha & Hb & Hc & Hd & ->).
    assert (Hz : 1 <= zlen (dotted [a; b; c; d]) <= 15).
    { cbn [dotted]. rewrite !zlen_app, !zlen_cons, !zlen_app, !zlen_cons, !zlen_app, !zlen_cons.
      destruct Ha as (_ & ? & _), Hb as (_ & ? & _), Hc as (_ & ? & _), Hd as (_ & ? & _). lia. }
    rewrite bool_decide_eq_false_2 by (intros E; rewrite E in Hz; change (zlen []) with 0 in Hz; lia).
    rewrite (proj2 (Z.ltb_ge 15 _)) by lia. cbn [orb]. apply octets_dotted. exists [a; b; c; d]. split; [done|]. split; [|done]. repeat (apply Forall_cons; [done|]). apply Forall_nil; done.
Qed.

Example isValidIpv4_yes : isValidIpv4 (bs "192.168.0.254") = true.
Proof. reflexivity. Qed.
Example isValidIpv4_no : isValidIpv4 (bs "1.2.3.4 & calc") = false.
Proof. reflexivity. Qed.
