(* ===== verification/Window.v ===== *)
(** * The client's window (client/src/app/Application.cpp, ui/FileDialog,
    ui/PingConsole, the gating of ui/UiRenderer.cpp)

    The callbacks of the buttons, with the checks of the dialogs.  What Windows
    answers (the chosen path, its attributes, the user's answer, whether a
    process or a file could be opened) is part of the press; [stamp] is the
    time. *)

From S2P Require Import Prelude StringView Protocol Codec Charconv Binary64 ClientUi Level.

Record SelectedFile := mkSelected { sel_path : bytes; sel_name : bytes; sel_size : Z }.

(** ** Dialogs *)

Module Dialog.
(** What GetOpenFileNameW leaves: the path and the name as UTF-8, and the
    attributes of the file (a directory?, high and low half of the size). *)
Record OpenAnswer := mkOpen { oa_path : bytes; oa_name : bytes; oa_attributes : option (bool * Z * Z) }.

(** The loop of [isAcceptableFileName]: what is wrong with the characters. *)
Fixpoint badCharacter (name : bytes) : option bytes :=
  match name with
  | [] => None
  | ch :: name =>
      if (b2z ch <? 0x20) || (b2z ch =? 0x7F) then Some (bs "File name contains a control character.")
      else if (b2z ch =? 0x2F) || (b2z ch =? 0x5C) then Some (bs "File name contains a path separator.")
      else badCharacter name
  end.
Definition isAcceptableFileName (name : bytes) : option bytes :=
  if (zlen name =? 0) || (kMaxFilenameLen <? zlen name)
  then Some (bs "File name must be 1 to 255 bytes when encoded as UTF-8.")
  else badCharacter name.

Definition queryFileSize (attributes : option (bool * Z * Z)) : Z + bytes :=
  match attributes with
  | None => inr (bs "Cannot read the selected file (it may have been moved or locked).")
  | Some (true, _, _) => inr (bs "A directory was selected instead of a file.")
  | Some (false, high, low) =>
      let size := Z.lor (Z.shiftl (u32 high) 32) (u32 low) in
      if kMaxFileSize <? size then inr (bs "File is larger than the 8 GiB protocol limit.") else inl size
  end.

(** A file, or why there is none: nothing when the user cancelled. *)
Definition openFileDialog (answer : option OpenAnswer) : SelectedFile + bytes :=
  match answer with
  | None => inr []
  | Some a =>
      if bool_decide (oa_path a = []) || bool_decide (oa_name a = []) then inr (bs "Failed to convert the file path to UTF-8.")
      else
        match isAcceptableFileName (oa_name a) with
        | Some error => inr error
        | None =>
            match queryFileSize (oa_attributes a) with
            | inr error => inr error
            | inl size => inl (mkSelected (oa_path a) (oa_name a) size)
            end
        end
  end.

Definition saveFileDialog (answer : option bytes) : bytes + bytes :=
  match answer with
  | None => inr []
  | Some path => if bool_decide (path = []) then inr (bs "Failed to convert the save path to UTF-8.") else inl path
  end.

(** What the dialog before a transfer asks. *)
Definition confirmText (fileName : bytes) (fileSize : Z) (destination : bytes) : bytes :=
  bs "Send " ++ fileName ++ bs " (" ++ humanSize fileSize ++ bs ") to " ++ destination ++ bs "?".

(** [openPingConsole]: why the console did not open; [started] tells whether
    ShellExecuteW could start it. *)
Definition openPingConsole (ip : bytes) (started : bool) : option bytes :=
  if negb (isValidIpv4 ip) then Some (bs "Ping: '" ++ ip ++ bs "' is not a valid IPv4 address.")
  else if negb started then Some (bs "Ping: could not start the ping console.")
  else None.
End Dialog.

(** ** The screen *)

Module Screen.
Import UiState Dialog.

Definition start : UiState.t :=
  mk (repeat Byte.x00 64) (bs "23507" ++ repeat Byte.x00 11) LinkState.Disconnected ClientState.Idle [] [] 0
     (doubleOfZ 0) (doubleOfZ 0) false [] false.

Definition setSession (s : UiState.t) (x : ClientState.t) (u d : double) : UiState.t :=
  mk (serverIp s) (serverPort s) (link s) x (filePath s) (fileName s) (fileSize s) u d (resultClaimAvailable s) (logEntries s) (logDirty s).
Definition setFile (s : UiState.t) (f : SelectedFile) : UiState.t :=
  mk (serverIp s) (serverPort s) (link s) (session s) (sel_path f) (sel_name f) (sel_size f) (doubleOfZ 0)
     (downloadProgress s) (resultClaimAvailable s) (logEntries s) (logDirty s).
(** The two text fields, while the screen lets the user edit them. *)
Definition setAddress (s : UiState.t) (ip port : bytes) : UiState.t :=
  if canEditAddress s then
    mk ip port (link s) (session s) (filePath s) (fileName s) (fileSize s) (uploadProgress s) (downloadProgress s)
       (resultClaimAvailable s) (logEntries s) (logDirty s)
  else s.

(** What saving met: the dialog's path, and whether the file could be opened
    and written. *)
Record SaveAnswer := mkSave { sv_path : option bytes; sv_opened : bool; sv_written : bool }.

Inductive button :=
| Connect
| Disconnect
| Ping (started : bool)
| Browse (answer : option OpenAnswer)
| Send (answer : bytes -> bool)              (* the user's answer to the question of the dialog *)
| CancelUpload
| RequestResult
| SaveResult (answer : SaveAnswer).

(** [buttonGated]: what the screen offers. *)
Definition enabled (s : UiState.t) (b : button) : bool :=
  match b with
  | Connect => canConnect s
  | Disconnect => canDisconnect s
  | Ping _ => true
  | Browse _ => canBrowse s
  | Send _ => canSend s
  | CancelUpload => canCancelUpload s
  | RequestResult => canRequestResult s
  | SaveResult _ => canSaveResult s
  end.

Section Callbacks.
Context (stamp : bytes).
Abbreviation logInfo s m := (log stamp s LogLevel.Info m).
Abbreviation logWarn s m := (log stamp s LogLevel.Warn m).
Abbreviation logError s m := (log stamp s LogLevel.Error m).

Definition onConnect (s : UiState.t) : UiState.t * option Command :=
  match parsePort s with
  | None => (logError s (bs "Port must be a number between 1 and 65535."), None)
  | Some port =>
      let ip := bufferText (serverIp s) in
      if bool_decide (ip = []) then (logError s (bs "Server IP is empty."), None)
      else (s, Some (ConnectCommand ip port))
  end.

Definition onDisconnect (s : UiState.t) : UiState.t * option Command :=
  (setSession s ClientState.Idle (doubleOfZ 0) (doubleOfZ 0), Some DisconnectCommand).

Definition onPing (started : bool) (s : UiState.t) : UiState.t :=
  let ip := bufferText (serverIp s) in
  if bool_decide (ip = []) then logWarn s (bs "Ping: enter the server IP first.")
  else
    match openPingConsole ip started with
    | Some error => logWarn s error
    | None => logInfo s (bs "Ping console opened for " ++ ip ++ bs " (continuous - close the window to stop)")
    end.

Definition onBrowse (answer : option OpenAnswer) (s : UiState.t) : UiState.t :=
  match openFileDialog answer with
  | inr error => if bool_decide (error = []) then s else logError s error
  | inl f => logInfo (setFile s f) (bs "Selected " ++ sel_name f ++ bs " (" ++ to_string (sel_size f) ++ bs " bytes)")
  end.

Definition onSend (answer : bytes -> bool) (s : UiState.t) : UiState.t * option Command :=
  if bool_decide (filePath s = []) then (logError s (bs "Select a file first."), None)
  else if negb (answer (confirmText (fileName s) (fileSize s) (bufferText (serverIp s) ++ bs ":" ++ bufferText (serverPort s))))
  then (logInfo s (bs "Upload cancelled before it started."), None)
  else (setSession s (session s) (doubleOfZ 0) (downloadProgress s), Some (StartUploadCommand (filePath s) (fileName s) (fileSize s))).

(** Saving the result [csv] of the worker; the file it leaves, if it does. *)
Definition onSaveResult (csv : bytes) (answer : SaveAnswer) (s : UiState.t) : UiState.t * option (bytes * bytes) :=
  if bool_decide (csv = []) then (logError s (bs "No result to save yet."), None)
  else
    match saveFileDialog (sv_path answer) with
    | inr error => (if bool_decide (error = []) then s else logError s error, None)
    | inl path =>
        if negb (sv_opened answer) then (logError s (bs "Cannot write to " ++ path), None)
        else if negb (sv_written answer) then (logError s (bs "Failed while writing " ++ path), None)
        else (logInfo s (bs "Saved " ++ to_string (zlen csv) ++ bs " bytes to " ++ path), Some (path, csv))
    end.

(** [csv] is the result the worker holds. *)
Definition press (csv : bytes) (s : UiState.t) (b : button) : UiState.t * option Command :=
  match b with
  | Connect => onConnect s
  | Disconnect => onDisconnect s
  | Ping started => (onPing started s, None)
  | Browse answer => (onBrowse answer s, None)
  | Send answer => onSend answer s
  | CancelUpload => (s, Some CancelUploadCommand)
  | RequestResult => (s, Some RequestResultCommand)
  | SaveResult answer => ((onSaveResult csv answer s).1, None)
  end.
End Callbacks.
End Screen.

(** ** What the dialog lets through *)

Lemma badCharacter_valid name :
  Dialog.badCharacter name = None <-> Forall (fun b => 0x1F < b2z b /\ b2z b <> 0x7F /\ b <> "/"%byte /\ b <> "\"%byte) name.
Proof.
  induction name as [|c name IH]; cbn [Dialog.badCharacter]; [by split; [constructor|]|]. rewrite Forall_cons_iff, <- IH.
  assert (H1 : b2z c = 0x2F <-> c = "/"%byte) by (split; [apply (b2z_inj c "/"%byte)|by intros ->]).
  assert (H2 : b2z c = 0x5C <-> c = "\"%byte) by (split; [apply (b2z_inj c "\"%byte)|by intros ->]).
  destruct ((b2z c <? _) || _) eqn:E1; [|destruct ((b2z c =? 0x2F) || _) eqn:E2].
  - rewrite orb_true_iff, Z.ltb_lt, Z.eqb_eq in E1. split; [done|]. lia.
  - rewrite orb_true_iff, !Z.eqb_eq in E2. split; [done|]. tauto.
  - rewrite orb_false_iff, Z.ltb_ge, Z.eqb_neq in E1. rewrite orb_false_iff, !Z.eqb_neq in E2.
    split; [intros ->; split; [|done]; split_and!; [lia|lia|tauto..]|tauto].
Qed.

(** The client's check of a name is the server's. *)
Lemma acceptable_valid name : Dialog.isAcceptableFileName name = None <-> validFilename name.
Proof.
  unfold Dialog.isAcceptableFileName, validFilename. rewrite <- badCharacter_valid. unfold kMaxFilenameLen. pose proof (zlen_nonneg name).
  destruct (Z.eqb_spec (zlen name) 0), (Z.ltb_spec 255 (zlen name)); cbn [orb]; split; try done; try lia; intros; try tauto; split; tauto || lia.
Qed.

(** A file that was chosen can be announced to the server. *)
Lemma openFileDialog_valid answer f :
  Dialog.openFileDialog answer = inl f -> sel_path f <> [] /\ validFilename (sel_name f) /\ 0 <= sel_size f <= kMaxFileSize.
Proof.
  unfold Dialog.openFileDialog. destruct answer as [a|]; [|done]. case_bool_decide as Ep; [done|]. case_bool_decide; cbn [orb]; [done|].
  destruct (Dialog.isAcceptableFileName (Dialog.oa_name a)) eqn:Ea; [done|]. apply acceptable_valid in Ea. unfold Dialog.queryFileSize.
  destruct (Dialog.oa_attributes a) as [[[[] high] low]|]; try done. set (size := Z.lor _ _).
  destruct (Z.ltb_spec kMaxFileSize size) as [|Hs]; [done|]. intros [= <-]. split_and!; try done.
  unfold size. apply Z.lor_nonneg. split; [apply Z.shiftl_nonneg|]; by apply uwrap_range.
Qed.
