(* ===== verification/TransferService.v ===== *)
(** * The client's worker (client/src/service/TransferService.h, .cpp)

    Every handler that runs on the worker's event loop: commands from the
    screen, socket callbacks, the connect timer, and the pump that sends what
    the file reader puts in the ring.  [handle(StartUploadCommand)] is split
    where the reader's thread can slip in between emptying the ring and starting
    the reader.  The file system ([Files]) and libuv ([Uv]), clock included, are
    parameters. *)

From Stdlib Require Import Floats.SpecFloat.
From S2P Require Import Prelude StringView Crc32 Protocol Codec Framer Ring Charconv Binary64 ResultSummary Net Effects FileReader ClientUi Level.

(** ** [float] *)

Abbreviation float := spec_float.
(** [static_cast<float>(x)] for a double [x]. *)
Definition floatOfDouble (x : double) : float :=
  match x with S754_finite s m e => binary_round 24 128 s m e | _ => x end.
Definition floatOfZ (n : Z) : float := binary_normalize 24 128 n 0 false.
Definition fsub (x y : float) : float := SFsub 24 128 x y.
(** The literals [0.01f] and [0.05f]. *)
Definition f001 : float := SFdiv 24 128 (floatOfZ 1) (floatOfZ 100).
Definition f005 : float := SFdiv 24 128 (floatOfZ 1) (floatOfZ 20).
Definition ratio (a b : Z) : float := floatOfDouble (ddiv (doubleOfZ a) (doubleOfZ b)).

Definition kMaxInFlightWrites : Z := 8.

Module Expecting.
Inductive t := Nothing | Ack | ResultHeader | CsvPayload | ResumeReply.
#[global] Instance t_eq_dec : EqDecision t.
Proof. solve_decision. Defined.
End Expecting.

Record ResultClaim := mkClaim { cl_filename : bytes; cl_fileSize : Z; cl_crc32 : Z; cl_received : Z }.
Definition noClaim : ResultClaim := mkClaim [] 0 0 0.

(** ** The end of the line that reports an upload *)
Definition formatRate (n elapsedNs : Z) : bytes :=
  if elapsedNs =? 0 then bs "<0.001s"
  else
    let seconds := ddiv (doubleOfZ elapsedNs) (doubleOfZ 1000000000) in
    let megabytes := ddiv (doubleOfZ n) (doubleOfZ kMega) in
    snprintf 64 (printfFixed 2 seconds ++ bs "s, " ++ printfFixed 1 (ddiv megabytes seconds) ++ bs " MB/s").

Example formatRate_documented : formatRate 505898394 4210000000 = bs "4.21s, 114.6 MB/s".
Proof. vm_compute. reflexivity. Qed.

Module TransferService.
(** The members that describe the upload. *)
Record Upload := mkUpload {
  uploading : bool;
  inFlightWrites : Z;
  trailerSent : bool;
  uploadTotal : Z;
  uploadSent : Z;
  uploadCrc : Z;
  lastReportedProgress : float;
  uploadFilename : bytes;
  uploadStartedAt : Z }.

(** The members that describe what is being received. *)
Record Download := mkDownload {
  expecting : Expecting.t;
  framer : Framer.t;
  csv : bytes;
  csvSize : Z;
  csvExpectedCrc : Z;
  lastReportedDownload : float }.

Section Service.
Context (uv : Uv) (fs : Files) {Q : Type} `{ChunkQueue Q}.

Record t := mk {
  up : Upload;
  down : Download;
  hasClaim : bool;
  claim : ResultClaim;
  sessionCompleted : bool;
  resultCsv : bytes;
  events : list Event;
  commands : list Command;
  socket : option TcpSocket.t;
  connectTimer : option Timer.t;
  reader : FileReader.t (Q := Q);
  created : nat;               (* sockets and timers made so far *)
  quitting : bool }.           (* uv_walk has closed the loop's handles *)

Definition init (r : Q) : t :=
  mk (mkUpload false 0 false 0 0 0 (floatOfZ (-1)) [] 0) (mkDownload Expecting.Nothing (Framer.make MessageType.Ack) [] 0 0 (floatOfZ (-1)))
     false noClaim false [] [] [] None None (FileReader.make r) 0 false.

Definition setUp (w : t) (u : Upload) : t :=
  mk u (down w) (hasClaim w) (claim w) (sessionCompleted w) (resultCsv w) (events w) (commands w) (socket w) (connectTimer w)
     (reader w) (created w) (quitting w).
Definition setDown (w : t) (d : Download) : t :=
  mk (up w) d (hasClaim w) (claim w) (sessionCompleted w) (resultCsv w) (events w) (commands w) (socket w) (connectTimer w)
     (reader w) (created w) (quitting w).
Definition setClaim (w : t) (b : bool) (c : ResultClaim) : t :=
  mk (up w) (down w) b c (sessionCompleted w) (resultCsv w) (events w) (commands w) (socket w) (connectTimer w) (reader w)
     (created w) (quitting w).
Definition setCompleted (w : t) (b : bool) : t :=
  mk (up w) (down w) (hasClaim w) (claim w) b (resultCsv w) (events w) (commands w) (socket w) (connectTimer w) (reader w)
     (created w) (quitting w).
Definition setResult (w : t) (c : bytes) : t :=
  mk (up w) (down w) (hasClaim w) (claim w) (sessionCompleted w) c (events w) (commands w) (socket w) (connectTimer w)
     (reader w) (created w) (quitting w).
Definition addEvent (w : t) (e : Event) : t :=
  mk (up w) (down w) (hasClaim w) (claim w) (sessionCompleted w) (resultCsv w) (events w ++ [e]) (commands w) (socket w)
     (connectTimer w) (reader w) (created w) (quitting w).
Definition setCommands (w : t) (cs : list Command) : t :=
  mk (up w) (down w) (hasClaim w) (claim w) (sessionCompleted w) (resultCsv w) (events w) cs (socket w) (connectTimer w)
     (reader w) (created w) (quitting w).
Definition setSocket (w : t) (k : option TcpSocket.t) : t :=
  mk (up w) (down w) (hasClaim w) (claim w) (sessionCompleted w) (resultCsv w) (events w) (commands w) k (connectTimer w)
     (reader w) (created w) (quitting w).
Definition setTimer (w : t) (tm : option Timer.t) : t :=
  mk (up w) (down w) (hasClaim w) (claim w) (sessionCompleted w) (resultCsv w) (events w) (commands w) (socket w) tm
     (reader w) (created w) (quitting w).
Definition setReader (w : t) (r : FileReader.t) : t :=
  mk (up w) (down w) (hasClaim w) (claim w) (sessionCompleted w) (resultCsv w) (events w) (commands w) (socket w)
     (connectTimer w) r (created w) (quitting w).
Definition make1 (w : t) : t :=
  mk (up w) (down w) (hasClaim w) (claim w) (sessionCompleted w) (resultCsv w) (events w) (commands w) (socket w)
     (connectTimer w) (reader w) (S (created w)) (quitting w).
Definition setQuitting (w : t) : t :=
  mk (up w) (down w) (hasClaim w) (claim w) (sessionCompleted w) (resultCsv w) (events w) (commands w) (socket w)
     (connectTimer w) (reader w) (created w) true.

Definition setUploading (u : Upload) (b : bool) : Upload :=
  mkUpload b (inFlightWrites u) (trailerSent u) (uploadTotal u) (uploadSent u) (uploadCrc u) (lastReportedProgress u) (uploadFilename u)
    (uploadStartedAt u).
Definition setInFlight (u : Upload) (n : Z) : Upload :=
  mkUpload (uploading u) n (trailerSent u) (uploadTotal u) (uploadSent u) (uploadCrc u) (lastReportedProgress u) (uploadFilename u)
    (uploadStartedAt u).
Definition setTrailerSent (u : Upload) : Upload :=
  mkUpload (uploading u) (inFlightWrites u) true (uploadTotal u) (uploadSent u) (uploadCrc u) (lastReportedProgress u) (uploadFilename u)
    (uploadStartedAt u).
Definition setCrc (u : Upload) (c : Z) : Upload :=
  mkUpload (uploading u) (inFlightWrites u) (trailerSent u) (uploadTotal u) (uploadSent u) c (lastReportedProgress u) (uploadFilename u)
    (uploadStartedAt u).
Definition setSent (u : Upload) (n : Z) : Upload :=
  mkUpload (uploading u) (inFlightWrites u) (trailerSent u) (uploadTotal u) n (uploadCrc u) (lastReportedProgress u) (uploadFilename u)
    (uploadStartedAt u).
Definition setReported (u : Upload) (p : float) : Upload :=
  mkUpload (uploading u) (inFlightWrites u) (trailerSent u) (uploadTotal u) (uploadSent u) (uploadCrc u) p (uploadFilename u)
    (uploadStartedAt u).
Definition setStarted (u : Upload) (n : Z) : Upload :=
  mkUpload (uploading u) (inFlightWrites u) (trailerSent u) (uploadTotal u) (uploadSent u) (uploadCrc u) (lastReportedProgress u) (uploadFilename u) n.

Definition setExpecting (d : Download) (e : Expecting.t) : Download :=
  mkDownload e (framer d) (csv d) (csvSize d) (csvExpectedCrc d) (lastReportedDownload d).
Definition setFramer (d : Download) (f : Framer.t) : Download :=
  mkDownload (expecting d) f (csv d) (csvSize d) (csvExpectedCrc d) (lastReportedDownload d).
Definition setCsv (d : Download) (c : bytes) : Download :=
  mkDownload (expecting d) (framer d) c (csvSize d) (csvExpectedCrc d) (lastReportedDownload d).

Abbreviation M := (SM t).
Open Scope effects_scope.

Definition modUp (f : Upload -> Upload) : M unit := smod (fun w => setUp w (f (up w))).
Definition modDown (f : Download -> Download) : M unit := smod (fun w => setDown w (f (down w))).
Definition modReader (f : FileReader.t -> FileReader.t) : M unit := smod (fun w => setReader w (f (reader w))).

(** [_socket->...]: undefined when there is no socket. *)
Definition onSocket (f : TcpSocket.t -> TcpSocket.t * Z) : M Z := fun w =>
  match socket w with
  | None => UB
  | Some k => let '(k, rc) := f k in Ret (setSocket w (Some k), rc)
  end.
(** A query of the socket. *)
Definition onSocket' {A} (f : TcpSocket.t -> A) : M A := fun w =>
  match socket w with
  | None => UB
  | Some k => Ret (w, f k)
  end.
(** [uv_hrtime] *)
Definition now : M Z := sget (fun w => uv_hrtime uv (from_option TcpSocket.calls (0, 0)%nat (socket w))).
Definition send (data : bytes) : M Z := onSocket (fun k => TcpSocket.send uv k data).

(** ** Notifying the screen *)

Definition pushEvent (e : Event) : M unit := smod (fun w => addEvent w e).
Definition pushLog (level : LogLevel.t) (message : bytes) : M unit := pushEvent (logEvent level message).
Definition pushLink (l : LinkState.t) : M unit := pushEvent (linkEvent l).
Definition pushSession (s : ClientState.t) : M unit := pushEvent (sessionEvent s).

Definition dropResultClaim : M unit :=
  smod (fun w => setClaim w false noClaim);;
  pushEvent (claimEvent false).

(** ** Ending a session *)

Definition closeSocket : M unit :=
  do k <- sget socket;
  match k with
  | Some k => if TcpSocket.closing k then sret tt else smod (fun w => setSocket w (Some (TcpSocket.close uv k)))
  | None => sret tt
  end.

(** The loop of [drainRing] on the ring itself; one round more than it has
    slots. *)
Fixpoint drainLoop (fuel : nat) (r : Q) : outcome Q :=
  match fuel with
  | O => NoFuel
  | S fuel =>
      let* v := qpeek r in
      match v with
      | Some _ => drainLoop fuel (qpop r)
      | None => Ret r
      end
  end.
Definition drainRing : M unit :=
  do rd <- sget reader;
  do r <- slift (drainLoop (S (qslots (FileReader.ring rd))) (FileReader.ring rd));
  modReader (fun rd => FileReader.setRing rd r).

Definition abortUpload (reason : bytes) (level : LogLevel.t) : M unit :=
  modReader FileReader.abortUpload;;
  modUp (fun u => setUploading u false);;
  drainRing;;
  pushLog level reason;;
  closeSocket;;
  pushSession ClientState.Idle;;
  pushEvent (uploadEvent (floatOfZ 0)).

Definition failSession (reason : bytes) (level : LogLevel.t) : M unit :=
  do u <- sget up;
  (if uploading u then
     modReader FileReader.abortUpload;;
     modUp (fun u => setUploading u false);;
     drainRing
   else sret tt);;
  modDown (fun d => setExpecting d Expecting.Nothing);;
  do has <- sget hasClaim; do d <- sget down;
  (if has then smod (fun w => setClaim w true (mkClaim (cl_filename (claim w)) (cl_fileSize (claim w)) (cl_crc32 (claim w)) (zlen (csv d))))
   else modDown (fun d => setCsv d []));;
  pushLog level reason;;
  closeSocket;;
  pushSession ClientState.Idle.

(** ** Sending *)

Definition finishUpload : M unit :=
  modUp setTrailerSent;;
  do u <- sget up;
  do rc <- send (encodeUploadTrailer (mkUploadTrailer (uploadCrc u)));
  if rc <? 0 then abortUpload (bs "Failed to send the upload trailer: " ++ uv_strerror uv rc) LogLevel.Error
  else
    modUp (fun u => setUploading u false);;
    do t <- now;
    let rate := formatRate (uploadSent u) (u64 (t - uploadStartedAt u)) in
    pushLog LogLevel.Info
      (bs "Upload finished (" ++ to_string (uploadSent u) ++ bs " bytes" ++ (if bool_decide (rate = []) then [] else bs " in " ++ rate)
       ++ bs ", crc32=" ++ to_string (uploadCrc u) ++ bs ") - waiting for ack");;
    pushSession ClientState.WaitAck;;
    modDown (fun d => setFramer (setExpecting d Expecting.Ack) (Framer.reset (framer d) MessageType.Ack)).

Definition reportProgress : M unit :=
  do u <- sget up;
  let progress := if 0 <? uploadTotal u then ratio (uploadSent u) (uploadTotal u) else floatOfZ 1 in
  if SFleb f001 (fsub progress (lastReportedProgress u)) || SFleb (floatOfZ 1) progress then
    modUp (fun u => setReported u progress);;
    pushEvent (uploadEvent progress)
  else sret tt.

(** The while loop of [pumpUpload]; [false] when the upload was aborted.  Every
    round adds a write in flight, so nine are enough. *)
Fixpoint pumpLoop (fuel : nat) : M bool :=
  match fuel with
  | O => snoFuel
  | S fuel =>
      do u <- sget up;
      if inFlightWrites u <? kMaxInFlightWrites then
        do r <- sget (fun w => FileReader.ring (reader w));
        do v <- slift (qpeek r);
        match v with
        | None => sret true
        | Some chunk =>
            modUp (fun u => setCrc u (Crc32.crc32 (uploadCrc u) chunk));;
            do rc <- send chunk;
            modUp (fun u => setInFlight u (u64 (inFlightWrites u + 1)));;
            modReader (fun rd => FileReader.setRing rd (qpop (FileReader.ring rd)));;
            if rc <? 0 then abortUpload (bs "Send failed: " ++ uv_strerror uv rc) LogLevel.Error;; sret false
            else
              modUp (fun u => setSent u (u64 (uploadSent u + zlen chunk)));;
              reportProgress;;
              pumpLoop fuel
        end
      else sret true
  end.

Definition pumpUpload : M unit :=
  do u <- sget up; do k <- sget socket;
  if negb (uploading u) || match k with Some k => TcpSocket.closing k | None => true end then sret tt
  else
    do rd <- sget reader;
    if FileReader.failed rd then
      modReader (fun rd => (FileReader.takeError rd).1);; abortUpload (FileReader.takeError rd).2 LogLevel.Error
    else
      do ok <- pumpLoop 9;
      if negb ok then sret tt
      else
        do u <- sget up; do rd <- sget reader;
        if negb (trailerSent u) && FileReader.readComplete rd && qempty (FileReader.ring rd) && (uploadTotal u <=? uploadSent u)
        then finishUpload else sret tt.

(** ** Receiving *)

Definition finishDownload : M unit :=
  do d <- sget down;
  let actual := Crc32.crc32 0 (csv d) in
  if negb (actual =? csvExpectedCrc d) then
    modDown (fun d => setCsv d []);;
    smod (fun w => if hasClaim w then setClaim w true (mkClaim (cl_filename (claim w)) (cl_fileSize (claim w)) (cl_crc32 (claim w)) 0) else w);;
    failSession (bs "result.csv CRC mismatch (expected " ++ to_string (csvExpectedCrc d) ++ bs ", got " ++ to_string actual ++ bs ")") LogLevel.Error
  else
    do summary <- slift (summarizeResultCsv (csv d));
    let skipWarning := formatSkipWarning summary in
    smod (fun w => setResult w (csv d));;
    modDown (fun d => setExpecting (setCsv d []) Expecting.Nothing);;
    dropResultClaim;;
    do rc <- send encodeDownloadDone;
    if rc <? 0 then failSession (bs "Failed to send DownloadDone: " ++ uv_strerror uv rc) LogLevel.Error
    else
      smod (fun w => setCompleted w true);;
      pushLog LogLevel.Info (bs "result.csv verified - session complete");;
      (if bool_decide (skipWarning = []) then sret tt else pushLog LogLevel.Warn skipWarning);;
      pushSession ClientState.Done.

(** [_csv.reserve] only affects the allocation. *)
Definition beginCsvReceive (header : ResultHeader) (resuming : bool) : M bool :=
  if kMaxCsvSize <? rh_csvSize header then
    failSession (bs "Server declared an oversized result.csv (" ++ to_string (rh_csvSize header) ++ bs " bytes > limit "
                 ++ to_string kMaxCsvSize ++ bs ").") LogLevel.Error;; sret false
  else
    do d <- sget down;
    if resuming && (rh_csvSize header <? zlen (csv d)) then
      failSession (bs "Server offered a result smaller than what was already received (" ++ to_string (rh_csvSize header) ++ bs " < "
                   ++ to_string (zlen (csv d)) ++ bs ") - the retained result is not the one being resumed.") LogLevel.Error;; sret false
    else
      modDown (fun d => mkDownload Expecting.CsvPayload (framer d) (if resuming then csv d else []) (rh_csvSize header)
                          (rh_crc32 header) (floatOfZ (-1)));;
      do d <- sget down;
      pushLog LogLevel.Info
        (if resuming then bs "Resuming result.csv at " ++ to_string (zlen (csv d)) ++ bs " of " ++ to_string (csvSize d) ++ bs " bytes"
         else bs "Receiving result.csv (" ++ to_string (csvSize d) ++ bs " bytes)");;
      pushSession ClientState.ReceivingResult;;
      (if zlen (csv d) =? csvSize d then finishDownload else sret tt);;
      sret true.

Definition feedFramer (data : bytes) : M (DecodeStatus.t * Z) :=
  do d <- sget down;
  do r <- slift (Framer.feed (framer d) data);
  modDown (fun d => setFramer d r.1);;
  sret r.2.

(** Why the server rejects an upload, as the screen says it. *)
Definition rejection (status : AckStatus.t) : bytes :=
  match status with
  | AckStatus.CrcMismatch => bs "CRC mismatch"
  | AckStatus.SizeMismatch => bs "size mismatch"
  | AckStatus.ProtocolError => bs "protocol error"
  | AckStatus.ServerError => bs "server error"
  | _ => bs "unknown error"
  end.

Definition handleAckBytes (data : bytes) : M Z :=
  do r <- feedFramer data;
  let '(status, consumed) := r in
  match status with
  | DecodeStatus.NeedMoreData => sret consumed
  | DecodeStatus.Ok =>
      do d <- sget down;
      do r <- slift (decodeAck (Framer.message (framer d)) Ack0);
      let '(status, ack) := r in
      if negb (bool_decide (status = DecodeStatus.Ok)) then failSession (bs "Cannot decode the ack from server.") LogLevel.Error;; sret 0
      else if negb (bool_decide (ack_status ack = AckStatus.Ok)) then
        failSession (bs "Server rejected the upload: " ++ rejection (ack_status ack) ++ bs " (received "
                     ++ to_string (ack_receivedBytes ack) ++ bs " bytes)") LogLevel.Error;; sret 0
      else
        smod (fun w => setClaim w true (mkClaim (uploadFilename (up w)) (uploadTotal (up w)) (uploadCrc (up w)) 0));;
        pushEvent (claimEvent true);;
        pushLog LogLevel.Info (bs "Server verified the upload (" ++ to_string (ack_receivedBytes ack) ++ bs " bytes) - analyzing");;
        pushSession ClientState.WaitResult;;
        modDown (fun d => setFramer (setExpecting d Expecting.ResultHeader) (Framer.reset (framer d) MessageType.ResultHeader));;
        sret consumed
  | _ => failSession (bs "Malformed ack from server - closing the session.") LogLevel.Error;; sret 0
  end.

(** The end of both functions that receive a result header. *)
Definition handleHeader (consumed : Z) (resuming : bool) : M Z :=
  do d <- sget down;
  do r <- slift (decodeResultHeader (Framer.message (framer d)) ResultHeader0);
  let '(status, header) := r in
  if negb (bool_decide (status = DecodeStatus.Ok)) then failSession (bs "Cannot decode the result header.") LogLevel.Error;; sret 0
  else
    do ok <- beginCsvReceive header resuming;
    sret (if ok : bool then consumed else 0).

Definition handleResultHeaderBytes (data : bytes) : M Z :=
  do r <- feedFramer data;
  let '(status, consumed) := r in
  match status with
  | DecodeStatus.NeedMoreData => sret consumed
  | DecodeStatus.Ok => handleHeader consumed false
  | _ => failSession (bs "Malformed result header from server.") LogLevel.Error;; sret 0
  end.

(** Why a result is not handed out, as the screen says it. *)
Definition refusal (r : DecodeStatus.t * Ack) : bytes :=
  match r.1, ack_status r.2 with
  | DecodeStatus.Ok, AckStatus.NoSuchResult => bs "The server no longer holds this result - the file must be sent again"
  | DecodeStatus.Ok, AckStatus.ProtocolError =>
      bs "This server does not support resuming a result - the file must be sent again"
  | _, _ => bs "The server refused the result request"
  end.

Definition handleResumeReplyBytes (data : bytes) : M Z :=
  do r <- feedFramer data;
  let '(status, consumed) := r in
  match status with
  | DecodeStatus.NeedMoreData => sret consumed
  | DecodeStatus.Ok =>
      do d <- sget down;
      do type <- slift (Framer.messageType (framer d));
      if type =? MessageType.to_u8 MessageType.Ack then
        do r <- slift (decodeAck (Framer.message (framer d)) Ack0);
        dropResultClaim;;
        modDown (fun d => setCsv d []);;
        failSession (refusal r) LogLevel.Warn;;
        sret 0
      else handleHeader consumed true
  | _ => failSession (bs "Malformed reply to the result request.") LogLevel.Error;; sret 0
  end.

Definition handleCsvBytes (data : bytes) : M Z :=
  do d <- sget down;
  let remaining := u64 (csvSize d - zlen (csv d)) in
  let take := if zlen data <? remaining then zlen data else remaining in
  do piece <- slift (appendN [] data take);
  modDown (fun d => setCsv d (csv d ++ piece));;
  do d <- sget down;
  let progress := ratio (zlen (csv d)) (csvSize d) in
  (if SFleb f005 (fsub progress (lastReportedDownload d)) || (zlen (csv d) =? csvSize d) then
     modDown (fun d => mkDownload (expecting d) (framer d) (csv d) (csvSize d) (csvExpectedCrc d) progress);;
     pushEvent (downloadEvent progress)
   else sret tt);;
  smod (fun w => if hasClaim w then
                   setClaim w true (mkClaim (cl_filename (claim w)) (cl_fileSize (claim w)) (cl_crc32 (claim w)) (zlen (csv (down w))))
                 else w);;
  (if zlen (csv d) =? csvSize d then finishDownload else sret tt);;
  sret take.

Fixpoint bytesLoop (fuel : nat) (data : bytes) : M unit :=
  match fuel with
  | O => snoFuel
  | S fuel =>
      if bool_decide (data = []) then sret tt
      else
        do d <- sget down;
        do n <- match expecting d with
                | Expecting.Ack => handleAckBytes data
                | Expecting.ResultHeader => handleResultHeaderBytes data
                | Expecting.CsvPayload => handleCsvBytes data
                | Expecting.ResumeReply => handleResumeReplyBytes data
                | Expecting.Nothing =>
                    failSession (bs "Unexpected " ++ to_string (zlen data) ++ bs " bytes from server - closing the session.") LogLevel.Error;; sret 0
                end;
        if n =? 0 then sret tt else bytesLoop fuel (zdrop n data)
  end.
Definition onBytes (data : bytes) : M unit := bytesLoop (S (length data)) data.

(** ** Commands *)

Definition beginConnect (ip : bytes) (port : Z) : M bool :=
  smod (fun w => setCompleted w false);;
  smod (fun w => make1 (setSocket w (Some (TcpSocket.make uv (created w)))));;
  pushLink LinkState.Reconnecting;;
  do rc <- onSocket (fun k => TcpSocket.connect uv k ip port);
  if rc <? 0 then
    pushLog LogLevel.Error (bs "Connect request failed: " ++ uv_strerror uv rc);;
    pushLink LinkState.Disconnected;;
    smod (fun w => setSocket w None);;
    sret false
  else
    smod (fun w => match connectTimer w with
                   | Some _ => w
                   | None => make1 (setTimer w (Some (Timer.make uv (created w))))
                   end);;
    smod (fun w => setTimer w ((fun tm => (Timer.start uv tm kResponseTimeoutMs).1) <$> connectTimer w));;
    sret true.

Definition stopTimer : M unit := smod (fun w => setTimer w ((fun tm => (Timer.stop uv tm).1) <$> connectTimer w)).

Definition handleConnect (ip : bytes) (port : Z) : M unit :=
  do k <- sget socket;
  match k with
  | Some _ => pushLog LogLevel.Warn (bs "Already connected or connecting - ignoring Connect.")
  | None =>
      do ok <- beginConnect ip port;
      if ok : bool then pushLog LogLevel.Info (bs "Connecting to " ++ ip ++ bs ":" ++ to_string port ++ bs "...") else sret tt
  end.

Definition handleDisconnect : M unit :=
  stopTimer;;
  do k <- sget socket; do u <- sget up; do d <- sget down;
  match k with
  | None => pushLink LinkState.Disconnected
  | Some _ =>
      pushLog LogLevel.Info (bs "Disconnecting.");;
      if uploading u then abortUpload (bs "Upload stopped: disconnected by user.") LogLevel.Warn
      else if negb (bool_decide (expecting d = Expecting.Nothing)) then failSession (bs "Disconnected before the result arrived.") LogLevel.Warn
      else closeSocket
  end.

(** [handle(StartUploadCommand)] up to and including [drainRing]; [true] when it
    goes on. *)
Definition startUploadDrain : M bool :=
  do u <- sget up; do k <- sget socket;
  if uploading u then pushLog LogLevel.Warn (bs "An upload is already in progress.");; sret false
  else if match k with Some k => TcpSocket.closing k | None => true end then
    pushLog LogLevel.Error (bs "Not connected - press Connect first.");; sret false
  else drainRing;; sret true.

(** The rest of it. *)
Definition startUploadBegin (path filename : bytes) (size : Z) : M unit :=
  do rd <- sget reader;
  let '(rd, error) := FileReader.beginUpload fs rd path size in
  modReader (fun _ => rd);;
  match error with
  | Some error => pushLog LogLevel.Error error
  | None =>
      modUp (fun u => mkUpload true (inFlightWrites u) (trailerSent u) (uploadTotal u) (uploadSent u) (uploadCrc u)
                        (lastReportedProgress u) filename (uploadStartedAt u));;
      dropResultClaim;;
      modUp (fun u => mkUpload (uploading u) 0 false size 0 0 (floatOfZ (-1)) (uploadFilename u) (uploadStartedAt u));;
      modDown (fun d => mkDownload Expecting.Nothing (framer d) [] 0 0 (lastReportedDownload d));;
      smod (fun w => setResult w []);;
      pushEvent (downloadEvent (floatOfZ 0));;
      pushSession ClientState.SendingHeader;;
      do rc <- send (encodeUploadHeader (mkUploadHeader size filename));
      if rc <? 0 then abortUpload (bs "Failed to send the upload header: " ++ uv_strerror uv rc) LogLevel.Error
      else
        pushLog LogLevel.Info (bs "Uploading " ++ filename ++ bs " (" ++ to_string size ++ bs " bytes)");;
        pushSession ClientState.Streaming;;
        do t <- now;
        modUp (fun u => setStarted u t);;
        pumpUpload
  end.

Definition handleCancel : M unit :=
  do u <- sget up; if uploading u then abortUpload (bs "Upload cancelled by user.") LogLevel.Warn else sret tt.

Definition handleRequestResult : M unit :=
  do has <- sget hasClaim; do k <- sget socket; do c <- sget claim;
  if negb has then pushLog LogLevel.Warn (bs "No result to recover - send the file first.")
  else
    match k with
    | None => pushLog LogLevel.Warn (bs "Connect to the server before requesting the result.")
    | Some _ =>
        do rc <- send (encodeResultRequest (mkResultRequest (cl_fileSize c) (cl_crc32 c) (cl_received c) (cl_filename c)));
        if negb (rc =? 0) then failSession (bs "Failed to send the result request.") LogLevel.Error
        else
          modDown (fun d => setExpecting (setFramer d (Framer.reset2 (framer d) MessageType.Ack MessageType.ResultHeader)) Expecting.ResumeReply);;
          smod (fun w => setCompleted w false);;
          do d <- sget down;
          let position :=
            if csvSize d =? 0 then bs "from the beginning"
            else bs "from " ++ to_string (cl_received c) ++ bs " of " ++ to_string (csvSize d) ++ bs " bytes" in
          pushLog LogLevel.Info (bs "Requesting the result " ++ position ++ bs " - the file is not being sent again");;
          pushSession ClientState.RequestingResult
    end.

Definition handleQuit : M unit :=
  modReader FileReader.abortUpload;;
  modUp (fun u => setUploading u false);;
  smod (fun w => setTimer w None);;
  closeSocket;;
  smod setQuitting.

(** [drainCommands]: [Some] when it has come to the point of a
    [StartUploadCommand] where the reader is to be started. *)
Fixpoint drainCommands (fuel : nat) : M (option (bytes * bytes * Z)) :=
  match fuel with
  | O => snoFuel
  | S fuel =>
      do cs <- sget commands;
      match cs with
      | [] => sret None
      | c :: cs =>
          smod (fun w => setCommands w cs);;
          match c with
          | ConnectCommand ip port => handleConnect ip port;; drainCommands fuel
          | DisconnectCommand => handleDisconnect;; drainCommands fuel
          | StartUploadCommand path filename size =>
              do go <- startUploadDrain;
              if go : bool then sret (Some (path, filename, size)) else drainCommands fuel
          | CancelUploadCommand => handleCancel;; drainCommands fuel
          | RequestResultCommand => handleRequestResult;; drainCommands fuel
          | QuitCommand => handleQuit;; drainCommands fuel
          end
      end
  end.

(** [onAsyncCb] *)
Definition onAsyncCb : M (option (bytes * bytes * Z)) :=
  do cs <- sget commands;
  do paused <- drainCommands (S (length cs));
  match paused with
  | Some p => sret (Some p)
  | None => pumpUpload;; sret None
  end.

(** ** Socket callbacks *)

Definition onConnect (status : Z) : M unit :=
  stopTimer;;
  if status <? 0 then
    pushLog LogLevel.Error (bs "Connect failed: " ++ uv_strerror uv status);;
    pushLink LinkState.Disconnected;;
    closeSocket
  else
    do peer <- onSocket' (TcpSocket.peerAddress uv);
    pushLog LogLevel.Info (bs "Connected to " ++ peer);;
    pushLink LinkState.Connected;;
    do rc <- onSocket (TcpSocket.startRead uv);
    if rc <? 0 then
      pushLog LogLevel.Error (bs "startRead failed: " ++ uv_strerror uv rc);;
      closeSocket
    else sret tt.

Definition onConnectTimeout : M unit :=
  do k <- sget socket;
  match k with
  | Some k =>
      if TcpSocket.closing k then sret tt
      else
        pushLog LogLevel.Error (bs "Connect timed out.");;
        pushLink LinkState.Disconnected;;
        closeSocket;;
        pushSession ClientState.Idle
  | None => sret tt
  end.

Definition onSendComplete (status : Z) : M unit :=
  modUp (fun u => if 0 <? inFlightWrites u then setInFlight u (inFlightWrites u - 1) else u);;
  if status <? 0 then
    do u <- sget up;
    if uploading u then abortUpload (bs "Send failed: " ++ uv_strerror uv status) LogLevel.Error else sret tt
  else pumpUpload.

Definition onError (status : Z) (where_ : bytes) : M unit :=
  do u <- sget up; do d <- sget down; do completed <- sget sessionCompleted;
  let sessionInFlight := uploading u || negb (bool_decide (expecting d = Expecting.Nothing)) in
  (if status =? UV_EOF then
     if completed : bool then pushLog LogLevel.Info (bs "Server closed the connection.")
     else if negb sessionInFlight then pushLog LogLevel.Warn (bs "Server closed the connection (idle timeout).")
     else sret tt
   else pushLog LogLevel.Error (where_ ++ bs ": " ++ uv_strerror uv status));;
  (if uploading u then abortUpload (bs "Upload aborted: the connection was lost.") LogLevel.Error
   else if negb (bool_decide (expecting d = Expecting.Nothing))
   then failSession (bs "The connection was lost before the result arrived.") LogLevel.Error
   else sret tt);;
  pushLink LinkState.Disconnected;;
  closeSocket.

Definition onClosed : M unit :=
  smod (fun w => setSocket w None);;
  pushLink LinkState.Disconnected.

Definition takeResultCsv (w : t) : bytes := resultCsv w.
Definition drainEvents (w : t) : t * list Event :=
  (mk (up w) (down w) (hasClaim w) (claim w) (sessionCompleted w) (resultCsv w) [] (commands w) (socket w) (connectTimer w)
      (reader w) (created w) (quitting w), events w).
Definition post (w : t) (c : Command) : t := setCommands w (commands w ++ [c]).
End Service.
End TransferService.
