(* ===== verification/Client.v ===== *)
(** * The client: screen, worker and file reader together

    [Client.fire] is one callback of the worker's event loop, one action of the
    reader's thread or one action of the user: the whole client is the
    interleaving of these.  The worker's callbacks are atomic with respect to
    the reader except between emptying the ring and starting an upload, where
    [paused] holds the rest of the command.  The file system does not change
    while the client runs; libuv reports a connection once and reads only where
    it was asked to. *)

From S2P Require Import Prelude StringView Protocol Ring Net Effects FileReader ClientUi Window TransferService.

Module Client.
Section Events.
Context (uv : Uv) (fs : Files) {Q : Type} `{ChunkQueue Q}.
Import TransferService.
Abbreviation worker := (TransferService.t (Q := Q)).

Record t := mk {
  svc : worker;
  rpc : FileReader.pc;
  paused : option (bytes * bytes * Z);    (* path, name and size of an upload about to begin *)
  ui : UiState.t;
  exiting : bool }.                       (* the screen's thread waits for the worker to end *)

Definition init (r : Q) : t := mk (TransferService.init r) FileReader.RWait None Screen.start false.

Inductive event :=
| EvPress (stamp : bytes) (b : Screen.button)
| EvType (ip port : bytes)
| EvFrame (stamp : bytes)                  (* the screen takes the worker's events *)
| EvExit                                   (* stop() posts its command ... *)
| EvJoined                                 (* ... and stops the reader when the loop has ended *)
| EvReader (actual : Z)
| EvAsync
| EvBegin                                  (* the rest of handle(StartUploadCommand) and of onAsyncCb *)
| EvConnected (status : Z)
| EvRead (nread : Z) (data : bytes)
| EvWritten (request : nat) (status : Z)
| EvConnectTimeout
| EvClosed.

Definition setSvc (s : t) (w : worker) : t := mk w (rpc s) (paused s) (ui s) (exiting s).

(** A callback of the loop. *)
Definition run (s : t) (m : SM worker unit) : outcome (option t) :=
  let* r := m (svc s) in Ret (Some (mk r.1 (rpc s) None (ui s) (exiting s))).
Definition runAsync (s : t) (m : SM worker (option (bytes * bytes * Z))) : outcome (option t) :=
  let* r := m (svc s) in Ret (Some (mk r.1 (rpc s) r.2 (ui s) (exiting s))).

Definition postSome (w : worker) (c : option Command) : worker :=
  match c with Some c => post w c | None => w end.

(** The callbacks of libuv; [None]: the event cannot happen now. *)
Definition loopEvent (s : t) (ev : event) : outcome (option t) :=
  match ev, socket (svc s) with
  | EvConnected status, Some k =>
      if (if TcpSocket.closing k then status <? 0 else negb (TcpSocket.reading k)) then run s (onConnect uv status) else Ret None
  | EvRead nread data, Some k =>
      if negb (TcpSocket.reading k) || TcpSocket.closing k then Ret None
      else
        match TcpSocket.onReadCb nread with
        | TcpSocket.OnRead => if zlen data =? nread then run s (onBytes uv data) else Ret None
        | TcpSocket.Nothing => Ret (Some s)
        | TcpSocket.OnError status where_ => run s (onError uv status where_)
        end
  | EvWritten request status, Some k =>
      if existsb (fun p => Nat.eqb p.1 request) (TcpSocket.pendingWrites k) then
        run (setSvc s (setSocket (svc s) (Some (TcpSocket.onWriteCb k request))))
            (do _ <- onSendComplete uv status; if status =? 0 then sret tt else onError uv status (bs "write"))%eff
      else Ret None
  | EvConnectTimeout, _ =>
      match connectTimer (svc s) with
      | Some tm =>
          if Timer.isActive tm then
            let '(tm, armed) := Timer.onTimeoutCb tm in
            let s := setSvc s (setTimer (svc s) (Some tm)) in
            if armed then run s (onConnectTimeout uv) else Ret (Some s)
          else Ret None
      | None => Ret None
      end
  | EvClosed, Some k => if TcpSocket.closing k then run s onClosed else Ret None
  | _, _ => Ret None
  end.

Definition fire (s : t) (ev : event) : outcome (option t) :=
  match ev with
  | EvPress stamp b =>
      if Screen.enabled (ui s) b && negb (exiting s) then
        let '(u, c) := Screen.press stamp (takeResultCsv (svc s)) (ui s) b in
        Ret (Some (mk (postSome (svc s) c) (rpc s) (paused s) u false))
      else Ret None
  | EvType ip port =>
      if exiting s then Ret None else Ret (Some (mk (svc s) (rpc s) (paused s) (Screen.setAddress (ui s) ip port) false))
  | EvFrame stamp =>
      if exiting s then Ret None
      else
        let '(w, evs) := drainEvents (svc s) in
        Ret (Some (mk w (rpc s) (paused s) (UiState.pumpWorkerEvents stamp (ui s) evs) false))
  | EvExit => if exiting s then Ret None else Ret (Some (mk (post (svc s) QuitCommand) (rpc s) (paused s) (ui s) true))
  | EvJoined =>
      match quitting (svc s), socket (svc s), paused s with
      | true, None, None => Ret (Some (setSvc s (setReader (svc s) (FileReader.stop (reader (svc s))))))
      | _, _, _ => Ret None
      end
  | EvReader actual =>
      let* r := FileReader.step actual (reader (svc s)) (rpc s) in
      match r with
      | Some (rd, c, _) => Ret (Some (mk (setReader (svc s) rd) c (paused s) (ui s) (exiting s)))
      | None => Ret None
      end
  | EvAsync =>
      match paused s with
      | None => if quitting (svc s) then Ret None else runAsync s (onAsyncCb uv)
      | Some _ => Ret None
      end
  | EvBegin =>
      match paused s with
      | Some (path, filename, size) =>
          runAsync s (do _ <- startUploadBegin uv fs path filename size; onAsyncCb uv)%eff
      | None => Ret None
      end
  | _ => match paused s with None => loopEvent s ev | Some _ => Ret None end
  end.

(** ** Runs *)

Definition needsLink (c : Command) : bool :=
  match c with StartUploadCommand _ _ _ | RequestResultCommand => true | _ => false end.
Definition isConnect (c : Command) : bool := match c with ConnectCommand _ _ => true | _ => false end.

(** The worker is not in the middle of connecting and will not be at the end of
    the queue. *)
Definition linkSettled (w : worker) : bool :=
  match socket w with
  | Some k => TcpSocket.reading k || TcpSocket.closing k
  | None => negb (existsb isConnect (commands w))
  end.

(** The runs the theorems are about: nothing slips into the ring between
    [drainRing] and [beginUpload], an upload or a request reaches the worker
    while it is not connecting, and the ring's 64-bit counters do not wrap. *)
Definition calm (s : t) (ev : event) : Prop :=
  match ev with
  | EvReader _ => qroom (FileReader.ring (reader (svc s))) 1
  | EvAsync => existsb needsLink (commands (svc s)) = true -> linkSettled (svc s) = true
  | EvBegin => qempty (FileReader.ring (reader (svc s))) = true
  | _ => True
  end.

(** What the screen has asked for. *)
Definition posts (s : t) (ev : event) : list Command :=
  match ev with
  | EvPress stamp b => match (Screen.press stamp (takeResultCsv (svc s)) (ui s) b).2 with Some c => [c] | None => [] end
  | EvExit => [QuitCommand]
  | _ => []
  end.

Inductive reachable (r : Q) : t -> list Command -> Prop :=
| reach_init : reachable r (init r) []
| reach_step s asked ev s' :
    reachable r s asked -> fire s ev = Ret (Some s') -> calm s ev -> reachable r s' (asked ++ posts s ev).
End Events.
End Client.
