(* ===== verification/UiRenderer.v ===== *)
(** * One frame of the client's screen (client/src/ui/UiRenderer.cpp, .h, and the
    frame of app/Application.cpp)

    Dear ImGui is the parameter [ImGui]: what its widgets answer, as a function
    of the calls made so far.  A frame is the sequence of these calls and what
    the callbacks of the pressed buttons do in between.

    [frame_balanced]: whatever the widgets answer and the callbacks do, what a
    frame opens it closes, in order.  [window_refines_client]: frames are
    sequences of the actions [Client.fire] knows, each of them offered at that
    moment, so that the theorems on [Client.reachable] are about the window. *)

From S2P Require Import Prelude StringView Protocol Ring Net Effects FileReader Charconv Binary64 ClientUi Window TransferService Client Level.

(** ** Dear ImGui *)

(** ImVec4, in hundredths. *)
Record Color := mkColor { red : Z; green : Z; blue : Z; alpha : Z }.

Inductive item :=
| SetNextWindowPos                         (* to the work area of the main viewport *)
| SetNextWindowSize
| Begin (name : bytes)
| End_
| BeginChild (name : bytes)
| EndChild
| BeginDisabled
| EndDisabled
| Separator
| Spacing
| AlignTextToFramePadding
| SameLine (offset : Z)
| SetNextItemWidth (width : Z)
| Text (text : bytes)
| TextColored (color : Color) (text : bytes)
| TextDisabled (text : bytes)
| InputText (label : bytes) (size : Z) (decimal : bool)
| Button (label : bytes) (width : Z)
| ProgressBar (fraction : double) (width : Z)
| SetScrollHereY.

(** How many [BeginDisabled] are open after the calls [drawn], the last one
    first. *)
Fixpoint disabledDepth (drawn : list item) : Z :=
  match drawn with
  | [] => 0
  | BeginDisabled :: drawn => disabledDepth drawn + 1
  | EndDisabled :: drawn => disabledDepth drawn - 1
  | _ :: drawn => disabledDepth drawn
  end.

(** What [Button] returns and what [InputText] leaves in its buffer, as its last
    call. *)
Record ImGui := mkImGui { pressed : list item -> bool; edited : list item -> bytes -> bytes }.

(** A disabled widget takes no input; an edit stays within its buffer. *)
Record honours (g : ImGui) : Prop := mkHonours {
  disabled_button drawn : 0 < disabledDepth drawn -> pressed g drawn = false;
  disabled_edit drawn buffer : 0 < disabledDepth drawn -> edited g drawn buffer = buffer;
  edit_size drawn buffer : length (edited g drawn buffer) = length buffer }.

(** ** The renderer *)

(** [W] is what the callbacks work on besides the screen. *)
Section Render.
Context (g : ImGui) {W : Type}.

Definition action : Type := UiState.t * W -> UiState.t * W.
Record UiCallbacks := mkCallbacks {
  cb_onConnect : option action;
  cb_onDisconnect : option action;
  cb_onPing : option action;
  cb_onBrowse : option action;
  cb_onSend : option action;
  cb_onCancelUpload : option action;
  cb_onRequestResult : option action;
  cb_onSaveResult : option action }.

Record frame := mkFrame { state : UiState.t; rest : W; drawn : list item }.

Definition draw (i : item) (f : frame) : frame := mkFrame (state f) (rest f) (i :: drawn f).

Definition kLabelWidth : Z := 90.
Definition kButtonWidth : Z := 110.
Definition kColorConnected : Color := mkColor 35 80 40 100.
Definition kColorReconnecting : Color := mkColor 95 75 25 100.
Definition kColorDisconnected : Color := mkColor 60 60 60 100.
Definition kColorWarn : Color := mkColor 95 75 25 100.
Definition kColorError : Color := mkColor 95 45 45 100.

Definition beginDisabled (disabled : bool) (f : frame) : frame := if disabled then draw BeginDisabled f else f.
Definition endDisabled (disabled : bool) (f : frame) : frame := if disabled then draw EndDisabled f else f.

Definition buttonGated (label : bytes) (enabled : bool) (width : Z) (f : frame) : frame * bool :=
  let f := beginDisabled (negb enabled) f in
  let f := draw (Button label width) f in
  (endDisabled (negb enabled) f, pressed g (drawn f)).

Definition invoke (callback : option action) (f : frame) : frame :=
  match callback with
  | Some callback => let r := callback (state f, rest f) in mkFrame r.1 r.2 (drawn f)
  | None => f
  end.

(** if (buttonGated(...)) invoke(...) *)
Definition gated (label : bytes) (enabled : bool) (width : Z) (callback : option action) (f : frame) : frame :=
  let r := buttonGated label enabled width f in
  if r.2 then invoke callback r.1 else r.1.

(** [ImGui::InputText] on the buffer of the address or of the port. *)
Definition setBuffers (s : UiState.t) (ip port : bytes) : UiState.t :=
  UiState.mk ip port (UiState.link s) (UiState.session s) (UiState.filePath s) (UiState.fileName s) (UiState.fileSize s)
    (UiState.uploadProgress s) (UiState.downloadProgress s) (UiState.resultClaimAvailable s) (UiState.logEntries s) (UiState.logDirty s).
Definition inputIp (f : frame) : frame :=
  let s := state f in
  let f := draw (InputText (bs "##ip") (zlen (UiState.serverIp s)) false) f in
  mkFrame (setBuffers s (edited g (drawn f) (UiState.serverIp s)) (UiState.serverPort s)) (rest f) (drawn f).
Definition inputPort (f : frame) : frame :=
  let s := state f in
  let f := draw (InputText (bs "##port") (zlen (UiState.serverPort s)) true) f in
  mkFrame (setBuffers s (UiState.serverIp s) (edited g (drawn f) (UiState.serverPort s))) (rest f) (drawn f).

Definition sessionLabel (s : ClientState.t) : bytes :=
  match s with
  | ClientState.Connecting => bs "Connecting"
  | ClientState.SendingHeader => bs "Sending header"
  | ClientState.Streaming => bs "Uploading"
  | ClientState.WaitAck => bs "Waiting for ack"
  | ClientState.WaitResult => bs "Analyzing on server"
  | ClientState.ReceivingResult => bs "Receiving result"
  | ClientState.RequestingResult => bs "Requesting result"
  | ClientState.Done => bs "Done"
  | ClientState.Idle => bs "Idle"
  end.

(** The calls [is_], in this order. *)
Definition drawAll (is_ : list item) (f : frame) : frame := fold_left (fun f i => draw i f) is_ f.

Definition indicator (l : LinkState.t) : item :=
  match l with
  | LinkState.Connected => TextColored kColorConnected (bs "* Connected")
  | LinkState.Reconnecting => TextColored kColorReconnecting (bs "* Reconnecting...")
  | LinkState.Disconnected => TextColored kColorDisconnected (bs "* Disconnected")
  end.

(** The address and the port, as far as they can be edited. *)
Definition renderAddress (f : frame) : frame :=
  let addressEditable := UiState.canEditAddress (state f) in
  let f := drawAll [AlignTextToFramePadding; Text (bs "IP"); SameLine kLabelWidth] f in
  let f := beginDisabled (negb addressEditable) f in
  let f := draw (SetNextItemWidth 200) f in
  let f := inputIp f in
  let f := drawAll [SameLine 0; Text (bs "Port"); SameLine 0; SetNextItemWidth 80] f in
  let f := inputPort f in
  endDisabled (negb addressEditable) f.

Definition renderServerRow (callbacks : UiCallbacks) (f : frame) : frame :=
  let f := drawAll [Text (bs "Server"); Spacing] f in
  let f := renderAddress f in
  let f := draw (SameLine 0) f in
  let f := gated (bs "Connect") (UiState.canConnect (state f)) kButtonWidth (cb_onConnect callbacks) f in
  let f := draw (SameLine 0) f in
  let f := gated (bs "Disconnect") (UiState.canDisconnect (state f)) kButtonWidth (cb_onDisconnect callbacks) f in
  let f := draw (SameLine 0) f in
  let f := gated (bs "Ping") true 70 (cb_onPing callbacks) f in
  let f := draw (SameLine 0) f in
  draw (indicator (UiState.link (state f))) f.

Definition renderTransferRow (callbacks : UiCallbacks) (f : frame) : frame :=
  let f := drawAll [Text (bs "Transfer"); Spacing; AlignTextToFramePadding; Text (bs "File"); SameLine kLabelWidth; SetNextItemWidth 400] f in
  let path := UiState.filePath (state f) in
  let shown := if bool_decide (path = []) then bs "(no file selected)" else bufferText path in
  let f := drawAll [Text shown; SameLine 0] f in
  let f := gated (bs "...") (UiState.canBrowse (state f)) 40 (cb_onBrowse callbacks) f in
  let f :=
    if bool_decide (UiState.filePath (state f) = []) then f
    else drawAll [SameLine 0; TextDisabled (humanSize (UiState.fileSize (state f)))] f in
  let f := drawAll [AlignTextToFramePadding; Text (bs "Send"); SameLine kLabelWidth; SetNextItemWidth 400;
                    ProgressBar (UiState.uploadProgress (state f)) 400; SameLine 0] f in
  let f := gated (bs "Send") (UiState.canSend (state f)) kButtonWidth (cb_onSend callbacks) f in
  let f := draw (SameLine 0) f in
  let f := gated (bs "Cancel") (UiState.canCancelUpload (state f)) kButtonWidth (cb_onCancelUpload callbacks) f in
  let f := drawAll [AlignTextToFramePadding; Text (bs "Result"); SameLine kLabelWidth; SetNextItemWidth 400;
                    ProgressBar (UiState.downloadProgress (state f)) 400; SameLine 0] f in
  let f := gated (bs "Get result") (UiState.canRequestResult (state f)) kButtonWidth (cb_onRequestResult callbacks) f in
  let f := draw (SameLine 0) f in
  let f := gated (bs "Save") (UiState.canSaveResult (state f)) kButtonWidth (cb_onSaveResult callbacks) f in
  let f := drawAll [Spacing; TextDisabled (bs "State: " ++ sessionLabel (UiState.session (state f)))] f in
  if UiState.canSaveResult (state f)
  then drawAll [SameLine 0; TextDisabled (bs "- result.csv received; Save needs no connection")] f
  else f.

Definition entryItem (e : LogEntry) : item :=
  match entry_level e with
  | LogLevel.Warn => TextColored kColorWarn (bufferText (entry_text e))
  | LogLevel.Error => TextColored kColorError (bufferText (entry_text e))
  | LogLevel.Info => Text (bufferText (entry_text e))
  end.

Definition renderLogPanel (f : frame) : frame :=
  let f := drawAll [Text (bs "Log"); Spacing; BeginChild (bs "log")] f in
  let f := drawAll (map entryItem (UiState.logEntries (state f))) f in
  let f :=
    if UiState.logDirty (state f) then
      let f := draw SetScrollHereY f in mkFrame (UiState.clearLogDirty (state f)) (rest f) (drawn f)
    else f in
  draw EndChild f.

Definition render (callbacks : UiCallbacks) (f : frame) : frame :=
  let f := drawAll [SetNextWindowPos; SetNextWindowSize; Begin (bs "main")] f in
  let f := renderServerRow callbacks f in
  let f := draw Separator f in
  let f := renderTransferRow callbacks f in
  let f := draw Separator f in
  let f := renderLogPanel f in
  draw End_ f.
End Render.
Arguments UiCallbacks : clear implicits.
Arguments frame : clear implicits.

(** ** What a frame opens it closes *)

Inductive bracket := InWindow | InChild | InDisabled.

(** What is open after the calls [drawn], the last one first; [None]: something
    was closed that was not the last thing opened. *)
Fixpoint opened (drawn : list item) : option (list bracket) :=
  match drawn with
  | [] => Some []
  | i :: drawn =>
      match opened drawn with
      | None => None
      | Some open =>
          match i, open with
          | Begin _, _ => Some (InWindow :: open)
          | BeginChild _, _ => Some (InChild :: open)
          | BeginDisabled, _ => Some (InDisabled :: open)
          | End_, InWindow :: open | EndChild, InChild :: open | EndDisabled, InDisabled :: open => Some open
          | End_, _ | EndChild, _ | EndDisabled, _ => None
          | _, _ => Some open
          end
      end
  end.
Definition plain (i : item) : bool :=
  match i with Begin _ | BeginChild _ | BeginDisabled | End_ | EndChild | EndDisabled => false | _ => true end.

(** Every function of the renderer is a sequence of steps of a preorder. *)
Lemma step_let {X} (R : X -> X -> Prop) `{PreOrder X R} (a e : X) (k : X -> X) : R a e -> (forall x, R x (k x)) -> R a (k e).
Proof. intros Ha Hk. by transitivity e. Qed.
Lemma other_let {X Y} (R : X -> X -> Prop) (a : X) (e : Y) (k : Y -> X) : (forall y, R a (k y)) -> R a (k e).
Proof. intros Hk. apply Hk. Qed.
Ltac steps :=
  repeat (cbv beta; lazymatch goal with
    |- ?R ?a (let x := ?e in @?k x) => first [refine (step_let R a e k _ _); [|intros ?f] | refine (other_let R a e k _); intros ?y] end); cbv beta.

Section Balance.
Context (g : ImGui) {W : Type}.
Implicit Types f : frame W.

(** The same is open. *)
Definition even f f' : Prop := opened (drawn f) <> None -> opened (drawn f') = opened (drawn f).
#[export] Instance even_preorder : PreOrder even.
Proof. split; [by intros f|]. intros f1 f2 f3 H1 H2 H. rewrite <- (H1 H). apply H2. by rewrite (H1 H). Qed.

Lemma even_draw i f : plain i = true -> even f (draw i f).
Proof. intros Hp H. cbn. destruct (opened (drawn f)); [|done]. by destruct i. Qed.
Lemma even_all is_ f : forallb plain is_ = true -> even f (drawAll is_ f).
Proof.
  revert f. induction is_ as [|i is_ IH]; intros f; [done|]. cbn. intros [Hi His]%andb_true_iff.
  etransitivity; [by apply even_draw|by apply IH].
Qed.
Lemma even_gated label enabled width callback f : even f (gated g label enabled width callback f).
Proof.
  unfold gated, buttonGated, invoke, even. intros H. destruct (opened (drawn f)) as [open|] eqn:E; [|done].
  destruct enabled, (pressed g _), callback; cbn; by rewrite E.
Qed.
Lemma even_address f : even f (renderAddress g f).
Proof. unfold even. intros H. unfold renderAddress. destruct (opened (drawn f)) as [open|] eqn:E; [|done]. destruct (negb _); cbn; by rewrite E. Qed.
Create HintDb even.
#[local] Hint Resolve even_draw even_all even_gated even_address : even.

Lemma even_serverRow callbacks f : even f (renderServerRow g callbacks f).
Proof. cbv delta [renderServerRow] beta. steps; auto with even. apply even_draw. by destruct (UiState.link _). Qed.
Lemma even_transferRow callbacks f : even f (renderTransferRow g callbacks f).
Proof.
  cbv delta [renderTransferRow] beta. steps; auto with even; (case_match; [|]); auto with even; reflexivity.
Qed.
Lemma even_logPanel f : even f (renderLogPanel f).
Proof.
  intros H. unfold renderLogPanel. set (f1 := drawAll [_; _; _] f). set (f2 := drawAll (map _ _) f1).
  assert (E1 : opened (drawn f1) = (fun open => InChild :: open) <$> opened (drawn f)) by (cbn; by destruct (opened (drawn f))).
  assert (E2 : opened (drawn f2) = opened (drawn f1)).
  { apply even_all; [|rewrite E1; by destruct (opened (drawn f))]. apply forallb_forall. intros i (e & <- & _)%in_map_iff. unfold entryItem. by destruct (entry_level e). }
  clearbody f2. destruct (UiState.logDirty (state f2)); cbn [draw drawn opened]; rewrite E2, E1; by destruct (opened (drawn f)).
Qed.

(** The rows between [Begin] and [End_]. *)
Lemma even_rows callbacks f :
  even f (renderLogPanel (draw Separator (renderTransferRow g callbacks (draw Separator (renderServerRow g callbacks f))))).
Proof.
  etransitivity; [|apply even_logPanel]. etransitivity; [|by apply even_draw]. etransitivity; [|apply even_transferRow].
  etransitivity; [apply even_serverRow|by apply even_draw].
Qed.
Lemma closes open f : opened (drawn f) = Some (InWindow :: open) -> opened (drawn (draw End_ f)) = Some open.
Proof. cbn. by intros ->. Qed.
End Balance.

(** Every frame is well bracketed.  Whatever the widgets answer and whatever
    the callbacks of the buttons do to the screen and the worker, the windows,
    child windows and disabled groups a frame opens are closed in the opposite
    order, none is left open and none is closed that was not the last one
    opened: the condition under which Dear ImGui can draw the frame. *)
Lemma frame_balanced {W} (g : ImGui) (callbacks : UiCallbacks W) (s : UiState.t) (w : W) :
  opened (drawn (render g callbacks (mkFrame s w []))) = Some [].
Proof.
  set (f1 := drawAll [SetNextWindowPos; SetNextWindowSize; Begin (bs "main")] (mkFrame s w [])). refine (closes [] _ (eq_trans (even_rows g callbacks f1 _) eq_refl)). done.
Qed.

(** ** The frame of the window *)

(** What the dialogs answer in one frame. *)
Record Answers := mkAnswers {
  an_ping : bool;
  an_browse : option Dialog.OpenAnswer;
  an_send : bytes -> bool;
  an_save : Screen.SaveAnswer }.

Section Frame.
Context (uv : Uv) (fs : Files) {Q : Type} `{HQ : ChunkQueue Q}.
Abbreviation worker := (TransferService.t (Q := Q)).
Implicit Types s : Client.t (Q := Q).

(** A callback of [makeCallbacks]; [stamp] is the time. *)
Definition callback (stamp : bytes) (b : Screen.button) : action (W := worker) :=
  fun x =>
    let r := Screen.press stamp (TransferService.takeResultCsv x.2) x.1 b in
    (r.1, Client.postSome x.2 r.2).
Definition makeCallbacks (clock : nat -> bytes) (a : Answers) : UiCallbacks worker :=
  mkCallbacks (Some (callback (clock 1%nat) Screen.Connect)) (Some (callback (clock 2%nat) Screen.Disconnect))
    (Some (callback (clock 3%nat) (Screen.Ping (an_ping a)))) (Some (callback (clock 4%nat) (Screen.Browse (an_browse a))))
    (Some (callback (clock 5%nat) (Screen.Send (an_send a)))) (Some (callback (clock 6%nat) Screen.CancelUpload))
    (Some (callback (clock 7%nat) Screen.RequestResult)) (Some (callback (clock 8%nat) (Screen.SaveResult (an_save a)))).

Definition withScreen s (u : UiState.t) (w : worker) : Client.t := Client.mk w (Client.rpc s) (Client.paused s) u (Client.exiting s).

(** [renderFrame] up to the drawing. *)
Definition renderFrame (g : ImGui) (clock : nat -> bytes) (a : Answers) s : Client.t :=
  let r := TransferService.drainEvents (Client.svc s) in
  let u := UiState.pumpWorkerEvents (clock 0%nat) (Client.ui s) r.2 in
  let f := render g (makeCallbacks clock a) (mkFrame u r.1 []) in
  withScreen s (state f) (rest f).

(** ** Frames as actions of the client *)

Inductive plays : Client.t -> list Client.event -> Client.t -> Prop :=
| plays_nil s : plays s [] s
| plays_cons s ev s1 evs s2 : Client.fire uv fs s ev = Ret (Some s1) -> plays s1 evs s2 -> plays s (ev :: evs) s2.

Definition ofScreen (ev : Client.event) : bool :=
  match ev with Client.EvPress _ _ | Client.EvType _ _ | Client.EvFrame _ => true | _ => false end.

Lemma plays_app s1 evs1 s2 evs2 s3 : plays s1 evs1 s2 -> plays s2 evs2 s3 -> plays s1 (evs1 ++ evs2) s3.
Proof. induction 1; [done|]. intros H2. econstructor; [done|by apply IHplays]. Qed.

Context (g : ImGui) (Hg : honours g) (s0 : Client.t (Q := Q)) (Hrun : Client.exiting s0 = false).
Implicit Types f : frame worker.

(** Outside of every disabled group, the frame has done what the client can do. *)
Definition acts f f' : Prop :=
  disabledDepth (drawn f) = 0 ->
  disabledDepth (drawn f') = 0 /\
  exists evs, forallb ofScreen evs = true /\ plays (withScreen s0 (state f) (rest f)) evs (withScreen s0 (state f') (rest f')).
#[export] Instance acts_preorder : PreOrder acts.
Proof.
  split.
  - intros f Hd. split; [done|]. exists []. split; [done|constructor].
  - intros f1 f2 f3 H1 H2 Hd. destruct (H1 Hd) as (Hd2 & evs1 & He1 & Hp1). destruct (H2 Hd2) as (Hd3 & evs2 & He2 & Hp2).
    split; [done|]. exists (evs1 ++ evs2). split; [by rewrite forallb_app, He1, He2|by eapply plays_app].
Qed.

Lemma acts_draw i f : match i with BeginDisabled | EndDisabled => False | _ => True end -> acts f (draw i f).
Proof. intros Hi Hd. split; [by destruct i|]. exists []. split; [done|constructor]. Qed.
Lemma acts_all is_ f : Forall (fun i => match i with BeginDisabled | EndDisabled => False | _ => True end) is_ -> acts f (drawAll is_ f).
Proof.
  intros Hi. revert f. induction Hi as [|i is_ Hi His IH]; intros f; [reflexivity|]. etransitivity; [by apply acts_draw|apply IH].
Qed.

Lemma acts_gated label width stamp b f :
  acts f (gated g label (Screen.enabled (state f) b) width (Some (callback stamp b)) f).
Proof.
  intros Hd. unfold gated, buttonGated. destruct (Screen.enabled (state f) b) eqn:E; cbn [negb beginDisabled endDisabled].
  - destruct (pressed g _); (split; [done|]).
    + exists [Client.EvPress stamp b]. split; [done|]. econstructor; [|constructor]. cbn [Client.fire withScreen Client.ui Client.exiting Client.svc].
      rewrite E, Hrun. cbn [andb negb]. unfold invoke, callback. cbn [fst snd state rest draw drawn].
      destruct (Screen.press _ _ _ _) as [u c]. unfold withScreen. rewrite Hrun. done.
    + exists []. split; [done|constructor].
  - cbn [draw drawn fst snd]. rewrite (disabled_button g Hg) by (cbn; lia). split; [cbn; lia|]. exists []. split; [done|constructor].
Qed.

Lemma acts_address f : acts f (renderAddress g f).
Proof.
  intros Hd. unfold renderAddress. destruct (UiState.canEditAddress (state f)) eqn:E.
  - set (f' := endDisabled _ _). split; [by cbn|].
    exists [Client.EvType (UiState.serverIp (state f')) (UiState.serverPort (state f'))]. split; [done|]. econstructor; [|constructor].
    cbn [Client.fire withScreen Client.ui Client.exiting Client.svc]. rewrite Hrun. unfold Screen.setAddress. rewrite E. unfold withScreen. by rewrite Hrun.
  - split; [cbn; lia|]. exists []. split; [done|]. cbn. rewrite !(disabled_edit g Hg) by (cbn; lia). unfold setBuffers. cbn.
    destruct (state f); constructor.
Qed.

Context (clock : nat -> bytes) (a : Answers).
Abbreviation callbacks := (makeCallbacks clock a).
Ltac act :=
  first [apply acts_address | refine (acts_gated _ _ _ Screen.Connect _) | refine (acts_gated _ _ _ Screen.Disconnect _)
        | refine (acts_gated _ _ _ (Screen.Ping _) _) | refine (acts_gated _ _ _ (Screen.Browse _) _) | refine (acts_gated _ _ _ (Screen.Send _) _)
        | refine (acts_gated _ _ _ Screen.CancelUpload _) | refine (acts_gated _ _ _ Screen.RequestResult _)
        | refine (acts_gated _ _ _ (Screen.SaveResult _) _) | by apply acts_draw | apply acts_all; by repeat constructor].

Lemma acts_serverRow f : acts f (renderServerRow g callbacks f).
Proof. cbv delta [renderServerRow] beta. steps; try act. apply acts_draw. by destruct (UiState.link _). Qed.
Lemma acts_transferRow f : acts f (renderTransferRow g callbacks f).
Proof. cbv delta [renderTransferRow] beta. steps; try act; (case_match; [|]); first [reflexivity|act]. Qed.
Lemma acts_rows f : acts f (draw Separator (renderTransferRow g callbacks (draw Separator (renderServerRow g callbacks f)))).
Proof.
  transitivity (renderServerRow g callbacks f); [apply acts_serverRow|]. generalize (renderServerRow g callbacks f) as f1. intros f1.
  transitivity (draw Separator f1); [by apply acts_draw|]. generalize (draw Separator f1) as f2. intros f2.
  transitivity (renderTransferRow g callbacks f2); [apply acts_transferRow|]. generalize (renderTransferRow g callbacks f2). intros f3. by apply acts_draw.
Qed.

(** ** The log on the screen *)

(** Two clients that differ in the lines of their logs. *)
Definition forgetLog (u : UiState.t) : UiState.t :=
  UiState.mk (UiState.serverIp u) (UiState.serverPort u) (UiState.link u) (UiState.session u) (UiState.filePath u) (UiState.fileName u)
    (UiState.fileSize u) (UiState.uploadProgress u) (UiState.downloadProgress u) (UiState.resultClaimAvailable u) [] false.
Definition same s s' : Prop :=
  Client.svc s = Client.svc s' /\ Client.rpc s = Client.rpc s' /\ Client.paused s = Client.paused s' /\ Client.exiting s = Client.exiting s' /\
  forgetLog (Client.ui s) = forgetLog (Client.ui s').
#[export] Instance same_equivalence : Equivalence same.
Proof.
  split; [by intros s; split_and!|intros s s' (? & ? & ? & ? & ?); by split_and!|].
  intros s1 s2 s3 (? & ? & ? & ? & ?) (? & ? & ? & ? & ?). split_and!; by etrans.
Qed.

Lemma drawAll_state is_ : forall f, state (drawAll is_ f) = state f /\ rest (drawAll is_ f) = rest f.
Proof. induction is_ as [|i is_ IH]; intros f; [done|]. by destruct (IH (draw i f)). Qed.
Lemma logPanel_same f : same (withScreen s0 (state (renderLogPanel f)) (rest (renderLogPanel f))) (withScreen s0 (state f) (rest f)).
Proof.
  unfold renderLogPanel. set (f1 := drawAll [_; _; _] f). set (f2 := drawAll (map _ _) f1).
  assert (state f2 = state f /\ rest f2 = rest f) as [Es Er].
  { unfold f2. by destruct (drawAll_state (map entryItem (UiState.logEntries (state f1))) f1) as [-> ->]. }
  clearbody f2. destruct (UiState.logDirty (state f2)); cbn [draw state rest]; unfold same, withScreen; cbn; by rewrite Es, Er.
Qed.

Lemma render_same f :
  let f' := draw Separator (renderTransferRow g callbacks (draw Separator (renderServerRow g callbacks (drawAll [SetNextWindowPos; SetNextWindowSize; Begin (bs "main")] f)))) in
  same (withScreen s0 (state (render g callbacks f)) (rest (render g callbacks f))) (withScreen s0 (state f') (rest f')).
Proof.
  intros f'. assert (render g callbacks f = draw End_ (renderLogPanel f')) as -> by reflexivity. clearbody f'.
  pose proof (logPanel_same f') as H. by destruct (renderLogPanel f').
Qed.

(** A frame is a sequence of actions of the screen. *)
Lemma frame_plays : exists evs s', forallb ofScreen evs = true /\ plays s0 evs s' /\ same (renderFrame g clock a s0) s'.
Proof.
  set (w := (TransferService.drainEvents (Client.svc s0)).1). set (events := (TransferService.drainEvents (Client.svc s0)).2).
  set (u := UiState.pumpWorkerEvents (clock 0%nat) (Client.ui s0) events). set (f := mkFrame u w []).
  pose proof (render_same f) as Hsame. destruct (acts_rows (drawAll [SetNextWindowPos; SetNextWindowSize; Begin (bs "main")] f) eq_refl) as (_ & evs & He & Hp).
  cbv zeta in Hsame. revert Hp Hsame. set (f' := draw Separator _). clearbody f'. intros Hp Hsame.
  exists (Client.EvFrame (clock 0%nat) :: evs), (withScreen s0 (state f') (rest f')). split; [exact He|]. split; [|exact Hsame].
  econstructor; [|exact Hp]. unfold Client.fire. rewrite Hrun. unfold withScreen. rewrite Hrun. reflexivity.
Qed.
End Frame.

(** ** Runs of the window *)
Section Runs.
Context (uv : Uv) (fs : Files) {Q : Type} `{HQ : ChunkQueue Q}.
Implicit Types s : Client.t (Q := Q).
Import TransferService.

Lemma forget_log stamp u level m : forgetLog (UiState.log stamp u level m) = forgetLog u.
Proof. done. Qed.

Lemma press_same stamp csv u u' b :
  forgetLog u = forgetLog u' ->
  Screen.enabled u b = Screen.enabled u' b /\ (Screen.press stamp csv u b).2 = (Screen.press stamp csv u' b).2 /\
  forgetLog (Screen.press stamp csv u b).1 = forgetLog (Screen.press stamp csv u' b).1.
Proof.
  destruct u, u'. cbn. intros [=]. subst. split; [by destruct b|]. destruct b; try done; cbn [Screen.press];
    unfold Screen.onConnect, Screen.onPing, Screen.onBrowse, Screen.onSend, Screen.onSaveResult, UiState.parsePort;
    cbn [UiState.serverIp UiState.serverPort UiState.filePath UiState.fileName UiState.fileSize]; by repeat case_match.
Qed.

Lemma pump_same stamp events : forall u u',
  forgetLog u = forgetLog u' ->
  forgetLog (UiState.pumpWorkerEvents stamp u events) = forgetLog (UiState.pumpWorkerEvents stamp u' events).
Proof.
  induction events as [|e events IH]; intros u u' Hu; [done|]. cbn. apply IH. unfold UiState.applyEvent. case_bool_decide.
  2: rewrite !forget_log. all: destruct u, u'; cbn in *; injection Hu as ->; by subst.
Qed.

Lemma same_mk (w : TransferService.t (Q := Q)) c p u u' e : forgetLog u = forgetLog u' -> same (Client.mk w c p u e) (Client.mk w c p u' e).
Proof. intros Hu. unfold same. by split_and!. Qed.
Ltac finish := eexists; split; [reflexivity|]; split; [apply same_mk; try done|by split].

Lemma run_same (w : TransferService.t (Q := Q)) c p u u' e m s1' :
  forgetLog u = forgetLog u' -> Client.run (Client.mk w c p u e) m = Ret (Some s1') ->
  exists s2', Client.run (Client.mk w c p u' e) m = Ret (Some s2') /\ same s1' s2'.
Proof.
  intros Hu. unfold Client.run. cbn [Client.svc]. destruct (m w) as [[w' r]| |]; try done. intros [= <-]. eexists. split; [reflexivity|]. by apply same_mk.
Qed.
Lemma loop_same (w : TransferService.t (Q := Q)) c u u' e ev s1' :
  forgetLog u = forgetLog u' -> Client.loopEvent uv (Client.mk w c None u e) ev = Ret (Some s1') ->
  exists s2', Client.loopEvent uv (Client.mk w c None u' e) ev = Ret (Some s2') /\ same s1' s2' /\
    Client.posts (Client.mk w c None u e) ev = Client.posts (Client.mk w c None u' e) ev /\
    (Client.calm (Client.mk w c None u e) ev -> Client.calm (Client.mk w c None u' e) ev).
Proof.
  intros Hu E.
  enough (exists s2', Client.loopEvent uv (Client.mk w c None u' e) ev = Ret (Some s2') /\ same s1' s2') as (s2' & E' & Hs).
  { exists s2'. split; [done|]. split; [done|]. by destruct ev. }
  revert E. unfold Client.loopEvent. cbn [Client.svc Client.setSvc Client.rpc Client.paused Client.ui Client.exiting].
  repeat case_match; try done; try (by apply run_same); intros [= <-]; eexists; (split; [reflexivity|by apply same_mk]).
Qed.

Lemma fire_same s1 s2 ev s1' :
  same s1 s2 -> Client.fire uv fs s1 ev = Ret (Some s1') ->
  exists s2', Client.fire uv fs s2 ev = Ret (Some s2') /\ same s1' s2' /\ Client.posts s1 ev = Client.posts s2 ev /\ (Client.calm s1 ev -> Client.calm s2 ev).
Proof.
  destruct s1 as [w c p u e], s2 as [w2 c2 p2 u2 e2]. intros (E1 & E2 & E3 & E4 & Hu). cbn in *. subst w2 c2 p2 e2.
  destruct ev; cbn [Client.fire Client.ui Client.exiting Client.svc Client.rpc Client.paused Client.posts].
  - destruct (press_same stamp (takeResultCsv w) u u2 b Hu) as (-> & Hc & Hp). destruct (_ && _); [|done].
    destruct (Screen.press _ _ u b) as [v d], (Screen.press _ _ u2 b) as [v2 d2]. cbn [fst snd] in *. subst d2. intros [= <-]. finish.
  - destruct e; [done|]. intros [= <-]. finish. unfold Screen.setAddress.
    destruct u, u2. cbn in *. injection Hu as ->. subst. unfold UiState.canEditAddress. cbn. by destruct (_ && _).
  - destruct e; [done|]. intros [= <-]. finish. by apply pump_same.
  - destruct e; [done|]. intros [= <-]. finish.
  - destruct (quitting w); [|done]. destruct (socket w); [done|]. destruct p; [done|]. intros [= <-]. finish.
  - destruct (FileReader.step _ _ _) as [[[[rd c'] wake]|]| |]; try done. intros [= <-]. finish.
  - destruct p; [done|]. destruct (quitting w); [done|]. unfold Client.runAsync. cbn [Client.svc]. destruct (onAsyncCb uv w) as [[w' r]| |]; try done. intros [= <-]. finish.
  - destruct p as [[[path name] size]|]; [|done]. unfold Client.runAsync. cbn [Client.svc]. destruct (sbind _ _ w) as [[w' r]| |]; try done. intros [= <-]. finish.
  - destruct p; [done|]. apply loop_same, Hu.
  - destruct p; [done|]. apply loop_same, Hu.
  - destruct p; [done|]. apply loop_same, Hu.
  - destruct p; [done|]. apply loop_same, Hu.
  - destruct p; [done|]. apply loop_same, Hu.
Qed.

(** Actions of the screen post at the end of the queue and are always calm. *)
Lemma plays_reach r evs : forall s asked s',
  forallb ofScreen evs = true -> Client.reachable uv fs r s asked -> plays uv fs s evs s' ->
  exists posted, Client.reachable uv fs r s' (asked ++ posted) /\ commands (Client.svc s') = commands (Client.svc s) ++ posted.
Proof.
  induction evs as [|ev evs IH]; intros s asked s' He Hs Hp; inversion Hp as [|? ? s1 ? ? Hf Hr]; subst.
  - exists []. by rewrite !app_nil_r.
  - cbn in He. apply andb_true_iff in He as [Hev He].
    assert (Client.reachable uv fs r s1 (asked ++ Client.posts s ev)) as H1 by (eapply Client.reach_step; [exact Hs|exact Hf|by destruct ev]).
    assert (commands (Client.svc s1) = commands (Client.svc s) ++ Client.posts s ev) as E1.
    { destruct ev; try done; cbn in Hf |- *.
      - destruct (_ && _); [|done]. destruct (Screen.press _ _ _ _) as [u [c|]]; injection Hf as <-; [done|by rewrite app_nil_r].
      - destruct (Client.exiting s); [done|]. injection Hf as <-. by rewrite app_nil_r.
      - destruct (Client.exiting s); [done|]. injection Hf as <-. by rewrite app_nil_r. }
    destruct (IH s1 _ s' He H1 Hr) as (posted & H2 & E2). exists (Client.posts s ev ++ posted). rewrite app_assoc. split; [done|]. by rewrite E2, E1, app_assoc.
Qed.

Lemma plays_same evs : forall s1 s2 s1',
  same s1 s2 -> plays uv fs s1 evs s1' -> exists s2', plays uv fs s2 evs s2' /\ same s1' s2'.
Proof.
  induction evs as [|ev evs IH]; intros s1 s2 s1' Hs Hp; inversion Hp as [|? ? s ? ? Hf Hr]; subst; [exists s2; split; [constructor|done]|].
  destruct (fire_same _ _ _ _ Hs Hf) as (s' & Hf' & Hs' & _). destruct (IH _ _ _ Hs' Hr) as (s2' & Hp' & Hs2). exists s2'. split; [by econstructor|done].
Qed.

(** What can be seen of the client: frames, and what happens besides. *)
Inductive shows (r : Q) : Client.t -> list Command -> Prop :=
| shows_init : shows r (Client.init r) []
| shows_frame s asked g clock a :
    shows r s asked -> honours g -> Client.exiting s = false ->
    shows r (renderFrame g clock a s) (asked ++ drop (length (commands (Client.svc s))) (commands (Client.svc (renderFrame g clock a s))))
| shows_event s asked ev s' :
    shows r s asked -> ofScreen ev = false -> Client.fire uv fs s ev = Ret (Some s') -> Client.calm s ev ->
    shows r s' (asked ++ Client.posts s ev).

Lemma shows_reach r s asked : shows r s asked -> exists s', Client.reachable uv fs r s' asked /\ same s s'.
Proof.
  induction 1 as [|s asked g clock a _ (s2 & Hr & Hs) Hg He|s asked ev s' _ (s2 & Hr & Hs) Hev Hf Hc].
  - exists (Client.init r). split; [constructor|reflexivity].
  - destruct (frame_plays uv fs g Hg s He clock a) as (evs & s1 & Ho & Hp & H1). destruct (plays_same _ _ _ _ Hs Hp) as (s2' & Hp2 & H2).
    destruct (plays_reach r evs s2 asked s2' Ho Hr Hp2) as (posted & Hr2 & Ec).
    assert (same (renderFrame g clock a s) s2') as Hsame by (by etransitivity). exists s2'. split; [|done].
    replace (commands (Client.svc (renderFrame g clock a s))) with (commands (Client.svc s) ++ posted); [by rewrite drop_app_length|].
    destruct Hsame as (-> & _), Hs as (-> & _). by rewrite Ec.
  - destruct (fire_same _ _ _ _ Hs Hf) as (s2' & Hf2 & H2 & -> & Hc2). exists s2'. split; [|done]. eapply Client.reach_step; [done|done|by apply Hc2].
Qed.
End Runs.

(** C11: the window shows the client and nothing else.  In every run of frames and
    of what happens besides (the worker's callbacks, the reader's thread, the
    end), with widgets that take no input while they are disabled and answer
    anything otherwise, the window is at every moment in a state that
    [Client.fire] reaches by actions offered when they were taken, up to the lines
    of its log; and what was posted is what was asked for.
    A frame calls a callback only when its button is enabled at that moment, and
    whatever the properties of [Client.reachable] say is true of the window. *)
Theorem window_refines_client {Q} `{ChunkQueue Q} (uv : Uv) (fs : Files) (r : Q) s asked :
  shows uv fs r s asked -> exists s', Client.reachable uv fs r s' asked /\ same s s'.
Proof. apply shows_reach. Qed.

(** A user who types an address, then clicks on Connect. *)
Definition clicks (label : bytes) (typed : bytes) : ImGui :=
  mkImGui
    (fun drawn => match drawn with Button l _ :: _ => bool_decide (l = label) && (disabledDepth drawn <=? 0) | _ => false end)
    (fun drawn buffer =>
       if disabledDepth drawn <=? 0 then match drawn with InputText _ _ false :: _ => take (length buffer) (typed ++ drop (length typed) buffer) | _ => buffer end
       else buffer).
Lemma clicks_honours label typed : honours (clicks label typed).
Proof.
  split; cbn [clicks pressed edited].
  - intros drawn Hd. destruct drawn as [|[] drawn]; try done. rewrite (proj2 (Z.leb_gt _ _)) by done. apply andb_false_r.
  - intros drawn buffer Hd. by rewrite (proj2 (Z.leb_gt _ _)) by done.
  - intros drawn buffer. case_match; [|done]. repeat (case_match; try done). rewrite length_take, length_app, length_drop. lia.
Qed.

Definition noAnswers : Answers := mkAnswers false None (fun _ => false) (Screen.mkSave None false false).
Definition clicked : Client.t (Q := Ring.t) := renderFrame (clicks (bs "Connect") (bs "10.0.0.1")) (fun _ => []) noAnswers (Client.init (Ring.make 4 16)).

Lemma window_refines_client_witness :
  exists s', Client.reachable uvFine (fun _ => None) (Ring.make 4 16) s' [ConnectCommand (bs "10.0.0.1") 23507] /\ same clicked s'.
Proof.
  apply (window_refines_client uvFine (fun _ => None) (Ring.make 4 16) clicked [ConnectCommand (bs "10.0.0.1") 23507]).
  exact (shows_frame uvFine (fun _ => None) (Ring.make 4 16) _ [] (clicks (bs "Connect") (bs "10.0.0.1")) (fun _ => []) noAnswers (shows_init _ _ _) (clicks_honours _ _) eq_refl).
Defined.
