(* ===== verification/Application.v ===== *)
(** * The client application (client/src/app/Application.cpp, .h, main.cpp, and the
    start and stop of service/TransferService.cpp and FileReader.cpp)

    Windows, Direct3D and Dear ImGui are the parameter [Windows]: whether each
    call succeeds.  [Held] is what they hold for the process; a call that they
    forbid in that state, and a call through a null pointer, is [UB].

    [placement_inside]: the window starts inside the work area, in its middle. *)

From S2P Require Import Prelude StringView Protocol Ring Net Effects FileReader Charconv ClientUi Window TransferService Client Logger UiRenderer Level.
Open Scope eff.

(** ** Where the window starts *)

Record Rect := mkRect { r_left : Z; r_top : Z; r_right : Z; r_bottom : Z }.
Record WindowPlacement := mkPlacement { pl_x : Z; pl_y : Z; pl_width : Z; pl_height : Z }.

Definition CW_USEDEFAULT : Z := - 2 ^ 31.
Definition kDefaultWidth : Z := 1000.
Definition kDefaultHeight : Z := 700.

(** The result of an operation on [int]. *)
Definition int32 (z : Z) : outcome Z := if (- 2 ^ 31 <=? z) && (z <? 2 ^ 31) then Ret z else UB.

(** [work]: the work area of the primary monitor, when Windows knows it. *)
Definition centeredOnPrimaryMonitor (work : option Rect) : outcome WindowPlacement :=
  let placement := mkPlacement CW_USEDEFAULT CW_USEDEFAULT kDefaultWidth kDefaultHeight in
  match work with
  | None => Ret placement
  | Some rcWork =>
      let* workWidth := int32 (r_right rcWork - r_left rcWork) in
      let* workHeight := int32 (r_bottom rcWork - r_top rcWork) in
      if (workWidth <=? 0) || (workHeight <=? 0) then Ret placement
      else
        let width := Z.min kDefaultWidth workWidth in
        let height := Z.min kDefaultHeight workHeight in
        let* x := int32 (r_left rcWork + Z.quot (workWidth - width) 2) in
        let* y := int32 (r_top rcWork + Z.quot (workHeight - height) 2) in
        Ret (mkPlacement x y width height)
  end.

(** ** The resources *)

Record Windows := mkWindows {
  registerClass : bool;
  workArea : option Rect;
  createdWindow : bool;
  createdDevice : bool;
  gotBuffer : nat -> bool;          (* of the n-th call on the swap chain *)
  createdView : nat -> bool;
  win32Init : bool;
  dx11Init : bool;
  moduleFileName : Z * bytes;       (* the length Windows returns and the directory of the path *)
  loopInit : Z;
  asyncInit : Z;
  takes : Z -> Z -> Z -> bool }.    (* does ImGui take this message for itself? *)

Record Held := mkHeld {
  h_class : bool;
  h_window : bool;
  h_device : bool;                  (* the device, its context and the swap chain *)
  h_view : bool;                    (* a view of the back buffer *)
  h_context : bool;
  h_win32 : bool;
  h_dx11 : bool;
  h_loop : bool;
  h_async : bool;
  h_worker : bool;                  (* the thread of the loop *)
  h_reader : bool }.
Definition nothing : Held := mkHeld false false false false false false false false false false false.

(** The members of [Application], of its [TransferService] and [FileReader] that
    say what is there. *)
Record Members := mkMembers {
  m_hwnd : bool;                    (* not null *)
  m_instance : bool;
  m_imguiInitialized : bool;
  m_swapChain : bool;               (* _device, _deviceContext, _swapChain *)
  m_renderTarget : bool;
  m_pendingWidth : Z;
  m_pendingHeight : Z;
  m_running : bool;
  m_loopInitialized : bool;
  m_thread : bool;                  (* joinable *)
  m_readerThread : bool }.
Definition fresh : Members := mkMembers false false false false false 0 0 false false false false.

(** Updates. *)
Definition holdClass (b : bool) (h : Held) : Held :=
  mkHeld b (h_window h) (h_device h) (h_view h) (h_context h) (h_win32 h) (h_dx11 h) (h_loop h) (h_async h) (h_worker h) (h_reader h).
Definition holdWindow (b : bool) (h : Held) : Held :=
  mkHeld (h_class h) b (h_device h) (h_view h) (h_context h) (h_win32 h) (h_dx11 h) (h_loop h) (h_async h) (h_worker h) (h_reader h).
Definition holdDevice (b : bool) (h : Held) : Held :=
  mkHeld (h_class h) (h_window h) b (h_view h) (h_context h) (h_win32 h) (h_dx11 h) (h_loop h) (h_async h) (h_worker h) (h_reader h).
Definition holdView (b : bool) (h : Held) : Held :=
  mkHeld (h_class h) (h_window h) (h_device h) b (h_context h) (h_win32 h) (h_dx11 h) (h_loop h) (h_async h) (h_worker h) (h_reader h).
Definition holdContext (b : bool) (h : Held) : Held :=
  mkHeld (h_class h) (h_window h) (h_device h) (h_view h) b (h_win32 h) (h_dx11 h) (h_loop h) (h_async h) (h_worker h) (h_reader h).
Definition holdWin32 (b : bool) (h : Held) : Held :=
  mkHeld (h_class h) (h_window h) (h_device h) (h_view h) (h_context h) b (h_dx11 h) (h_loop h) (h_async h) (h_worker h) (h_reader h).
Definition holdDx11 (b : bool) (h : Held) : Held :=
  mkHeld (h_class h) (h_window h) (h_device h) (h_view h) (h_context h) (h_win32 h) b (h_loop h) (h_async h) (h_worker h) (h_reader h).
Definition holdLoop (b : bool) (h : Held) : Held :=
  mkHeld (h_class h) (h_window h) (h_device h) (h_view h) (h_context h) (h_win32 h) (h_dx11 h) b (h_async h) (h_worker h) (h_reader h).
Definition holdAsync (b : bool) (h : Held) : Held :=
  mkHeld (h_class h) (h_window h) (h_device h) (h_view h) (h_context h) (h_win32 h) (h_dx11 h) (h_loop h) b (h_worker h) (h_reader h).
Definition holdWorker (b : bool) (h : Held) : Held :=
  mkHeld (h_class h) (h_window h) (h_device h) (h_view h) (h_context h) (h_win32 h) (h_dx11 h) (h_loop h) (h_async h) b (h_reader h).
Definition holdReader (b : bool) (h : Held) : Held :=
  mkHeld (h_class h) (h_window h) (h_device h) (h_view h) (h_context h) (h_win32 h) (h_dx11 h) (h_loop h) (h_async h) (h_worker h) b.
Definition setHwnd (b : bool) (m : Members) : Members :=
  mkMembers b (m_instance m) (m_imguiInitialized m) (m_swapChain m) (m_renderTarget m) (m_pendingWidth m) (m_pendingHeight m) (m_running m)
    (m_loopInitialized m) (m_thread m) (m_readerThread m).
Definition setInstance (b : bool) (m : Members) : Members :=
  mkMembers (m_hwnd m) b (m_imguiInitialized m) (m_swapChain m) (m_renderTarget m) (m_pendingWidth m) (m_pendingHeight m) (m_running m)
    (m_loopInitialized m) (m_thread m) (m_readerThread m).
Definition setImguiInitialized (b : bool) (m : Members) : Members :=
  mkMembers (m_hwnd m) (m_instance m) b (m_swapChain m) (m_renderTarget m) (m_pendingWidth m) (m_pendingHeight m) (m_running m)
    (m_loopInitialized m) (m_thread m) (m_readerThread m).
Definition setSwapChain (b : bool) (m : Members) : Members :=
  mkMembers (m_hwnd m) (m_instance m) (m_imguiInitialized m) b (m_renderTarget m) (m_pendingWidth m) (m_pendingHeight m) (m_running m)
    (m_loopInitialized m) (m_thread m) (m_readerThread m).
Definition setRenderTarget (b : bool) (m : Members) : Members :=
  mkMembers (m_hwnd m) (m_instance m) (m_imguiInitialized m) (m_swapChain m) b (m_pendingWidth m) (m_pendingHeight m) (m_running m)
    (m_loopInitialized m) (m_thread m) (m_readerThread m).
Definition setPending (x y : Z) (m : Members) : Members :=
  mkMembers (m_hwnd m) (m_instance m) (m_imguiInitialized m) (m_swapChain m) (m_renderTarget m) x y (m_running m) (m_loopInitialized m)
    (m_thread m) (m_readerThread m).
Definition setRunning (b : bool) (m : Members) : Members :=
  mkMembers (m_hwnd m) (m_instance m) (m_imguiInitialized m) (m_swapChain m) (m_renderTarget m) (m_pendingWidth m) (m_pendingHeight m) b
    (m_loopInitialized m) (m_thread m) (m_readerThread m).
Definition setLoopInitialized (b : bool) (m : Members) : Members :=
  mkMembers (m_hwnd m) (m_instance m) (m_imguiInitialized m) (m_swapChain m) (m_renderTarget m) (m_pendingWidth m) (m_pendingHeight m)
    (m_running m) b (m_thread m) (m_readerThread m).
Definition setThread (b : bool) (m : Members) : Members :=
  mkMembers (m_hwnd m) (m_instance m) (m_imguiInitialized m) (m_swapChain m) (m_renderTarget m) (m_pendingWidth m) (m_pendingHeight m)
    (m_running m) (m_loopInitialized m) b (m_readerThread m).
Definition setReaderThread (b : bool) (m : Members) : Members :=
  mkMembers (m_hwnd m) (m_instance m) (m_imguiInitialized m) (m_swapChain m) (m_renderTarget m) (m_pendingWidth m) (m_pendingHeight m)
    (m_running m) (m_loopInitialized m) (m_thread m) b.

Section App.
Context (os : Windows) (uv : Uv) (files : Os) (zone : Zone) (now : Z) (stamp : bytes) {Q : Type} `{HQ : ChunkQueue Q}.

Record t := mk {
  members : Members;
  held : Held;
  client : Client.t (Q := Q);       (* the screen, the worker, the reader *)
  logger : Logger.t;
  disk : World;
  userData : bool;                  (* the window knows its Application *)
  quitPosted : bool;
  calls : nat;                      (* calls on the swap chain so far *)
  presented : list (bool * bool) }. (* frames: was there a window, was there a render target? *)

Abbreviation M := (SM t).
Definition setMembers (f : Members -> Members) : M unit :=
  smod (fun a => mk (f (members a)) (held a) (client a) (logger a) (disk a) (userData a) (quitPosted a) (calls a) (presented a)).
Definition setHeld (f : Held -> Held) : M unit :=
  smod (fun a => mk (members a) (f (held a)) (client a) (logger a) (disk a) (userData a) (quitPosted a) (calls a) (presented a)).
Definition setClient (f : Client.t -> Client.t) : M unit :=
  smod (fun a => mk (members a) (held a) (f (client a)) (logger a) (disk a) (userData a) (quitPosted a) (calls a) (presented a)).
Definition setLog (l : Logger.t) (w : World) : M unit :=
  smod (fun a => mk (members a) (held a) (client a) l w (userData a) (quitPosted a) (calls a) (presented a)).
Definition attach : M unit :=
  smod (fun a => mk (members a) (held a) (client a) (logger a) (disk a) true (quitPosted a) (calls a) (presented a)).
Definition postQuitMessage : M unit :=
  smod (fun a => mk (members a) (held a) (client a) (logger a) (disk a) (userData a) true (calls a) (presented a)).
Definition nextCall : M nat :=
  do n <- sget calls;
  smod (fun a => mk (members a) (held a) (client a) (logger a) (disk a) (userData a) (quitPosted a) (S n) (presented a));; sret n.
Definition present : M unit :=
  smod (fun a => mk (members a) (held a) (client a) (logger a) (disk a) (userData a) (quitPosted a) (calls a)
                    (presented a ++ [(h_window (held a), m_renderTarget (members a))])).

(** What a call requires of what is held. *)
Definition needs (p : Held -> bool) : M unit := do h <- sget held; if p h then sret tt else sub.
(** A pointer that is dereferenced. *)
Definition deref (p : Members -> bool) : M unit := do m <- sget members; if p m then sret tt else sub.

(** ** Drawing surface *)

Definition releaseRenderTarget : M unit := setMembers (setRenderTarget false);; setHeld (holdView false).

(** [&_renderTarget] releases what it pointed to. *)
Definition createRenderTarget : M bool :=
  deref m_swapChain;;
  do n <- nextCall;
  if negb (gotBuffer os n) then sret false
  else
    releaseRenderTarget;;
    if createdView os n then setMembers (setRenderTarget true);; setHeld (holdView true);; sret true
    else sret false.

(** The swap chain can be resized only when no view of it is left; whether it
    could be is not looked at. *)
Definition resizeIfRequested : M unit :=
  do m <- sget members;
  if (m_pendingWidth m =? 0) || (m_pendingHeight m =? 0) then sret tt
  else
    releaseRenderTarget;;
    deref m_swapChain;;
    needs (fun h => negb (h_view h));;
    do _ <- createRenderTarget;
    setMembers (setPending 0 0).

(** ** Messages *)

Definition WM_DESTROY : Z := 0x0002.
Definition WM_SIZE : Z := 0x0005.
Definition WM_CLOSE : Z := 0x0010.
Definition WM_NCCREATE : Z := 0x0081.
Definition WM_SYSCOMMAND : Z := 0x0112.
Definition SIZE_MINIMIZED : Z := 1.
Definition SC_KEYMENU : Z := 0xF100.
Definition LOWORD (l : Z) : Z := Z.land l 0xFFFF.
Definition HIWORD (l : Z) : Z := Z.land (Z.shiftr l 16) 0xFFFF.

(** [None]: what DefWindowProcW returns. *)
Definition windowProc (message wParam lParam : Z) : M (option Z) :=
  (if message =? WM_NCCREATE then attach else sret tt);;
  do self <- sget userData;
  if takes os message wParam lParam then sret (Some 1)
  else if message =? WM_SIZE then
    (if self && negb (wParam =? SIZE_MINIMIZED) then setMembers (setPending (LOWORD lParam) (HIWORD lParam)) else sret tt);;
    sret (Some 0)
  else if message =? WM_SYSCOMMAND then if Z.land wParam 0xfff0 =? SC_KEYMENU then sret (Some 0) else sret None
  else if message =? WM_DESTROY then postQuitMessage;; sret (Some 0)
  else sret None.

Definition message : Type := Z * Z * Z.

(** DispatchMessageW.  Windows sends WM_DESTROY when the window is gone, and by
    default destroys it on WM_CLOSE. *)
Definition dispatch (m : message) : M unit :=
  let '(code, wParam, lParam) := m in
  (if code =? WM_DESTROY then setHeld (holdWindow false) else sret tt);;
  do r <- windowProc code wParam lParam;
  match r with
  | None => if code =? WM_CLOSE then setHeld (holdWindow false);; windowProc WM_DESTROY 0 0;; sret tt else sret tt
  | Some _ => sret tt
  end.
Fixpoint dispatchAll (ms : list message) : M unit :=
  match ms with
  | [] => sret tt
  | m :: ms => dispatch m;; dispatchAll ms
  end.

(** ** The worker's threads *)

(** [FileReader::start], [FileReader::stop] *)
Definition readerStart : M unit :=
  do m <- sget members;
  if m_readerThread m then sret tt else setHeld (holdReader true);; setMembers (setReaderThread true).
Definition readerStop : M unit :=
  do m <- sget members;
  if negb (m_readerThread m) then sret tt
  else
    setClient (fun c => Client.setSvc c (TransferService.setReader (Client.svc c) (FileReader.stop (TransferService.reader (Client.svc c)))));;
    setHeld (holdReader false);; setMembers (setReaderThread false).

(** uv_loop_close refuses a loop that has handles. *)
Definition loopClose : M unit := do h <- sget held; setHeld (holdLoop (h_loop h && h_async h));; setMembers (setLoopInitialized false).

(** [TransferService::start]: [Some] with the reason when it fails. *)
Definition start : M (option bytes) :=
  do m <- sget members;
  if m_running m then sret None
  else if loopInit os <? 0 then sret (Some (bs "uv_loop_init failed: " ++ uv_strerror uv (loopInit os)))
  else
    setHeld (holdLoop true);;
    setMembers (setLoopInitialized true);;
    if asyncInit os <? 0 then
      loopClose;; sret (Some (bs "uv_async_init failed: " ++ uv_strerror uv (asyncInit os)))
    else
      setHeld (holdAsync true);;
      readerStart;;
      setMembers (setRunning true);;
      setHeld (holdWorker true);; setMembers (setThread true);;
      sret None.

(** [TransferService::stop]; [meanwhile] is what the worker and the reader do
    until the loop has closed its handles and its thread has ended. *)
Definition stop (meanwhile : Client.t (Q := Q) -> Client.t (Q := Q)) : M unit :=
  do m <- sget members;
  (if m_thread m then
     setClient (fun c => meanwhile (Client.mk (TransferService.post (Client.svc c) QuitCommand) (Client.rpc c) (Client.paused c) (Client.ui c) true));;
     setHeld (holdAsync false);; setHeld (holdWorker false);; setMembers (setThread false)
   else sret tt);;
  readerStop;;
  setMembers (setRunning false);;
  do m <- sget members;
  if m_loopInitialized m then loopClose else sret tt.

(** ** Start *)

Definition say (level : LogLevel.t) (m : bytes) : M unit :=
  setClient (fun c => Client.mk (Client.svc c) (Client.rpc c) (Client.paused c) (UiState.log stamp (Client.ui c) level m) (Client.exiting c)).

(** A path as Windows writes it. *)
Fixpoint pathText (p : path) : bytes :=
  match p with
  | [] => []
  | [name] => name
  | name :: p => name ++ bs "\" ++ pathText p
  end.

Definition kMaxPath : Z := 260.
Definition openLogFile : M unit :=
  let '(length, baseDir) := moduleFileName os in
  if (length =? 0) || (kMaxPath <=? length) then say LogLevel.Warn (bs "Cannot resolve the executable path - file logging is disabled.")
  else
    do l <- sget logger; do w <- sget disk;
    let '(l, w, opened) := Logger.openFile files zone now baseDir (bs "client.log") l w in
    setLog l w;;
    if negb opened then say LogLevel.Warn (bs "Cannot open a log file under " ++ baseDir ++ bs "\logs - file logging is disabled.")
    else
      say LogLevel.Info (bs "Logging to " ++ pathText (Logger.activeFilePath l));;
      let '(w, pruned) := Logger.pruneOldLogs files zone now kLogRetentionDays l w in
      setLog l w;;
      if 0 <? pruned then say LogLevel.Info (bs "Removed " ++ to_string pruned ++ bs " expired log folder(s)") else sret tt.

Definition createWindow : M (option bytes) :=
  if negb (registerClass os) then sret (Some (bs "Failed to register the window class."))
  else
    setHeld (holdClass true);;
    do placement <- slift (centeredOnPrimaryMonitor (workArea os));
    if negb (createdWindow os) then sret (Some (bs "Failed to create the main window."))
    else
      setHeld (holdWindow true);;
      windowProc WM_NCCREATE 0 0;;
      setMembers (setHwnd true);;
      sret None.

Definition createDeviceAndSwapChain : M (option bytes) :=
  needs h_window;;
  if negb (createdDevice os) then sret (Some (bs "Failed to create the Direct3D 11 device and swap chain."))
  else setHeld (holdDevice true);; setMembers (setSwapChain true);; sret None.

(** The backends of Dear ImGui, the second one only after the first. *)
Definition initBackends : M bool :=
  needs (fun h => h_context h && h_window h);;
  if negb (win32Init os) then sret false
  else
    setHeld (holdWin32 true);;
    deref m_swapChain;;
    if negb (dx11Init os) then sret false else setHeld (holdDx11 true);; sret true.

(** [buildDate] is the date of the build; [shown]: the messages Windows sends
    when the window is shown. *)
Definition initialize (buildDate : bytes) (shown : list message) : M (option bytes) :=
  setMembers (setInstance true);;
  do error <- createWindow;
  match error with
  | Some error => sret (Some error)
  | None =>
      do error <- createDeviceAndSwapChain;
      match error with
      | Some error => sret (Some error)
      | None =>
          do ok <- createRenderTarget;
          if negb ok then sret (Some (bs "Failed to create the render target view."))
          else
            setHeld (holdContext true);;
            do ok <- initBackends;
            if negb ok then sret (Some (bs "Failed to initialize the Dear ImGui Win32/DX11 backend."))
            else
              setMembers (setImguiInitialized true);;
              openLogFile;;
              do error <- start;
              match error with
              | Some error => sret (Some error)
              | None =>
                  say LogLevel.Info (bs "log-transfer-analyzer client started (built " ++ buildDate ++ bs ")");;
                  dispatchAll shown;;
                  sret None
              end
      end
  end.

(** ** The loop *)

(** One turn: the messages that are waiting, what the other threads do until the
    frame, what the user does with it. *)
Record turn := mkTurn {
  tn_messages : list message;
  tn_besides : Client.t (Q := Q) -> Client.t (Q := Q);
  tn_gui : ImGui;
  tn_clock : nat -> bytes;
  tn_answers : Answers }.

(** [renderFrame], from NewFrame to Present.  A render target that is missing is
    passed on as it is. *)
Definition drawFrame (tn : turn) : M unit :=
  needs (fun h => h_context h && h_win32 h && h_dx11 h);;
  setClient (renderFrame (tn_gui tn) (tn_clock tn) (tn_answers tn));;
  deref m_swapChain;;
  present.

(** [true] when the loop has ended.  PeekMessageW hands out WM_QUIT when nothing
    else is waiting. *)
Fixpoint run (tns : list turn) : M bool :=
  match tns with
  | [] => sret false
  | tn :: tns =>
      dispatchAll (tn_messages tn);;
      do quit <- sget quitPosted;
      if quit : bool then sret true
      else
        setClient (tn_besides tn);;
        resizeIfRequested;;
        drawFrame tn;;
        run tns
  end.

(** ** The end *)

Definition shutdownImGui : M unit :=
  do m <- sget members;
  if m_imguiInitialized m then
    needs h_dx11;; setHeld (holdDx11 false);;
    needs h_win32;; setHeld (holdWin32 false);;
    needs (fun h => h_context h && negb (h_win32 h) && negb (h_dx11 h));; setHeld (holdContext false);;
    setMembers (setImguiInitialized false)
  else sret tt.

(** DestroyWindow does nothing to a window that is gone. *)
Definition destroyWindow : M unit :=
  do m <- sget members;
  if m_hwnd m then
    do h <- sget held;
    (if h_window h then dispatch (WM_DESTROY, 0, 0) else sret tt);; setMembers (setHwnd false)
  else sret tt.

(** UnregisterClassW refuses a class that has windows. *)
Definition unregisterClass : M unit :=
  do m <- sget members;
  if m_instance m then do h <- sget held; setHeld (holdClass (h_class h && h_window h)) else sret tt.

(** [~Application], and the destructors of its members. *)
Definition destroy (meanwhile : Client.t -> Client.t) : M unit :=
  stop meanwhile;;
  shutdownImGui;;
  releaseRenderTarget;;
  destroyWindow;;
  unregisterClass;;
  do l <- sget logger; do w <- sget disk;
  setLog (Logger.close l) w;;
  setHeld (holdDevice false);; setMembers (setSwapChain false);;
  stop meanwhile.

(** The exit code; [None]: the program still runs. *)
Definition wWinMain (buildDate : bytes) (shown : list message) (tns : list turn) (meanwhile : Client.t -> Client.t) : M (option Z) :=
  do error <- initialize buildDate shown;
  match error with
  | Some _ => destroy meanwhile;; sret (Some 1)
  | None =>
      do ended <- run tns;
      if ended : bool then destroy meanwhile;; sret (Some 0) else sret None
  end.

Definition launched (r : Q) (w : World) : t := mk fresh nothing (Client.init r) Logger.initial w false false 0 [].
End App.

(** ** The placement *)

(** The far side of an interval that is centred in another one. *)
Lemma centred_bounds lo hi size :
  0 < hi - lo -> 0 < size ->
  let width := Z.min size (hi - lo) in
  let x := lo + Z.quot (hi - lo - width) 2 in
  lo <= x /\ x + width <= hi /\ 0 <= (hi - (x + width)) - (x - lo) <= 1.
Proof.
  intros Hd Hs width x. assert (0 < width <= hi - lo) by (unfold width; lia).
  pose proof (Z.quot_rem' (hi - lo - width) 2). pose proof (Z.rem_bound_pos (hi - lo - width) 2). unfold x. lia.
Qed.

(** Coordinates that can be computed with. *)
Definition onScreen (r : Rect) : Prop := Forall (fun c => - 2 ^ 30 <= c < 2 ^ 30) [r_left r; r_top r; r_right r; r_bottom r].

(** A placement for the work area [r]. *)
Definition placed (r : Rect) (p : WindowPlacement) : Prop :=
  if (r_right r <=? r_left r) || (r_bottom r <=? r_top r)
  then p = mkPlacement CW_USEDEFAULT CW_USEDEFAULT kDefaultWidth kDefaultHeight
  else pl_width p = Z.min kDefaultWidth (r_right r - r_left r) /\ pl_height p = Z.min kDefaultHeight (r_bottom r - r_top r) /\
    r_left r <= pl_x p /\ pl_x p + pl_width p <= r_right r /\ r_top r <= pl_y p /\ pl_y p + pl_height p <= r_bottom r /\
    0 <= (r_right r - (pl_x p + pl_width p)) - (pl_x p - r_left r) <= 1 /\
    0 <= (r_bottom r - (pl_y p + pl_height p)) - (pl_y p - r_top r) <= 1.

Lemma centered_placed r : onScreen r -> exists p, centeredOnPrimaryMonitor (Some r) = Ret p /\ placed r p.
Proof.
  unfold onScreen. rewrite !Forall_cons_iff. intros (H1 & H2 & H3 & H4 & _).
  assert (int : forall z, - 2 ^ 31 <= z < 2 ^ 31 -> int32 z = Ret z).
  { intros z Hz. unfold int32. destruct (Z.leb_spec (- 2 ^ 31) z), (Z.ltb_spec z (2 ^ 31)); try done; lia. }
  unfold centeredOnPrimaryMonitor, placed. rewrite (int (r_right r - r_left r)), obind_Ret, (int (r_bottom r - r_top r)), obind_Ret by lia.
  replace (r_right r - r_left r <=? 0) with (r_right r <=? r_left r) by (destruct (Z.leb_spec (r_right r) (r_left r)), (Z.leb_spec (r_right r - r_left r) 0); lia || done).
  replace (r_bottom r - r_top r <=? 0) with (r_bottom r <=? r_top r) by (destruct (Z.leb_spec (r_bottom r) (r_top r)), (Z.leb_spec (r_bottom r - r_top r) 0); lia || done).
  destruct (Z.leb_spec (r_right r) (r_left r)); [by eexists|]. destruct (Z.leb_spec (r_bottom r) (r_top r)); [by eexists|]. cbn [orb].
  pose proof (centred_bounds (r_left r) (r_right r) kDefaultWidth ltac:(lia) ltac:(done)) as Hx. cbv zeta in Hx.
  pose proof (centred_bounds (r_top r) (r_bottom r) kDefaultHeight ltac:(lia) ltac:(done)) as Hy. cbv zeta in Hy.
  set (w := Z.min kDefaultWidth _) in *. set (h := Z.min kDefaultHeight _) in *. assert (0 < w /\ 0 < h) by (unfold w, h, kDefaultWidth, kDefaultHeight; lia).
  rewrite int, obind_Ret by lia. rewrite int, obind_Ret by lia. eexists. split; [reflexivity|]. cbn [pl_x pl_y pl_width pl_height]. tauto.
Qed.

(** C38: the window starts on the screen.  For every work area with coordinates
    below 2^30 (those of Windows have 16 bits), on whichever side of the origin
    it lies, the computation does not overflow; unless the area is empty the
    window lies inside it, has the default size as far as it fits, and is centred
    up to one pixel.  Without a work area Windows chooses the place. *)
Theorem placement_inside (work : option Rect) :
  (forall r, work = Some r -> onScreen r) ->
  exists p, centeredOnPrimaryMonitor work = Ret p /\
    match work with Some r => placed r p | None => p = mkPlacement CW_USEDEFAULT CW_USEDEFAULT kDefaultWidth kDefaultHeight end.
Proof. destruct work as [r|]; [intros Hr; by apply centered_placed, Hr|]. intros _. by eexists. Qed.

(** A monitor to the left of the origin, with a bar at the bottom, lower than the
    window is high. *)
Lemma placement_inside_witness :
  exists p, centeredOnPrimaryMonitor (Some (mkRect (-1366) 0 0 680)) = Ret p /\ p = mkPlacement (-1183) 0 1000 680 /\ -1366 <= pl_x p.
Proof.
  destruct (placement_inside (Some (mkRect (-1366) 0 0 680))) as (p & E & Hp); [intros r [= <-]; repeat constructor; vm_compute; congruence|].
  exists p. split; [exact E|]. split; [vm_compute in E; injection E as <-; reflexivity|]. unfold placed in Hp. cbn in Hp. apply Hp.
Defined.
