(* ===== verification/ApplicationLife.v ===== *)
(** * What the client holds

    [application_released]: whatever fails, [wWinMain] uses a resource of
    Windows, Direct3D, Dear ImGui or libuv only while it holds it, and when it
    returns it has given back all of them, unless a backend of Dear ImGui could
    not be initialised; closing the window ends the loop. *)

From S2P Require Import Prelude StringView Protocol Ring Net Effects FileReader ClientUi Window TransferService Client Logger UiRenderer Application Level.
Open Scope eff.

(** ** What is held and what the members say of it *)

(** What is left when a backend could not be initialised: the context, and the
    first backend. *)
Definition leak (context win32 : bool) : Held := mkHeld false false false false context win32 false false false false false.

Section Proofs.
Context (os : Windows) (uv : Uv) (files : Os) (zone : Zone) (now : Z) (stamp : bytes) {Q : Type} `{HQ : ChunkQueue Q}.
Implicit Types a : t (Q := Q).

(** Everything held has the member that gives it back, apart from [lk]. *)
Record tidy (lk : bool * bool) (m : Members) (h : Held) : Prop := mkTidy {
  td_worker : h_worker h = m_thread m;
  td_async : h_async h = m_thread m;
  td_reader : h_reader h = m_readerThread m;
  td_loop : h_loop h = m_loopInitialized m;
  td_live : m_thread m = true -> m_loopInitialized m = true;
  td_imgui : if m_imguiInitialized m then lk = (false, false) /\ h_context h = true /\ h_win32 h = true /\ h_dx11 h = true
             else h_context h = lk.1 /\ h_win32 h = lk.2 /\ h_dx11 h = false;
  td_view : h_view h = m_renderTarget m;
  td_window : h_window h = true -> m_hwnd m = true;
  td_class : h_class h = true -> m_instance m = true;
  td_device : h_device h = m_swapChain m }.

(** ** What the parts change *)

Ltac tstep := lazymatch goal with
  | |- truns (sbind _ _) _ _ => apply truns_bind
  | |- truns (sget _) _ _ => apply truns_get
  | |- truns (smod _) _ _ => apply truns_mod
  | |- truns (sret _) _ _ => apply truns_ret
  | |- truns (setMembers _) _ _ => apply truns_mod
  | |- truns (setHeld _) _ _ => apply truns_mod
  | |- truns (setClient _) _ _ => apply truns_mod
  | |- truns (setLog _ _) _ _ => apply truns_mod
  | |- truns (say _ _ _) _ _ => apply truns_mod
  | |- truns attach _ _ => apply truns_mod
  | |- truns postQuitMessage _ _ => apply truns_mod
  | |- truns present _ _ => apply truns_mod
  | |- truns nextCall _ _ => unfold nextCall; apply truns_bind, truns_get, truns_bind, truns_mod, truns_ret
  end.

Ltac tsteps :=
  repeat (cbv beta iota; tstep; cbn [members held client logger disk userData quitPosted calls presented negb]); cbv beta iota;
  cbn [members held client logger disk userData quitPosted calls presented negb].

Lemma truns_needs (p : Held -> bool) a (P : t -> unit -> Prop) : p (held a) = true -> P a tt -> truns (needs p) a P.
Proof. intros Hp HP. unfold needs. do 2 tstep. rewrite Hp. by tstep. Qed.
Lemma truns_deref (p : Members -> bool) a (P : t -> unit -> Prop) : p (members a) = true -> P a tt -> truns (deref p) a P.
Proof. intros Hp HP. unfold deref. do 2 tstep. rewrite Hp. by tstep. Qed.

Lemma truns_openLogFile a (P : t -> unit -> Prop) :
  (forall c l w, P (mk (members a) (held a) c l w (userData a) (quitPosted a) (calls a) (presented a)) tt) -> truns (openLogFile os files zone now stamp) a P.
Proof.
  intros HP. unfold openLogFile. destruct (moduleFileName os) as [n dir]. case_match; [tstep; apply HP|]. do 4 tstep.
  destruct (Logger.openFile _ _ _ _ _ _ _) as [[l w] opened]. do 2 tstep. destruct opened; cbn [negb]; [|tstep; apply HP]. do 2 tstep.
  destruct (Logger.pruneOldLogs _ _ _ _ _ _) as [w' n']. do 2 tstep. case_match; tstep; apply HP.
Qed.

(** Does Windows tell the window to go? *)
Definition closes (m : message) : Prop := m.1.1 = WM_DESTROY \/ m.1.1 = WM_CLOSE.

Context (Htakes : forall wParam lParam, takes os WM_DESTROY wParam lParam = false /\ takes os WM_CLOSE wParam lParam = false).

(** After messages: the size that is wanted, and the window is gone only if the
    loop is about to end. *)
Definition told a (x y : Z) (w ud q : bool) : t :=
  mk (setPending x y (members a)) (holdWindow w (held a)) (client a) (logger a) (disk a) ud q (calls a) (presented a).
Definition heard a (w q : bool) : Prop := (w = h_window (held a) \/ w = false /\ q = true) /\ (quitPosted a = true -> q = true).

Lemma told_same a : told a (m_pendingWidth (members a)) (m_pendingHeight (members a)) (h_window (held a)) (userData a) (quitPosted a) = a.
Proof. destruct a as [[] [] ? ? ? ? ? ? ?]. done. Qed.

Lemma truns_windowProc code wParam lParam a (P : t -> option Z -> Prop) :
  (forall x y ud q r, (quitPosted a = true -> q = true) -> (code = WM_DESTROY -> q = true) -> (code = WM_CLOSE -> r = None) ->
    P (told a x y (h_window (held a)) ud q) r) ->
  truns (windowProc os code wParam lParam) a P.
Proof.
  intros HP. unfold windowProc. apply truns_bind.
  enough (forall ud, truns (do self <- sget userData;
    if takes os code wParam lParam then sret (Some 1)
    else if code =? WM_SIZE then
      (if self && negb (wParam =? SIZE_MINIMIZED) then setMembers (setPending (LOWORD lParam) (HIWORD lParam)) else sret tt);; sret (Some 0)
    else if code =? WM_SYSCOMMAND then if Z.land wParam 0xfff0 =? SC_KEYMENU then sret (Some 0) else sret None
    else if code =? WM_DESTROY then postQuitMessage;; sret (Some 0) else sret None)
    (told a (m_pendingWidth (members a)) (m_pendingHeight (members a)) (h_window (held a)) ud (quitPosted a)) P) as H.
  { destruct (code =? WM_NCCREATE); tstep; [specialize (H true)|specialize (H (userData a)); rewrite told_same in H; exact H].
    destruct a as [[] [] ? ? ? ? ? ? ?]. exact H. }
  intros ud. do 2 tstep. destruct (Htakes wParam lParam) as [Hd Hc]. destruct a as [[] [] ? ? ? ? ? ? ?].
  destruct (takes os code wParam lParam) eqn:Et; [tstep; refine (HP _ _ _ _ _ _ _ _); [done|intros ->; congruence..]|].
  destruct (Z.eqb_spec code WM_SIZE) as [->|]; [tstep; case_match; do 2 tstep; by refine (HP _ _ _ _ _ _ _ _)|].
  destruct (Z.eqb_spec code WM_SYSCOMMAND) as [->|]; [case_match; tstep; by refine (HP _ _ _ _ _ _ _ _)|].
  destruct (Z.eqb_spec code WM_DESTROY) as [->|]; [do 3 tstep; by refine (HP _ _ _ _ _ _ _ _)|tstep; by refine (HP _ _ _ _ _ _ _ _)].
Qed.

Lemma told_told a x y w ud q x' y' w' ud' q' : told (told a x y w ud q) x' y' w' ud' q' = told a x' y' w' ud' q'.
Proof. done. Qed.

Lemma truns_dispatch m a (P : t -> unit -> Prop) :
  (forall x y w ud q, heard a w q -> (closes m -> q = true /\ w = false) -> P (told a x y w ud q) tt) -> truns (dispatch os m) a P.
Proof.
  intros HP. destruct m as [[code wParam] lParam]. unfold dispatch. tstep.
  assert (forall w, (w = h_window (held a) /\ code <> WM_DESTROY \/ w = false /\ code = WM_DESTROY) ->
    truns (do r <- windowProc os code wParam lParam;
      match r with
      | None => if code =? WM_CLOSE then setHeld (holdWindow false);; windowProc os WM_DESTROY 0 0;; sret tt else sret tt
      | Some _ => sret tt
      end) (told a (m_pendingWidth (members a)) (m_pendingHeight (members a)) w (userData a) (quitPosted a)) P) as H.
  { intros w Hw. tstep. apply truns_windowProc. intros x y ud q r Hq Hd Hc. rewrite told_told. cbn [told held holdWindow h_window quitPosted] in *.
    assert (Hh : heard a w q) by (split; [destruct Hw as [[-> _]|[-> Hw]]; [by left|right; by split; [|apply Hd]]|done]).
    assert (He : code = WM_DESTROY -> q = true /\ w = false) by (intros E; split; [by apply Hd|by destruct Hw as [[_ ?]|[-> _]]]).
    destruct r as [r|]; [tstep; apply HP; [done|]; intros [E|E]; cbn in E; [by apply He|by specialize (Hc E)]|].
    destruct (Z.eqb_spec code WM_CLOSE) as [->|Hn]; [|tstep; apply HP; [done|]; intros [E|E]; cbn in E; [by apply He|done]].
    do 3 tstep. apply truns_windowProc. intros x2 y2 ud2 q2 r2 Hq2 Hd2 _. tstep. specialize (Hd2 eq_refl). subst q2.
    change (P (told a x2 y2 false ud2 true) tt). apply HP; [|done]. by split; [right|]. }
  destruct (Z.eqb_spec code WM_DESTROY) as [->|Hn]; tstep; cbn [fst snd].
  - specialize (H false ltac:(by right)). destruct a as [[] [] ? ? ? ? ? ? ?]. exact H.
  - specialize (H (h_window (held a)) ltac:(by left)). rewrite told_same in H. exact H.
Qed.

Lemma truns_dispatchAll ms : forall a (P : t -> unit -> Prop),
  (forall x y w ud q, heard a w q -> (List.Exists closes ms -> q = true) -> P (told a x y w ud q) tt) -> truns (dispatchAll os ms) a P.
Proof.
  induction ms as [|m ms IH]; intros a P HP; cbn [dispatchAll].
  - tstep. rewrite <- (told_same a). apply HP; [split; [by left|done]|]. by intros H%List.Exists_nil.
  - tstep. apply truns_dispatch. intros x y w ud q [Hw Hq] Hc. apply IH. intros x2 y2 w2 ud2 q2 [Hw2 Hq2] Hc2. rewrite told_told.
    cbn [told held holdWindow h_window quitPosted] in *. apply HP; [split|].
    + destruct Hw2 as [->|[-> ->]]; [|by right]. destruct Hw as [->|[-> ->]]; [by left|right; by split; [|apply Hq2]].
    + intros H. by apply Hq2, Hq.
    + intros [H|H]%List.Exists_cons; [by apply Hq2, Hc|by apply Hc2].
Qed.

(** ** The end *)

Lemma truns_stop lk meanwhile a (P : t -> unit -> Prop) :
  tidy lk (members a) (held a) ->
  (forall c, P (mk (setThread false (setReaderThread false (setRunning false (setLoopInitialized false (members a)))))
                   (holdWorker false (holdAsync false (holdReader false (holdLoop false (held a))))) c (logger a) (disk a) (userData a) (quitPosted a)
                   (calls a) (presented a)) tt) ->
  truns (stop meanwhile) a P.
Proof.
  destruct a as [[hw inst im sw rt pw ph run li th rd] [hc hwi hd hv hx h32 h11 hl ha hk hr] c l w ud q n ps].
  intros [E1 E2 E3 E4 Hlive _ _ _ _ _] HP. cbn in *. subst. unfold stop, readerStop, loopClose. do 2 tstep.
  destruct th; [specialize (Hlive eq_refl); subst li|]; destruct rd; try destruct li; repeat (cbn; tstep); apply HP.
Qed.

Lemma truns_shutdown lk a (P : t -> unit -> Prop) :
  tidy lk (members a) (held a) ->
  (forall h, tidy lk (setImguiInitialized false (members a)) h -> h_window h = h_window (held a) ->
    P (mk (setImguiInitialized false (members a)) h (client a) (logger a) (disk a) (userData a) (quitPosted a) (calls a) (presented a)) tt) ->
  truns shutdownImGui a P.
Proof.
  destruct a as [[hw inst im sw rt pw ph run li th rd] [hc hwi hd hv hx h32 h11 hl ha hk hr] c l w ud q n ps].
  intros [E1 E2 E3 E4 Hl Him Ev Hw Hc Ed] HP. cbn in *. subst. unfold shutdownImGui. do 2 tstep. cbn. destruct im.
  - destruct Him as (-> & -> & -> & ->). repeat first [tstep | apply truns_needs; [done|]]. cbn. apply HP; [|done]. by constructor.
  - tstep. by apply HP; [constructor|].
Qed.

Lemma truns_destroyWindow lk a (P : t -> unit -> Prop) :
  tidy lk (members a) (held a) -> m_imguiInitialized (members a) = false ->
  (forall a', tidy lk (members a') (held a') -> m_imguiInitialized (members a') = false ->
    m_renderTarget (members a') = m_renderTarget (members a) -> h_window (held a') = false -> presented a' = presented a -> P a' tt) ->
  truns (destroyWindow os) a P.
Proof.
  intros Ht Ei HP. unfold destroyWindow. do 2 tstep. destruct (m_hwnd (members a)) eqn:Eh.
  - do 3 tstep. assert (forall x y ud q, P (mk (setHwnd false (setPending x y (members a))) (holdWindow false (held a)) (client a) (logger a) (disk a) ud q (calls a) (presented a)) tt) as Hend.
    { intros x y ud q. apply HP; try done. destruct Ht. by constructor. }
    destruct (h_window (held a)) eqn:Ew.
    + apply truns_dispatch. intros x y w ud q _ Hc. destruct (Hc (or_introl eq_refl)) as [-> ->]. tstep. apply Hend.
    + do 2 tstep. specialize (Hend (m_pendingWidth (members a)) (m_pendingHeight (members a)) (userData a) (quitPosted a)).
      destruct a as [[] [] ? ? ? ? ? ? ?]. cbn in Ew. subst. exact Hend.
  - tstep. apply HP; try done. destruct (h_window (held a)) eqn:Ew; [|done]. pose proof (td_window _ _ _ Ht Ew). congruence.
Qed.

Lemma truns_destroy lk meanwhile a (P : t -> unit -> Prop) :
  tidy lk (members a) (held a) -> (forall a', held a' = leak lk.1 lk.2 -> presented a' = presented a -> P a' tt) -> truns (destroy os meanwhile) a P.
Proof.
  intros Ht HP. unfold destroy, releaseRenderTarget. tstep. eapply truns_stop; [exact Ht|]. intros c. tstep.
  apply (truns_shutdown lk); [destruct Ht; by constructor|]. intros h Ht2 _. do 5 tstep.
  apply (truns_destroyWindow lk); [destruct Ht2; by constructor|done|]. intros a' Ht3 Ei Er Ew Ep. unfold unregisterClass. do 3 tstep.
  assert (forall b, b = false -> truns (
      do l <- sget logger; do w <- sget disk; setLog (Logger.close l) w;;
      setHeld (holdDevice false);; setMembers (setSwapChain false);; stop meanwhile)
    (mk (members a') (holdClass b (held a')) (client a') (logger a') (disk a') (userData a') (quitPosted a') (calls a') (presented a')) P) as Hlast.
  { intros b ->. repeat tstep. apply (truns_stop lk); [destruct Ht3; by constructor|]. intros c'. apply HP; [|exact Ep]. cbn.
    destruct Ht3 as [_ _ _ _ _ Him Ev _ _ _]. rewrite Ei in Him. destruct Him as (Hx & H32 & H11). rewrite Er in Ev. destruct (held a'). cbn in *. by subst. }
  destruct (m_instance (members a')) eqn:Ein; repeat tstep.
  - apply Hlast. rewrite Ew. apply andb_false_r.
  - specialize (Hlast (h_class (held a'))). destruct (h_class (held a')) eqn:Ec; [pose proof (td_class _ _ _ Ht3 Ec); congruence|].
    specialize (Hlast eq_refl). destruct a' as [? [] ? ? ? ? ? ? ?]. cbn in Ec. subst. exact Hlast.
Qed.

(** ** The loop *)

(** The swap chain always hands out a buffer and a view of it. *)
Definition viewsWork : Prop := forall n, gotBuffer os n = true /\ createdView os n = true.

Lemma truns_createRenderTarget a (P : t -> bool -> Prop) :
  m_swapChain (members a) = true -> h_view (held a) = m_renderTarget (members a) ->
  (forall rt ok n, (ok = true -> rt = true) -> ok = gotBuffer os (calls a) && createdView os (calls a) ->
    P (mk (setRenderTarget rt (members a)) (holdView rt (held a)) (client a) (logger a) (disk a) (userData a) (quitPosted a) n (presented a)) ok) ->
  truns (createRenderTarget os) a P.
Proof.
  intros Hs Hv HP. unfold createRenderTarget, releaseRenderTarget. tstep. apply truns_deref; [done|]. do 2 tstep. destruct (gotBuffer os (calls a)) eqn:Eb; cbn [negb].
  - do 4 tstep. destruct (createdView os (calls a)) eqn:Ev; repeat tstep; by apply HP.
  - tstep. specialize (HP (m_renderTarget (members a)) false (S (calls a)) ltac:(done) eq_refl). destruct a as [[] [] ? ? ? ? ? ? ?]. cbn in *. subst. exact HP.
Qed.

Record looping a : Prop := mkLooping {
  lp_tidy : tidy (false, false) (members a) (held a);
  lp_imgui : m_imguiInitialized (members a) = true;
  lp_swapChain : m_swapChain (members a) = true;
  lp_window : h_window (held a) = true \/ quitPosted a = true;
  lp_frames : Forall (fun p => p.1 = true) (presented a);
  lp_views : viewsWork -> m_renderTarget (members a) = true /\ Forall (fun p => p.2 = true) (presented a) }.

Lemma looping_told a x y w ud q : looping a -> heard a w q -> looping (told a x y w ud q).
Proof.
  intros [[] ? ? Hw ? ?] [Hh Hq]. constructor; try done.
  - constructor; try done. intros E. cbn in E. subst w. destruct Hh as [Hh|[? _]]; [|done]. by apply td_window0.
  - cbn. destruct Hh as [->|[_ ->]]; [|by right]. destruct Hw as [|Hw]; [by left|right; by apply Hq].
Qed.

Lemma truns_resize a (P : t -> unit -> Prop) :
  looping a -> (forall a', looping a' -> quitPosted a' = quitPosted a -> P a' tt) -> truns (resizeIfRequested os) a P.
Proof.
  intros [[] Hi Hs Hw Hf Hv] HP. unfold resizeIfRequested, releaseRenderTarget. do 2 tstep. destruct (_ || _); [tstep; apply HP; [|done]; by constructor|].
  do 5 tstep. apply truns_deref; [done|]. tstep. apply truns_needs; [done|]. tstep. apply truns_createRenderTarget; [done|done|].
  intros rt ok n Hok Eok. tstep. apply HP; [|done]. constructor; try done. cbn. intros H. split; [|by apply Hv]. apply Hok. rewrite Eok. cbn [calls]. by destruct (H (calls a)) as [-> ->].
Qed.

Lemma truns_drawFrame tn a (P : t -> unit -> Prop) :
  looping a -> quitPosted a = false -> (forall a', looping a' -> P a' tt) -> truns (drawFrame tn) a P.
Proof.
  intros [Ht Hi Hs Hw Hf Hv] Hq HP. unfold drawFrame. tstep. pose proof (td_imgui _ _ _ Ht) as Him. rewrite Hi in Him. destruct Him as (_ & H1 & H2 & H3).
  apply truns_needs; [by rewrite H1, H2, H3|]. do 3 tstep. apply truns_deref; [done|]. tstep. destruct Hw as [Hw|]; [|congruence].
  apply HP. constructor; try done; cbn.
  - by left.
  - apply Forall_app. split; [done|]. repeat constructor. exact Hw.
  - intros H. destruct (Hv H) as [Hr Hp]. split; [done|]. apply Forall_app. split; [done|]. repeat constructor. exact Hr.
Qed.

Lemma truns_run tns : forall a, looping a ->
  truns (run os tns) a (fun a' ended => looping a' /\ (List.Exists (fun tn => List.Exists closes (tn_messages tn)) tns -> ended = true)).
Proof.
  induction tns as [|tn tns IH]; intros a Ha; cbn [run].
  - tstep. split; [done|]. by intros H%List.Exists_nil.
  - tstep. apply truns_dispatchAll. intros x y w ud q Hh Hc. pose proof (looping_told a x y w ud q Ha Hh) as Ha1. do 2 tstep. cbn [quitPosted told].
    destruct q; [tstep; by split|]. do 3 tstep.
    apply truns_resize; [destruct Ha1 as [[] ? ? ? ? ?]; by constructor|]. intros a2 Ha2 Eq2. tstep. apply truns_drawFrame; [done|by rewrite Eq2|].
    intros a3 Ha3. eapply truns_mono; [by apply IH|]. intros a' ended [Ha' He]. split; [done|]. intros [H|H]%List.Exists_cons; [by specialize (Hc H)|by apply He].
Qed.

(** ** The start *)

(** A backend is the first thing that fails. *)
Definition backendFails : bool :=
  registerClass os && createdWindow os && createdDevice os && (gotBuffer os 0 && createdView os 0) && negb (win32Init os && dx11Init os).
Definition leaked : bool * bool := if backendFails then (true, win32Init os) else (false, false).

Lemma truns_start a (P : t -> option bytes -> Prop) :
  m_running (members a) = false -> m_readerThread (members a) = false -> m_thread (members a) = false ->
  tidy (false, false) (members a) (held a) ->
  (forall m h e, tidy (false, false) m h -> m_imguiInitialized m = m_imguiInitialized (members a) -> m_swapChain m = m_swapChain (members a) ->
     m_renderTarget m = m_renderTarget (members a) -> h_window h = h_window (held a) ->
     P (mk m h (client a) (logger a) (disk a) (userData a) (quitPosted a) (calls a) (presented a)) e) ->
  truns (start os uv) a P.
Proof.
  intros Hr Hd Hth [] HP. unfold start, loopClose, readerStart. tsteps. rewrite Hr.
  destruct (loopInit os <? 0); [tstep; destruct a; by apply HP; [constructor|..]|]. tsteps.
  destruct (asyncInit os <? 0).
  - tsteps. apply HP; try done. constructor; try done; cbn; congruence.
  - tsteps. cbn [setLoopInitialized m_readerThread]. rewrite Hd. tsteps. by apply HP; [constructor|..].
Qed.

Context (Hwork : forall r, workArea os = Some r -> onScreen r).

Lemma truns_initialize buildDate shown r w :
  truns (initialize os uv files zone now stamp buildDate shown) (launched r w) (fun a e =>
    match e with
    | None => looping a /\ backendFails = false
    | Some _ => tidy leaked (members a) (held a) /\ presented a = []
    end).
Proof.
  unfold initialize, createWindow, createDeviceAndSwapChain, initBackends, leaked, backendFails, launched. tsteps.
  destruct (registerClass os); cbn [negb andb]; [|tsteps; split; [by constructor|done]]. tsteps.
  assert (exists p, centeredOnPrimaryMonitor (workArea os) = Ret p) as [p Ep].
  { destruct (workArea os) as [rc|] eqn:Ew; [|by eexists]. destruct (centered_placed rc (Hwork rc eq_refl)) as (p & Ep & _). by exists p. }
  eapply truns_lift; [exact Ep|]. destruct (createdWindow os); cbn [negb andb]; [|tsteps; split; [by constructor|done]]. tsteps.
  apply truns_windowProc. intros x y ud q res _ _ _. unfold told. tsteps. apply truns_needs; [done|].
  destruct (createdDevice os); cbn [negb andb]; [|tsteps; split; [by constructor|done]]. tsteps.
  apply truns_createRenderTarget; [done|done|]. intros rt ok n Hok Eok. cbn [calls] in Eok. rewrite <- Eok. destruct ok; cbn [negb andb]; [|tsteps; split; [by constructor|done]].
  rewrite (Hok eq_refl). tsteps. apply truns_needs; [done|].
  destruct (win32Init os); cbn [negb andb]; [|tsteps; split; [by constructor|done]]. tsteps. apply truns_deref; [done|].
  destruct (dx11Init os); cbn [negb andb]; [|tsteps; split; [by constructor|done]]. tsteps. apply truns_openLogFile. intros c l wd. tsteps.
  apply truns_start; [done|done|done|by constructor|]. intros m h e Hm Ei Es Er Ew. cbn in Ei, Es, Er, Ew. destruct e as [e|]; [tsteps; by split|].
  tsteps. apply truns_dispatchAll. intros x2 y2 w2 ud2 q2 Hh _. tsteps. split; [|done]. apply looping_told; [|done].
  constructor; try done; cbn. by left.
Qed.

Lemma truns_wWinMain buildDate shown tns meanwhile r w :
  truns (wWinMain os uv files zone now stamp buildDate shown tns meanwhile) (launched r w) (fun a code =>
    Forall (fun p => p.1 = true) (presented a) /\ (viewsWork -> Forall (fun p => p.2 = true) (presented a)) /\
    (code <> None -> held a = leak leaked.1 leaked.2) /\
    (List.Exists (fun tn => List.Exists closes (tn_messages tn)) tns -> code <> None)).
Proof.
  unfold wWinMain. tstep. eapply truns_mono; [apply truns_initialize|]. intros a [e|].
  - intros [Ht Ep]. tstep. apply (truns_destroy leaked); [done|]. intros a' Eh Ep'. tstep. rewrite Ep', Ep. by split_and!.
  - intros [Ha Eb]. tstep. eapply truns_mono; [by apply truns_run|]. intros a1 ended [[Ht _ _ _ Hf Hv] He]. destruct ended.
    + tstep. apply (truns_destroy (false, false)); [done|]. intros a' Eh Ep. tstep. rewrite Ep. unfold leaked. rewrite Eb.
      split; [done|]. split; [by apply Hv|]. by split.
    + tstep. split; [done|]. split; [by apply Hv|]. split; [done|]. intros H. by specialize (He H).
Qed.
End Proofs.


(** A machine on which everything works but the last backend, if [backend] is
    false; the user sizes the window, then closes it. *)
Definition demoMachine (backend : bool) : Windows :=
  mkWindows true (Some (mkRect 0 0 1920 1040)) true true (fun _ => true) (fun _ => true) true backend (20, bs "C:\tools") 0 0 (fun _ _ _ => false).
Definition demoTurns : list (turn (Q := Ring.t)) :=
  let idle ms := mkTurn ms (fun c => c) (clicks [] []) (fun _ => []) noAnswers in
  [idle []; idle [(WM_SIZE, 0, 0x02580320)]; idle [(WM_CLOSE, 0, 0)]; idle []].
Definition demoMain (backend : bool) : outcome (t (Q := Ring.t) * option Z) :=
  wWinMain (demoMachine backend) uvFine healthyOs demoZone 0 [] (bs "Aug 17 2026") [] demoTurns (fun c => c) (launched (Ring.make 4 16) emptyWorld).


(** Two frames, a view of the new size, and everything given back; without the
    backend the context of Dear ImGui is left. *)
Example demo_runs :
  match demoMain true, demoMain false with
  | Ret (a, Some 0), Ret (b, Some 1) =>
      bool_decide (presented a = [(true, true); (true, true)]) && (calls a =? 2)%nat && h_context (held b) && h_win32 (held b) && negb (h_device (held b))
  | _, _ => false
  end = true.
Proof. vm_compute. reflexivity. Qed.
