(* ===== verification/ClientInv.v ===== *)
(** * The client's invariant

    What a connection carries (complete messages, then at most the beginning of
    one upload), what the reader's ring holds of the file that is being sent,
    and what the screen has been told, in every state of a calm run. *)

From S2P Require Import Prelude StringView Crc32 Protocol Codec Framer Ring ResultSummary Net Exchange Effects FileReader ClientUi Window TransferService Client.

(** ** What a client may say *)
Section Said.
Context (fs : Files) (asked : list Command).

(** The screen has asked for the upload of [data], the beginning of a file. *)
Definition theUpload (name data : bytes) : Prop :=
  exists path content, StartUploadCommand path name (zlen data) ∈ asked /\ fs path = Some content /\
    data = ztake (zlen data) content.

(** The complete messages. *)
Inductive said : bytes -> Prop :=
| said_upload name data : theUpload name data -> said (uploadStream name data)
| said_request name data offset : theUpload name data -> 0 <= offset <= kMaxCsvSize ->
    said (encodeResultRequest (mkResultRequest (zlen data) (Crc32.crc32 0 data) offset name))
| said_done : said encodeDownloadDone.

(** The first [n] bytes of the file behind the header. *)
Definition begun (name : bytes) (size n : Z) (content : bytes) : bytes :=
  encodeUploadHeader (mkUploadHeader size name) ++ ztake n content.

(** An upload that has been cut short, or nothing. *)
Definition cut (tail : bytes) : Prop :=
  tail = [] \/ exists path name size content n, StartUploadCommand path name size ∈ asked /\ fs path = Some content /\
    0 <= n <= Z.min size (zlen content) /\ tail = begun name size n content.

(** [wire] is complete messages, then [tail]. *)
Definition spoken (wire : list bytes) (tail : bytes) : Prop :=
  exists ms, concat wire = concat ms ++ tail /\ Forall said ms.
End Said.

(** More requests of the screen allow more. *)
Section More.
Context (fs : Files) (asked more : list Command).

Lemma theUpload_more name data : theUpload fs asked name data -> theUpload fs (asked ++ more) name data.
Proof. intros (path & content & Ha & H). exists path, content. split; [apply elem_of_app; by left|done]. Qed.
Lemma said_more m : said fs asked m -> said fs (asked ++ more) m.
Proof. destruct 1; [apply said_upload|apply said_request|apply said_done]; eauto using theUpload_more. Qed.
Lemma cut_more tail : cut fs asked tail -> cut fs (asked ++ more) tail.
Proof. intros [->|(path & name & size & content & n & Ha & H)]; [by left|]. right. exists path, name, size, content, n. split; [apply elem_of_app; by left|done]. Qed.
Lemma spoken_more wire tail : spoken fs asked wire tail -> spoken fs (asked ++ more) wire tail.
Proof. intros (ms & E & H). exists ms. split; [done|]. eapply Forall_impl; [apply said_more|exact H]. Qed.
End More.

Lemma spoken_app fs asked wire tail d : spoken fs asked wire tail -> spoken fs asked (wire ++ [d]) (tail ++ d).
Proof. intros (ms & E & H). exists ms. split; [|done]. rewrite concat_app, E. cbn. by rewrite app_nil_r, <- app_assoc. Qed.
Lemma spoken_said fs asked wire m : spoken fs asked wire m -> said fs asked m -> spoken fs asked wire [].
Proof.
  intros (ms & E & H) Hm. exists (ms ++ [m]). rewrite concat_app, app_nil_r. cbn. rewrite app_nil_r. split; [done|].
  apply Forall_app. split; [done|]. by constructor.
Qed.

(** One step of a handler. *)
Ltac tstep := lazymatch goal with
  | |- truns (sbind _ _) _ _ => apply truns_bind
  | |- truns (sget _) _ _ => apply truns_get
  | |- truns (smod _) _ _ => apply truns_mod
  | |- truns (sret _) _ _ => apply truns_ret
  | |- truns (TransferService.modUp _) _ _ => apply truns_mod
  | |- truns (TransferService.modDown _) _ _ => apply truns_mod
  | |- truns (TransferService.modReader _) _ _ => apply truns_mod
  | |- truns (TransferService.pushEvent _) _ _ => apply truns_mod
  | |- truns (TransferService.pushLog _ _) _ _ => apply truns_mod
  | |- truns (TransferService.pushLink _) _ _ => apply truns_mod
  | |- truns (TransferService.pushSession _) _ _ => apply truns_mod
  end.

(** ** Sockets and timers *)

(** What sending does not change. *)
Definition sameLink (k k' : TcpSocket.t) : Prop :=
  TcpSocket.handle k' = TcpSocket.handle k /\ TcpSocket.closing k' = TcpSocket.closing k /\
  TcpSocket.reading k' = TcpSocket.reading k.

Definition timerQuiet (tm : option Timer.t) : Prop := forall x, tm = Some x -> Timer.isActive x = false.

Section Handlers.
Context (uv : Uv) (fs : Files) {Q : Type} `{HQ : ChunkQueue Q}.
Context (Hwrite : forall n d, uv_write uv n d <= 0) (Hstop : forall n, uv_timer_stop uv n = 0).
Import TransferService.
Implicit Types w : TransferService.t (Q := Q).
Implicit Types P : TransferService.t (Q := Q) -> Z -> Prop.

Lemma truns_send data w k P :
  socket w = Some k -> TcpSocket.handle k = true ->
  (forall k', TcpSocket.closing k = false -> TcpSocket.wire k' = TcpSocket.wire k ++ [data] -> sameLink k k' -> P (setSocket w (Some k')) 0) ->
  (forall k' rc, rc < 0 -> TcpSocket.wire k' = TcpSocket.wire k -> sameLink k k' -> P (setSocket w (Some k')) rc) ->
  truns (send uv data) w P.
Proof.
  intros Ek Hh Hok Hbad. unfold truns, send, onSocket. rewrite Ek. unfold TcpSocket.send. rewrite Hh. cbn [negb orb].
  destruct (TcpSocket.closing k) eqn:Ec; [by eexists _, _; split; [done|apply Hbad]|].
  specialize (Hwrite (TcpSocket.calls k) data). destruct (Z.eqb_spec (uv_write uv (TcpSocket.calls k) data) 0) as [E|E]; cbn [negb].
  - eexists _, _. split; [done|]. apply Hok; [done|done|]. unfold sameLink. cbn. by rewrite Ec.
  - eexists _, _. split; [done|]. apply Hbad; [lia|done|]. unfold sameLink. cbn. by rewrite Ec.
Qed.

Lemma stop_quiet tm : timerQuiet ((fun x => (Timer.stop uv x).1) <$> tm).
Proof.
  intros x Ex. apply fmap_Some in Ex as (y & -> & ->). unfold Timer.stop, Timer.isActive.
  destruct (Timer.handle y) eqn:Eh; cbn [negb fst Timer.handle Timer.active]; [|by rewrite Eh]. by rewrite Hstop, andb_false_r.
Qed.

(** ** The reader's ring *)

Lemma drainLoop_Ret fuel : forall r q, queued r q -> (length q < fuel)%nat -> exists r', drainLoop fuel r = Ret r' /\ queued r' [] /\
  chunkCapacity r' = chunkCapacity r /\ forall n, qroom r n -> qroom r' n.
Proof.
  induction fuel as [|fuel IH]; intros r q Hq Hl; [lia|]. cbn [drainLoop]. rewrite (qpeek_queued _ _ Hq), obind_Ret.
  destruct q as [|d q]; cbn [head].
  - exists r. by split_and!.
  - cbn in Hl. destruct (IH _ _ (qpop_queued _ _ _ Hq) ltac:(lia)) as (r' & E & Hr' & Hc & Hn). exists r'.
    split_and!; [done|done|by rewrite Hc, qpop_capacity|]. intros n Hr. by apply Hn, qpop_room.
Qed.

(** The reader at [c] with [q] in its ring can go on. *)
Definition readerOk (c : FileReader.pc) (rd : FileReader.t) : Prop :=
  let hasFile := is_Some (FileReader.file rd) in
  let room := qfull (FileReader.ring rd) = false in
  is_uint 64 (FileReader.remaining rd) /\ (exists q, queued (FileReader.ring rd) q) /\
  match c with
  | FileReader.RWait => FileReader.uploading rd = true -> hasFile
  | FileReader.RTop | FileReader.RAcquire | FileReader.RFull => hasFile
  | FileReader.RRead => hasFile /\ room
  | FileReader.RCommit d => hasFile /\ room /\ zlen d <= chunkCapacity (FileReader.ring rd)
  | FileReader.RClose => True
  | FileReader.RQuit => FileReader.quit rd = true
  end /\
  (FileReader.uploading rd = false -> c = FileReader.RWait \/ FileReader.quit rd = true).

(** What the reader has read but not put in the ring. *)
Definition inHand (c : FileReader.pc) : bytes := match c with FileReader.RCommit d => d | _ => [] end.

(** The reader has nothing more to do for the upload. *)
Definition ended (c : FileReader.pc) (rd : FileReader.t (Q := Q)) : bool :=
  match c with FileReader.RClose => true | FileReader.RWait => negb (FileReader.uploading rd) | _ => false end.

(** [n] bytes of [content] have left the ring: the ring and the reader hold the
    next ones, and the file what is left. *)
Definition feeding (c : FileReader.pc) (rd : FileReader.t) (content : bytes) (n size : Z) : Prop :=
  FileReader.quit rd = false /\ FileReader.abort rd = false /\ 0 <= n /\
  exists q, queued (FileReader.ring rd) q /\
    let m := n + zlen (concat q ++ inHand c) in
    m <= Z.min size (zlen content) /\ ztake n content ++ concat q ++ inHand c = ztake m content /\
    (ended c rd = false -> FileReader.file rd = Some (zdrop m content) /\ FileReader.remaining rd = size - m).

(** ** What the screen has been told *)

Record Seen := mkSeen { seenLink : LinkState.t; seenSession : ClientState.t; seenClaim : bool }.
Definition see (v : Seen) (e : Event) : Seen :=
  mkSeen (default (seenLink v) (ev_link e)) (default (seenSession v) (ev_session e)) (default (seenClaim v) (ev_resultClaim e)).
Definition shown (u : UiState.t) : Seen := mkSeen (UiState.link u) (UiState.session u) (UiState.resultClaimAvailable u).
(** The screen once it has caught up with the worker. *)
Definition caughtUp (v : Seen) (evs : list Event) : Seen := fold_left see evs v.

Lemma shown_log stamp u level text : shown (UiState.log stamp u level text) = shown u.
Proof. done. Qed.
Lemma shown_pump stamp evs : forall u, shown (UiState.pumpWorkerEvents stamp u evs) = caughtUp (shown u) evs.
Proof.
  induction evs as [|e evs IH]; intros u; [done|]. cbn. unfold UiState.pumpWorkerEvents in IH. rewrite IH. unfold caughtUp. f_equal.
  unfold UiState.applyEvent. case_bool_decide; [done|]. by rewrite shown_log.
Qed.
Lemma caughtUp_app v evs e : caughtUp v (evs ++ [e]) = see (caughtUp v evs) e.
Proof. unfold caughtUp. by rewrite fold_left_app. Qed.
#[global] Arguments caughtUp : simpl never.

(** ** The invariant *)
Section State.
Context (asked : list Command) (c : FileReader.pc) (v : Seen) (cs : list Command) (qt : bool).

(** What holds whatever the worker is doing. *)
Record base w : Prop := mkBase {
  b_reader : readerOk c (reader w);
  b_framer : framerWf (framer (down w));
  b_sock k : socket w = Some k -> TcpSocket.handle k = true /\ (TcpSocket.reading k = true -> timerQuiet (connectTimer w));
  b_spoken k : socket w = Some k -> exists tail, spoken fs asked (TcpSocket.wire k) tail /\ cut fs asked tail;
  b_claim : hasClaim w = true ->
    exists data, theUpload fs asked (cl_filename (claim w)) data /\ cl_fileSize (claim w) = zlen data /\
      cl_crc32 (claim w) = Crc32.crc32 0 data;
  b_csv : zlen (csv (down w)) <= kMaxCsvSize;
  b_link : match socket w with
           | None => seenLink (caughtUp v (events w)) = LinkState.Disconnected
           | Some k => TcpSocket.closing k = false -> seenLink (caughtUp v (events w)) <> LinkState.Disconnected
           end;
  b_seen : seenClaim (caughtUp v (events w)) = hasClaim w;
  b_flight : 0 <= inFlightWrites (up w);
  b_stopped : FileReader.quit (reader w) = true -> qt = true;
  b_cmds : commands w = cs;
  b_quit : quitting w = qt }.

(** The connection is up and the timer does not watch it any more. *)
Definition live w (k : TcpSocket.t) : Prop :=
  socket w = Some k /\ TcpSocket.closing k = false /\ TcpSocket.reading k = true.

(** The next request would go on where the kept bytes end. *)
Definition resumes w : Prop := hasClaim w = true -> cl_received (claim w) = zlen (csv (down w)).

Definition resting w : Prop :=
  uploading (up w) = false /\ expecting (down w) = Expecting.Nothing /\ resumes w /\
  isBusy (seenSession (caughtUp v (events w))) = false /\
  forall k, socket w = Some k -> TcpSocket.closing k = false -> spoken fs asked (TcpSocket.wire k) [].

(** [k] carries the first bytes of the upload, as many as were counted. *)
Definition sendingOn w (k : TcpSocket.t) : Prop :=
  let u := up w in
  exists path content, StartUploadCommand path (uploadFilename u) (uploadTotal u) ∈ asked /\ fs path = Some content /\
    is_uint 64 (uploadTotal u) /\ uploadCrc u = Crc32.crc32 0 (ztake (uploadSent u) content) /\
    spoken fs asked (TcpSocket.wire k) (begun (uploadFilename u) (uploadTotal u) (uploadSent u) content) /\
    feeding c (reader w) content (uploadSent u) (uploadTotal u).

Definition sending w : Prop :=
  uploading (up w) = true /\ expecting (down w) = Expecting.Nothing /\ hasClaim w = false /\ csv (down w) = [] /\
  trailerSent (up w) = false /\ exists k, live w k /\ sendingOn w k.

Definition receiving w : Prop :=
  uploading (up w) = false /\ resumes w /\
  (exists k, live w k /\ spoken fs asked (TcpSocket.wire k) [] /\
     (expecting (down w) = Expecting.Ack ->
        exists data, theUpload fs asked (uploadFilename (up w)) data /\ uploadTotal (up w) = zlen data /\
          uploadCrc (up w) = Crc32.crc32 0 data /\ spoken fs asked (TcpSocket.wire k) (uploadStream (uploadFilename (up w)) data))) /\
  match expecting (down w) with
  | Expecting.Nothing => False
  | Expecting.Ack | Expecting.ResultHeader => csv (down w) = []
  | Expecting.CsvPayload => zlen (csv (down w)) < csvSize (down w) <= kMaxCsvSize
  | Expecting.ResumeReply => True
  end.

Definition active w : Prop := resting w \/ sending w \/ receiving w.

(** The worker has been told to quit. *)
Definition over w : Prop :=
  qt = true /\ cs = [] /\ uploading (up w) = false /\ forall k, socket w = Some k -> TcpSocket.closing k = true.

(** ** Ending a session *)

Lemma readerOk_drained rd r : readerOk c rd -> queued r [] -> chunkCapacity r = chunkCapacity (FileReader.ring rd) ->
  readerOk c (FileReader.setRing rd r).
Proof.
  intros (Hn & _ & Hc & Hu) Hq Hcap. pose proof (qfull_empty _ Hq) as Hf. split_and!; [done|by exists []| |done].
  destruct c; try done; cbn; rewrite ?Hcap; tauto.
Qed.

Lemma truns_drainRing w (P : _ -> unit -> Prop) :
  readerOk c (reader w) ->
  (forall r, queued r [] -> readerOk c (FileReader.setRing (reader w) r) -> P (setReader w (FileReader.setRing (reader w) r)) tt) ->
  truns drainRing w P.
Proof.
  intros Hr HP. destruct Hr as (Hn & (q & Hq) & Hr).
  destruct (drainLoop_Ret (S (qslots (FileReader.ring (reader w)))) _ q Hq) as (r & E & Hr' & Hcap & _).
  { pose proof (qslots_queued _ _ Hq). lia. }
  unfold drainRing. apply truns_bind, truns_get, truns_bind. eapply truns_lift; [exact E|]. apply truns_mod, HP; [done|].
  apply readerOk_drained; [|done|done]. split_and!; [done|by exists q|apply Hr|apply Hr].
Qed.

Definition closedSock (k : option TcpSocket.t) : option TcpSocket.t :=
  (fun k => if TcpSocket.closing k then k else TcpSocket.close uv k) <$> k.

Lemma truns_closeSocket w (P : _ -> unit -> Prop) : P (setSocket w (closedSock (socket w))) tt -> truns (closeSocket uv) w P.
Proof.
  intros HP. unfold closeSocket. apply truns_bind, truns_get. destruct w; cbn in *. destruct socket0 as [k|]; cbn in *.
  - destruct (TcpSocket.closing k); [by apply truns_ret|by apply truns_mod].
  - by apply truns_ret.
Qed.

Lemma closed_closing k0 k : (forall k, k0 = Some k -> TcpSocket.handle k = true) -> closedSock k0 = Some k -> TcpSocket.closing k = true.
Proof.
  intros Hh Ek. destruct k0 as [k0|]; [|done]. cbn in Ek. injection Ek as <-. destruct (TcpSocket.closing k0) eqn:E; [done|].
  apply close_closing. by apply Hh.
Qed.

Lemma base_closed w : base w -> base (setSocket w (closedSock (socket w))).
Proof.
  intros Hb. assert (Hcl : forall k, closedSock (socket w) = Some k -> TcpSocket.closing k = true).
  { intros k. apply closed_closing. intros k' Ek'. by apply (b_sock _ Hb). }
  destruct Hb. constructor; cbn; try done.
  - intros k Ek. destruct (socket w) as [k0|]; [|done]. cbn in Ek. injection Ek as <-. destruct (b_sock0 k0 eq_refl) as [Hh Ht].
    destruct (TcpSocket.closing k0) eqn:E; [done|]. rewrite close_handle. split; [done|]. unfold TcpSocket.close, TcpSocket.stopRead.
    rewrite Hh, E. cbn. destruct (TcpSocket.reading k0) eqn:Er; cbn; [by intros _; apply Ht|]. rewrite orb_true_r. cbn. congruence.
  - intros k Ek. destruct (socket w) as [k0|]; [|done]. cbn in Ek. injection Ek as <-. destruct (b_spoken0 k0 eq_refl) as (tail & H).
    exists tail. destruct (TcpSocket.closing k0); [done|]. by rewrite close_wire.
  - destruct (socket w) as [k0|]; [|done]. cbn in *. specialize (Hcl _ eq_refl). intros E. congruence.
Qed.
(** [base] of a state that differs from one with it where [base] does not look. *)
Ltac based := match goal with Hb : base _ |- base _ => destruct Hb end; constructor; cbn; rewrite ?caughtUp_app; cbn; try done.

Lemma base_reader w rd : base w -> readerOk c rd -> FileReader.quit rd = FileReader.quit (reader w) -> base (setReader w rd).
Proof. intros Hb Hr Hq. based. by rewrite Hq. Qed.
Lemma base_up w u : base w -> 0 <= inFlightWrites u -> base (setUp w u).
Proof. intros Hb Hn. based. Qed.
Lemma base_down w d : base w -> framerWf (framer d) -> zlen (csv d) <= kMaxCsvSize -> base (setDown w d).
Proof. intros Hb Hf Hz. based. Qed.
Lemma base_expecting w e : base w -> base (setDown w (setExpecting (down w) e)).
Proof. intros Hb. apply base_down; [done|apply Hb|apply Hb]. Qed.
Lemma base_noCsv w : base w -> base (setDown w (setCsv (down w) [])).
Proof. intros Hb. apply base_down; [done|apply Hb|done]. Qed.
Lemma base_event w e : base w -> ev_link e = None -> ev_resultClaim e = None -> base (addEvent w e).
Proof. intros Hb E1 E2. based. all: unfold see; by rewrite ?E1, ?E2. Qed.
Lemma base_received w n :
  base w -> base (setClaim w (hasClaim w) (mkClaim (cl_filename (claim w)) (cl_fileSize (claim w)) (cl_crc32 (claim w)) n)).
Proof. intros Hb. based. Qed.
Lemma base_socket w k k' :
  base w -> socket w = Some k -> sameLink k k' ->
  (exists tail, spoken fs asked (TcpSocket.wire k') tail /\ cut fs asked tail) -> base (setSocket w (Some k')).
Proof.
  intros Hb Ek (Hh & Hc & Hr) Ht. destruct Hb. constructor; cbn; try done.
  - intros k0 [= <-]. rewrite Hh, Hr. by apply b_sock0.
  - by intros k0 [= <-].
  - rewrite Ek in b_link0. by rewrite Hc.
Qed.

Lemma closed_none w k : base w -> socket (setSocket w (closedSock (socket w))) = Some k -> TcpSocket.closing k = false -> False.
Proof.
  intros Hb Ek Hc. apply closed_closing in Ek; [congruence|]. intros k' Ek'. by apply (b_sock _ Hb).
Qed.

Lemma readerOk_abort rd : readerOk c rd -> readerOk c (FileReader.abortUpload rd).
Proof. done. Qed.

Lemma truns_abortUpload w reason level :
  base w -> expecting (down w) = Expecting.Nothing -> hasClaim w = false ->
  truns (abortUpload uv reason level) w (fun w' _ => base w' /\ resting w').
Proof.
  intros Hb He Hc. unfold abortUpload. do 4 tstep. tstep. apply truns_drainRing; [apply Hb|]. intros r Hr Hok. cbn [reader setUp setReader] in *.
  do 3 tstep. apply truns_closeSocket. do 3 tstep. split.
  - do 2 (apply base_event; [|done..]). apply base_closed, base_event; [|done..]. apply base_reader; [|done..]. apply base_up; [|apply Hb]. by apply base_reader; [|apply Hb|].
  - unfold resting, resumes. cbn. rewrite !caughtUp_app. cbn. rewrite He, Hc. split_and!; try done.
    intros k Ek Hk. exfalso. by apply (closed_none w k).
Qed.

Lemma truns_failSession w reason level : base w -> truns (failSession uv reason level) w (fun w' _ => base w' /\ resting w').
Proof.
  intros Hb. unfold failSession. do 3 tstep.
  apply truns_mono with (P := fun w' _ => base w' /\ uploading (up w') = false).
  { destruct (uploading (up w)) eqn:Eu; [|by tstep].
    do 4 tstep. apply truns_drainRing; [apply Hb|]. intros r Hr Hok. cbn [reader setUp setReader] in *. split; [|done].
    apply base_reader; [|done..]. apply base_up; [|apply Hb]. by apply base_reader; [|apply Hb|]. }
  intros w1 _ [Hb1 Hu1]. do 7 tstep. cbn [down setDown hasClaim].
  apply truns_mono with (P := fun w' _ => base w' /\ uploading (up w') = false /\ expecting (down w') = Expecting.Nothing /\ resumes w').
  { destruct (hasClaim w1) eqn:Ec; tstep.
    - split; [|split_and!; try done; unfold resumes; by cbn].
      pose proof (base_received _ (zlen (csv (down w1))) (base_expecting _ Expecting.Nothing Hb1)) as H. cbn [hasClaim setDown] in H. by rewrite Ec in H.
    - split; [by apply base_noCsv, base_expecting|]. split_and!; try done. unfold resumes. cbn. congruence. }
  intros w2 _ (Hb2 & Hu2 & He2 & Hr2). do 3 tstep. apply truns_closeSocket. tstep. split.
  - apply base_event; [|done..]. by apply base_closed, base_event.
  - unfold resting. cbn. rewrite !caughtUp_app. split_and!; try done. intros k Ek Hk. exfalso. by apply (closed_none w2 k).
Qed.
End State.
End Handlers.
