(* ===== verification/ClientSend.v ===== *)
(** * The client sends: the pump and the commands *)

From S2P Require Import Prelude StringView Crc32 Protocol Codec Framer Ring Net Exchange Effects FileReader ClientUi Window TransferService Client ClientInv.

Section Sending.
Context (uv : Uv) (fs : Files) {Q : Type} `{HQ : ChunkQueue Q}.
Context (Hwrite : forall n d, uv_write uv n d <= 0) (Hstop : forall n, uv_timer_stop uv n = 0).
Context (asked : list Command) (c : FileReader.pc) (v : Seen) (cs : list Command) (qt : bool).
Import TransferService.
Implicit Types w : TransferService.t (Q := Q).
Abbreviation base := (ClientInv.base fs asked c v cs qt).
Abbreviation resting := (ClientInv.resting fs asked v).
Abbreviation sending := (ClientInv.sending fs asked c).
Abbreviation receiving := (ClientInv.receiving fs asked).
Abbreviation active := (ClientInv.active fs asked c v).

(** An upload the worker gives up. *)
Lemma truns_giveUp w reason level : base w -> sending w -> truns (abortUpload uv reason level) w (fun w' _ => base w' /\ resting w').
Proof. intros Hb (_ & He & Hc & _). by apply truns_abortUpload. Qed.

Lemma truns_reportProgress w : base w -> sending w -> 
  truns (reportProgress (Q := Q)) w (fun w' _ => base w' /\ sending w' /\ inFlightWrites (up w') = inFlightWrites (up w)).
Proof.
  intros Hb Hs. unfold reportProgress. do 2 tstep. case_match; [|by tstep]. do 3 tstep. split_and!; [|exact Hs|done].
  apply base_event; [|done..]. apply base_up; [done|apply Hb].
Qed.

Lemma readerOk_pop rd d q : readerOk c rd -> queued (FileReader.ring rd) (d :: q) ->
  readerOk c (FileReader.setRing rd (qpop (FileReader.ring rd))).
Proof.
  intros (Hn & _ & Hc & Hu) Hq. pose proof (qpop_full _ _ _ Hq) as Hf. pose proof (qpop_queued _ _ _ Hq).
  split_and!; [done|by exists q| |done]. destruct c; try done; cbn; rewrite ?qpop_capacity; tauto.
Qed.

(** The oldest chunk of the ring is the next one of the file. *)
Lemma feeding_next rd content n size :
  feeding c rd content n size ->
  exists q, queued (FileReader.ring rd) q /\
    match q with
    | [] => n <= Z.min size (zlen content)
    | d :: _ =>
        0 <= n /\ n + zlen d <= Z.min size (zlen content) /\ ztake n content ++ d = ztake (n + zlen d) content /\
        feeding c (FileReader.setRing rd (qpop (FileReader.ring rd))) content (n + zlen d) size
    end.
Proof.
  intros (Hq & Ha & Hn & q & Hr & Hm & Et & Hf). exists q. split; [done|]. rewrite zlen_app in Hm.
  pose proof (zlen_nonneg (concat q)). pose proof (zlen_nonneg (inHand c)).
  destruct q as [|d q]; [lia|]. cbn [concat] in *. rewrite zlen_app in Hm. pose proof (zlen_nonneg d). pose proof (zlen_nonneg (concat q)).
  assert (Ed : ztake n content ++ d = ztake (n + zlen d) content).
  { rewrite <- !app_assoc, (app_assoc _ d) in Et. apply ztake_prefix in Et. rewrite zlen_app, zlen_ztake in Et by done.
    rewrite <- Et at 1. f_equal. lia. }
  split_and!; try done; try lia. split_and!; try done; [lia|]. exists q. split; [by apply (qpop_queued _ d)|].
  assert (Ez : n + zlen d + zlen (concat q ++ inHand c) = n + zlen ((d ++ concat q) ++ inHand c)) by (rewrite !zlen_app; lia).
  cbn zeta. rewrite Ez. split_and!; [rewrite !zlen_app; lia| |exact Hf].
  rewrite <- Ed, <- Et, <- !app_assoc. done.
Qed.

Lemma truns_pumpLoop fuel : forall w,
  base w -> sending w -> 8 - inFlightWrites (up w) < Z.of_nat fuel -> (0 < fuel)%nat ->
  truns (pumpLoop uv fuel) w (fun w' ok => base w' /\ if ok then sending w' else resting w').
Proof.
  induction fuel as [|fuel IH]; intros w Hb Hs Hfuel Hpos; [lia|]. cbn [pumpLoop]. do 2 tstep.
  unfold kMaxInFlightWrites. destruct (Z.ltb_spec (inFlightWrites (up w)) 8) as [Hlt|]; [|by tstep].
  pose proof Hs as (Hu & He & Hc & Hv & Htr & k & Hk & path & content & Ha & Hf & Hsz & Hcrc & Hsp & Hfeed).
  pose proof (b_flight _ _ _ _ _ _ _ Hb) as Hfl.
  destruct (feeding_next _ _ _ _ Hfeed) as (q & Hq & Hnext). do 3 tstep. eapply truns_lift; [by apply (qpeek_queued _ q)|].
  destruct q as [|d q]; cbn [head]; [by tstep|]. destruct Hnext as (Hn & Hle & Hd & Hfeed').
  destruct Hk as (Ek & Hcl & Hrd). destruct (b_sock _ _ _ _ _ _ _ Hb _ Ek) as [Hh _].
  do 3 tstep. eapply truns_send; [done|exact Ek|done| |].
  - intros k' _ Ew Hsame. do 4 tstep. change (0 <? 0) with false. cbv iota. do 3 tstep.
    match goal with |- truns _ ?W _ => set (w1 := W) end.
    assert (Hu64 : u64 (uploadSent (up w) + zlen d) = uploadSent (up w) + zlen d).
    { apply uwrap_small. pose proof (zlen_nonneg d). unfold is_uint in *. lia. }
    assert (Hi64 : u64 (inFlightWrites (up w) + 1) = inFlightWrites (up w) + 1) by (apply uwrap_small; unfold is_uint; lia).
    assert (Hsp' : spoken fs asked (TcpSocket.wire k') (begun (uploadFilename (up w)) (uploadTotal (up w)) (uploadSent (up w) + zlen d) content)).
    { unfold begun. rewrite <- Hd, app_assoc, Ew. by apply spoken_app. }
    assert (Hb1 : base w1).
    { apply base_up; [|cbn; lia]. apply base_reader; [|by eapply readerOk_pop; [apply Hb|exact Hq]|done].
      apply base_up; [|cbn; lia]. eapply base_socket; [by apply base_up|exact Ek|done|]. eexists. split; [exact Hsp'|].
      right. do 5 eexists. split_and!; [exact Ha|exact Hf| | |done]; pose proof (zlen_nonneg d); lia. }
    assert (Hs1 : sending w1).
    { destruct Hsame as (_ & Hc' & Hr'). unfold sending. cbn. split_and!; try done. exists k'. split.
      { split_and!; [done|by rewrite Hc'|by rewrite Hr']. }
      exists path, content. cbn. rewrite Hu64. split_and!; try done. by rewrite Hcrc, crc32_app, Hd. }
    eapply truns_mono; [by apply truns_reportProgress|]. intros w' _ (Hb' & Hs' & Hfl'). apply IH; [done|done| |].
    + rewrite Hfl'. cbn. rewrite Hi64. lia.
    + destruct fuel; lia.
  - intros k' rc Hrc Ew Hsame. do 4 tstep. rewrite (proj2 (Z.ltb_lt rc 0)) by done. tstep.
    eapply truns_mono; [apply truns_abortUpload; [| exact He|exact Hc]|].
    + apply base_reader; [|by eapply readerOk_pop; [apply Hb|exact Hq]|done]. apply base_up; [|cbn; by apply uwrap_range].
      eapply base_socket; [by apply base_up|exact Ek|done|]. rewrite Ew. by apply (b_spoken _ _ _ _ _ _ _ Hb).
    + intros w' ? Hw'. by tstep.
Qed.

Lemma truns_finishUpload w :
  base w -> sending w -> uploadTotal (up w) <= uploadSent (up w) ->
  truns (finishUpload uv) w (fun w' _ => base w' /\ (resting w' \/ receiving w')).
Proof.
  intros Hb (Hu & He & Hc & Hv & Htr & k & (Ek & Hcl & Hrd) & path & content & Ha & Hf & Hsz & Hcrc & Hsp & Hfeed) Hend.
  pose proof (feeding_next _ _ _ _ Hfeed) as (q & _ & Hq). destruct (b_sock _ _ _ _ _ _ _ Hb _ Ek) as [Hh _].
  assert (En : uploadSent (up w) = uploadTotal (up w) /\ uploadTotal (up w) <= zlen content).
  { destruct q as [|d q]; [lia|]. destruct Hq as (_ & Hle & _). pose proof (zlen_nonneg d). lia. }
  destruct En as [En Hlen]. rewrite En in *. clear q Hq Hend. set (data := ztake (uploadTotal (up w)) content) in *.
  assert (Hz : zlen data = uploadTotal (up w)) by (unfold data; rewrite zlen_ztake; unfold is_uint in Hsz; lia).
  assert (Hup : theUpload fs asked (uploadFilename (up w)) data) by (exists path, content; rewrite Hz; by split_and!).
  unfold finishUpload. do 4 tstep. cbn [up setUp uploadCrc setTrailerSent]. tstep. eapply truns_send; [done|exact Ek|done| |].
  - intros k' _ Ew (Hh' & Hc' & Hr'). change (0 <? 0) with false. cbv iota. unfold now. repeat tstep.
    assert (Hsp' : spoken fs asked (TcpSocket.wire k') (uploadStream (uploadFilename (up w)) data)).
    { unfold uploadStream. rewrite Hz, <- Hcrc, app_assoc, Ew. by apply spoken_app. }
    split.
    + apply base_down; [|apply reset_wf, Hb|apply Hb]. do 2 (apply base_event; [|done..]). apply base_up; [|apply Hb].
      eapply base_socket; [apply base_up; [done|apply Hb]|exact Ek|by split_and!|]. exists []. split; [|by left].
      eapply spoken_said; [exact Hsp'|by apply said_upload].
    + right. unfold receiving, resumes. cbn. split_and!; try done; [by rewrite Hc|]. exists k'. split_and!.
      * by split_and!; [|rewrite Hc'|rewrite Hr'].
      * eapply spoken_said; [exact Hsp'|by apply said_upload].
      * intros _. exists data. by split_and!.
  - intros k' rc Hrc Ew Hsame. rewrite (proj2 (Z.ltb_lt rc 0)) by done.
    eapply truns_mono; [apply truns_abortUpload; [|exact He|exact Hc]|]; [|intros w' ? [? ?]; by split; [|left]].
    eapply base_socket; [apply base_up; [done|apply Hb]|exact Ek|done|]. rewrite Ew. by apply (b_spoken _ _ _ _ _ _ _ Hb).
Qed.

Lemma sending_of w : active w -> uploading (up w) = true -> sending w.
Proof. intros [(E & _)|[Hs|(E & _)]] Hu; [congruence|done|congruence]. Qed.

Lemma truns_pumpUpload w : base w -> active w -> truns (pumpUpload uv) w (fun w' _ => base w' /\ active w').
Proof.
  intros Hb Hw. unfold pumpUpload. do 4 tstep. destruct (uploading (up w)) eqn:Eu; cbn [negb orb]; [|by tstep].
  pose proof (sending_of w Hw Eu) as Hs. pose proof Hs as (_ & _ & _ & _ & _ & k & (-> & -> & _) & _). do 2 tstep.
  assert (Hgive : forall w', base w' /\ resting w' -> base w' /\ active w') by (intros w' [? ?]; split; [done|by left]).
  destruct (FileReader.failed (reader w)).
  { do 2 tstep. eapply truns_mono; [apply truns_giveUp|]; [by apply base_reader; [|apply Hb|]|exact Hs|]. intros w' ? Hw'. by apply Hgive. }
  tstep. eapply truns_mono; [apply truns_pumpLoop; [done|done| |lia]|].
  { pose proof (b_flight _ _ _ _ _ _ _ Hb). lia. }
  intros w' [|] [Hb' Hs']; cbn [negb]; [|tstep; by apply Hgive]. do 4 tstep. destruct (_ && _ && _ && _) eqn:E; [|tstep; split; [done|by right; left]].
  apply andb_true_iff in E as [_ E%Z.leb_le]. eapply truns_mono; [by apply truns_finishUpload|].
  intros w2 ? [Hb2 [Hr|Hr]]; (split; [done|]); [by left|by right; right].
Qed.
End Sending.
