(* ===== verification/ClientCommands.v ===== *)
(** * The client's commands and connection callbacks *)

From S2P Require Import Prelude StringView Crc32 Protocol Codec Framer Ring Net Exchange Effects FileReader ClientUi Window TransferService Client ClientInv ClientSend Level.

(** ** What commands do to the socket *)
Section Stable.
Context (uv : Uv) (fs : Files) {Q : Type} `{HQ : ChunkQueue Q}.
Context (R : option TcpSocket.t -> Prop).
Context (Rsend : forall k d, R (Some k) -> R (Some (TcpSocket.send uv k d).1)).
Context (Rclose : forall k, R (Some k) -> R (Some (TcpSocket.close uv k))).
Import TransferService.
Abbreviation keeps := (preserves (fun w : TransferService.t (Q := Q) => R (socket w))).

Lemma keeps_send d : keeps (send uv d).
Proof.
  intros w w' rc E Hw. unfold send, onSocket in E. destruct (socket w) as [k|]; [|done].
  destruct (TcpSocket.send uv k d) as [k' rc'] eqn:Es. injection E as <- _. cbn. specialize (Rsend _ d Hw). by rewrite Es in Rsend.
Qed.
Lemma keeps_close : keeps (closeSocket uv).
Proof.
  intros w w' [] E Hw. unfold closeSocket, sbind, sget in E. cbn in E. destruct (socket w) as [k|] eqn:Ek; [|by injection E as <-; rewrite Ek].
  destruct (TcpSocket.closing k); injection E as <-; [by rewrite Ek|]. cbn. by apply Rclose.
Qed.

Ltac keep1 := first
  [ apply keeps_send | apply keeps_close | apply preserves_bind; [|intros ?] | apply preserves_get | apply preserves_ret
  | apply preserves_lift | apply preserves_mod; intros ? ?; assumption | progress cbv beta zeta | progress case_match ].
Ltac keep := repeat keep1.

Lemma keeps_handleDisconnect : keeps (handleDisconnect uv).
Proof. unfold handleDisconnect. keep. Qed.
Lemma keeps_handleCancel : keeps (handleCancel uv).
Proof. unfold handleCancel. keep. Qed.
Lemma keeps_handleRequestResult : keeps (handleRequestResult uv).
Proof. unfold handleRequestResult. keep. Qed.
Lemma keeps_startUploadDrain : keeps startUploadDrain.
Proof. unfold startUploadDrain, drainRing. keep. Qed.
Lemma keeps_pumpLoop fuel : keeps (pumpLoop uv fuel).
Proof. induction fuel as [|fuel IH]; [done|]. cbn [pumpLoop]. keep; apply IH. Qed.
Lemma keeps_startUploadBegin path name size : keeps (startUploadBegin uv fs path name size).
Proof. pose proof (keeps_pumpLoop 9) as Hp. unfold startUploadBegin, pumpUpload. repeat first [exact Hp | keep1]. Qed.
End Stable.

(** ** The handlers keep the invariant *)
Section Commands.
Context (uv : Uv) (fs : Files) {Q : Type} `{HQ : ChunkQueue Q}.
Context (Hwrite : forall n d, uv_write uv n d <= 0) (Hstop : forall n, uv_timer_stop uv n = 0).
Context (asked : list Command) (c : FileReader.pc) (v : Seen) (cs : list Command) (qt : bool).
Import TransferService.
Implicit Types w : TransferService.t (Q := Q).
Abbreviation base := (ClientInv.base fs asked c v cs qt).
Abbreviation resting := (ClientInv.resting fs asked v).
Abbreviation sending := (ClientInv.sending fs asked c).
Abbreviation receiving := (ClientInv.receiving fs asked).
Abbreviation active := (ClientInv.active fs asked c v).
Abbreviation over := (ClientInv.over cs qt).

Lemma base_timer w tm : base w -> timerQuiet tm \/ (forall k, socket w = Some k -> TcpSocket.reading k = false) -> base (setTimer w tm).
Proof.
  intros Hb Ht. destruct Hb. constructor; cbn; try done. intros k Ek. destruct (b_sock k Ek) as [Hh _]. split; [done|].
  intros Hr. destruct Ht as [Ht|Ht]; [done|]. specialize (Ht k Ek). congruence.
Qed.

(** The connection goes and the screen is told. *)
Lemma base_dropped w : base w -> base (setSocket (addEvent w (linkEvent LinkState.Disconnected)) (closedSock uv (socket w))).
Proof.
  intros Hb. assert (Hcl : forall k, closedSock uv (socket w) = Some k -> TcpSocket.closing k = true).
  { intros k. apply closed_closing. intros k' Ek'. by apply (b_sock _ _ _ _ _ _ _ Hb). }
  destruct (base_closed uv _ _ _ _ _ _ _ Hb). constructor; cbn in *; try done; rewrite caughtUp_app; cbn; [|done].
  destruct (closedSock uv (socket w)) as [k|]; [|done]. specialize (Hcl k eq_refl). congruence.
Qed.

(** A socket that is not up leaves only one thing the worker can be doing. *)
Lemma active_down w : active w -> (forall k, socket w = Some k -> TcpSocket.closing k = true \/ TcpSocket.reading k = false) -> resting w.
Proof.
  intros [Hr|[Hs|Hr]] Hk; [done| |].
  - destruct Hs as (_ & _ & _ & _ & _ & k & (Ek & Hc & Hrd) & _). destruct (Hk k Ek); congruence.
  - destruct Hr as (_ & _ & (k & (Ek & Hc & Hrd) & _) & _). destruct (Hk k Ek); congruence.
Qed.

Lemma truns_stopTimer w (P : TransferService.t -> unit -> Prop) :
  base w -> (forall tm, timerQuiet tm -> base (setTimer w tm) -> P (setTimer w tm) tt) -> truns (stopTimer uv) w P.
Proof.
  intros Hb HP. unfold stopTimer. tstep. apply HP; [by apply stop_quiet|]. apply base_timer; [done|]. left. by apply stop_quiet.
Qed.

Lemma truns_onSocket f w k (P : TransferService.t -> Z -> Prop) :
  socket w = Some k -> P (setSocket w (Some (f k).1)) (f k).2 -> truns (onSocket f) w P.
Proof. intros Ek HP. unfold truns, onSocket. rewrite Ek. destruct (f k) as [k' rc]. by eexists _, _. Qed.

Lemma connect_facts k ip port :
  sameLink k (TcpSocket.connect uv k ip port).1 /\ TcpSocket.wire (TcpSocket.connect uv k ip port).1 = TcpSocket.wire k /\
  (0 <= (TcpSocket.connect uv k ip port).2 -> TcpSocket.handle k = true).
Proof. unfold TcpSocket.connect. destruct (TcpSocket.handle k) eqn:E; cbn; [|split_and!; cbn; try done; lia]. by repeat case_match. Qed.

Lemma truns_query {A} (f : TcpSocket.t -> A) w k (P : TransferService.t -> A -> Prop) :
  socket w = Some k -> P w (f k) -> truns (onSocket' f) w P.
Proof. intros Ek HP. unfold truns, onSocket'. rewrite Ek. by eexists _, _. Qed.

(** A new connection: nothing was said on it, and the screen knows of it. *)
Lemma base_connecting w k tm :
  base w -> TcpSocket.handle k = true -> TcpSocket.reading k = false -> TcpSocket.wire k = [] ->
  base (setTimer (setSocket (addEvent w (linkEvent LinkState.Reconnecting)) (Some k)) tm).
Proof.
  intros Hb Hh Hr Hw. destruct Hb. constructor; cbn; try done; rewrite ?caughtUp_app; cbn; try done.
  - intros k0 [= <-]. split; [done|]. congruence.
  - intros k0 [= <-]. exists []. rewrite Hw. split; [by exists []|by left].
Qed.

(** What [base] and the phases do not look at. *)
Lemma base_ignored w w' :
  base w -> reader w' = reader w -> down w' = down w -> up w' = up w -> socket w' = socket w -> connectTimer w' = connectTimer w ->
  hasClaim w' = hasClaim w -> claim w' = claim w -> events w' = events w -> commands w' = commands w -> quitting w' = quitting w ->
  base w'.
Proof. intros Hb E1 E2 E3 E4 E5 E6 E7 E8 E9 E10. destruct Hb. by constructor; rewrite ?E1, ?E2, ?E3, ?E4, ?E5, ?E6, ?E7, ?E8, ?E9, ?E10. Qed.

Lemma resting_event w e : resting w -> match ev_session e with Some x => isBusy x = false | None => True end -> resting (addEvent w e).
Proof.
  intros (Hu & He & Hr & Hb & Hk) Hs. split_and!; try done. cbn. rewrite caughtUp_app. cbn. by destruct (ev_session e).
Qed.

(** A log line changes nothing the invariant looks at. *)
Lemma kept_log w level m : base w -> active w -> base (addEvent w (logEvent level m)) /\ active (addEvent w (logEvent level m)).
Proof.
  intros Hb Hw. split; [by apply base_event|]. destruct Hw as [Hr|[Hs|Hr]]; [left; by apply resting_event|right; left; exact Hs|right; right; exact Hr].
Qed.
Lemma truns_log level m w : base w -> active w -> truns (pushLog level m) w (fun w' _ => base w' /\ active w').
Proof. intros Hb Hw. tstep. by apply kept_log. Qed.

Lemma truns_handleConnect ip port w : base w -> active w -> truns (handleConnect uv ip port) w (fun w' _ => base w' /\ active w').
Proof.
  intros Hb Hw. unfold handleConnect. do 2 tstep. destruct (socket w) as [k|] eqn:Ek; [by apply truns_log|].
  pose proof (active_down _ Hw) as Hr. destruct Hr as (Hu & He & Hre & Hbusy & _); [by rewrite Ek|].
  tstep. unfold beginConnect. repeat tstep. eapply truns_onSocket; [done|].
  match goal with |- context [TcpSocket.connect uv ?k ip port] => destruct (connect_facts k ip port) as ((Hh & Hc & Hrd) & Hwi & Hpos) end.
  destruct (TcpSocket.connect _ _ _ _) as [k rc]. cbn [fst snd] in *. cbn in Hc, Hrd, Hwi. destruct (Z.ltb_spec rc 0).
  - repeat tstep. split.
    + destruct Hb. constructor; cbn; try done; rewrite !caughtUp_app; by cbn.
    + left. unfold resting, resumes. cbn. rewrite !caughtUp_app. by split_and!.
  - repeat tstep. rewrite Hpos in Hh by done. split.
    + apply base_event; [|done..]. eapply base_ignored; [eapply (base_connecting w k); [done|done|done|done]|try done..]; cbn; by destruct (connectTimer w).
    + left. unfold resting, resumes. cbn. destruct (connectTimer w); cbn; rewrite !caughtUp_app; cbn; split_and!; try done; intros k0 [= <-] _; rewrite Hwi; by exists [].
Qed.

Lemma resting_closed w k : base w -> resting w -> k = closedSock uv (socket w) -> resting (setSocket w k).
Proof.
  intros Hb (Hu & He & Hr & Hbu & Hk) ->. split_and!; try done. intros k Ek Hc. exfalso. by apply (closed_none uv fs asked c v cs qt w k).
Qed.

Lemma resting_of w : active w -> uploading (up w) = false -> expecting (down w) = Expecting.Nothing -> resting w.
Proof. intros [Hr|[(Hu & _)|(_ & _ & _ & Hm)]] Hu' He; [done|congruence|]. by rewrite He in Hm. Qed.

Lemma truns_ended {A} (m : SM TransferService.t A) w :
  truns m w (fun w' _ => base w' /\ resting w') -> truns m w (fun w' _ => base w' /\ active w').
Proof. intros Hm. eapply truns_mono; [exact Hm|]. intros w' ? [? ?]. split; [done|by left]. Qed.

Lemma truns_handleDisconnect w : base w -> active w -> truns (handleDisconnect uv) w (fun w' _ => base w' /\ active w').
Proof.
  intros Hb Hw. unfold handleDisconnect. tstep. apply truns_stopTimer; [done|]. intros tm _ Hb1. set (w1 := setTimer w tm) in *.
  assert (Hw1 : active w1) by exact Hw. clearbody w1. clear w Hb Hw.
  repeat tstep. destruct (socket w1) as [k|] eqn:Ek1.
  - repeat tstep. destruct (kept_log w1 LogLevel.Info (bs "Disconnecting.") Hb1 Hw1) as [Hb2 Hw2].
    set (w2 := addEvent w1 _) in *. assert (Eu2 : up w2 = up w1 /\ down w2 = down w1) by done. destruct Eu2 as [<- <-]. clearbody w2. clear w1 Hb1 Hw1 Ek1.
    destruct (uploading (up w2)) eqn:Eu; [apply truns_ended, truns_giveUp; [done|by eapply sending_of]|].
    case_bool_decide as Ee; cbn [negb]; [|by apply truns_ended, truns_failSession].
    apply truns_closeSocket. split; [by apply base_closed|]. left. apply resting_closed; [done|by apply resting_of|done].
  - tstep. pose proof (active_down _ Hw1) as Hr. rewrite Ek1 in Hr. split; [|left; by apply resting_event; [apply Hr|]].
    destruct Hb1. rewrite Ek1 in *. constructor; cbn; rewrite ?Ek1, ?caughtUp_app; cbn; try done.
Qed.

Lemma truns_handleCancel w : base w -> active w -> truns (handleCancel uv) w (fun w' _ => base w' /\ active w').
Proof.
  intros Hb Hw. unfold handleCancel. repeat tstep. destruct (uploading (up w)) eqn:Eu; [|by tstep].
  apply truns_ended, truns_giveUp; [done|by eapply sending_of].
Qed.

(** A socket that is up, or on its way down. *)
Definition upOrDown (k : option TcpSocket.t) : Prop :=
  match k with Some k => TcpSocket.reading k = true \/ TcpSocket.closing k = true | None => False end.

Lemma spoken_of w k : active w -> uploading (up w) = false -> socket w = Some k -> TcpSocket.closing k = false ->
  spoken fs asked (TcpSocket.wire k) [] /\ resumes w.
Proof.
  intros [(_ & _ & Hr & _ & Hk)|[(Hu & _)|(_ & Hr & (k' & (Ek' & _) & Hs & _) & _)]] Hu' Ek Hc; [by split; [apply Hk|]|congruence|].
  rewrite Ek in Ek'. by injection Ek' as <-.
Qed.

Lemma truns_handleRequestResult w :
  base w -> active w -> (forall k, socket w = Some k -> upOrDown (Some k)) ->
  truns (handleRequestResult uv) w (fun w' _ => base w' /\ active w').
Proof.
  intros Hb Hw Hk. unfold handleRequestResult. repeat tstep. destruct (hasClaim w) eqn:Ec; cbn [negb]; [|by apply truns_log].
  destruct (socket w) as [k|] eqn:Ek; [|by apply truns_log]. destruct (b_sock _ _ _ _ _ _ _ Hb _ Ek) as [Hh _].
  assert (Hu : uploading (up w) = false).
  { destruct (uploading (up w)) eqn:Eu; [|done]. destruct (sending_of _ _ _ _ _ Hw Eu) as (_ & _ & ? & _). congruence. }
  destruct (b_claim _ _ _ _ _ _ _ Hb Ec) as (data & Hup & E1 & E2).
  tstep. eapply truns_send; [done|exact Ek|done| |].
  - intros k' Hcl Ew (Hh' & Hc' & Hr'). cbn [negb Z.eqb]. repeat tstep. destruct (spoken_of w k Hw Hu Ek Hcl) as [Hsp Hre].
    assert (Hsp' : spoken fs asked (TcpSocket.wire k') []).
    { rewrite Ew. eapply spoken_said; [by apply spoken_app|]. cbn [app]. rewrite E1, E2. apply said_request; [done|].
      rewrite (Hre Ec). pose proof (b_csv _ _ _ _ _ _ _ Hb). pose proof (zlen_nonneg (csv (down w))). lia. }
    destruct (Hk k eq_refl) as [Hrd|]; [|congruence]. split.
    + do 2 (apply base_event; [|done..]). eapply base_ignored; [apply (base_down _ _ _ _ _ _ (setSocket w (Some k'))
        (setExpecting (setFramer (down w) (Framer.reset2 (framer (down w)) MessageType.Ack MessageType.ResultHeader)) Expecting.ResumeReply))|done..].
      * eapply base_socket; [done|exact Ek|by split_and!|]. exists []. split; [done|by left].
      * pose proof (b_framer _ _ _ _ _ _ _ Hb) as [Hf _]. by split.
      * apply Hb.
    + right. right. unfold receiving. cbn. split_and!; try done. exists k'. split_and!; [|done|done].
      by split_and!; [|rewrite Hc'|rewrite Hr'].
  - intros k' rc Hrc Ew Hsame. rewrite (proj2 (Z.eqb_neq rc 0)) by lia. cbn [negb]. apply truns_ended, truns_failSession.
    eapply base_socket; [done|exact Ek|done|]. rewrite Ew. by apply (b_spoken _ _ _ _ _ _ _ Hb).
Qed.

Lemma truns_startUploadDrain w :
  base w -> active w ->
  truns startUploadDrain w (fun w' go => base w' /\ active w' /\
    (go = true -> uploading (up w') = false /\ exists k, socket w' = Some k /\ TcpSocket.closing k = false)).
Proof.
  intros Hb Hw. unfold startUploadDrain. repeat tstep. pose proof (fun l m => kept_log w l m Hb Hw) as Hlog.
  destruct (uploading (up w)) eqn:Eu; [by repeat tstep; split_and!; try apply Hlog|].
  destruct (socket w) as [k|] eqn:Ek; [|by repeat tstep; split_and!; try apply Hlog].
  destruct (TcpSocket.closing k) eqn:Ec; [by repeat tstep; split_and!; try apply Hlog|].
  tstep. apply (truns_drainRing c); [apply Hb|]. intros r Hr Hok. tstep. split_and!; [by apply base_reader| |].
  - destruct Hw as [Hw|[(Hu & _)|Hw]]; [by left|congruence|by right; right].
  - intros _. split; [done|]. by exists k.
Qed.

(** An upload that has just begun: the reader has opened the file. *)
Lemma feeding_begun rd content size :
  FileReader.quit rd = false -> queued (FileReader.ring rd) [] -> c = FileReader.RWait -> 0 <= size ->
  feeding c (FileReader.mk (FileReader.ring rd) true (FileReader.quit rd) (Some content) size [] false false false) content 0 size.
Proof.
  intros Hq Hr -> Hs. split_and!; try done. exists []. split; [done|]. cbn -[ztake zdrop]. pose proof (zlen_nonneg content).
  change (zlen []) with 0. split_and!; [lia|done|]. intros _. rewrite Z.sub_0_r. done.
Qed.

Lemma base_unclaimed w : base w -> base (addEvent (setClaim w false noClaim) (claimEvent false)).
Proof. intros Hb. destruct Hb. constructor; cbn; try done; by rewrite caughtUp_app. Qed.

Lemma truns_startUploadBegin path name size w k :
  base w -> active w -> uploading (up w) = false -> live w k -> qt = false -> qempty (FileReader.ring (reader w)) = true ->
  StartUploadCommand path name size ∈ asked -> is_uint 64 size ->
  truns (startUploadBegin uv fs path name size) w (fun w' _ => base w' /\ active w').
Proof.
  intros Hb Hw Hu Hk Hqt Hem Ha Hsz. pose proof (b_reader _ _ _ _ _ _ _ Hb) as (Hrem & (q & Hq) & Hc & Hwait).
  rewrite (qempty_queued _ _ Hq) in Hem. apply bool_decide_eq_true in Hem as ->.
  unfold startUploadBegin. repeat tstep. unfold FileReader.beginUpload.
  assert (Er : setReader w (reader w) = w) by by destruct w.
  destruct (FileReader.uploading (reader w)) eqn:Eu; [repeat tstep; rewrite Er; by apply kept_log|].
  destruct (fs path) as [content|] eqn:Ef; [|repeat tstep; rewrite Er; by apply kept_log].
  assert (Hnq : FileReader.quit (reader w) = false).
  { destruct (FileReader.quit (reader w)) eqn:E; [|done]. apply (b_stopped _ _ _ _ _ _ _ Hb) in E. congruence. }
  destruct (Hwait eq_refl) as [Ec|]; [|congruence]. destruct Hk as (Ek & Hcl & Hrd).
  destruct (b_sock _ _ _ _ _ _ _ Hb _ Ek) as [Hh _]. destruct (spoken_of w k Hw Hu Ek Hcl) as [Hsp _].
  repeat tstep. unfold dropResultClaim. repeat tstep.
  match goal with |- truns _ ?W _ => set (w1 := W) end.
  assert (Hb1 : base w1).
  { do 2 (apply base_event; [|done..]). eapply base_ignored; [apply base_down|done..]; [apply base_up; [apply base_unclaimed, base_up|]| |].
    - apply base_reader; [done| |done]. split_and!; [done|by exists []| |done]. rewrite Ec. by exists content.
    - cbn. apply Hb.
    - done.
    - apply Hb.
    - done. }
  assert (Hfeed : feeding c (reader w1) content 0 size) by (apply feeding_begun; [done|done|done|apply Hsz]).
  eapply truns_send; [done|exact Ek|done| |].
  - intros k' _ Ew (Hh' & Hc' & Hr'). change (0 <? 0) with false. cbv iota. unfold now. repeat tstep. apply truns_pumpUpload; [done| |].
    + apply base_up; [|done]. do 2 (apply base_event; [|done..]). eapply base_socket; [exact Hb1|exact Ek|by split_and!|].
      exists (begun name size 0 content). split.
      { unfold begun. rewrite Ew. change (ztake 0 content) with (@nil byte). rewrite app_nil_r. by apply (spoken_app _ _ _ []). }
      right. exists path, name, size, content, 0. pose proof (zlen_nonneg content). unfold is_uint in Hsz. split_and!; try done; lia.
    + right. left. unfold sending. cbn. split_and!; try done. exists k'. split; [by split_and!; [|rewrite Hc'|rewrite Hr']|].
      exists path, content. cbn. split_and!; try done.
      unfold begun. rewrite Ew. change (ztake 0 content) with (@nil byte). rewrite app_nil_r. by apply (spoken_app _ _ _ []).
  - intros k' rc Hrc Ew Hsame. rewrite (proj2 (Z.ltb_lt rc 0)) by done. apply truns_ended, truns_abortUpload; [|done|done].
    eapply base_socket; [exact Hb1|exact Ek|done|]. exists []. rewrite Ew. split; [done|by left].
Qed.

Lemma truns_handleQuit w :
  base w -> truns (handleQuit uv) w (fun w' _ => ClientInv.base fs asked c v cs true w' /\ uploading (up w') = false /\
    forall k, socket w' = Some k -> TcpSocket.closing k = true).
Proof.
  intros Hb. unfold handleQuit. repeat tstep. apply truns_closeSocket. repeat tstep. cbn.
  assert (Hb1 : base (setTimer w None)) by (apply base_timer; [done|left; by intros ?]).
  apply (base_closed uv) in Hb1. cbn in Hb1. split_and!; [|done|].
  - destruct Hb1. constructor; cbn in *; try done.
  - intros k. apply closed_closing. intros k' Ek'. by apply (b_sock _ _ _ _ _ _ _ Hb).
Qed.
End Commands.

(** ** The queue of commands *)
Section Queue.
Context (uv : Uv) (fs : Files) {Q : Type} `{HQ : ChunkQueue Q}.
Context (Hwrite : forall n d, uv_write uv n d <= 0) (Hstop : forall n, uv_timer_stop uv n = 0).
Context (asked : list Command) (c : FileReader.pc) (v : Seen).
Import TransferService.
Implicit Types w : TransferService.t (Q := Q).
Abbreviation base := (ClientInv.base fs asked c v).
Abbreviation active := (ClientInv.active fs asked c v).

(** [stop] waits for the loop after it has posted its command. *)
Definition quitLast (cs : list Command) : Prop := forall a b, cs = a ++ QuitCommand :: b -> b = [].

Lemma quitLast_tail x cs : quitLast (x :: cs) -> quitLast cs.
Proof. intros H a b ->. by apply (H (x :: a)). Qed.

(** The socket is not in the middle of connecting, and will not be. *)
Definition settledFor (cs : list Command) w : Prop :=
  upOrDown (socket w) \/ socket w = None /\ existsb Client.isConnect cs = false.

Lemma upOrDown_send k d : upOrDown (Some k) -> upOrDown (Some (TcpSocket.send uv k d).1).
Proof. unfold upOrDown. by rewrite send_closing, send_reading. Qed.
Lemma upOrDown_close k : upOrDown (Some k) -> upOrDown (Some (TcpSocket.close uv k)).
Proof.
  unfold upOrDown. intros H. destruct (TcpSocket.handle k) eqn:Eh; [right; by apply close_closing|]. unfold TcpSocket.close. by rewrite Eh.
Qed.

(** A handler that keeps the socket settles nothing anew. *)
Lemma truns_settled {A} (m : SM TransferService.t A) w x cs (P : TransferService.t -> A -> Prop) :
  (forall R : option TcpSocket.t -> Prop, (forall k d, R (Some k) -> R (Some (TcpSocket.send uv k d).1)) ->
     (forall k, R (Some k) -> R (Some (TcpSocket.close uv k))) -> preserves (fun w => R (socket w)) m) ->
  (existsb Client.needsLink (x :: cs) = true -> settledFor (x :: cs) w) ->
  truns m w P -> truns m w (fun w' a => P w' a /\ (existsb Client.needsLink (x :: cs) = true -> settledFor cs w')).
Proof.
  intros Hm Hs (w' & a & E & HP). exists w', a. split; [done|]. split; [done|]. intros Hn. destruct (Hs Hn) as [Hs'|[Hs' Hx]].
  - left. by eapply (Hm upOrDown upOrDown_send upOrDown_close).
  - right. apply orb_false_iff in Hx as [_ Hx]. split; [|done].
    by eapply (Hm (fun k => k = None)).
Qed.

Lemma base_commands cs cs' qt w : base cs qt w -> base cs' qt (setCommands w cs').
Proof. intros Hb. destruct Hb. by constructor. Qed.

(** Where [drainCommands] leaves the worker when the queue was [cs0]. *)
Definition drained (cs0 : list Command) w (r : option (bytes * bytes * Z)) : Prop :=
  match r with
  | None => exists qt, base [] qt w /\ (qt = false /\ active w \/ over [] qt w) /\ (qt = true -> QuitCommand ∈ cs0)
  | Some (path, name, size) =>
      exists cs k, base cs false w /\ active w /\ uploading (up w) = false /\ live w k /\
        StartUploadCommand path name size ∈ asked /\ exists a, cs0 = a ++ cs
  end.

Lemma drained_cons x cs w r : drained cs w r -> drained (x :: cs) w r.
Proof.
  destruct r as [[[path name] size]|].
  - intros (cs' & k & ? & ? & ? & ? & ? & a & ->). exists cs', k. split_and!; try done. by exists (x :: a).
  - intros (qt & ? & ? & Hq). exists qt. split_and!; try done. intros Ht. right. by apply Hq.
Qed.

Lemma truns_drainCommands fuel : forall cs w,
  base cs false w -> active w -> Forall (fun x => x ∈ asked) cs -> quitLast cs ->
  (existsb Client.needsLink cs = true -> settledFor cs w) -> (length cs < fuel)%nat -> truns (drainCommands uv fuel) w (drained cs).
Proof.
  induction fuel as [|fuel IH]; intros cs w Hb Hw Ha Hql Hs Hf; [lia|]. cbn [drainCommands]. do 2 tstep. rewrite (b_cmds _ _ _ _ _ _ _ Hb).
  destruct cs as [|x cs]; [tstep; exists false; split_and!; [done|by left|done]|]. cbn in Hf. pose proof (Forall_inv Ha) as Hx. apply Forall_inv_tail in Ha.
  do 2 tstep. apply (base_commands _ cs) in Hb. pose proof (quitLast_tail _ _ Hql) as Hql'.
  set (w0 := setCommands w cs) in *. assert (Hw0 : active w0) by exact Hw.
  assert (Hs0 : existsb Client.needsLink (x :: cs) = true -> settledFor (x :: cs) w0) by exact Hs. clearbody w0. clear Hs Hw w.
  assert (Hnext : forall w', (base cs false w' /\ active w') /\ (existsb Client.needsLink (x :: cs) = true -> settledFor cs w') ->
            truns (drainCommands uv fuel) w' (drained (x :: cs))).
  { intros w' [[? ?] Hs']. eapply truns_mono; [apply (IH cs); [done..| |lia]|intros; by apply drained_cons]. intros Hn. apply Hs'. cbn. by rewrite Hn, orb_true_r. }
  destruct x as [ip port| |path name size| | |]; tstep.
  - (* Connect: it settles nothing, and nothing behind it needs a link unless a socket is there *)
    destruct (socket w0) as [k|] eqn:Ek.
    + unfold handleConnect. do 2 tstep. rewrite Ek. tstep. apply Hnext. split; [by apply (kept_log fs asked c v cs false)|]. intros Hn. destruct (Hs0 Hn) as [Hs|[Hs _]]; [by left|congruence].
    + eapply truns_mono; [by apply truns_handleConnect|]. intros w' ? Hw'. apply Hnext. split; [done|]. intros Hn. exfalso.
      destruct (Hs0 Hn) as [Hs|[_ Hs]]; [by rewrite Ek in Hs|done].
  - eapply truns_mono; [eapply (truns_settled _ _ _ cs); [|exact Hs0|by apply (truns_handleDisconnect uv fs Hstop asked c v cs false)]|]; [|intros w' ? Hw'; by apply Hnext].
    intros R H1 H2. by apply keeps_handleDisconnect.
  - eapply truns_mono; [eapply (truns_settled _ _ _ cs); [|exact Hs0|by apply (truns_startUploadDrain fs asked c v cs false)]|].
    { intros R H1 H2. apply keeps_startUploadDrain. }
    intros w' go ((Hb' & Hw' & Hgo) & Hs'). destruct go; [|by apply Hnext]. tstep. destruct (Hgo eq_refl) as (Hu & k & Ek & Hc).
    exists cs, k. split_and!; try done; [|by exists [StartUploadCommand path name size]]. destruct (Hs' eq_refl) as [Hud|[? _]]; [|congruence]. rewrite Ek in Hud.
    split_and!; [done|done|]. destruct Hud; congruence.
  - eapply truns_mono; [eapply (truns_settled _ _ _ cs); [|exact Hs0|by apply (truns_handleCancel uv fs asked c v cs false)]|]; [|intros w' ? Hw'; by apply Hnext].
    intros R H1 H2. by apply keeps_handleCancel.
  - eapply truns_mono; [eapply (truns_settled _ _ _ cs); [|exact Hs0|apply (truns_handleRequestResult uv fs Hwrite asked c v cs false); [done..|]]|]; [| |intros w' ? Hw'; by apply Hnext].
    { intros R H1 H2. by apply keeps_handleRequestResult. }
    intros k Ek. destruct (Hs0 eq_refl) as [Hu|[Hu _]]; [by rewrite Ek in Hu|congruence].
  - rewrite (Hql [] cs eq_refl) in *.
    eapply truns_mono; [by apply (truns_handleQuit uv fs asked c v [] false)|]. intros w' ? (Hb' & Hu' & Hc').
    destruct fuel as [|fuel]; [lia|]. cbn [drainCommands]. do 2 tstep. rewrite (b_cmds _ _ _ _ _ _ _ Hb'). tstep.
    exists true. split_and!; [done|by right|]. intros _. by left.
Qed.

Lemma truns_onAsyncCb cs w :
  base cs false w -> active w -> Forall (fun x => x ∈ asked) cs -> quitLast cs ->
  (existsb Client.needsLink cs = true -> settledFor cs w) -> truns (onAsyncCb uv) w (drained cs).
Proof.
  intros Hb Hw Ha Hql Hs. unfold onAsyncCb. do 3 tstep. rewrite (b_cmds _ _ _ _ _ _ _ Hb).
  eapply truns_mono; [apply (truns_drainCommands _ cs); [done..|lia]|]. intros w' [p|] Hd; [by tstep|]. destruct Hd as (qt & Hb' & Hw' & Hqt).
  tstep. apply truns_mono with (P := fun w' _ => drained cs w' None); [|intros w2 ? Hd; by tstep]. destruct Hw' as [[-> Hw']|Ho].
  - eapply truns_mono; [by apply truns_pumpUpload|]. intros w2 ? [? ?]. exists false. split_and!; [done|by left|done].
  - unfold pumpUpload. repeat tstep. destruct Ho as (? & ? & Hu & ?). rewrite Hu. cbn [negb orb]. tstep. exists qt. split_and!; [done|by right|done].
Qed.
End Queue.

(** ** Callbacks of the socket and the timer *)
Section Callbacks.
Context (uv : Uv) (fs : Files) {Q : Type} `{HQ : ChunkQueue Q}.
Context (Hwrite : forall n d, uv_write uv n d <= 0) (Hstop : forall n, uv_timer_stop uv n = 0).
Context (asked : list Command) (c : FileReader.pc) (v : Seen) (cs : list Command) (qt : bool).
Import TransferService.
Implicit Types w : TransferService.t (Q := Q).
Abbreviation base := (ClientInv.base fs asked c v cs qt).
Abbreviation resting := (ClientInv.resting fs asked v).
Abbreviation active := (ClientInv.active fs asked c v).
Abbreviation over := (ClientInv.over cs qt).
Definition working w : Prop := active w \/ over w.

(** The worker gives the connection up. *)
Lemma truns_drop w :
  base w -> resting w \/ over w ->
  truns (do _ <- pushLink LinkState.Disconnected; closeSocket uv)%eff w (fun w' _ => base w' /\ (resting w' \/ over w')).
Proof.
  intros Hb Hw. repeat tstep. apply truns_closeSocket. split; [exact (base_dropped uv fs asked c v cs qt w Hb)|]. destruct Hw as [Hr|(H1 & H2 & H3 & H4)].
  - left. apply resting_event with (e := linkEvent LinkState.Disconnected) in Hr; [|done]. destruct Hr as (Hu & He & Hre & Hbu & _).
    split_and!; try done. intros k Ek Hc. exfalso. by apply (closed_none uv fs asked c v cs qt w k).
  - right. split_and!; try done. intros k. apply closed_closing. intros k' Ek'. by apply (b_sock _ _ _ _ _ _ _ Hb).
Qed.

Lemma working_down w : working w -> (forall k, socket w = Some k -> TcpSocket.closing k = true \/ TcpSocket.reading k = false) -> resting w \/ over w.
Proof. intros [Hw|Ho] Hk; [left; by eapply active_down|by right]. Qed.

Lemma truns_working {A} (m : SM TransferService.t A) w :
  truns m w (fun w' _ => base w' /\ (resting w' \/ over w')) -> truns m w (fun w' _ => base w' /\ working w').
Proof. intros Hm. eapply truns_mono; [exact Hm|]. intros w' ? [? [?|?]]; (split; [done|]); [by left; left|by right]. Qed.

Lemma working_log w level m : base w -> working w -> base (addEvent w (logEvent level m)) /\ working (addEvent w (logEvent level m)).
Proof.
  intros Hb [Hw|Ho]; [|split; [by apply base_event|right; exact Ho]]. destruct (kept_log fs asked c v cs qt w level m Hb Hw). by split; [|left].
Qed.

Lemma truns_onError status where_ w : base w -> working w -> truns (onError uv status where_) w (fun w' _ => base w' /\ working w').
Proof.
  intros Hb Hw. unfold onError. repeat tstep.
  apply truns_mono with (P := fun w' _ => base w' /\ working w' /\ up w' = up w /\ down w' = down w).
  { pose proof (fun l m => working_log w l m Hb Hw). repeat case_match; tstep; split_and!; try done; apply H. }
  intros w1 _ (Hb1 & Hw1 & <- & <-). clear Hb Hw. rename w into w0, w1 into w, Hb1 into Hb, Hw1 into Hw. tstep.
  apply truns_mono with (P := fun w' _ => base w' /\ (resting w' \/ over w')); [|intros w' ? [? ?]; by apply truns_working, truns_drop].
  destruct (uploading (up w)) eqn:Eu.
  { destruct Hw as [Hw|(_ & _ & ? & _)]; [|congruence].
    eapply truns_mono; [apply truns_giveUp; [exact Hb|by eapply sending_of]|]. intros w' ? [? ?]. by split; [|left]. }
  case_bool_decide as Ee; cbn [negb].
  - tstep. split; [done|]. destruct Hw as [Hw|Ho]; [|by right]. left. by eapply resting_of.
  - eapply truns_mono; [by apply truns_failSession|]. intros w' ? [? ?]. by split; [|left].
Qed.

Lemma truns_onSendComplete status w : base w -> working w -> truns (onSendComplete uv status) w (fun w' _ => base w' /\ working w').
Proof.
  intros Hb Hw. unfold onSendComplete. do 2 tstep. match goal with |- truns _ ?W _ => set (w1 := W) end.
  assert (Hb1 : base w1).
  { pose proof (b_flight _ _ _ _ _ _ _ Hb). apply base_up; [done|]. case_match eqn:E; [|done]. apply Z.ltb_lt in E. cbn. lia. }
  assert (Hw1 : working w1). { unfold w1. by destruct (0 <? inFlightWrites (up w)). }
  clearbody w1. destruct (status <? 0).
  - repeat tstep. destruct (uploading (up w1)) eqn:Eu; [|by tstep]. destruct Hw1 as [Hw1|(_ & _ & ? & _)]; [|congruence].
    eapply truns_mono; [apply truns_giveUp; [exact Hb1|by eapply sending_of]|]. intros w' ? [? ?]. by split; [|left; left].
  - destruct Hw1 as [Hw1|Ho].
    + eapply truns_mono; [by apply truns_pumpUpload|]. intros w' ? [? ?]. by split; [|left].
    + unfold pumpUpload. repeat tstep. rewrite (proj1 (proj2 (proj2 Ho))). cbn [negb orb]. tstep. by split; [|right].
Qed.

Lemma truns_onClosed w k : base w -> working w -> socket w = Some k -> TcpSocket.closing k = true ->
  truns onClosed w (fun w' _ => base w' /\ working w').
Proof.
  intros Hb Hw Ek Hc. assert (Hd : resting w \/ over w) by (apply working_down; [done|]; intros k' Ek'; left; congruence).
  unfold onClosed. repeat tstep. split.
  - destruct Hb. constructor; cbn; try done; by rewrite caughtUp_app.
  - destruct Hd as [Hr|Ho]; [left; left|right].
    + destruct Hr as (? & ? & ? & ? & _). split_and!; try done. cbn. by rewrite caughtUp_app.
    + destruct Ho as (? & ? & ? & _). by split_and!.
Qed.

Lemma truns_onConnectTimeout w : base w -> working w -> (forall k, socket w = Some k -> TcpSocket.closing k = true \/ TcpSocket.reading k = false) ->
  truns (onConnectTimeout uv) w (fun w' _ => base w' /\ working w').
Proof.
  intros Hb Hw Hk. unfold onConnectTimeout. do 2 tstep.
  destruct (socket w) as [k|] eqn:Ek; [|by tstep]. destruct (TcpSocket.closing k); [by tstep|].
  do 2 tstep. destruct (working_log w LogLevel.Error (bs "Connect timed out.") Hb Hw) as [Hb1 Hw1].
  set (w1 := addEvent w _) in *. assert (Hk1 : forall k, socket w1 = Some k -> TcpSocket.closing k = true \/ TcpSocket.reading k = false) by (rewrite <- Ek in Hk; exact Hk).
  clearbody w1. clear w Hb Hw Hk Ek. rename w1 into w, Hb1 into Hb, Hw1 into Hw. pose proof (working_down _ Hw Hk1) as Hd.
  repeat tstep. apply truns_closeSocket. tstep. destruct (truns_drop _ Hb Hd) as (w' & [] & E & Hb' & Hd').
  assert (Ew : w' = setSocket (addEvent w (linkEvent LinkState.Disconnected)) (closedSock uv (socket w))).
  { unfold sbind in E. cbn -[closeSocket] in E. destruct (truns_closeSocket uv (addEvent w (linkEvent LinkState.Disconnected))
      (fun w' _ => w' = setSocket (addEvent w (linkEvent LinkState.Disconnected)) (closedSock uv (socket w))) eq_refl) as (w2 & [] & E2 & ->). congruence. }
  cbn [socket addEvent]. rewrite <- Ew. split; [by apply base_event|]. destruct Hd' as [Hr|Ho]; [left; left; by apply resting_event|by right].
Qed.

Lemma truns_onConnect status w k :
  base w -> working w -> socket w = Some k -> (if TcpSocket.closing k then status <? 0 else negb (TcpSocket.reading k)) = true ->
  truns (onConnect uv status) w (fun w' _ => base w' /\ working w').
Proof.
  intros Hb Hw Ek Hg. unfold onConnect. tstep. apply (truns_stopTimer uv fs Hstop asked c v cs qt); [done|]. intros tm Htm Hb1.
  assert (Hd : resting (setTimer w tm) \/ over (setTimer w tm)).
  { apply working_down; [done|]. intros k' Ek'. cbn in Ek'. rewrite Ek in Ek'. injection Ek' as <-.
    destruct (TcpSocket.closing k); [by left|]. right. by apply negb_true_iff. }
  destruct (status <? 0) eqn:Es.
  { do 2 tstep. apply truns_working, truns_drop; [by apply base_event|]. destruct Hd as [Hr|Ho]; [left; by apply resting_event|by right]. }
  destruct (TcpSocket.closing k) eqn:Ec; [congruence|]. tstep. eapply truns_query; [done|]. repeat tstep. eapply truns_onSocket; [done|].
  destruct Hd as [Hr|(_ & _ & _ & Ho)]; [|cbn in Ho; specialize (Ho k Ek); congruence].
  destruct (b_sock _ _ _ _ _ _ _ Hb _ Ek) as [Hh _].
  pose proof (startRead_handle uv k) as Rh. pose proof (startRead_closing uv k) as Rc. pose proof (startRead_wire uv k) as Rw.
  destruct (TcpSocket.startRead uv k) as [k' rc]. cbn [fst snd] in *.
  match goal with |- truns _ ?W _ => set (w2 := W) end.
  assert (Hb2 : base w2).
  { destruct Hb1. constructor; cbn in *; try done; rewrite ?caughtUp_app; cbn; try done.
    - intros k0 [= <-]. by rewrite Rh.
    - intros k0 [= <-]. rewrite Rw. by apply b_spoken. }
  assert (Hr2 : resting w2).
  { destruct Hr as (Hu & He & Hre & Hbu & Hk). split_and!; try done; cbn; [by rewrite !caughtUp_app|].
    intros k0 [= <-]. rewrite Rc, Rw. by apply Hk. }
  clearbody w2. destruct (rc <? 0); [|tstep; by split; [|left; left]]. do 2 tstep. apply truns_closeSocket.
  split; [by apply base_closed, base_event|]. left. left. apply (resting_closed uv fs asked c v cs qt); [by apply base_event|by apply resting_event|done].
Qed.
End Callbacks.
