(* ===== verification/ClientReceive.v ===== *)
(** * The client receives: acknowledgement, header and result *)

From S2P Require Import Prelude StringView Crc32 Protocol Codec Framer Ring ResultSummary Net Exchange Effects FileReader ClientUi Window TransferService Client ClientInv ClientSend ClientCommands.

Lemma decodeResultHeader_Ret buf : exists st h, decodeResultHeader buf ResultHeader0 = Ret (st, h) /\
  (st = DecodeStatus.Ok -> decodeMessage MessageType.ResultHeader buf = Ret (DecodeStatus.Ok, MsgResultHeader h) /\ 0 <= rh_csvSize h).
Proof.
  destruct (decodeMessage_Ret MessageType.ResultHeader buf) as (st & m & E). pose proof (decodeMessage_sound MessageType.ResultHeader buf) as Hs.
  unfold decodeMessage in *. destruct (decodeResultHeader _ _) as [[st' h]| |]; [|done..]. exists st', h. split; [done|]. intros ->.
  split; [done|]. destruct (Hs _ eq_refl) as (_ & [Hv _] & _). apply Hv.
Qed.

Lemma decodeAck_Ret buf : exists st a, decodeAck buf Ack0 = Ret (st, a).
Proof.
  destruct (decodeMessage_Ret MessageType.Ack buf) as (st & m & E). unfold decodeMessage in E.
  destruct (decodeAck _ _) as [[st' a]| |]; [|done..]. eauto.
Qed.

Section Receiving.
Context (uv : Uv) (fs : Files) {Q : Type} `{HQ : ChunkQueue Q}.
Context (Hwrite : forall n d, uv_write uv n d <= 0).
Context (asked : list Command) (c : FileReader.pc) (v : Seen) (cs : list Command) (qt : bool).
Import TransferService.
Implicit Types w : TransferService.t (Q := Q).
Abbreviation base := (ClientInv.base fs asked c v cs qt).
Abbreviation resting := (ClientInv.resting fs asked v).
Abbreviation receiving := (ClientInv.receiving fs asked).
Abbreviation active := (ClientInv.active fs asked c v).

(** The connection is up and everything said on it is complete. *)
Definition listener w : Prop :=
  uploading (up w) = false /\ exists k, live w k /\ spoken fs asked (TcpSocket.wire k) [].

Lemma receiving_listener w : receiving w -> listener w.
Proof. intros (Hu & _ & (k & Hk & Hs & _) & _). split; [done|]. by exists k. Qed.

Lemma truns_finishDownload w : base w -> listener w -> truns (finishDownload uv) w (fun w' _ => base w' /\ resting w').
Proof.
  intros Hb (Hu & k & (Ek & Hcl & Hrd) & Hsp). destruct (b_sock _ _ _ _ _ _ _ Hb _ Ek) as [Hh _].
  unfold finishDownload. do 2 tstep. destruct (_ =? _); cbn [negb].
  - destruct (summarizeResultCsv_Ret (csv (down w))) as [sum Es]. tstep. eapply truns_lift; [exact Es|]. unfold dropResultClaim. repeat tstep.
    match goal with |- truns _ ?W _ => set (w1 := W) end.
    assert (Hb1 : base w1) by (apply base_unclaimed, base_down; [by eapply base_ignored|apply Hb|done]).
    eapply truns_send; [done|exact Ek|done| |].
    + intros k' _ Ew (Hh' & Hc' & Hr'). change (0 <? 0) with false. cbv iota. do 3 tstep.
      assert (Hsp' : spoken fs asked (TcpSocket.wire k') []).
      { rewrite Ew. eapply spoken_said; [by apply spoken_app|]. apply said_done. }
      assert (Hb2 : base (setCompleted (setSocket w1 (Some k')) true)).
      { eapply base_ignored; [eapply (base_socket _ _ _ _ _ _ w1 k k'); [exact Hb1|exact Ek|by split_and!|]|done..].
        exists []. split; [done|by left]. }
      case_bool_decide; repeat tstep; (split; [repeat (apply base_event; [|done..]); exact Hb2|]);
        (split_and!; try done; [cbn; rewrite !caughtUp_app; done|]); by intros k0 [= <-].
    + intros k' rc Hrc Ew Hsame. rewrite (proj2 (Z.ltb_lt rc 0)) by done. apply truns_failSession.
      eapply base_socket; [exact Hb1|exact Ek|done|]. exists []. rewrite Ew. split; [done|by left].
  - repeat tstep. apply truns_failSession. cbn. destruct (hasClaim w) eqn:Ec; [|by apply base_noCsv].
    pose proof (base_received _ _ _ _ _ _ _ 0 (base_noCsv _ _ _ _ _ _ _ Hb)) as H. cbn in H. by rewrite Ec in H.
Qed.

(** The header of a result, first or resumed: [false] ends the session. *)
Lemma truns_beginCsvReceive h resuming w :
  base w -> receiving w -> 0 <= rh_csvSize h -> (resuming = false -> csv (down w) = []) ->
  truns (beginCsvReceive uv h resuming) w (fun w' ok => base w' /\ if ok then resting w' \/ receiving w' else resting w').
Proof.
  intros Hb Hr Hpos Hres. pose proof Hr as (Hu & Hre & (k & Hk & Hsp & _) & _).
  unfold beginCsvReceive. destruct (Z.ltb_spec kMaxCsvSize (rh_csvSize h)) as [|Hmax].
  { tstep. eapply truns_mono; [by apply truns_failSession|]. intros w' ? [? ?]. by tstep. }
  do 2 tstep. destruct (resuming && _) eqn:Eb.
  { tstep. eapply truns_mono; [by apply truns_failSession|]. intros w' ? [? ?]. by tstep. }
  repeat tstep. match goal with |- truns _ ?W _ => set (w1 := W) end.
  assert (Ecsv : csv (down w1) = csv (down w)) by (cbn; destruct resuming; [done|by rewrite Hres]).
  assert (Hb1 : base w1).
  { do 2 (apply base_event; [|done..]). apply base_down; [done|apply Hb|]. change (zlen (csv (down w1)) <= kMaxCsvSize). rewrite Ecsv. apply Hb. }
  assert (Hle : zlen (csv (down w1)) <= rh_csvSize h).
  { rewrite Ecsv. destruct resuming; [apply Z.ltb_ge in Eb; done|]. by rewrite Hres. }
  match goal with |- context [if ?b then finishDownload uv else _] => change b with (zlen (csv (down w1)) =? csvSize (down w1)) end.
  destruct (Z.eqb_spec (zlen (csv (down w1))) (csvSize (down w1))) as [Ez|Ez].
  - eapply truns_mono; [apply truns_finishDownload; [exact Hb1|]|].
    { split; [done|]. by exists k. }
    intros w' ? [? ?]. tstep. by split; [|left].
  - repeat tstep. split; [done|]. right. split_and!; try done.
    + intros Hc. rewrite Ecsv. exact (Hre Hc).
    + exists k. by split_and!.
    + change (csvSize (down w1)) with (rh_csvSize h) in *. change (zlen (csv (down w1)) < rh_csvSize h <= kMaxCsvSize). lia.
Qed.

Lemma truns_feedFramer data w (P : _ -> DecodeStatus.t * Z -> Prop) :
  framerWf (framer (down w)) ->
  (forall f st n, framerWf f -> 0 <= n <= zlen data -> (st = DecodeStatus.NeedMoreData -> n = zlen data) ->
     P (setDown w (setFramer (down w) f)) (st, n)) ->
  truns (feedFramer data) w P.
Proof.
  intros Hf HP. destruct (feed_safe _ data Hf) as (f & st & n & E & Hf' & Hn & _ & _ & Hneed).
  unfold feedFramer. do 2 tstep. tstep. eapply truns_lift; [exact E|]. repeat tstep. by apply HP.
Qed.

(** How a handler leaves the worker. *)
Definition heard (data : bytes) : TransferService.t -> Z -> Prop := fun w n => base w /\ (resting w \/ receiving w) /\ 0 <= n <= zlen data.

Lemma truns_refuse reason level data w : base w -> truns (do _ <- failSession uv reason level; sret 0)%eff w (heard data).
Proof.
  intros Hb. tstep. eapply truns_mono; [by apply truns_failSession|]. intros w' ? [? ?]. tstep. pose proof (zlen_nonneg data).
  split_and!; [done|by left|lia..].
Qed.

Lemma truns_handleHeader data n resuming w :
  base w -> receiving w -> 0 <= n <= zlen data -> (resuming = false -> csv (down w) = []) ->
  truns (handleHeader uv n resuming) w (heard data).
Proof.
  intros Hb Hr Hn Hres. unfold handleHeader. do 3 tstep.
  destruct (decodeResultHeader_Ret (Framer.message (framer (down w)))) as (st & h & E & Hok).
  eapply truns_lift; [exact E|]. cbv beta iota. case_bool_decide as Est; cbn [negb]; [|by apply truns_refuse]. destruct (Hok Est) as [_ Hpos].
  tstep. eapply truns_mono; [by apply truns_beginCsvReceive|]. intros w' [|] [Hb' Hw']; tstep; split_and!; try done; try lia. by left.
Qed.

(** A framer in mid-message does not matter to what the worker is doing. *)
Lemma receiving_framer w f : receiving w -> receiving (setDown w (setFramer (down w) f)).
Proof. done. Qed.
Lemma base_framer w f : base w -> framerWf f -> base (setDown w (setFramer (down w) f)).
Proof. intros Hb Hf. apply base_down; [done|done|apply Hb]. Qed.

Lemma truns_handleResultHeaderBytes data w :
  base w -> receiving w -> expecting (down w) = Expecting.ResultHeader -> truns (handleResultHeaderBytes uv data) w (heard data).
Proof.
  intros Hb Hr He. unfold handleResultHeaderBytes. tstep. apply truns_feedFramer; [apply Hb|]. intros f st n Hf Hn Hneed.
  pose proof (base_framer w f Hb Hf) as Hb'. assert (Hcsv : csv (down w) = []) by (destruct Hr as (_ & _ & _ & Hm); by rewrite He in Hm).
  destruct st; try by apply truns_refuse.
  - by apply truns_handleHeader.
  - tstep. split_and!; [done|by right|lia..].
Qed.

Lemma truns_handleAckBytes data w :
  base w -> receiving w -> expecting (down w) = Expecting.Ack -> truns (handleAckBytes uv data) w (heard data).
Proof.
  intros Hb Hr He. unfold handleAckBytes. tstep. apply truns_feedFramer; [apply Hb|]. intros f st n Hf Hn Hneed.
  pose proof (base_framer w f Hb Hf) as Hb'. pose proof Hr as (Hu & Hre & (k & Hk & Hsp & Hack) & Hcsv). rewrite He in Hcsv.
  destruct (Hack He) as (up & Hup & Hsz & Hcrc & _).
  destruct st; try by apply truns_refuse.
  - do 3 tstep. destruct (decodeAck_Ret (Framer.message f)) as (st & a & E). eapply truns_lift; [exact E|]. cbv beta iota.
    case_bool_decide; cbn [negb]; [|by apply truns_refuse]. case_bool_decide; cbn [negb]; [|by apply truns_refuse].
    repeat tstep. split_and!; [|right|lia..].
    + apply base_down; [|by apply reset_wf|apply Hb]. do 2 (apply base_event; [|done..]). destruct Hb'. constructor; cbn in *; try done.
      * intros _. by exists up.
      * by rewrite caughtUp_app.
      * by rewrite caughtUp_app.
    + split_and!; [done| | |exact Hcsv].
      * intros _. cbn. by rewrite Hcsv.
      * exists k. by split_and!.
  - tstep. split_and!; [done|by right|lia..].
Qed.

Lemma truns_handleResumeReplyBytes data w :
  base w -> receiving w -> truns (handleResumeReplyBytes uv data) w (heard data).
Proof.
  intros Hb Hr. unfold handleResumeReplyBytes. tstep. apply truns_feedFramer; [apply Hb|]. intros f st n Hf Hn Hneed.
  pose proof (base_framer w f Hb Hf) as Hb'. destruct st; try by apply truns_refuse.
  - do 3 tstep. destruct (messageType_Ret f Hf) as [ty Ety]. eapply truns_lift; [exact Ety|]; cbv beta iota. case_match; [|by apply truns_handleHeader].
    tstep. destruct (decodeAck_Ret (Framer.message f)) as (st & a & E). eapply truns_lift; [exact E|]. cbv beta iota.
    unfold dropResultClaim. do 6 tstep. apply truns_refuse. by apply base_noCsv, base_unclaimed.
  - tstep. split_and!; [done|by right|lia..].
Qed.

Lemma truns_handleCsvBytes data w :
  base w -> receiving w -> expecting (down w) = Expecting.CsvPayload -> truns (handleCsvBytes uv data) w (heard data).
Proof.
  intros Hb Hr He. pose proof Hr as (Hu & Hre & (k & Hk & Hsp & _) & Hm). rewrite He in Hm.
  pose proof (zlen_nonneg data) as Hd. pose proof (zlen_nonneg (csv (down w))).
  unfold handleCsvBytes. do 2 tstep. rewrite (uwrap_small 64) by (apply csvOffset_uint64; lia).
  set (take := if _ <? _ then _ else _).
  assert (Ht : 0 <= take <= zlen data /\ zlen (csv (down w)) + take <= csvSize (down w)) by (unfold take; destruct (Z.ltb_spec (zlen data) (csvSize (down w) - zlen (csv (down w)))); lia).
  clearbody take. tstep. eapply truns_lift; [apply appendN_Ret; lia|]. cbn [app]. do 5 tstep.
  set (d := setCsv (down w) (csv (down w) ++ ztake take data)). change (down (setDown w d)) with d.
  assert (Hz : zlen (csv d) = zlen (csv (down w)) + take) by (cbn; rewrite zlen_app, zlen_ztake; lia).
  assert (Hb1 : base (setDown w d)) by (apply base_down; [done|apply Hb|lia]).
  apply truns_mono with (P := fun w' _ => base w' /\ up w' = up w /\ socket w' = socket w /\ hasClaim w' = hasClaim w /\
    claim w' = claim w /\ expecting (down w') = Expecting.CsvPayload /\ csv (down w') = csv d /\ csvSize (down w') = csvSize d).
  { case_match; [|by tstep]. repeat tstep. split_and!; try done. apply base_event; [|done..].
    apply base_down; [done|apply Hb|]. change (zlen (csv d) <= kMaxCsvSize). lia. }
  intros w2 _ (Hb2 & Eu & Ek & Eh & Ec & Ee & Ecsv & Esz). do 3 tstep.
  match goal with |- truns _ ?W _ => set (w3 := W) end.
  assert (Hw3 : base w3 /\ up w3 = up w /\ socket w3 = socket w /\ down w3 = down w2 /\ resumes w3).
  { unfold w3. destruct (hasClaim w2) eqn:E2; [|split_and!; try done; unfold resumes; congruence]. split_and!; try done.
    pose proof (base_received _ _ _ _ _ _ _ (zlen (csv (down w2))) Hb2) as H'. by rewrite E2 in H'. }
  destruct Hw3 as (Hb3 & Eu3 & Ek3 & Ed3 & Hre3). clearbody w3.
  assert (Hl : live w3 k) by (unfold live; rewrite Ek3; exact Hk).
  destruct (Z.eqb_spec (zlen (csv d)) (csvSize d)) as [Ez|Ez].
  - eapply truns_mono; [apply truns_finishDownload; [exact Hb3|]|].
    { split; [by rewrite Eu3|]. by exists k. }
    intros w' ? [? ?]. tstep. split_and!; [done|by left|lia..].
  - repeat tstep. split_and!; [done|right|lia..]. unfold receiving. rewrite Eu3, Ed3, Ee. split_and!; try done.
    + exists k. by split_and!.
    + rewrite Ecsv, Esz. change (csvSize d) with (csvSize (down w)) in *. lia.
    + rewrite Esz. change (csvSize d) with (csvSize (down w)). lia.
Qed.

Lemma truns_bytesLoop fuel : forall data w,
  base w -> active w -> (length data < fuel)%nat -> truns (bytesLoop uv fuel data) w (fun w' _ => base w' /\ active w').
Proof.
  induction fuel as [|fuel IH]; intros data w Hb Hw Hf; [lia|]. cbn [bytesLoop]. case_bool_decide as En; [by tstep|]. do 3 tstep.
  assert (Hnext : forall w' n, heard data w' n -> truns (if n =? 0 then sret tt else bytesLoop uv fuel (zdrop n data)) w' (fun w' _ => base w' /\ active w')).
  { intros w' n (Hb' & Hw' & Hn). assert (active w') by (destruct Hw'; [by left|by right; right]). destruct (Z.eqb_spec n 0); [by tstep|].
    apply IH; [done|done|]. destruct data as [|b data]; [done|]. pose proof (zlen_zdrop n (b :: data) ltac:(lia)) as E.
    rewrite zlen_cons in *. unfold zlen in *. cbn in Hf. lia. }
  assert (Hnone : expecting (down w) <> Expecting.Nothing -> receiving w).
  { destruct Hw as [(_ & ? & _)|[(_ & ? & _)|?]]; done. }
  destruct (expecting (down w)) eqn:Ee; (eapply truns_mono; [|exact Hnext]).
  - by apply truns_refuse.
  - apply truns_handleAckBytes; [done|by apply Hnone|done].
  - apply truns_handleResultHeaderBytes; [done|by apply Hnone|done].
  - apply truns_handleCsvBytes; [done|by apply Hnone|done].
  - apply truns_handleResumeReplyBytes; [done|by apply Hnone].
Qed.

Lemma truns_onBytes data w : base w -> active w -> truns (onBytes uv data) w (fun w' _ => base w' /\ active w').
Proof. intros Hb Hw. unfold onBytes. apply truns_bytesLoop; [done|done|lia]. Qed.
End Receiving.
