(* ===== verification/ClientFlow.v ===== *)
(** * Writes in flight

    The count by which the pump limits itself never exceeds the writes libuv
    still owes a completion, so that whenever the pump has stopped at its limit
    a completion will start it again.  The count is too low rather than too
    high: completions of headers and trailers are subtracted without having
    been added. *)

From S2P Require Import Prelude StringView Crc32 Protocol Codec Framer Ring Net Exchange Effects FileReader ClientUi Window TransferService Client ClientInv ClientSend ClientCommands Level.

(** Requests have different numbers, all below the next one. *)
Definition idsOk (k : TcpSocket.t) : Prop :=
  NoDup (map fst (TcpSocket.pendingWrites k)) /\ Forall (fun p => (p.1 < (TcpSocket.calls k).2)%nat) (TcpSocket.pendingWrites k).

Section Ids.
Context (uv : Uv).

Lemma idsOk_more k k' :
  idsOk k -> TcpSocket.pendingWrites k' = TcpSocket.pendingWrites k -> ((TcpSocket.calls k).2 <= (TcpSocket.calls k').2)%nat -> idsOk k'.
Proof. intros [H1 H2] Ep Hc. unfold idsOk. rewrite Ep. split; [done|]. eapply Forall_impl; [|exact H2]. intros p Hp. cbn in *. lia. Qed.

Lemma idsOk_make n : idsOk (TcpSocket.make uv n).
Proof. split; constructor. Qed.
Lemma idsOk_connect k ip port : idsOk k -> idsOk (TcpSocket.connect uv k ip port).1.
Proof.
  intros Hk. unfold TcpSocket.connect. destruct (negb _); [done|]. destruct (negb _); [done|]. apply (idsOk_more k); [done..|]. cbn. lia.
Qed.
Lemma idsOk_startRead k : idsOk k -> idsOk (TcpSocket.startRead uv k).1.
Proof.
  intros Hk. unfold TcpSocket.startRead. destruct (_ || _); [done|]. destruct (TcpSocket.reading k); [done|].
  destruct (_ =? 0); (apply (idsOk_more k); [done..|]; cbn; lia).
Qed.
Lemma idsOk_close k : idsOk k -> idsOk (TcpSocket.close uv k).
Proof.
  intros Hk. unfold TcpSocket.close. destruct (_ || _); [done|]. unfold TcpSocket.stopRead. destruct (_ || _); [done|].
  destruct (_ =? 0); (apply (idsOk_more k); [done..|]; cbn; lia).
Qed.

(** A send adds its request when libuv takes it. *)
Lemma send_pending k d k' rc :
  TcpSocket.send uv k d = (k', rc) ->
  TcpSocket.closing k' = TcpSocket.closing k /\
  ((rc = 0 /\ TcpSocket.closing k = false /\ TcpSocket.pendingWrites k' = TcpSocket.pendingWrites k ++ [((TcpSocket.calls k).2, d)] /\
    (TcpSocket.calls k').2 = S (TcpSocket.calls k).2) \/
   (rc <> 0 /\ TcpSocket.pendingWrites k' = TcpSocket.pendingWrites k /\ ((TcpSocket.calls k).2 <= (TcpSocket.calls k').2)%nat)).
Proof.
  unfold TcpSocket.send. destruct (_ || _) eqn:E; [intros [= <- <-]; split; [done|right]; by split_and!|].
  apply orb_false_iff in E as [_ Ec]. destruct (Z.eqb_spec (uv_write uv (TcpSocket.calls k) d) 0) as [Ez|Ez]; cbn [negb]; intros [= <- <-].
  - split; [done|]. left. by split_and!.
  - split; [done|]. right. cbn. split_and!; [done|done|lia].
Qed.
Lemma idsOk_send k d : idsOk k -> idsOk (TcpSocket.send uv k d).1.
Proof.
  intros Hk. destruct (TcpSocket.send uv k d) as [k' rc] eqn:E. apply send_pending in E as [_ [(_ & _ & Ep & En)|(_ & Ep & En)]]; cbn.
  - destruct Hk as [H1 H2]. unfold idsOk. rewrite Ep, En. split.
    + rewrite map_app. apply list.NoDup_app. split; [done|]. split; [|apply NoDup_singleton].
      intros n Hn ->%list_elem_of_singleton. apply list_elem_of_In, in_map_iff in Hn as (p & E & Hp).
      rewrite Forall_forall in H2. specialize (H2 p). cbn in E. rewrite <- list_elem_of_In in H2. apply list_elem_of_In in Hp. apply H2 in Hp. lia.
    + apply Forall_app. split; [eapply Forall_impl; [|exact H2]; cbn; intros p Hp; lia|]. constructor; [cbn; lia|constructor].
  - by eapply idsOk_more.
Qed.

(** A completion takes one request away. *)
Lemma written_ids k request :
  idsOk k -> existsb (fun p => Nat.eqb p.1 request) (TcpSocket.pendingWrites k) = true ->
  idsOk (TcpSocket.onWriteCb k request) /\
  length (TcpSocket.pendingWrites k) = S (length (TcpSocket.pendingWrites (TcpSocket.onWriteCb k request))).
Proof.
  unfold idsOk. cbn. generalize (TcpSocket.pendingWrites k) (TcpSocket.calls k).2. intros l n [Hn Hf] He.
  assert (forall l : list (nat * bytes), (request ∉ map fst l) -> List.filter (fun p => negb (Nat.eqb p.1 request)) l = l) as Hid.
  { clear. induction l as [|p l IH]; [done|]. cbn. rewrite not_elem_of_cons. intros [H1 H2]. destruct (Nat.eqb_spec p.1 request); [congruence|].
    cbn. by rewrite IH. }
  induction l as [|p l IH]; [done|]. cbn in *. apply list.NoDup_cons in Hn as [Hp Hn]. apply Forall_cons_iff in Hf as [Hlt Hf].
  destruct (Nat.eqb_spec p.1 request) as [E|E]; cbn [negb].
  - rewrite Hid by congruence. by split_and!.
  - destruct (IH Hn Hf He) as ([H1 H2] & ->). cbn. split_and!; [|by constructor|done].
    apply list.NoDup_cons. split; [|done]. intros Hin. apply Hp. apply list_elem_of_In, in_map_iff in Hin as (x & Ex & Hx).
    apply filter_In in Hx as [Hx _]. apply list_elem_of_In, in_map_iff. by exists x.
Qed.
End Ids.

(** ** Handlers that end or never begin an upload *)
Section Idle.
Context (uv : Uv) (fs : Files) {Q : Type} `{HQ : ChunkQueue Q}.
Import TransferService.
Implicit Types w : TransferService.t (Q := Q).

Definition ids w : Prop := forall k, socket w = Some k -> idsOk k.
Definition idle w : Prop := ids w /\ uploading (up w) = false.

Section Keep.
Context (J : TransferService.t (Q := Q) -> Prop).

(** [J] looks at the socket only through its requests and not at all at what
    the screen is told, what is received or the timer. *)
Record blind : Prop := mkBlind {
  blind_socket w k k' : socket w = Some k -> J w -> (idsOk k -> idsOk k') ->
    (TcpSocket.closing k = false -> uploading (up w) = true -> TcpSocket.closing k' = false /\
      (length (TcpSocket.pendingWrites k) <= length (TcpSocket.pendingWrites k'))%nat) -> J (setSocket w (Some k'));
  blind_other w w' : up w' = up w -> socket w' = socket w -> reader w' = reader w -> J w -> J w' }.
Context (HJ : blind).

Lemma keep_send d : preserves J (send uv d).
Proof.
  intros w w' rc E Hw. unfold send, onSocket in E. destruct (socket w) as [k|] eqn:Ek; [|done].
  pose proof (idsOk_send uv k d) as Hi. destruct (TcpSocket.send uv k d) as [k' rc'] eqn:Es. injection E as <- _.
  apply (blind_socket HJ w k); [exact Ek|exact Hw|exact Hi|]. intros Hc _. apply send_pending in Es as [Ec [(_ & _ & Ep & _)|(_ & Ep & _)]]; rewrite Ec, Ep.
  - split; [done|]. rewrite length_app. lia.
  - by split.
Qed.
End Keep.

Lemma blind_idle : blind idle.
Proof.
  split.
  - intros w k k' Ek [Hi Hu] Hk _. split; [|done]. intros k0 [= <-]. by apply Hk, Hi.
  - intros w w' Eu Es _ [Hi Hu]. unfold idle, ids. by rewrite Eu, Es.
Qed.

Lemma idle_close : preserves idle (closeSocket uv).
Proof.
  intros w w' [] E [Hi Hu]. unfold closeSocket, sbind, sget in E. cbn in E. destruct (socket w) as [k|] eqn:Ek; [|by injection E as <-].
  destruct (TcpSocket.closing k); injection E as <-; [by split|]. split; [|done]. intros k0 [= <-]. by apply idsOk_close, Hi.
Qed.
Lemma idle_connect ip port : preserves idle (onSocket (fun k => TcpSocket.connect uv k ip port)).
Proof.
  intros w w' rc E [Hi Hu]. unfold onSocket in E. destruct (socket w) as [k|] eqn:Ek; [|done].
  pose proof (idsOk_connect uv k ip port (Hi k Ek)) as Hk. destruct (TcpSocket.connect _ _ _ _) as [k' rc']. injection E as <- _.
  split; [|done]. by intros k0 [= <-].
Qed.
Lemma idle_startRead : preserves idle (onSocket (TcpSocket.startRead uv)).
Proof.
  intros w w' rc E [Hi Hu]. unfold onSocket in E. destruct (socket w) as [k|] eqn:Ek; [|done].
  pose proof (idsOk_startRead uv k (Hi k Ek)) as Hk. destruct (TcpSocket.startRead _ _) as [k' rc']. injection E as <- _.
  split; [|done]. by intros k0 [= <-].
Qed.
Lemma preserves_query {A} (f : TcpSocket.t -> A) (J : TransferService.t (Q := Q) -> Prop) : preserves J (onSocket' f).
Proof. intros w w' x E Hw. unfold onSocket' in E. destruct (socket w); [|done]. by injection E as <- _. Qed.
Lemma preserves_noFuel {A} (J : TransferService.t (Q := Q) -> Prop) : preserves J (snoFuel : SM _ A).
Proof. done. Qed.

(** Every handler but the one that begins an upload leaves an idle worker idle. *)
Ltac idleMod := apply preserves_mod; intros ? [Hids Hup];
  first [ by split | split; [done|cbn; try case_match; done] | split; [intros ? [= <-]; apply idsOk_make|done]
        | case_match; by split ].
Ltac idle1 := first
  [ apply (keep_send idle blind_idle) | apply idle_close | apply idle_connect | apply idle_startRead | apply preserves_query
  | apply preserves_noFuel | apply preserves_bind; [|intros ?] | apply preserves_get | apply preserves_ret
  | apply preserves_lift | idleMod | progress cbv beta zeta | progress case_match ].
Ltac idles := repeat idle1.

Lemma idle_drainRing : preserves idle drainRing.
Proof. unfold drainRing. idles. Qed.
Lemma idle_abort reason level : preserves idle (abortUpload uv reason level).
Proof. unfold abortUpload, drainRing. idles. Qed.
Lemma idle_fail reason level : preserves idle (failSession uv reason level).
Proof. unfold failSession, drainRing. idles. Qed.
Lemma idle_handleConnect ip port : preserves idle (handleConnect uv ip port).
Proof. unfold handleConnect, beginConnect. idles. Qed.
Lemma idle_handleDisconnect : preserves idle (handleDisconnect uv).
Proof. unfold handleDisconnect, stopTimer. repeat first [apply idle_abort | apply idle_fail | idle1]. Qed.
Lemma idle_startUploadDrain : preserves idle startUploadDrain.
Proof. unfold startUploadDrain, drainRing. idles. Qed.
Lemma idle_handleCancel : preserves idle (handleCancel uv).
Proof. unfold handleCancel. repeat first [apply idle_abort | idle1]. Qed.
Lemma idle_handleRequestResult : preserves idle (handleRequestResult uv).
Proof. unfold handleRequestResult. repeat first [apply idle_fail | idle1]. Qed.
Lemma idle_handleQuit : preserves idle (handleQuit uv).
Proof. unfold handleQuit. idles. Qed.
Lemma idle_onError status where_ : preserves idle (onError uv status where_).
Proof. unfold onError. repeat first [apply idle_abort | apply idle_fail | idle1]. Qed.
Lemma idle_onClosed : preserves idle onClosed.
Proof. unfold onClosed. idles. Qed.
Lemma idle_onConnect status : preserves idle (onConnect uv status).
Proof. unfold onConnect, stopTimer. idles. Qed.
Lemma idle_onConnectTimeout : preserves idle (onConnectTimeout uv).
Proof. unfold onConnectTimeout. idles. Qed.

Lemma idle_finishDownload : preserves idle (finishDownload uv).
Proof. unfold finishDownload, dropResultClaim. repeat first [apply idle_fail | idle1]. Qed.
Lemma idle_handleHeader n resuming : preserves idle (handleHeader uv n resuming).
Proof. unfold handleHeader, beginCsvReceive. repeat first [apply idle_fail | apply idle_finishDownload | idle1]. Qed.
Lemma idle_bytesLoop fuel : forall data, preserves idle (bytesLoop uv fuel data).
Proof.
  induction fuel as [|fuel IH]; intros data; [done|]. cbn [bytesLoop].
  unfold handleAckBytes, handleResultHeaderBytes, handleResumeReplyBytes, handleCsvBytes, feedFramer, dropResultClaim.
  repeat first [apply IH | apply idle_fail | apply idle_handleHeader | apply idle_finishDownload | idle1].
Qed.
Lemma idle_pumpUpload : preserves idle (pumpUpload uv).
Proof.
  intros w w' [] E Hw. unfold pumpUpload, sbind, sget in E. cbn in E. destruct Hw as [Hi Hu]. rewrite Hu in E. by injection E as <-.
Qed.
Lemma idle_onSendComplete status : preserves idle (onSendComplete uv status).
Proof. unfold onSendComplete. repeat first [apply idle_abort | apply idle_pumpUpload | idle1]. Qed.

(** ** While an upload is sent *)

Definition flow w : Prop :=
  ids w /\
  (uploading (up w) = true -> exists k, socket w = Some k /\ TcpSocket.closing k = false /\
    inFlightWrites (up w) <= Z.of_nat (length (TcpSocket.pendingWrites k))).

Lemma idle_flow w : idle w -> flow w.
Proof. intros [Hi Hu]. split; [done|]. congruence. Qed.
Lemma flow_idle w : flow w -> uploading (up w) = false -> idle w.
Proof. intros [Hi _] Hu. by split. Qed.

(** Giving up leaves the worker idle, whatever its counters are. *)
Lemma abort_idle reason level w w' x : abortUpload uv reason level w = Ret (w', x) -> ids w -> idle w'.
Proof.
  intros E Hi. unfold abortUpload in E. set (rest := (drainRing;; _)%eff) in E.
  assert (preserves idle rest) as Hrest by (subst rest; repeat first [apply idle_drainRing | idle1]).
  cbn in E. eapply Hrest; [exact E|]. by split.
Qed.
Lemma fail_idle reason level w w' x : failSession uv reason level w = Ret (w', x) -> ids w -> idle w'.
Proof.
  intros E Hi. destruct (uploading (up w)) eqn:Eu; [|eapply idle_fail; [exact E|by split]].
  unfold failSession in E. unfold sbind at 1, sget in E. cbn [obind fst snd] in E. rewrite Eu in E.
  set (rest := fun _ : unit => (modDown _;; _)%eff) in E.
  assert (forall u, preserves idle (rest u)) as Hrest by (subst rest; intros u; idles). clearbody rest.
  assert (preserves idle (drainRing (Q := Q))) as Hd by apply idle_drainRing.
  unfold sbind at 1 2 3 in E. cbn [modReader modUp smod obind fst snd] in E.
  destruct (drainRing _) as [[w1 []]| |] eqn:Ed; try done. cbn [obind fst snd] in E.
  eapply Hrest; [exact E|]. eapply Hd; [exact Ed|]. by split.
Qed.
(** An upload that goes on is left alone. *)
Section Kept.
Context (u0 : Upload) (r0 : FileReader.t (Q := Q)).
Definition kept w : Prop := flow w /\ (uploading (up w) = true -> up w = u0 /\ reader w = r0).

Lemma idle_kept w : idle w -> kept w.
Proof. intros Hw. split; [by apply idle_flow|]. destruct Hw as [_ Hu]. congruence. Qed.

Lemma kept_idle w : kept w -> uploading (up w) = false -> idle w.
Proof. intros [Hw _]. by apply flow_idle. Qed.

Lemma blind_kept : blind kept.
Proof.
  split.
  - intros w k k' Ek [[Hi Hu] Hr] Hk Hp. split; [|exact Hr]. split; [intros k0 [= <-]; by apply Hk, Hi|]. cbn. intros Hup.
    destruct (Hu Hup) as (k1 & Ek1 & Hc & Hn). rewrite Ek in Ek1. injection Ek1 as <-. destruct (Hp Hc Hup) as [Hc' Hl].
    exists k'. split_and!; [done|done|lia].
  - intros w w' Eu Es Er [[Hi Hu] Hr]. unfold kept, flow, ids. by rewrite Eu, Es, Er.
Qed.

Lemma kept_fail reason level : preserves kept (failSession uv reason level).
Proof. intros w w' x E [[Hi _] _]. by eapply idle_kept, fail_idle. Qed.
Lemma kept_abort reason level : preserves kept (abortUpload uv reason level).
Proof. intros w w' x E [[Hi _] _]. by eapply idle_kept, abort_idle. Qed.

(** Steps that leave uploads and sockets alone, and sends. *)
Ltac keptMod := apply preserves_mod; intros ? Hkept; first [ exact Hkept | by apply (blind_other _ blind_kept _ _ eq_refl eq_refl eq_refl Hkept)
  | cbn; case_match; by apply (blind_other _ blind_kept _ _ eq_refl eq_refl eq_refl Hkept) ].
Ltac kept1 := first
  [ apply kept_fail | apply kept_abort | apply (keep_send kept blind_kept) | apply preserves_query | apply preserves_noFuel
  | apply preserves_bind; [|intros ?] | apply preserves_get | apply preserves_ret | apply preserves_lift | keptMod
  | progress cbv beta zeta | progress case_match ].
Ltac kepts := repeat kept1.

(** Whatever leaves an idle worker idle needs a look only while it uploads. *)
Lemma preserves_kept {A} (m : SM (TransferService.t (Q := Q)) A) :
  preserves idle m -> (forall w w' a, m w = Ret (w', a) -> kept w -> uploading (up w) = true -> kept w') -> preserves kept m.
Proof.
  intros Hi Hf w w' a E Hw. destruct (uploading (up w)) eqn:Eu; [by eapply Hf|]. apply idle_kept. eapply Hi; [exact E|by apply kept_idle].
Qed.

Lemma kept_finishDownload : preserves kept (finishDownload uv).
Proof. unfold finishDownload, dropResultClaim. kepts. Qed.
Lemma kept_bytesLoop fuel : forall data, preserves kept (bytesLoop uv fuel data).
Proof.
  induction fuel as [|fuel IH]; intros data; [done|]. cbn [bytesLoop].
  unfold handleAckBytes, handleResultHeaderBytes, handleResumeReplyBytes, handleCsvBytes, feedFramer, dropResultClaim, handleHeader, beginCsvReceive.
  repeat first [apply IH | apply kept_finishDownload | kept1].
Qed.
Lemma kept_handleRequestResult : preserves kept (handleRequestResult uv).
Proof. unfold handleRequestResult. kepts. Qed.
Lemma kept_startUploadDrain : preserves kept startUploadDrain.
Proof.
  apply preserves_kept; [apply idle_startUploadDrain|]. intros w w' a E Hf Hu. unfold startUploadDrain, sbind, sget in E.
  cbn [obind fst snd] in E. rewrite Hu in E. injection E as <- _. by apply (blind_other _ blind_kept w).
Qed.
Lemma kept_handleCancel : preserves kept (handleCancel uv).
Proof. unfold handleCancel. kepts. Qed.

Lemma kept_handleConnect ip port : preserves kept (handleConnect uv ip port).
Proof.
  apply preserves_kept; [apply idle_handleConnect|]. intros w w' a E Hf Hu. pose proof Hf as [[_ Hk] _]. destruct (Hk Hu) as (k & Ek & _).
  unfold handleConnect, sbind, sget in E. cbn [obind fst snd] in E. rewrite Ek in E. injection E as <- _. by apply (blind_other _ blind_kept w).
Qed.
Lemma kept_handleDisconnect : preserves kept (handleDisconnect uv).
Proof.
  apply preserves_kept; [apply idle_handleDisconnect|]. intros w w' a E [[Hi Hk] _] Hu. destruct (Hk Hu) as (k & Ek & _).
  unfold handleDisconnect, stopTimer in E. cbn in E. rewrite Ek, Hu in E. cbn in E. apply idle_kept. eapply abort_idle; [exact E|]. exact Hi.
Qed.
Lemma kept_handleQuit : preserves kept (handleQuit uv).
Proof.
  apply preserves_kept; [apply idle_handleQuit|]. intros w w' a E [[Hi _] _] Hu. unfold handleQuit in E.
  set (rest := (smod (fun w => setTimer w None);; _)%eff) in E. assert (preserves idle rest) as Hrest by (subst rest; idles).
  cbn in E. apply idle_kept. eapply Hrest; [exact E|]. by split.
Qed.
(** A lost connection ends an upload. *)
Lemma onError_idle status where_ w w' a : onError uv status where_ w = Ret (w', a) -> kept w -> idle w'.
Proof.
  intros E Hf. destruct (uploading (up w)) eqn:Hu; [|eapply idle_onError; [exact E|by apply kept_idle]]. unfold onError in E.
  do 3 (unfold sbind at 1 in E; cbn [sget obind fst snd] in E). rewrite Hu in E. cbn [orb] in E.
  set (first_ := if status =? UV_EOF then _ else _) in E.
  assert (preserves kept first_) as H1 by (subst first_; kepts). clearbody first_.
  unfold sbind at 1 in E. destruct (first_ w) as [[w1 []]| |] eqn:E1; try done. cbn [obind fst snd] in E.
  specialize (H1 _ _ _ E1 Hf). unfold sbind at 1 in E. destruct (abortUpload _ _ _ _) as [[w2 []]| |] eqn:E2; try done. cbn [obind fst snd] in E.
  apply abort_idle in E2; [|apply H1]. revert E E2.
  match goal with |- ?m w2 = _ -> _ => assert (preserves idle m) as H2 by idles end. intros E. exact (H2 _ _ _ E).
Qed.

Lemma kept_drainCommands fuel : preserves kept (drainCommands uv fuel).
Proof.
  induction fuel as [|fuel IH]; [done|]. cbn [drainCommands].
  repeat first [ apply IH | apply kept_handleConnect | apply kept_handleDisconnect | apply kept_startUploadDrain | apply kept_handleCancel
               | apply kept_handleRequestResult | apply kept_handleQuit | kept1 ].
Qed.
End Kept.
End Idle.

(** ** The callbacks of the loop do not make the worker quit *)
Section Quit.
Context (uv : Uv) {Q : Type} `{HQ : ChunkQueue Q} (b : bool).
Import TransferService.
Abbreviation stays := (preserves (fun w : TransferService.t (Q := Q) => quitting w = b)).

Lemma stays_onSocket f : stays (onSocket f).
Proof. intros w w' rc E Hw. unfold onSocket in E. destruct (socket w) as [k|]; [|done]. destruct (f k). by injection E as <- _. Qed.
Ltac stay1 := first
  [ apply stays_onSocket | apply preserves_query | apply preserves_noFuel | apply preserves_bind; [|intros ?] | apply preserves_get
  | apply preserves_ret | apply preserves_lift | apply preserves_mod; intros ? ?; first [assumption | case_match; assumption]
  | progress cbv beta zeta | progress case_match ].
Ltac stays := repeat stay1.

Lemma stays_abort reason level : stays (abortUpload uv reason level).
Proof. unfold abortUpload, drainRing, closeSocket. stays. Qed.
Lemma stays_fail reason level : stays (failSession uv reason level).
Proof. unfold failSession, drainRing, closeSocket. stays. Qed.
Lemma stays_onError status where_ : stays (onError uv status where_).
Proof. unfold onError, closeSocket. repeat first [apply stays_abort | apply stays_fail | stay1]. Qed.
Lemma stays_finishDownload : stays (finishDownload uv).
Proof. unfold finishDownload, dropResultClaim. repeat first [apply stays_fail | stay1]. Qed.
Lemma stays_bytesLoop fuel : forall data, stays (bytesLoop uv fuel data).
Proof.
  induction fuel as [|fuel IH]; intros data; [done|]. cbn [bytesLoop].
  unfold handleAckBytes, handleResultHeaderBytes, handleResumeReplyBytes, handleCsvBytes, feedFramer, dropResultClaim, handleHeader, beginCsvReceive.
  repeat first [apply IH | apply stays_fail | apply stays_finishDownload | stay1].
Qed.
Lemma stays_pumpLoop fuel : stays (pumpLoop uv fuel).
Proof. induction fuel as [|fuel IH]; [done|]. cbn [pumpLoop]. unfold reportProgress. repeat first [apply IH | apply stays_abort | stay1]. Qed.
Lemma stays_onSendComplete status : stays (onSendComplete uv status).
Proof.
  unfold onSendComplete, pumpUpload, finishUpload, now. repeat first [apply stays_abort | apply stays_pumpLoop | stay1].
Qed.
Lemma stays_written status : stays (do _ <- onSendComplete uv status; if status =? 0 then sret tt else onError uv status (bs "write"))%eff.
Proof. repeat first [apply stays_onSendComplete | apply stays_onError | stay1]. Qed.
End Quit.
