(* ===== verification/ClientPump.v ===== *)
(** * What the pump moves

    [moved w w']: the worker still uploads and has sent the oldest chunks of the
    ring, one write each; nothing else has changed but what the screen is told
    and how far the upload is. *)

From S2P Require Import Prelude StringView Crc32 Protocol Codec Framer Ring Net Exchange Effects FileReader ClientUi Window TransferService Client ClientInv ClientSend ClientCommands ClientFlow Level.

(** The first step of a run. *)
Lemma sbind_Ret {W A B} (m : SM W A) (f : A -> SM W B) w w' b :
  sbind m f w = Ret (w', b) -> exists w1 a, m w = Ret (w1, a) /\ f a w1 = Ret (w', b).
Proof. unfold sbind. destruct (m w) as [[w1 a]| |]; try done. intros E. by exists w1, a. Qed.
Lemma smod_Ret {W} (f : W -> W) w w' a : smod f w = Ret (w', a) -> w' = f w.
Proof. by intros [= <- _]. Qed.
Lemma sget_Ret {W A} (f : W -> A) w w' a : sget f w = Ret (w', a) -> w' = w /\ a = f w.
Proof. by intros [= <- <-]. Qed.
Ltac first_step E := let w1 := fresh "w" in let a := fresh "a" in let E1 := fresh "E1" in
  apply sbind_Ret in E as (w1 & a & E1 & E);
  try (first [apply sget_Ret in E1 as [-> ->] | apply smod_Ret in E1 as ->; clear a]).

Section Pump.
Context (uv : Uv) (fs : Files) {Q : Type} `{HQ : ChunkQueue Q}.
Context (Hwrite : forall n d, uv_write uv n d <= 0).
Import TransferService.
Implicit Types w : TransferService.t (Q := Q).

Abbreviation ringOf w := (FileReader.ring (reader w)).
Definition pending w : nat := from_option (fun k => length (TcpSocket.pendingWrites k)) 0%nat (socket w).

Record moved (q : list bytes) w (q' : list bytes) w' : Prop := mkMoved {
  mv_up : uploading (up w') = true;
  mv_total : uploadTotal (up w') = uploadTotal (up w);
  mv_trailer : trailerSent (up w') = trailerSent (up w);
  mv_queued : queued (ringOf w') q';
  mv_taken : exists taken, q = taken ++ q' /\ pending w' = (pending w + length taken)%nat /\ (taken = [] -> ringOf w' = ringOf w) /\
    (taken <> [] -> qfull (ringOf w') = false);
  mv_sent : uploadSent (up w') + zlen (concat q') = uploadSent (up w) + zlen (concat q);
  mv_reader : reader w' = FileReader.setRing (reader w) (ringOf w');
  mv_handle : option_map TcpSocket.handle (socket w') = option_map TcpSocket.handle (socket w);
  mv_room n : qroom (ringOf w) n -> qroom (ringOf w') n;
  mv_commands : commands w' = commands w }.

Lemma moved_refl w q : uploading (up w) = true -> queued (ringOf w) q -> moved q w q w.
Proof.
  intros Hu Hq. split; try done; [|by destruct w as [? ? ? ? ? ? ? ? ? ? []]]. exists []. cbn. split_and!; [done|lia|done|done].
Qed.
Lemma moved_trans w1 w2 w3 q1 q2 q3 : moved q1 w1 q2 w2 -> moved q2 w2 q3 w3 -> moved q1 w1 q3 w3.
Proof.
  intros [U1 T1 N1 Q1 (t1 & E1 & P1 & R1 & F1) S1 D1 L1 M1 C1] [U2 T2 N2 Q2 (t2 & E2 & P2 & R2 & F2) S2 D2 L2 M2 C2]. split; try done; try congruence.
  - exists (t1 ++ t2). split_and!.
    + by rewrite E1, E2, app_assoc.
    + rewrite length_app. lia.
    + intros [-> ->]%app_nil. rewrite R2, R1; done.
    + intros Hne. destruct t2 as [|d t2]; [|by apply F2]. rewrite (R2 eq_refl). apply F1. by intros ->.
  - rewrite D2, D1. by destruct (reader w1).
  - auto.
Qed.
(** What reporting changes is not looked at. *)
Lemma moved_report w q w' q' : moved q w q' w' -> forall w'' x, reportProgress w' = Ret (w'', x) ->
  moved q w q' w'' /\ inFlightWrites (up w'') = inFlightWrites (up w') /\ socket w'' = socket w'.
Proof.
  intros [] w'' x. unfold reportProgress, sbind, sget, modUp, pushEvent, smod, sret. cbn [obind fst snd].
  case_match; intros [= <- _]; (split; [by split|done]).
Qed.

(** A round of the pump. *)
Lemma moved_round w d q k k' crc n :
  uploading (up w) = true -> queued (ringOf w) (d :: q) -> socket w = Some k ->
  length (TcpSocket.pendingWrites k') = S (length (TcpSocket.pendingWrites k)) -> TcpSocket.handle k' = TcpSocket.handle k ->
  0 <= uploadSent (up w) -> uploadSent (up w) + zlen (concat (d :: q)) < 2 ^ 64 ->
  moved (d :: q) w q
    (setUp (setReader (setSocket w (Some k')) (FileReader.setRing (reader w) (qpop (ringOf w))))
       (setSent (setInFlight (setCrc (up w) crc) n) (u64 (uploadSent (up w) + zlen d)))).
Proof.
  intros Hu Hq Ek Hp Hh H0 Hs. cbn [concat] in Hs. rewrite zlen_app in Hs. pose proof (zlen_nonneg d). pose proof (zlen_nonneg (concat q)).
  assert (u64 (uploadSent (up w) + zlen d) = uploadSent (up w) + zlen d) as Eu by (apply uwrap_small; unfold is_uint; lia).
  split; cbn; try done.
  - by eapply qpop_queued.
  - exists [d]. split_and!; [done| |done|intros _; by eapply qpop_full]. unfold pending. cbn. rewrite Ek. cbn. lia.
  - rewrite Eu, zlen_app. lia.
  - rewrite Ek. cbn. by rewrite Hh.
  - apply qpop_room.
Qed.

(** The pump stopped because the ring is empty or enough is in flight. *)
Definition settled (q : list bytes) w : Prop := q = [] \/ kMaxInFlightWrites <= inFlightWrites (up w).

Lemma send_Ret d w k w' rc :
  send uv d w = Ret (w', rc) -> socket w = Some k ->
  w' = setSocket w (Some (TcpSocket.send uv k d).1) /\ rc = (TcpSocket.send uv k d).2.
Proof. unfold send, onSocket. intros E Ek. rewrite Ek in E. destruct (TcpSocket.send uv k d) as [k' rc']. by injection E as <- <-. Qed.

Lemma pumpLoop_moves fuel : forall w q w' ok,
  pumpLoop uv fuel w = Ret (w', ok) -> flow w -> uploading (up w) = true -> queued (ringOf w) q ->
  0 <= inFlightWrites (up w) -> 0 <= uploadSent (up w) -> uploadSent (up w) + zlen (concat q) < 2 ^ 64 ->
  if ok then flow w' /\ 0 <= inFlightWrites (up w') /\ exists q', moved q w q' w' /\ settled q' w'
  else idle w' /\ ((forall k, socket w = Some k -> TcpSocket.handle k = true) -> exists n d, uv_write uv n d <> 0).
Proof.
  induction fuel as [|fuel IH]; intros w q w' ok; [done|]. cbn [pumpLoop]. intros E Hf Hu Hq Hn H0 Hs.
  first_step E. destruct (Z.ltb_spec (inFlightWrites (up w)) kMaxInFlightWrites) as [Hlt|Hge].
  2:{ injection E as <- <-. split; [done|]. split; [done|]. exists q. split; [by apply moved_refl|by right]. }
  first_step E. first_step E. unfold slift in E1. rewrite (qpeek_queued _ _ Hq) in E1. injection E1 as <- <-.
  destruct q as [|d q]; cbn [head] in E.
  { injection E as <- <-. split; [done|]. split; [done|]. exists []. split; [by apply moved_refl|by left]. }
  destruct Hf as [Hi Hk]. destruct (Hk Hu) as (k & Ek & Hcl & Hle). pose proof (Hi k Ek) as Hids.
  first_step E. first_step E. unfold send, onSocket in E1. cbn [socket setUp] in E1. rewrite Ek in E1. pose proof (idsOk_send uv k d Hids) as Hids'.
  destruct (TcpSocket.send uv k d) as [k' rc] eqn:Es. injection E1 as <- <-. first_step E. first_step E.
  apply send_pending in Es as Es'. destruct Es' as [Ec Hsent]. destruct (Z.ltb_spec rc 0) as [Hrc|Hrc].
  - first_step E. injection E as <- <-. split; [eapply abort_idle; [exact E1|]; by intros k0 [= <-]|].
    intros Hh. unfold TcpSocket.send in Es. rewrite (Hh k Ek), Hcl in Es. cbn [negb orb] in Es.
    destruct (Z.eqb_spec (uv_write uv (TcpSocket.calls k) d) 0) as [Ez|Ez]; cbn [negb] in Es; [injection Es as _ <-; lia|by eexists _, _].
  - destruct Hsent as [(-> & _ & Ep & _)|(Hne & Ep & _)].
    2:{ exfalso. unfold TcpSocket.send in Es. destruct (_ || _); [by injection Es as _ <-|]. specialize (Hwrite (TcpSocket.calls k) d).
        destruct (negb _); injection Es as _ <-; lia. }
    pose proof (send_handle uv k d) as Hhk. rewrite Es in Hhk. cbn in Hhk.
    first_step E. apply (f_equal length) in Ep as El. rewrite length_app in El. cbn [length] in El.
    assert (u64 (inFlightWrites (up w) + 1) = inFlightWrites (up w) + 1) as Ei by (apply uwrap_small; unfold is_uint, kMaxInFlightWrites in *; lia).
    match type of E with _ ?W = _ => set (w1 := W) in E end.
    assert (moved (d :: q) w q w1) as H1 by (apply (moved_round w d q k k'); [done|done|done|lia|done..]).
    assert (flow w1) as Hf1.
    { split; [by intros k0 [= <-]|]. intros _. exists k'. cbn. rewrite Ec, Ei. split_and!; [done|done|lia]. }
    first_step E. destruct (moved_report _ _ _ _ H1 _ _ E1) as (H2 & En & Ek2).
    assert (flow w0) as Hf2 by (destruct Hf1 as [A B]; split; [intros k0; rewrite Ek2; apply A|]; rewrite En, Ek2; intros _; by apply B).
    pose proof (mv_sent _ _ _ _ H2) as Hs2. pose proof (zlen_nonneg d). cbn [concat] in Hs, Hs2. rewrite zlen_app in Hs, Hs2.
    assert (uploadSent (up w0) = uploadSent (up w) + zlen d) as Esent by lia.
    apply (IH _ q) in E; [|done|apply H2|apply H2|rewrite En; cbn; lia|lia|lia].
    destruct ok.
    + destruct E as (H3 & H4 & q' & H5 & H6). split_and!; [done|done|]. exists q'. split; [by eapply moved_trans|done].
    + destruct E as [H3 H4]. split; [done|]. intros Hh. apply H4. intros k0. rewrite Ek2. intros [= <-]. rewrite Hhk. by apply Hh.
Qed.

(** What the pump leaves behind while the upload goes on: nothing that it could
    have done. *)
Definition pumpedOut (q : list bytes) w : Prop :=
  settled q w /\ FileReader.failed (reader w) = false /\
  (FileReader.readComplete (reader w) = true -> q = [] -> uploadSent (up w) < uploadTotal (up w)).

(** Why an upload ended: the trailer was sent, the file could not be read, or a
    write was refused. *)
Definition endedBy w w' : Prop :=
  expecting (down w') = Expecting.Ack \/ FileReader.failed (reader w) = true \/
  ((forall k, socket w = Some k -> TcpSocket.handle k = true) -> exists n d, uv_write uv n d <> 0).

Lemma drainRing_down w w' x : drainRing (Q := Q) w = Ret (w', x) -> down w' = down w.
Proof.
  unfold drainRing. intros E. first_step E. first_step E. unfold slift in E1. destruct (drainLoop _ _) as [r| |]; try done. injection E1 as <- <-.
  by injection E as <- _.
Qed.

Lemma finishUpload_ends w w' x :
  finishUpload uv w = Ret (w', x) -> flow w -> uploading (up w) = true ->
  idle w' /\ (expecting (down w') = Expecting.Ack \/
    ((forall k, socket w = Some k -> TcpSocket.handle k = true) -> exists n d, uv_write uv n d <> 0)).
Proof.
  unfold finishUpload. intros E [Hi Hk] Hu. destruct (Hk Hu) as (k & Ek & Hcl & _). first_step E. first_step E. first_step E.
  cbn [up setUp uploadCrc setTrailerSent] in E1. unfold send, onSocket in E1. cbn [socket setUp] in E1. rewrite Ek in E1. pose proof (idsOk_send uv k) as Hids.
  destruct (TcpSocket.send uv k _) as [k' rc] eqn:Es. injection E1 as <- <-.
  assert (idsOk k') as Hk' by (specialize (Hids (encodeUploadTrailer (mkUploadTrailer (uploadCrc (up w)))) (Hi k Ek)); by rewrite Es in Hids).
  destruct (rc <? 0) eqn:Hrc.
  - split; [eapply abort_idle; [exact E|]; by intros k0 [= <-]|]. right. intros Hh. unfold TcpSocket.send in Es. rewrite (Hh k Ek), Hcl in Es.
    cbn [negb orb] in Es. destruct (Z.eqb_spec (uv_write uv (TcpSocket.calls k) (encodeUploadTrailer (mkUploadTrailer (uploadCrc (up w))))) 0) as [Ez|Ez].
    + exfalso. rewrite Ez in Es. injection Es as _ <-. done.
    + by eexists _, _.
  - first_step E. unfold now in E. repeat first_step E. injection E as <- _. split; [|by left]. split; [|done]. by intros k0 [= <-].
Qed.

Lemma pumpUpload_moves w q w' x :
  pumpUpload uv w = Ret (w', x) -> flow w -> uploading (up w) = true -> trailerSent (up w) = false -> queued (ringOf w) q ->
  0 <= inFlightWrites (up w) -> 0 <= uploadSent (up w) -> uploadSent (up w) + zlen (concat q) < 2 ^ 64 ->
  flow w' /\
  ((uploading (up w') = false /\ endedBy w w') \/
   (0 <= inFlightWrites (up w') /\ exists q', moved q w q' w' /\ pumpedOut q' w')).
Proof.
  unfold pumpUpload. intros E Hf Hu Ht Hq Hn H0 Hs. first_step E. first_step E. pose proof (proj2 Hf Hu) as (k & Ek & Hcl & _).
  rewrite Hu, Ek, Hcl in E. cbn [negb orb] in E. first_step E. destruct (FileReader.failed (reader w)) eqn:Efail.
  { first_step E. apply abort_idle in E; [|apply Hf]. split; [by apply idle_flow|]. left. split; [apply E|]. right. by left. }
  first_step E. apply (pumpLoop_moves 9 w q) in E1; try done. destruct a; cbn [negb] in E.
  2:{ injection E as <- _. destruct E1 as [E1 E2]. split; [by apply idle_flow|]. left. split; [apply E1|]. right. by right. }
  destruct E1 as (Hf1 & Hn1 & q' & Hm & Hset). pose proof Hm as [Hu1 Htot Htr Hq1 Htk Hsent Hrd Hhd _ _].
  first_step E. first_step E. rewrite Htr, Ht in E. cbn [negb andb] in E.
  destruct (_ && _ && _) eqn:Ec.
  - apply finishUpload_ends in E as [Hid He]; [|done|done]. split; [by apply idle_flow|]. left. split; [apply Hid|].
    destruct He as [He|He]; [by left|]. right. right. intros Hh. apply He. intros k' Ek'. rewrite Ek, Ek' in Hhd. injection Hhd as ->. by apply Hh.
  - injection E as <- _. split; [done|]. right. split; [done|]. exists q'. split; [done|]. split; [done|]. split; [by rewrite Hrd|].
    intros Hrc ->. rewrite Hrc, (qempty_queued _ _ Hq1) in Ec. cbn in Ec. apply Z.leb_gt in Ec. lia.
Qed.
End Pump.
