(* ===== verification/ClientRuns.v ===== *)
(** * The client in every calm run *)

From S2P Require Import Prelude StringView Crc32 Protocol Codec Framer Ring Net Exchange Effects FileReader ClientUi Window TransferService Client ClientInv ClientSend ClientCommands ClientReceive.

Section Runs.
Context (uv : Uv) (fs : Files) {Q : Type} `{HQ : ChunkQueue Q}.
Context (Hwrite : forall n d, uv_write uv n d <= 0) (Hstop : forall n, uv_timer_stop uv n = 0).
Import TransferService.
Implicit Types w : TransferService.t (Q := Q).

(** ** What the user does *)

(** [v'] is [v] but for a session that may have been set to one that is not busy. *)
Definition settles (v v' : Seen) : Prop :=
  seenLink v' = seenLink v /\ seenClaim v' = seenClaim v /\
  (isBusy (seenSession v) = false -> isBusy (seenSession v') = false).

Lemma settles_caughtUp evs : forall v v', settles v v' -> settles (caughtUp v evs) (caughtUp v' evs).
Proof.
  induction evs as [|e evs IH]; intros v v' Hv; [done|]. apply (IH (see v e) (see v' e)). destruct Hv as (E1 & E2 & E3).
  unfold settles. cbn. rewrite E1, E2. split_and!; try done. by destruct (ev_session e).
Qed.

Lemma press_settles stamp csv u b : settles (shown u) (shown (Screen.press stamp csv u b).1).
Proof.
  destruct b; cbn; try done;
    unfold Screen.onConnect, Screen.onPing, Screen.onBrowse, Screen.onSend, Screen.onSaveResult; by repeat case_match.
Qed.

Section More.
Context (asked more : list Command) (c : FileReader.pc) (v v' : Seen) (Hv : settles v v').

Lemma base_more cs qt w : base fs asked c v cs qt w -> base fs (asked ++ more) c v' cs qt w.
Proof.
  pose proof (settles_caughtUp (events w) v v' Hv) as (E1 & E2 & _). intros []. constructor; try done.
  - intros k Ek. destruct (b_spoken k Ek) as (tail & ? & ?). exists tail. split; [by apply spoken_more|by apply cut_more].
  - intros Hc. destruct (b_claim Hc) as (data & ? & ?). exists data. split; [by apply theUpload_more|done].
  - by rewrite E1.
  - by rewrite E2.
Qed.

Lemma active_more w : active fs asked c v w -> active fs (asked ++ more) c v' w.
Proof.
  pose proof (settles_caughtUp (events w) v v' Hv) as (_ & _ & E3). intros [Hw|[Hw|Hw]].
  - left. destruct Hw as (? & ? & ? & ? & Hk). split_and!; try done; [by apply E3|]. intros. apply spoken_more. by apply Hk.
  - right. left. destruct Hw as (? & ? & ? & ? & ? & k & Hk & path & content & Ha & ? & ? & ? & ? & ?). split_and!; try done.
    exists k. split; [done|]. exists path, content. split_and!; try done; [apply elem_of_app; by left|by apply spoken_more].
  - right. right. destruct Hw as (? & ? & (k & Hk & ? & Hack) & ?). split_and!; try done. exists k. split_and!; [done|by apply spoken_more|].
    intros He. destruct (Hack He) as (data & ? & ? & ? & ?). exists data. split_and!; [by apply theUpload_more|done|done|by apply spoken_more].
Qed.
End More.

Lemma settles_refl v : settles v v.
Proof. done. Qed.

(** ** The reader's thread *)

Definition readerKept (c : FileReader.pc) (rd : FileReader.t (Q := Q)) (c' : FileReader.pc) (rd' : FileReader.t) : Prop :=
  readerOk c' rd' /\ FileReader.quit rd' = FileReader.quit rd /\
  forall content n size, feeding c rd content n size -> feeding c' rd' content n size.

(** A step that leaves ring and file alone. *)
Lemma kept_moves c rd c' rd' :
  readerOk c' rd' -> FileReader.quit rd' = FileReader.quit rd -> FileReader.abort rd' = FileReader.abort rd ->
  FileReader.ring rd' = FileReader.ring rd -> inHand c' = inHand c ->
  (ended c' rd' = false -> ended c rd = false /\ FileReader.file rd' = FileReader.file rd /\ FileReader.remaining rd' = FileReader.remaining rd) ->
  readerKept c rd c' rd'.
Proof.
  intros Hok Eq Ea Er Eh Hend. split_and!; [done|done|]. intros content n size (H1 & H2 & H3 & q & Hq & Hm & Et & Hf).
  split_and!; [by rewrite Eq|by rewrite Ea|done|]. exists q. rewrite Er, Eh. split; [done|]. cbn zeta. split_and!; try done.
  intros He. destruct (Hend He) as (He' & -> & ->). by apply Hf.
Qed.

(** A stopped reader is at the end of its loop. *)
Lemma kept_stops c rd c' :
  readerOk c' rd -> FileReader.quit rd = true \/ FileReader.abort rd = true -> readerKept c rd c' rd.
Proof. intros Hok Hs. split_and!; [done|done|]. intros content n size (H1 & H2 & _). destruct Hs; congruence. Qed.

(** Reading [actual] bytes of the file. *)
Lemma kept_reads rd left actual :
  readerOk FileReader.RRead rd -> FileReader.file rd = Some left -> 0 < actual ->
  actual <= Z.min (Z.min (FileReader.remaining rd) (chunkCapacity (FileReader.ring rd))) (zlen left) ->
  readerKept FileReader.RRead rd (FileReader.RCommit (ztake actual left))
    (FileReader.mk (FileReader.ring rd) (FileReader.uploading rd) (FileReader.quit rd) (Some (zdrop actual left))
       (u64 (FileReader.remaining rd - actual)) (FileReader.error rd) (FileReader.abort rd) (FileReader.readComplete rd) (FileReader.failed rd)).
Proof.
  intros (Hrem & Hq & (_ & Hroom) & Hu) Ef Hpos Hle. unfold is_uint in Hrem.
  assert (Hr : u64 (FileReader.remaining rd - actual) = FileReader.remaining rd - actual) by (apply uwrap_small; unfold is_uint; lia).
  rewrite Hr. assert (Hz : zlen (ztake actual left) = actual) by (rewrite zlen_ztake; lia). split_and!; [|done|].
  { split; [unfold is_uint; cbn; lia|]. split; [done|]. split; [cbn; split_and!; [by eexists|done|rewrite Hz; lia]|].
    cbn. intros E. by destruct (Hu E); [|right]. }
  intros content n size (H1 & H2 & H3 & q & Hq' & Hm & Et & Hf). destruct (Hf eq_refl) as (Efile & Erem).
  rewrite Ef in Efile. injection Efile as ->. cbn [inHand] in *. rewrite app_nil_r in *. set (m := n + zlen (concat q)) in *.
  assert (Hm0 : 0 <= m) by (pose proof (zlen_nonneg (concat q)); lia). rewrite zlen_zdrop in Hle by done.
  split_and!; try done. exists q. split; [done|]. cbn zeta. cbn [inHand]. rewrite zlen_app, Hz. replace (n + (zlen (concat q) + actual)) with (m + actual) by lia.
  split_and!; [lia|..].
  - rewrite app_assoc, Et. unfold ztake, zdrop. rewrite Z2Nat.inj_add by lia. apply take_take_drop.
  - intros _. cbn. rewrite zdrop_zdrop by lia. split; [done|lia].
Qed.

(** Putting the chunk in the ring. *)
Lemma kept_commits rd r d q :
  readerOk (FileReader.RCommit d) rd -> qroom (FileReader.ring rd) 1 -> queued (FileReader.ring rd) q ->
  qpush (FileReader.ring rd) d = Ret (Some r) -> readerKept (FileReader.RCommit d) rd FileReader.RTop (FileReader.setRing rd r).
Proof.
  intros (Hrem & _ & (Hfile & Hroom & Hz) & Hu) Hr Hq Ep.
  assert (Hpush : forall q, queued (FileReader.ring rd) q -> queued r (q ++ [d])).
  { intros q' Hq'. pose proof (qpush_queued _ _ d Hq' Hr Hz) as P. rewrite Hroom in P. destruct P as (r' & E & Hq2 & _). congruence. }
  split_and!; [|done|].
  { split_and!; try done; [by eexists; apply Hpush|]. intros E. by destruct (Hu E); [|right]. }
  intros content n size (H1 & H2 & H3 & q' & Hq' & Hm & Et & Hf). split_and!; try done. exists (q' ++ [d]). split; [by apply Hpush|].
  cbn [inHand] in *. rewrite concat_app, app_nil_r. cbn [concat]. rewrite app_nil_r. split_and!; try done.
Qed.

Lemma reader_step actual c rd :
  readerOk c rd -> qroom (FileReader.ring rd) 1 ->
  exists r, FileReader.step actual rd c = Ret r /\ forall rd' c' b, r = Some (rd', c', b) -> readerKept c rd c' rd'.
Proof.
  intros Hok Hroom. pose proof Hok as (Hrem & (q & Hq) & Hc & Hu).
  assert (Hu' : c <> FileReader.RWait -> FileReader.uploading rd = false -> FileReader.quit rd = true) by (intros ? E; by destruct (Hu E)).
  destruct c as [| | | | |d| |]; cbn [FileReader.step].
  - eexists. split; [done|]. intros rd' c' b. destruct (FileReader.quit rd) eqn:Eq; [|destruct (FileReader.uploading rd) eqn:Eu; [|done]].
    + intros [= <- <- _]. apply kept_stops; [|by left]. split_and!; try done; [by exists q|]. by right.
    + intros [= <- <- _]. apply kept_moves; try done; cbn; [|by rewrite Eu]. split_and!; try done; [by exists q|by apply Hc|]. congruence.
  - eexists. split; [done|]. intros rd' c' b [= <- <- _]. destruct (FileReader.abort rd) eqn:Ea.
    + apply kept_stops; [|by right]. split_and!; try done; [by exists q|]. auto.
    + apply kept_moves; try done. split_and!; try done; [by exists q|]. auto.
  - eexists. split; [done|]. intros rd' c' b [= <- <- _]. destruct (qfull (FileReader.ring rd)) eqn:Ea;
      (apply kept_moves; try done; split_and!; try done; [by exists q|]; auto).
  - eexists. split; [done|]. intros rd' c' b. destruct (FileReader.quit rd || FileReader.abort rd) eqn:Es; cbn [orb].
    + intros [= <- <- _]. apply orb_true_iff in Es. apply kept_stops; [|done]. split_and!; try done; [by exists q|]. auto.
    + destruct (negb _); [|done]. intros [= <- <- _]. apply kept_moves; try done. split_and!; try done; [by exists q|]. auto.
  - destruct Hc as [[left Ef] Hfull]. pose proof (qcapacity_pos _ _ Hq).
    destruct (Z.ltb_spec 0 (Z.min (FileReader.remaining rd) (chunkCapacity (FileReader.ring rd)))).
    + rewrite Ef. destruct ((actual <? 0) || _) eqn:Er; [by eexists|]. apply orb_false_iff in Er as [E1%Z.ltb_ge E2%Z.ltb_ge].
      destruct (Z.leb_spec actual 0); eexists; (split; [done|]); intros rd' c' b [= <- <- _].
      * apply kept_moves; try done. split_and!; try done; [by exists q|]. auto.
      * apply kept_reads; [done|done|lia|lia].
    + eexists. split; [done|]. intros rd' c' b [= <- <- _]. apply kept_moves; try done. split_and!; try done; [by exists q|]. auto.
  - destruct Hc as (Hfile & Hfull & Hz). pose proof (qpush_queued _ _ d Hq Hroom Hz) as P. rewrite Hfull in P.
    destruct P as (r & E & _). rewrite E, obind_Ret. eexists. split; [done|]. intros rd' c' b [= <- <- _]. by eapply kept_commits.
  - eexists. split; [done|]. intros rd' c' b [= <- <- _]. apply kept_moves; try done. split_and!; try done; [by exists q|]. auto.
  - by eexists.
Qed.

(** ** The whole client *)

Implicit Types s : Client.t (Q := Q).

(** A file whose upload the server accepts. *)
Definition announceable (name : bytes) (size : Z) : Prop := validFilename name /\ 0 <= size <= kMaxFileSize.
(** The file the screen shows, if any, is one. *)
Definition chosenOk (u : UiState.t) : Prop := UiState.filePath u <> [] -> announceable (UiState.fileName u) (UiState.fileSize u).

(** The requests are for such files, and [stop] posts the last of them. *)
Definition requestsOk s (asked : list Command) : Prop :=
  (forall path name size, StartUploadCommand path name size ∈ asked -> announceable name size) /\
  chosenOk (Client.ui s) /\
  Forall (fun x => x ∈ asked) (commands (Client.svc s)) /\ quitLast (commands (Client.svc s)) /\
  (Client.exiting s = false -> (QuitCommand ∉ commands (Client.svc s)) /\ quitting (Client.svc s) = false).

Definition phaseOk s (asked : list Command) : Prop :=
  let w := Client.svc s in
  let act := active fs asked (Client.rpc s) (shown (Client.ui s)) w in
  match Client.paused s with
  | None => act \/ over (commands w) (quitting w) w
  | Some (path, name, size) =>
      quitting w = false /\ act /\ uploading (up w) = false /\ (exists k, live w k) /\ StartUploadCommand path name size ∈ asked
  end.

Definition clientInv s (asked : list Command) : Prop :=
  let w := Client.svc s in
  requestsOk s asked /\ base fs asked (Client.rpc s) (shown (Client.ui s)) (commands w) (quitting w) w /\ phaseOk s asked.

Lemma clientInv_init r : queued r [] -> clientInv (Client.init r) [].
Proof.
  intros Hr. split_and!; [split_and!; cbn; try done|..].
  - intros ? ? ? H. by apply elem_of_nil in H.
  - intros a b E. by destruct a.
  - intros _. split; [|done]. apply not_elem_of_nil.
  - constructor; try done. split_and!; [done|by exists []|done|by left].
  - left. left. by split_and!.
Qed.

(** Moving on with a state that has [base]: the requests are those of before. *)
Lemma requestsOk_svc s s' asked :
  requestsOk s asked -> Client.ui s' = Client.ui s -> Client.exiting s' = Client.exiting s ->
  commands (Client.svc s') = commands (Client.svc s) -> quitting (Client.svc s') = quitting (Client.svc s) -> requestsOk s' asked.
Proof. intros (H1 & H2 & H3 & H4 & H5) Eu Ee Ec Eq. unfold requestsOk. by rewrite Eu, Ee, Ec, Eq. Qed.

Lemma working_phase s asked : clientInv s asked -> Client.paused s = None ->
  base fs asked (Client.rpc s) (shown (Client.ui s)) (commands (Client.svc s)) (quitting (Client.svc s)) (Client.svc s) /\
  working fs asked (Client.rpc s) (shown (Client.ui s)) (commands (Client.svc s)) (quitting (Client.svc s)) (Client.svc s).
Proof. intros (_ & Hb & Hp) En. unfold phaseOk in Hp. rewrite En in Hp. by split. Qed.

(** A callback that keeps the worker's invariant. *)
Lemma run_inv s asked m :
  clientInv s asked -> Client.paused s = None ->
  truns m (Client.svc s) (fun w' _ =>
    base fs asked (Client.rpc s) (shown (Client.ui s)) (commands (Client.svc s)) (quitting (Client.svc s)) w' /\
    working fs asked (Client.rpc s) (shown (Client.ui s)) (commands (Client.svc s)) (quitting (Client.svc s)) w') ->
  exists s', Client.run s m = Ret (Some s') /\ clientInv s' asked.
Proof.
  intros (Hq & Hb & Hp) En (w' & [] & E & Hb' & Hw'). unfold Client.run. rewrite E, obind_Ret. eexists. split; [done|].
  assert (Ec : commands w' = commands (Client.svc s)) by apply Hb'. assert (Eq : quitting w' = quitting (Client.svc s)) by apply Hb'.
  split_and!; [by apply (requestsOk_svc s)|by cbn; rewrite Ec, Eq|]. unfold phaseOk. cbn. by rewrite Ec, Eq.
Qed.

(** A command of the screen. *)
Lemma posted_inv s u x asked e :
  clientInv s asked -> settles (shown (Client.ui s)) (shown u) -> chosenOk u -> Client.exiting s = false ->
  (e = false -> x <> Some QuitCommand) -> (forall path name size, x = Some (StartUploadCommand path name size) -> announceable name size) ->
  clientInv (Client.mk (Client.postSome (Client.svc s) x) (Client.rpc s) (Client.paused s) u e)
    (asked ++ match x with Some x => [x] | None => [] end).
Proof.
  intros ((H1 & H2 & H3 & H4 & H5) & Hb & Hp) Hu Hsz Hx Hne Hs. destruct (H5 Hx) as [Hnq Hq].
  set (more := match x with Some x => [x] | None => [] end).
  assert (Ec : commands (Client.postSome (Client.svc s) x) = commands (Client.svc s) ++ more) by (by destruct x; cbn; rewrite ?app_nil_r).
  split_and!.
  - unfold requestsOk. cbn. rewrite Ec. split_and!; try done.
    + intros path name size [Hin|Hin]%elem_of_app; [by eapply H1|]. unfold more in Hin. destruct x as [y|]; [|by apply elem_of_nil in Hin].
      apply list_elem_of_singleton in Hin as <-. by eapply Hs.
    + apply Forall_app. split; [eapply Forall_impl; [|exact H3]; intros y ?; apply elem_of_app; by left|].
      unfold more. destruct x; [|done]. constructor; [|done]. apply elem_of_app. right. by left.
    + intros a b E. unfold more in E. destruct x as [y|]; [|rewrite app_nil_r in E; by apply (H4 a)].
      destruct (decide (b = [])) as [|Hb']; [done|]. exfalso. destruct (exists_last Hb') as (b' & z & ->).
      rewrite app_comm_cons, app_assoc in E. apply app_inj_2 in E as [E _]; [|done]. apply Hnq. rewrite E. apply elem_of_app. right. by left.
    + intros He. specialize (Hne He). split; [|by destruct x]. unfold more. destruct x as [y|]; [|by rewrite app_nil_r].
      intros [Hin|Hin]%elem_of_app; [done|]. apply list_elem_of_singleton in Hin as <-. done.
  - cbn. apply (base_more _ more _ _ _ Hu) in Hb. destruct x; [|exact Hb]. cbn. eapply base_commands. exact Hb.
  - unfold phaseOk in *. cbn. destruct (Client.paused s) as [[[path name] size]|].
    + destruct Hp as (Hqt & Ha & Hup & Hk & Hin). split_and!; try (by destruct x).
      * apply (active_more _ more _ _ _ Hu) in Ha. by destruct x.
      * apply elem_of_app. by left.
    + destruct Hp as [Ha|(Hqt & _)]; [left|congruence]. apply (active_more _ more _ _ _ Hu) in Ha. by destruct x.
Qed.

Lemma theUpload_valid s asked name data : requestsOk s asked -> theUpload fs asked name data -> validUpload name data.
Proof. intros (H1 & _) (path & content & Ha & _). destruct (H1 _ _ _ Ha) as [? ?]. split; [lia|done]. Qed.

Lemma press_chosen stamp csv u b :
  chosenOk u ->
  chosenOk (Screen.press stamp csv u b).1 /\ (Screen.press stamp csv u b).2 <> Some QuitCommand /\
  forall path name size, (Screen.press stamp csv u b).2 = Some (StartUploadCommand path name size) -> announceable name size.
Proof.
  intros Hu. destruct b as [| | |answer|answer| | |answer]; cbn; try done.
  - unfold Screen.onConnect. by repeat case_match.
  - unfold Screen.onPing. by repeat case_match.
  - split_and!; [|done..]. unfold Screen.onBrowse. destruct (Dialog.openFileDialog answer) as [f|e] eqn:E; [|by case_bool_decide].
    apply openFileDialog_valid in E as (_ & ? & ?). intros _. by split.
  - unfold Screen.onSend. case_bool_decide as Ep; [by split_and!|]. case_match; [by split_and!|]. split_and!; try done.
    intros path name size [= <- <- <-]. by apply Hu.
  - unfold Screen.onSaveResult. by repeat case_match.
Qed.

Lemma frame_inv s asked stamp :
  clientInv s asked -> Client.exiting s = false ->
  clientInv (Client.mk (drainEvents (Client.svc s)).1 (Client.rpc s) (Client.paused s)
    (UiState.pumpWorkerEvents stamp (Client.ui s) (drainEvents (Client.svc s)).2) false) asked.
Proof.
  intros ((H1 & H2 & H3 & H4 & H5) & Hb & Hp) Hx.
  assert (Ev : shown (UiState.pumpWorkerEvents stamp (Client.ui s) (events (Client.svc s))) = caughtUp (shown (Client.ui s)) (events (Client.svc s))) by apply shown_pump.
  assert (Es : forall evs u, chosenOk u -> chosenOk (UiState.pumpWorkerEvents stamp u evs)).
  { induction evs as [|e evs IH]; intros u Hu; [done|]. cbn. apply IH. unfold UiState.applyEvent. by case_bool_decide. }
  split_and!.
  - split_and!; try done; [by apply Es|]. intros _. by apply H5.
  - cbn -[UiState.pumpWorkerEvents]. rewrite Ev. destruct Hb. by constructor.
  - unfold phaseOk in *. cbn -[UiState.pumpWorkerEvents]. rewrite Ev. exact Hp.
Qed.

Lemma reader_inv s asked rd c' :
  clientInv s asked -> readerKept (Client.rpc s) (reader (Client.svc s)) c' rd ->
  clientInv (Client.mk (setReader (Client.svc s) rd) c' (Client.paused s) (Client.ui s) (Client.exiting s)) asked.
Proof.
  intros (Hq & Hb & Hp) (Hok & Eq & Hfeed).
  assert (Hact : forall v, active fs asked (Client.rpc s) v (Client.svc s) -> active fs asked c' v (setReader (Client.svc s) rd)).
  { intros v [Hw|[Hw|Hw]]; [by left| |by right; right]. right. left.
    destruct Hw as (? & ? & ? & ? & ? & k & Hk & path & content & ? & ? & ? & ? & ? & Hf). split_and!; try done.
    exists k. split; [done|]. exists path, content. split_and!; try done. by apply Hfeed. }
  split_and!; [by apply (requestsOk_svc s)| |].
  - destruct Hb. constructor; try done. cbn. by rewrite Eq.
  - unfold phaseOk in *. cbn. destruct (Client.paused s) as [[[path name] size]|].
    + destruct Hp as (? & Ha & Hp). split; [done|]. split; [by apply Hact|exact Hp].
    + destruct Hp as [Ha|Ho]; [left; by apply Hact|by right].
Qed.

(** Where [onAsyncCb] leaves the client. *)
Lemma drained_inv s asked w r :
  requestsOk s asked -> drained fs asked (Client.rpc s) (shown (Client.ui s)) (commands (Client.svc s)) w r ->
  clientInv (Client.mk w (Client.rpc s) r (Client.ui s) (Client.exiting s)) asked.
Proof.
  intros (H1 & H2 & H3 & H4 & H5) Hd. destruct r as [[[path name] size]|].
  - destruct Hd as (cs & k & Hb & Ha & Hu & Hk & Hin & a & E). pose proof (b_cmds _ _ _ _ _ _ _ Hb) as Ec. pose proof (b_quit _ _ _ _ _ _ _ Hb) as Eq.
    rewrite E in *. split_and!; [|cbn; by rewrite Ec, Eq|unfold phaseOk; cbn; split_and!; try done; by exists k]. unfold requestsOk. cbn. rewrite Ec, Eq.
    split_and!; try done; [apply Forall_app in H3; tauto|..].
    + intros a' b E'. apply (H4 (a ++ a')). by rewrite E', app_assoc.
    + intros Hx. split; [|done]. intros Hin'. apply (proj1 (H5 Hx)). apply elem_of_app. by right.
  - destruct Hd as (qt & Hb & Hw & Hqt). pose proof (b_cmds _ _ _ _ _ _ _ Hb) as Ec. pose proof (b_quit _ _ _ _ _ _ _ Hb) as Eq.
    split_and!; [|cbn; by rewrite Ec, Eq|].
    + unfold requestsOk. cbn. rewrite Ec, Eq. split_and!; try done; [intros a b E; by destruct a|]. intros Hx. split; [apply not_elem_of_nil|].
      destruct qt; [|done]. destruct (H5 Hx) as [Hn _]. by destruct Hn; apply Hqt.
    + unfold phaseOk. cbn. rewrite Ec, Eq. destruct Hw as [[_ Hw]|Hw]; [by left|by right].
Qed.

(** The worker is asked, or told, something. *)
Lemma async_inv s asked :
  clientInv s asked -> Client.paused s = None -> quitting (Client.svc s) = false ->
  (existsb Client.needsLink (commands (Client.svc s)) = true -> Client.linkSettled (Client.svc s) = true) ->
  exists s', Client.runAsync s (onAsyncCb uv) = Ret (Some s') /\ clientInv s' asked.
Proof.
  intros (Hq & Hb & Hp) En Eq Hc. unfold phaseOk in Hp. rewrite En in Hp. destruct Hp as [Ha|(Ht & _)]; [|congruence].
  pose proof Hq as (_ & _ & H3 & H4 & _). rewrite Eq in Hb.
  destruct (truns_onAsyncCb uv fs Hwrite Hstop asked (Client.rpc s) (shown (Client.ui s)) _ _ Hb Ha H3 H4) as (w' & r & E & Hd).
  { intros Hn. specialize (Hc Hn). unfold Client.linkSettled in Hc. unfold settledFor, upOrDown. destruct (socket (Client.svc s)).
    - left. by apply orb_true_iff.
    - right. split; [done|]. by apply negb_true_iff. }
  unfold Client.runAsync. rewrite E, obind_Ret. eexists. split; [done|]. by apply drained_inv.
Qed.

Lemma begin_inv s asked path name size :
  clientInv s asked -> Client.paused s = Some (path, name, size) -> qempty (FileReader.ring (reader (Client.svc s))) = true ->
  exists s', Client.runAsync s (do _ <- startUploadBegin uv fs path name size; onAsyncCb uv)%eff = Ret (Some s') /\ clientInv s' asked.
Proof.
  intros (Hq & Hb & Hp) En Hem. unfold phaseOk in Hp. rewrite En in Hp. destruct Hp as (Eq & Ha & Hu & (k & Hk) & Hin).
  pose proof Hq as (H1 & _ & H3 & H4 & _). rewrite Eq in Hb.
  destruct (truns_startUploadBegin uv fs Hwrite asked _ _ _ _ path name size _ k Hb Ha Hu Hk eq_refl Hem Hin (fileSize_uint64 _ (proj2 (H1 _ _ _ Hin)))) as (w1 & [] & E1 & Hb1 & Ha1).
  assert (Hud : upOrDown (socket w1)).
  { eapply (keeps_startUploadBegin uv fs upOrDown (upOrDown_send uv) (upOrDown_close uv)); [exact E1|]. destruct Hk as (-> & _ & Hr). by left. }
  destruct (truns_onAsyncCb uv fs Hwrite Hstop asked (Client.rpc s) (shown (Client.ui s)) _ _ Hb1 Ha1 H3 H4) as (w' & r & E & Hd).
  { intros _. by left. }
  unfold Client.runAsync, sbind. rewrite E1. cbn [obind fst snd]. rewrite E, obind_Ret. eexists. split; [done|]. by apply drained_inv.
Qed.

(** A write that has completed is forgotten; the connection is the same. *)
Lemma written_inv s asked k k' :
  clientInv s asked -> Client.paused s = None -> socket (Client.svc s) = Some k -> sameLink k k' -> TcpSocket.wire k' = TcpSocket.wire k ->
  clientInv (Client.setSvc s (setSocket (Client.svc s) (Some k'))) asked.
Proof.
  intros (Hq & Hb & Hp) En Ek Hs Ew. split_and!; [by apply (requestsOk_svc s)| |].
  { cbn. eapply base_socket; [exact Hb|exact Ek|done|]. rewrite Ew. by apply (b_spoken _ _ _ _ _ _ _ Hb). }
  destruct Hs as (_ & Hc & Hr). unfold phaseOk in *. cbn. rewrite En in *.
  assert (Hlive : forall k0, live (Client.svc s) k0 -> k0 = k /\ live (setSocket (Client.svc s) (Some k')) k').
  { intros k0 (E0 & ? & ?). rewrite Ek in E0. injection E0 as <-. split; [done|]. unfold live. cbn. by rewrite Hc, Hr. }
  destruct Hp as [[Hw|[Hw|Hw]]|Ho].
  - left. left. destruct Hw as (? & ? & ? & ? & Hk). split_and!; try done. intros k0 [= <-]. rewrite Hc, Ew. by apply Hk.
  - left. right. left. destruct Hw as (? & ? & ? & ? & ? & k0 & [-> Hk]%Hlive & Hon). split_and!; try done. exists k'. split; [done|].
    unfold sendingOn in *. cbn. by rewrite Ew.
  - left. right. right. destruct Hw as (? & ? & (k0 & [-> Hk]%Hlive & Hon) & ?). split_and!; try done. exists k'. split; [done|]. by rewrite Ew.
  - right. destruct Ho as (? & ? & ? & Hk). split_and!; try done. intros k0 [= <-]. rewrite Hc. by apply Hk.
Qed.

Lemma joined_inv s asked :
  clientInv s asked -> quitting (Client.svc s) = true -> socket (Client.svc s) = None -> Client.paused s = None ->
  clientInv (Client.setSvc s (setReader (Client.svc s) (FileReader.stop (reader (Client.svc s))))) asked.
Proof.
  intros (Hq & Hb & Hp) Eq Ek En. split_and!; [by apply (requestsOk_svc s)| |].
  - destruct Hb. constructor; try done. cbn. destruct b_reader as (? & ? & Hc & _). split_and!; try done; [|by right].
    cbn. by destruct (Client.rpc s).
  - unfold phaseOk in *. cbn. rewrite En in *. destruct Hp as [[Hw|[Hw|Hw]]|Ho]; [by left; left| |by left; right; right|by right].
    destruct Hw as (_ & _ & _ & _ & _ & k & (E & _) & _). congruence.
Qed.

(** A callback of libuv. *)
Lemma loop_inv s asked ev :
  clientInv s asked -> Client.paused s = None ->
  exists r, Client.loopEvent uv s ev = Ret r /\ forall s', r = Some s' -> clientInv s' asked.
Proof.
  intros Hi En. destruct (working_phase s asked Hi En) as [Hb Hw].
  assert (Hrun : forall m, truns m (Client.svc s) (fun w' _ =>
      base fs asked (Client.rpc s) (shown (Client.ui s)) (commands (Client.svc s)) (quitting (Client.svc s)) w' /\
      working fs asked (Client.rpc s) (shown (Client.ui s)) (commands (Client.svc s)) (quitting (Client.svc s)) w') ->
    exists r, Client.run s m = Ret r /\ forall s', r = Some s' -> clientInv s' asked).
  { intros m Hm. destruct (run_inv s asked m Hi En Hm) as (s' & E & Hi'). exists (Some s'). split; [done|]. by intros s2 [= <-]. }
  unfold Client.loopEvent. destruct ev as [| | | | | | | |status|nread data|request status| |]; try (by eexists).
  - destruct (socket (Client.svc s)) as [k|] eqn:Ek; [|by eexists].
    destruct (if TcpSocket.closing k then _ else _) eqn:Eg; [|by eexists]. apply Hrun. by eapply truns_onConnect.
  - destruct (socket (Client.svc s)) as [k|] eqn:Ek; [|by eexists].
    destruct (negb (TcpSocket.reading k) || TcpSocket.closing k) eqn:Eg; [by eexists|]. apply orb_false_iff in Eg as [_ Ec].
    destruct (TcpSocket.onReadCb nread).
    + destruct (zlen data =? nread); [|by eexists]. apply Hrun. destruct Hw as [Hw|(_ & _ & _ & Ho)]; [|specialize (Ho k Ek); congruence].
      eapply truns_mono; [by apply truns_onBytes|]. intros w' ? [? ?]. by split; [|left].
    + eexists. split; [done|]. by intros s' [= <-].
    + apply Hrun. by apply truns_onError.
  - destruct (socket (Client.svc s)) as [k|] eqn:Ek; [|by eexists]. destruct (existsb _ _); [|by eexists].
    set (s1 := Client.setSvc s _). assert (Hi1 : clientInv s1 asked) by (by eapply written_inv; [| |exact Ek| |]).
    destruct (working_phase s1 asked Hi1 En) as [Hb1 Hw1].
    edestruct (run_inv s1 asked) as (s' & E & Hi'); [exact Hi1|exact En| |exists (Some s'); split; [exact E|]; by intros s2 [= <-]].
    tstep. eapply truns_mono; [by apply truns_onSendComplete|]. intros w' ? [Hb' Hw']. destruct (status =? 0); [by tstep|]. by apply truns_onError.
  - destruct (connectTimer (Client.svc s)) as [tm|] eqn:Et; [|by eexists]. destruct (Timer.isActive tm) eqn:Eta; [|by eexists].
    assert (Hdown : forall k, socket (Client.svc s) = Some k -> TcpSocket.closing k = true \/ TcpSocket.reading k = false).
    { intros k Ek. right. destruct (TcpSocket.reading k) eqn:Er; [|done]. destruct (b_sock _ _ _ _ _ _ _ Hb _ Ek) as [_ Hq].
      specialize (Hq Er tm Et). congruence. }
    destruct (Timer.onTimeoutCb tm) as [tm' armed] eqn:Eo. set (s1 := Client.setSvc s _).
    assert (Hi1 : clientInv s1 asked).
    { destruct Hi as (Hq & _ & Hp). split_and!; [by apply (requestsOk_svc s)| |exact Hp]. apply base_timer; [done|]. left. intros x [= <-].
      unfold Timer.onTimeoutCb in Eo. injection Eo as <- _. apply andb_false_r. }
    destruct (working_phase s1 asked Hi1 En) as [Hb1 Hw1]. destruct armed; [|eexists; split; [done|]; by intros s' [= <-]].
    edestruct (run_inv s1 asked) as (s' & E & Hi'); [exact Hi1|exact En| |exists (Some s'); split; [exact E|]; by intros s2 [= <-]].
    by apply truns_onConnectTimeout.
  - destruct (socket (Client.svc s)) as [k|] eqn:Ek; [|by eexists]. destruct (TcpSocket.closing k) eqn:Ec; [|by eexists].
    apply Hrun. by eapply truns_onClosed.
Qed.

Lemma fire_inv s asked ev :
  clientInv s asked -> Client.calm s ev ->
  exists r, Client.fire uv fs s ev = Ret r /\ forall s', r = Some s' -> clientInv s' (asked ++ Client.posts s ev).
Proof.
  intros Hi Hc. destruct ev as [stamp b|ip port|stamp| | |actual| | | | | | |]; cbn [Client.fire Client.posts]; rewrite ?app_nil_r.
  - pose proof Hi as ((_ & H2 & _) & _). destruct (Screen.enabled _ b && negb (Client.exiting s)) eqn:Eg; [|by eexists].
    apply andb_true_iff in Eg as [_ Eg%negb_true_iff]. 
    set (csv := takeResultCsv (Client.svc s)). destruct (press_chosen stamp csv (Client.ui s) b H2) as (Hsz & Hnq & Hup).
    pose proof (press_settles stamp csv (Client.ui s) b) as Hset. destruct (Screen.press stamp csv (Client.ui s) b) as [u x]. eexists. split; [done|].
    intros s' [= <-]. by apply posted_inv.
  - destruct (Client.exiting s) eqn:Ex; [by eexists|]. eexists. split; [done|]. intros s' [= <-].
    pose proof (posted_inv s (Screen.setAddress (Client.ui s) ip port) None asked false Hi) as H. rewrite app_nil_r in H.
    assert (Es : shown (Screen.setAddress (Client.ui s) ip port) = shown (Client.ui s)) by (unfold Screen.setAddress; by case_match).
    apply H; [by rewrite Es| |done..]. unfold Screen.setAddress. destruct Hi as ((_ & H2 & _) & _). by case_match.
  - destruct (Client.exiting s) eqn:Ex; [by eexists|]. pose proof (frame_inv s asked stamp Hi Ex) as Hf.
    destruct (drainEvents (Client.svc s)). eexists. split; [done|]. by intros s' [= <-].
  - destruct (Client.exiting s) eqn:Ex; [by eexists|]. eexists. split; [done|]. intros s' [= <-].
    apply (posted_inv s (Client.ui s) (Some QuitCommand) asked true Hi); try done. destruct Hi as ((_ & H2 & _) & _). done.
  - destruct (quitting (Client.svc s)) eqn:Eq; [|by eexists]. destruct (socket (Client.svc s)) eqn:Ek; [by eexists|].
    destruct (Client.paused s) eqn:En; [by eexists|]. eexists. split; [done|]. intros s' [= <-].
    by apply joined_inv.
  - pose proof Hi as (_ & Hb & _). destruct (reader_step actual (Client.rpc s) (reader (Client.svc s)) (b_reader _ _ _ _ _ _ _ Hb) Hc) as (r & E & Hr).
    rewrite E, obind_Ret. destruct r as [[[rd c'] wk]|]; (eexists; split; [done|]); [|done]. intros s' [= <-]. apply reader_inv; [done|]. by eapply Hr.
  - destruct (Client.paused s) eqn:En; [by eexists|]. destruct (quitting (Client.svc s)) eqn:Eq; [by eexists|].
    destruct (async_inv s asked Hi En Eq Hc) as (s' & E & Hi'). exists (Some s'). split; [done|]. by intros s2 [= <-].
  - destruct (Client.paused s) as [[[path name] size]|] eqn:En; [|by eexists].
    destruct (begin_inv s asked path name size Hi En Hc) as (s' & E & Hi'). exists (Some s'). split; [done|]. by intros s2 [= <-].
  - destruct (Client.paused s) eqn:En; [by eexists|]. by apply loop_inv.
  - destruct (Client.paused s) eqn:En; [by eexists|]. by apply loop_inv.
  - destruct (Client.paused s) eqn:En; [by eexists|]. by apply loop_inv.
  - destruct (Client.paused s) eqn:En; [by eexists|]. by apply loop_inv.
  - destruct (Client.paused s) eqn:En; [by eexists|]. by apply loop_inv.
Qed.

Lemma reachable_inv r s asked : queued r [] -> Client.reachable uv fs r s asked -> clientInv s asked.
Proof.
  intros Hr. induction 1 as [|s asked ev s' Hs IH Hf Hc]; [by apply clientInv_init|].
  destruct (fire_inv s asked ev IH Hc) as (r' & E & Hi). rewrite Hf in E. injection E as <-. by apply Hi.
Qed.
End Runs.

(** ** Executing a run on a real ring *)
Section Demo.
Abbreviation rclient := (Client.t (Q := Ring.t)).

Definition calmb (s : rclient) (ev : Client.event) : bool :=
  match ev with
  | Client.EvReader _ => Ring.tail (FileReader.ring (TransferService.reader (Client.svc s))) + 1 <? 2 ^ 64
  | Client.EvAsync =>
      negb (existsb Client.needsLink (TransferService.commands (Client.svc s))) || Client.linkSettled (Client.svc s)
  | Client.EvBegin => Ring.empty (FileReader.ring (TransferService.reader (Client.svc s)))
  | _ => true
  end.

Lemma calmb_calm s ev : calmb s ev = true -> Client.calm s ev.
Proof.
  destruct ev as [stamp b| | | | | | | | | | | |]; cbn [calmb]; try done.
  - rewrite Z.ltb_lt. done.
  - rewrite orb_true_iff, negb_true_iff. intros [E|E] H; [cbn in H; congruence|done].
Qed.

Fixpoint clientExec (uv : Uv) (fs : Files) (s : rclient) (asked : list Command) (evs : list Client.event)
    : option (rclient * list Command) :=
  match evs with
  | [] => Some (s, asked)
  | ev :: evs =>
      match Client.fire uv fs s ev with
      | Ret (Some s') => if calmb s ev then clientExec uv fs s' (asked ++ Client.posts s ev) evs else None
      | _ => None
      end
  end.

Lemma clientExec_reachable uv fs r evs : forall s asked s' asked',
  Client.reachable uv fs r s asked -> clientExec uv fs s asked evs = Some (s', asked') -> Client.reachable uv fs r s' asked'.
Proof.
  induction evs as [|ev evs IH]; intros s asked s' asked' Hs; cbn [clientExec]; [by intros [= <- <-]|].
  destruct (Client.fire uv fs s ev) as [[s1|]| |] eqn:E; try done. destruct (calmb s ev) eqn:Ec; [|done].
  apply IH. eapply Client.reach_step; [exact Hs|exact E|by apply calmb_calm].
Qed.

Definition demoText : bytes := bs "first junk line" ++ [LF] ++ bs "second".
Definition demoFiles : Files := fun path => if bool_decide (path = bs "/a.log") then Some demoText else None.
Definition demoClient : rclient := Client.init (Ring.make 4 16).

(** Connect, choose the file and send it: two chunks, then the trailer. *)
Definition connectEvents : list Client.event :=
  [Client.EvType (bs "10.0.0.1") (bs "23507"); Client.EvPress [] Screen.Connect; Client.EvAsync; Client.EvConnected 0; Client.EvFrame []].
Definition sendEvents : list Client.event :=
  [Client.EvPress [] (Screen.Browse (Some (Dialog.mkOpen (bs "/a.log") (bs "a.log") (Some (false, 0, 22))))); Client.EvPress [] (Screen.Send (fun _ => true));
   Client.EvAsync; Client.EvBegin] ++
  map Client.EvReader [0; 0; 0; 16; 0] ++ [Client.EvAsync; Client.EvWritten 2 0] ++
  map Client.EvReader [0; 0; 6; 0; 0; 0; 0] ++ [Client.EvAsync].

(** ** A run that is not calm *)

Fixpoint fireAll (uv : Uv) (fs : Files) (s : rclient) (evs : list Client.event) : option rclient :=
  match evs with
  | [] => Some s
  | ev :: evs => match Client.fire uv fs s ev with Ret (Some s') => fireAll uv fs s' evs | _ => None end
  end.

Definition twoFiles : Files := fun path =>
  if bool_decide (path = bs "/old.log") then Some (bs "OLD")
  else if bool_decide (path = bs "/new.log") then Some (bs "NEW") else None.

Definition sendFile (path name : bytes) (size : Z) : list Client.event :=
  [Client.EvPress [] (Screen.Browse (Some (Dialog.mkOpen path name (Some (false, 0, size))))); Client.EvPress [] (Screen.Send (fun _ => true));
   Client.EvAsync].

(** An upload is cancelled while its reader holds a chunk; the user reconnects
    and sends another file, and the reader commits the old chunk and ends just
    after the ring was emptied for the new upload. *)
Definition staleEvents : list Client.event :=
  connectEvents ++ sendFile (bs "/old.log") (bs "old.log") 3 ++ [Client.EvBegin] ++ map Client.EvReader [0; 0; 0; 3] ++
  [Client.EvFrame []; Client.EvPress [] Screen.CancelUpload; Client.EvAsync; Client.EvWritten 2 (-4081); Client.EvClosed; Client.EvFrame [];
   Client.EvPress [] Screen.Connect; Client.EvAsync; Client.EvConnected 0; Client.EvFrame []] ++
  sendFile (bs "/new.log") (bs "new.log") 3 ++ map Client.EvReader [0; 0; 0] ++ [Client.EvBegin].

(** A chunk of an aborted upload can be sent as the new file.  In the run
    above the upload of the new file begins with the bytes of the old one, so
    the hypothesis on the ring in [Client.calm] cannot be dropped. *)
Lemma stale_chunk_sent :
  exists s k, fireAll uvFine twoFiles demoClient staleEvents = Some s /\ TransferService.socket (Client.svc s) = Some k /\
    concat (TcpSocket.wire k) = encodeUploadHeader (mkUploadHeader 3 (bs "new.log")) ++ bs "OLD".
Proof. vm_compute. eexists _, _. split; [reflexivity|]. split; reflexivity. Qed.
End Demo.

(** ** Properties *)
Import TransferService.

(** C3: the client speaks the protocol.  In every run in which no chunk slips
    into the ring between its emptying and the start of an upload and no upload
    or request meets a connection in the making, whatever the user, the reader's
    thread, libuv and the server do: a connection carries complete messages
    (whole uploads of files the screen asked for, requests for the results of
    such uploads, confirmations), then at most the beginning of one more
    upload; between uploads nothing is left over; and while the client waits
    for an acknowledgement, the last thing it said is the complete upload of
    the file it names, with its size and CRC.  Every file the screen asks for
    has a name and a size the server accepts. *)
Theorem client_speaks_protocol {Q} `{ChunkQueue Q} (uv : Uv) (fs : Files) (r : Q) s asked k :
  (forall n d, uv_write uv n d <= 0) -> (forall n, uv_timer_stop uv n = 0) -> queued r [] ->
  Client.reachable uv fs r s asked -> socket (Client.svc s) = Some k ->
  let u := up (Client.svc s) in
  (forall name data, theUpload fs asked name data -> validUpload name data) /\
  (exists tail, spoken fs asked (TcpSocket.wire k) tail /\ cut fs asked tail) /\
  (uploading u = false -> TcpSocket.closing k = false -> spoken fs asked (TcpSocket.wire k) []) /\
  (expecting (down (Client.svc s)) = Expecting.Ack -> TcpSocket.closing k = false ->
     exists data, theUpload fs asked (uploadFilename u) data /\ uploadTotal u = zlen data /\ uploadCrc u = Crc32.crc32 0 data /\
       spoken fs asked (TcpSocket.wire k) (uploadStream (uploadFilename u) data)).
Proof.
  intros Hw Hst Hr Hs Ek. destruct (reachable_inv uv fs Hw Hst r s asked Hr Hs) as (Hq & Hb & Hp).
  split; [intros name data; by apply (theUpload_valid fs s)|]. split; [by apply (b_spoken _ _ _ _ _ _ _ Hb)|].
  assert (Ha : TcpSocket.closing k = false -> active fs asked (Client.rpc s) (shown (Client.ui s)) (Client.svc s)).
  { intros Hc. unfold phaseOk in Hp. destruct (Client.paused s) as [[[? ?] ?]|]; [tauto|].
    destruct Hp as [?|(_ & _ & _ & Ho)]; [done|]. specialize (Ho k Ek). congruence. }
  split; [intros Hu Hc; by apply (spoken_of fs asked (Client.rpc s) (shown (Client.ui s)) _ k (Ha Hc))|].
  intros He Hc. destruct (Ha Hc) as [(_ & ? & _)|[(_ & ? & _)|(_ & _ & (k' & (Ek' & _) & _ & Hack) & _)]]; [congruence..|].
  rewrite Ek in Ek'. injection Ek' as <-. by apply Hack.
Qed.

Lemma client_speaks_protocol_witness :
  exists s asked k, clientExec uvFine demoFiles demoClient [] (connectEvents ++ sendEvents) = Some (s, asked) /\
    socket (Client.svc s) = Some k /\ concat (TcpSocket.wire k) = uploadStream (bs "a.log") demoText /\
    spoken demoFiles asked (TcpSocket.wire k) [].
Proof.
  destruct (clientExec uvFine demoFiles demoClient [] (connectEvents ++ sendEvents)) as [[s asked]|] eqn:E; [|vm_compute in E; discriminate].
  assert (Hs : Client.reachable uvFine demoFiles (Ring.make 4 16) s asked)
    by (eapply clientExec_reachable; [apply Client.reach_init|exact E]).
  destruct (socket (Client.svc s)) as [k|] eqn:Ek; [|vm_compute in E; injection E as <- _; discriminate Ek].
  assert (Hk : concat (TcpSocket.wire k) = uploadStream (bs "a.log") demoText /\ uploading (up (Client.svc s)) = false /\ TcpSocket.closing k = false)
    by (vm_compute in E; injection E as <- _; vm_compute in Ek; injection Ek as <-; split; [|split]; vm_compute; reflexivity).
  exists s, asked, k. split; [reflexivity|]. split; [exact Ek|]. split; [exact (proj1 Hk)|].
  apply (client_speaks_protocol uvFine demoFiles (Ring.make 4 16) s asked k);
    [intros; apply Z.le_refl|reflexivity|apply ringRep_make; lia|exact Hs|exact Ek|exact (proj1 (proj2 Hk))|exact (proj2 (proj2 Hk))].
Defined.

(** C9: the screen never locks up.  In every such run, once the screen has
    taken the worker's events, a user without a connection can always press
    Connect and one with a connection can always press Disconnect, and the
    button that asks for a result again is offered only when there is one to
    ask for. *)
Theorem client_never_stuck {Q} `{ChunkQueue Q} (uv : Uv) (fs : Files) (r : Q) s asked stamp :
  (forall n d, uv_write uv n d <= 0) -> (forall n, uv_timer_stop uv n = 0) -> queued r [] ->
  Client.reachable uv fs r s asked -> Client.exiting s = false ->
  let u := UiState.pumpWorkerEvents stamp (Client.ui s) (events (Client.svc s)) in
  match socket (Client.svc s) with
  | None => UiState.canConnect u = true
  | Some k => TcpSocket.closing k = false -> UiState.canDisconnect u = true
  end /\
  (UiState.canRequestResult u = true -> hasClaim (Client.svc s) = true).
Proof.
  intros Hw Hst Hr Hs Hx. destruct (reachable_inv uv fs Hw Hst r s asked Hr Hs) as ((_ & _ & _ & _ & Hq) & Hb & Hp).
  destruct (Hq Hx) as [_ Eq]. cbv zeta. set (u := UiState.pumpWorkerEvents _ _ _).
  assert (Ev : shown u = caughtUp (shown (Client.ui s)) (events (Client.svc s))) by apply shown_pump. clearbody u.
  assert (Ha : active fs asked (Client.rpc s) (shown (Client.ui s)) (Client.svc s)).
  { unfold phaseOk in Hp. destruct (Client.paused s) as [[[? ?] ?]|]; [tauto|]. destruct Hp as [?|(Ht & _)]; [done|congruence]. }
  pose proof (b_link _ _ _ _ _ _ _ Hb) as Hl. pose proof (b_seen _ _ _ _ _ _ _ Hb) as Hc. rewrite <- Ev in Hl, Hc. split.
  - destruct (socket (Client.svc s)) as [k|] eqn:Ek.
    + intros Hcl. unfold UiState.canDisconnect. apply negb_true_iff, bool_decide_eq_false. by apply Hl.
    + destruct (active_down fs asked (Client.rpc s) (shown (Client.ui s)) _ Ha) as (_ & _ & _ & Hbu & _); [by rewrite Ek|].
      rewrite <- Ev in Hbu. cbn in Hl, Hbu. unfold UiState.canConnect. by rewrite Hl, Hbu.
  - unfold UiState.canRequestResult. cbn in Hc. rewrite <- Hc. intros [[? _]%andb_true_iff _]%andb_true_iff. done.
Qed.

Lemma client_never_stuck_witness :
  exists s asked, clientExec uvFine demoFiles demoClient [] (connectEvents ++ sendEvents ++ [Client.EvRead UV_EOF []; Client.EvClosed]) = Some (s, asked) /\
    UiState.session (Client.ui s) = ClientState.Idle /\
    UiState.canConnect (UiState.pumpWorkerEvents [] (Client.ui s) (events (Client.svc s))) = true.
Proof.
  destruct (clientExec uvFine demoFiles demoClient [] (connectEvents ++ sendEvents ++ [Client.EvRead UV_EOF []; Client.EvClosed])) as [[s asked]|] eqn:E;
    [|vm_compute in E; discriminate].
  assert (Hs : Client.reachable uvFine demoFiles (Ring.make 4 16) s asked)
    by (eapply clientExec_reachable; [apply Client.reach_init|exact E]).
  assert (Hk : socket (Client.svc s) = None /\ Client.exiting s = false /\ UiState.session (Client.ui s) = ClientState.Idle)
    by (vm_compute in E; injection E as <- _; split; [|split]; vm_compute; reflexivity).
  exists s, asked. split; [reflexivity|]. split; [exact (proj2 (proj2 Hk))|].
  pose proof (client_never_stuck uvFine demoFiles (Ring.make 4 16) s asked [] ltac:(intros; apply Z.le_refl) ltac:(reflexivity)
    ltac:(apply ringRep_make; lia) Hs (proj1 (proj2 Hk))) as [H _]. rewrite (proj1 Hk) in H. exact H.
Defined.


