(* ===== verification/ClientProgress.v ===== *)
(** * An upload never stalls

    The reader fills the ring and waits when it is full; the pump empties it
    and stops when enough writes are in flight; a completed write, a filled
    slot and the end of the file start the pump again.  No step of a run leaves
    all of them waiting for each other: while an upload is being sent the
    reader can go on, or the worker has been woken, or libuv owes a completion;
    and each of these brings the end of the upload nearer.

    [awake] is the state of the async handle: [uv_async_send] sets it, its
    callback clears it. *)

From S2P Require Import Prelude StringView Crc32 Protocol Codec Framer Ring Net Exchange Effects FileReader ClientUi Window TransferService Client ClientInv ClientSend ClientCommands ClientReceive ClientRuns ClientFlow ClientPump Level.

(** ** Runs with their wake-ups *)
Section Wakes.
Context (uv : Uv) (fs : Files) {Q : Type} `{HQ : ChunkQueue Q}.
Import TransferService.
Implicit Types s : Client.t (Q := Q).

(** Does the event call [uv_async_send]? *)
Definition wakes s (ev : Client.event) : bool :=
  match ev with
  | Client.EvReader actual =>
      match FileReader.step actual (reader (Client.svc s)) (Client.rpc s) with Ret (Some (_, _, wake)) => wake | _ => false end
  | _ => negb (bool_decide (Client.posts s ev = []))
  end.
Definition awakeAfter s (ev : Client.event) (awake : bool) : bool :=
  match ev with Client.EvAsync => false | _ => awake || wakes s ev end.

(** [Client.reachable] where the callback of the async handle comes only after
    [uv_async_send]. *)
Inductive woken (r : Q) : Client.t -> list Command -> bool -> Prop :=
| woken_init : woken r (Client.init r) [] false
| woken_step s asked awake ev s' :
    woken r s asked awake -> Client.fire uv fs s ev = Ret (Some s') -> Client.calm s ev -> (ev = Client.EvAsync -> awake = true) ->
    woken r s' (asked ++ Client.posts s ev) (awakeAfter s ev awake).

Lemma woken_reachable r s asked awake : woken r s asked awake -> Client.reachable uv fs r s asked.
Proof. induction 1; [constructor|by eapply Client.reach_step]. Qed.
End Wakes.

Lemma queued_unique {Q} `{ChunkQueue Q} q1 : forall (r : Q) q2, queued r q1 -> queued r q2 -> q1 = q2.
Proof.
  induction q1 as [|d q1 IH]; intros r q2 H1 H2; pose proof (qpeek_queued _ _ H1) as E1; rewrite (qpeek_queued _ _ H2) in E1;
    destruct q2 as [|d2 q2]; try done. injection E1 as ->. f_equal. by apply (IH (qpop r)); eapply qpop_queued.
Qed.

(** ** The end of the file *)
Section Fed.
Context (uv : Uv) (fs : Files) {Q : Type} `{HQ : ChunkQueue Q}.
Context (Hwrite : forall n d, uv_write uv n d <= 0) (Hstop : forall n, uv_timer_stop uv n = 0).
Import TransferService.
Implicit Types w : TransferService.t (Q := Q).
Implicit Types s : Client.t (Q := Q).

(** While an upload is sent: a reader that has ended says so, and at the end of
    the file what was sent and what is in the ring is all of it. *)
Definition fed (c : FileReader.pc) w : Prop :=
  uploading (up w) = true ->
  (ended c (reader w) = true -> FileReader.readComplete (reader w) = true \/ FileReader.failed (reader w) = true) /\
  (FileReader.readComplete (reader w) = true -> ended c (reader w) = true /\
    exists q, queued (FileReader.ring (reader w)) q /\ uploadSent (up w) + zlen (concat q) = uploadTotal (up w)).

(** The pump has nothing left to do. *)
Definition pumped w : Prop :=
  uploading (up w) = true -> exists q, queued (FileReader.ring (reader w)) q /\ pumpedOut q w.

Lemma fed_idle c w : uploading (up w) = false -> fed c w.
Proof. intros Hu. unfold fed. by rewrite Hu. Qed.
Lemma pumped_idle w : uploading (up w) = false -> pumped w.
Proof. intros Hu. unfold pumped. by rewrite Hu. Qed.

(** The worker's part of what keeps an upload going. *)
Definition going (c : FileReader.pc) w : Prop := flow w /\ fed c w.
Lemma going_idle c w : idle w -> going c w.
Proof. intros Hw. split; [by apply idle_flow|]. by apply fed_idle, Hw. Qed.

(** A handler that leaves uploads alone. *)
Lemma going_kept {A} (m : SM (TransferService.t (Q := Q)) A) c w w' a :
  (forall u r, preserves (kept u r) m) -> m w = Ret (w', a) -> going c w ->
  going c w' /\ (pumped w -> pumped w') /\ (uploading (up w') = true -> up w' = up w /\ reader w' = reader w).
Proof.
  intros Hm E [Hf Hd]. assert (kept (up w) (reader w) w) as Hk by (split; [done|done]).
  apply (Hm _ _ _ _ _ E) in Hk as [Hf' Hk']. split_and!; [|..|done].
  - split; [done|]. destruct (uploading (up w')) eqn:Eu; [|by apply fed_idle]. destruct (Hk' eq_refl) as [E1 E2]. unfold fed. by rewrite E1, E2.
  - intros Hp. destruct (uploading (up w')) eqn:Eu; [|by apply pumped_idle]. destruct (Hk' eq_refl) as [E1 E2]. unfold pumped, pumpedOut, settled.
    by rewrite E1, E2.
Qed.

(** What moving chunks keeps. *)
Lemma fed_moved c w w' q q' :
  moved q w q' w' -> queued (FileReader.ring (reader w)) q -> uploading (up w) = true -> fed c w -> fed c w'.
Proof.
  intros [Hu Ht _ Hq' _ Hs Hr _ _ _] Hq Eu Hd _. destruct (Hd Eu) as [H1 H2].
  rewrite Hr. split; [done|]. intros Hc. destruct (H2 Hc) as (He & q0 & Hq0 & Es). split; [done|].
  rewrite <- (queued_unique _ _ _ Hq Hq0) in Es. exists q'. split; [done|]. rewrite Ht. lia.
Qed.

Lemma going_pump c w q w' x :
  pumpUpload uv w = Ret (w', x) -> going c w -> uploading (up w) = true -> trailerSent (up w) = false ->
  queued (FileReader.ring (reader w)) q -> 0 <= inFlightWrites (up w) -> 0 <= uploadSent (up w) ->
  uploadSent (up w) + zlen (concat q) < 2 ^ 64 ->
  going c w' /\ pumped w' /\ ((uploading (up w') = false /\ endedBy uv w w') \/ exists q', moved q w q' w').
Proof.
  intros E [Hf Hd] Hu Ht Hq H1 H2 H3. apply (pumpUpload_moves uv Hwrite w q) in E as [Hf' [[Hu' He]|(_ & q' & Hm & Hp)]]; try done.
  - split_and!; [split; [done|by apply fed_idle]|by apply pumped_idle|by left].
  - split_and!; [split; [done|by eapply fed_moved]| |right; by exists q']. intros _. exists q'. split; [apply Hm|done].
Qed.

Section Handlers.
Context (asked : list Command) (c : FileReader.pc) (v : Seen).
Abbreviation base := (ClientInv.base fs asked c v).
Abbreviation active := (ClientInv.active fs asked c v).

Lemma sending_bounds cs qt w :
  base cs qt w -> sending fs asked c w ->
  trailerSent (up w) = false /\ 0 <= inFlightWrites (up w) /\ 0 <= uploadSent (up w) /\
  exists q, queued (FileReader.ring (reader w)) q /\ uploadSent (up w) + zlen (concat q) < 2 ^ 64.
Proof.
  intros Hb (_ & _ & _ & _ & Ht & k & _ & path & content & _ & _ & Hsz & _ & _ & (_ & _ & H0 & q & Hq & Hm & _)).
  split_and!; [done|apply Hb|done|]. exists q. split; [done|]. rewrite zlen_app in Hm. pose proof (zlen_nonneg (inHand c)). unfold is_uint in Hsz. lia.
Qed.

Lemma going_pumpUpload cs qt w w' x :
  base cs qt w -> active w -> going c w -> pumpUpload uv w = Ret (w', x) -> going c w' /\ pumped w'.
Proof.
  intros Hb Ha Hg E. destruct (uploading (up w)) eqn:Eu.
  - destruct (sending_bounds cs qt w Hb (sending_of _ _ _ _ _ Ha Eu)) as (H1 & H2 & H3 & q & H4 & H5).
    by destruct (going_pump c w q w' x E Hg Eu H1 H4 H2 H3 H5) as (? & ? & _).
  - assert (idle w) as Hi by (apply flow_idle; [apply Hg|done]). apply (idle_pumpUpload uv _ _ _ E) in Hi.
    split; [by apply going_idle|]. by apply pumped_idle, Hi.
Qed.

Lemma going_onAsyncCb cs w w' r :
  base cs false w -> active w -> Forall (fun x => x ∈ asked) cs -> quitLast cs ->
  (existsb Client.needsLink cs = true -> settledFor cs w) ->
  going c w -> onAsyncCb uv w = Ret (w', r) -> going c w' /\ (r = None -> pumped w').
Proof.
  intros Hb Ha Hx Hql Hs Hg E. unfold onAsyncCb in E. first_step E. rewrite (b_cmds _ _ _ _ _ _ _ Hb) in E. first_step E.
  destruct (truns_drainCommands uv fs Hwrite Hstop asked c v (S (length cs)) cs w) as (w2 & r2 & E2 & Hdr); [done..|lia|].
  rewrite E1 in E2. injection E2 as <- <-.
  destruct (going_kept _ c _ _ _ (fun u r => kept_drainCommands uv u r (S (length cs))) E1 Hg) as (Hg1 & _).
  destruct a as [p|]; [by injection E as <- <-|]. first_step E. injection E as <- <-. destruct Hdr as (qt & Hb1 & Hw1 & _).
  assert (going c w1 /\ pumped w1) as [? ?]; [|done]. destruct Hw1 as [[_ Ha1]|(_ & _ & Hu & _)].
  - by eapply going_pumpUpload.
  - assert (idle w0) as Hi by (apply flow_idle; [apply Hg1|done]). apply (idle_pumpUpload uv _ _ _ E0) in Hi.
    split; [by apply going_idle|]. by apply pumped_idle, Hi.
Qed.

Lemma going_begin cs w k path name size w' x :
  base cs false w -> uploading (up w) = false -> live w k -> qempty (FileReader.ring (reader w)) = true -> going c w ->
  startUploadBegin uv fs path name size w = Ret (w', x) -> going c w'.
Proof.
  intros Hb Hu (Ek & Hcl & _) Hem [Hf _] E. pose proof (b_reader _ _ _ _ _ _ _ Hb) as (_ & (q & Hq) & _ & Hwait).
  rewrite (qempty_queued _ _ Hq) in Hem. apply bool_decide_eq_true in Hem as ->.
  unfold startUploadBegin in E. first_step E. unfold FileReader.beginUpload in E. destruct (FileReader.uploading (reader w)) eqn:Eu.
  { first_step E. injection E as <- _. apply going_idle. split; [apply Hf|done]. }
  destruct (fs path) as [content|].
  2:{ first_step E. injection E as <- _. apply going_idle. split; [apply Hf|done]. }
  destruct (Hwait eq_refl) as [Ec|Eq]; [|apply (b_stopped _ _ _ _ _ _ _ Hb) in Eq; congruence].
  do 2 first_step E. apply sbind_Ret in E as (w0 & [] & E1 & E). unfold dropResultClaim in E1. first_step E1. injection E1 as <-.
  do 5 first_step E. apply sbind_Ret in E as (w0 & rc & E1 & E). match type of E1 with _ ?W = _ => set (w1 := W) in E1 end.
  assert (socket w1 = Some k) as Ek1 by exact Ek.
  assert (uploading (up w1) = true /\ inFlightWrites (up w1) = 0 /\ trailerSent (up w1) = false /\ uploadSent (up w1) = 0) as (U1 & U2 & U3 & U4)
    by (split; [|split; [|split]]; reflexivity).
  assert (FileReader.ring (reader w1) = FileReader.ring (reader w) /\ FileReader.readComplete (reader w1) = false /\ ended c (reader w1) = false)
    as (R1 & R2 & R3) by (split; [|split]; [reflexivity..|by rewrite Ec]).
  clearbody w1. apply (send_Ret uv _ _ k) in E1 as [-> ->]; [|exact Ek1]. generalize dependent (encodeUploadHeader (mkUploadHeader size name)). intros d E.
  pose proof (idsOk_send uv k d (proj1 Hf k Ek)) as Hk'. destruct (TcpSocket.send uv k d) as [k' rc'] eqn:Es. cbn [fst snd] in *.
  apply send_pending in Es as [Ec' _]. destruct (rc' <? 0).
  { apply going_idle. eapply abort_idle; [exact E|]. by intros k0 [= <-]. }
  do 2 first_step E. unfold now in E. do 2 first_step E. match type of E with _ ?W = _ => set (w2 := W) in E end.
  apply (going_pump c w2 []) in E as (Hg & _); [exact Hg| |exact U1|exact U3|by cbn; rewrite R1|cbn; lia|cbn; lia|change (uploadSent (up w1) + 0 < 2 ^ 64); rewrite U4; lia]. split.
  - split; [by intros k0 [= <-]|]. intros _. exists k'. cbn. rewrite Ec'. split_and!; [done|done|lia].
  - intros _. cbn. by rewrite R2, R3.
Qed.

(** A write has completed. *)
Definition completed w k : TransferService.t (Q := Q) :=
  let u := up w in
  setUp (setSocket w (Some k)) (if 0 <? inFlightWrites u then setInFlight u (inFlightWrites u - 1) else u).

Lemma completed_going w k request :
  going c w -> socket w = Some k -> existsb (fun p => Nat.eqb p.1 request) (TcpSocket.pendingWrites k) = true ->
  going c (completed w (TcpSocket.onWriteCb k request)) /\
  pending w = S (pending (completed w (TcpSocket.onWriteCb k request))).
Proof.
  intros [[Hi Hk] Hd] Ek He. destruct (written_ids k request (Hi k Ek) He) as [Hids Hl]. unfold pending, completed. cbn [socket setUp setSocket]. rewrite Ek.
  split; [|exact Hl]. split; [split|].
  - by intros k0 [= <-].
  - cbn. intros Hu. destruct (Hk ltac:(by destruct (0 <? inFlightWrites (up w)))) as (k0 & Ek0 & Hc & Hn). rewrite Ek in Ek0. injection Ek0 as <-.
    eexists. split; [done|]. split; [exact Hc|]. destruct (Z.ltb_spec 0 (inFlightWrites (up w))); cbn; cbn in Hl; lia.
  - unfold fed. cbn. by destruct (0 <? inFlightWrites (up w)).
Qed.

Lemma going_written cs qt w k request status w' x :
  base cs qt w -> working fs asked c v cs qt w -> going c w -> socket w = Some k ->
  existsb (fun p => Nat.eqb p.1 request) (TcpSocket.pendingWrites k) = true ->
  (do _ <- onSendComplete uv status; if status =? 0 then sret tt else onError uv status (bs "write"))%eff
    (setSocket w (Some (TcpSocket.onWriteCb k request))) = Ret (w', x) ->
  going c w' /\ pumped w' /\
  (uploading (up w) = true -> uploading (up w') = true \/ status = 0 -> exists q, queued (FileReader.ring (reader w)) q /\
    ((uploading (up w') = false /\ endedBy uv (completed w (TcpSocket.onWriteCb k request)) w') \/
     exists q', moved q (completed w (TcpSocket.onWriteCb k request)) q' w')).
Proof.
  intros Hb Hw Hg Ek He E. destruct (completed_going w k request Hg Ek He) as [Hg2 _].
  set (w1 := setSocket w (Some (TcpSocket.onWriteCb k request))) in E.
  assert (ids w1) as Hids by (intros k0 [= <-]; by apply (written_ids k request (proj1 (proj1 Hg) k Ek) He)).
  first_step E. unfold onSendComplete in E1. first_step E1.
  match type of E1 with _ ?W = _ => change W with (completed w (TcpSocket.onWriteCb k request)) in E1 end.
  set (w2 := completed w (TcpSocket.onWriteCb k request)) in *.
  assert (uploading (up w2) = uploading (up w)) as Eu by (cbn; by destruct (0 <? inFlightWrites (up w))).
  destruct (uploading (up w)) eqn:Hu.
  2:{ assert (idle w2) as Hi2 by (split; [exact Hids|done]).
      assert (idle w0) as Hi0.
      { destruct (status <? 0).
        - first_step E1. rewrite Eu in E1. by injection E1 as <- _.
        - by apply (idle_pumpUpload uv _ _ _ E1). }
      assert (idle w') as Hi'; [|split_and!; [by apply going_idle|by apply pumped_idle, Hi'|done]].
      destruct (status =? 0); [by injection E as <- _|]. by apply (idle_onError uv _ _ _ _ _ E). }
  destruct (Z.ltb_spec status 0) as [Hst|Hst].
  - first_step E1. rewrite Eu in E1. apply abort_idle in E1; [|exact Hids]. destruct (Z.eqb_spec status 0); [lia|].
    apply (idle_onError uv _ _ _ _ _ E) in E1. split_and!; [by apply going_idle|by apply pumped_idle, E1|]. intros _ [Hu'|?]; [|lia].
    destruct E1 as [_ E1]. congruence.
  - destruct Hw as [Ha|(_ & _ & Ho & _)]; [|congruence].
    destruct (sending_bounds cs qt w Hb (sending_of _ _ _ _ _ Ha Hu)) as (H1 & H2 & H3 & q & H4 & H5).
    destruct (going_pump c w2 q w0 a E1 Hg2 Eu) as (Hg0 & Hp0 & Hend); [by cbn; destruct (0 <? _)|done|..].
    { cbn. destruct (Z.ltb_spec 0 (inFlightWrites (up w))); cbn; lia. }
    { cbn. by destruct (0 <? _). }
    { cbn. by destruct (0 <? _). }
    destruct (Z.eqb_spec status 0) as [->|Hne].
    + injection E as <- _. split_and!; [done..|]. intros _ _. by exists q.
    + assert (idle w') as Hi' by (eapply (onError_idle uv (up w0) (reader w0)); [exact E|split; [apply Hg0|done]]).
      split_and!; [by apply going_idle|by apply pumped_idle, Hi'|]. intros _ [Hu'|?]; [|done]. destruct Hi' as [_ Hi']. congruence.
Qed.
End Handlers.

(** ** The reader *)

(** What the pump is told about is all that can make it go on. *)
Definition quiet (rd rd' : FileReader.t (Q := Q)) : Prop :=
  FileReader.ring rd' = FileReader.ring rd /\ FileReader.failed rd' = FileReader.failed rd /\
  FileReader.readComplete rd' = FileReader.readComplete rd.

Lemma step_quiet actual rd c rd' c' wake : FileReader.step actual rd c = Ret (Some (rd', c', wake)) -> wake = false -> quiet rd rd'.
Proof.
  intros E ->. unfold quiet. destruct c; cbn [FileReader.step] in E; repeat case_match; try done;
    try (injection E as <- <- _; done); try (injection E as <- <-; done).
  all: destruct (qpush _ _) as [[r|]| |]; cbn in E; congruence.
Qed.

(** A step of the reader in terms of the flags. *)
Lemma step_flags actual rd c rd' c' wake :
  FileReader.step actual rd c = Ret (Some (rd', c', wake)) -> FileReader.quit rd = false -> FileReader.abort rd = false ->
  (FileReader.readComplete rd = true -> ended c rd = true) ->
  (ended c rd = true -> FileReader.readComplete rd = true \/ FileReader.failed rd = true) ->
  (ended c' rd' = true -> FileReader.readComplete rd' = true \/ FileReader.failed rd' = true) /\
  (FileReader.readComplete rd' = true -> ended c' rd' = true /\ FileReader.ring rd' = FileReader.ring rd /\
    (FileReader.readComplete rd = true \/ c = FileReader.RRead /\ Z.min (FileReader.remaining rd) (chunkCapacity (FileReader.ring rd)) <= 0)).
Proof.
  intros E Hq Ha Hc He. destruct c as [| | | | |d| |]; cbn [FileReader.step] in E; rewrite ?Hq, ?Ha in E; cbn [orb negb] in E.
  - destruct (FileReader.uploading rd) eqn:Eu; [|done]. injection E as <- <- _. split; [done|]. intros Hr. apply Hc in Hr. cbn in Hr. by rewrite Eu in Hr.
  - injection E as <- <- _. split; [done|]. intros Hr. by apply Hc in Hr.
  - injection E as <- <- _. split; [by destruct (qfull _)|]. intros Hr. by apply Hc in Hr.
  - destruct (negb _); [|done]. injection E as <- <- _. split; [done|]. intros Hr. by apply Hc in Hr.
  - destruct (Z.ltb_spec 0 (Z.min (FileReader.remaining rd) (chunkCapacity (FileReader.ring rd)))) as [Hl|Hl].
    + destruct (FileReader.file rd); [|done]. destruct (_ || _); [done|]. destruct (actual <=? 0); injection E as <- <- _; cbn.
      * split; [by right|]. intros Hr. by apply Hc in Hr.
      * split; [done|]. intros Hr. by apply Hc in Hr.
    + injection E as <- <- _. cbn. split; [by left|]. intros _. split_and!; [done|done|by right].
  - destruct (qpush _ _) as [[r|]| |]; cbn in E; try done. injection E as <- <- _. split; [done|]. intros Hr. by apply Hc in Hr.
  - injection E as <- <- _. cbn. split; [by apply He|]. intros Hr. split_and!; [done|done|by left].
  - done.
Qed.

Lemma going_reader asked c v cs qt w actual rd c' wake :
  base fs asked c v cs qt w -> (uploading (up w) = true -> sending fs asked c w) -> going c w ->
  FileReader.step actual (reader w) c = Ret (Some (rd, c', wake)) ->
  going c' (setReader w rd) /\ (wake = false -> pumped w -> pumped (setReader w rd)).
Proof.
  intros Hb Hs [Hf Hd] E. split.
  - split; [exact Hf|]. intros Hu. cbn in Hu |- *. destruct (Hd Hu) as [H1 H2].
    destruct (Hs Hu) as (_ & _ & _ & _ & _ & k & _ & path & content & _ & _ & _ & _ & _ & (Hq & Ha & _ & q & Hr & Hm & _ & Hleft)).
    destruct (step_flags _ _ _ _ _ _ E Hq Ha) as [H3 H4]; [intros Hx; by apply H2|done|]. split; [done|]. intros Hc.
    destruct (H4 Hc) as (He & Er & Hwhy). split; [done|]. rewrite Er. destruct Hwhy as [Hc0|[-> Hz]]; [by apply H2|].
    exists q. split; [done|]. destruct (Hleft eq_refl) as [_ Hrem]. pose proof (qcapacity_pos _ _ Hr). cbn [inHand] in Hrem, Hm.
    rewrite app_nil_r in Hrem, Hm. lia.
  - intros Hw Hp Hu. destruct (Hp Hu) as (q & Hq & Hset & Hfail & Hend). destruct (step_quiet _ _ _ _ _ _ E Hw) as (E1 & E2 & E3).
    exists q. cbn. rewrite E1. split; [done|]. split; [exact Hset|]. cbn. rewrite E2, E3. done.
Qed.

(** ** Every event *)

Definition alive s (awake : bool) : Prop :=
  let w := Client.svc s in
  going (Client.rpc s) w /\ (Client.paused s = None -> awake = false -> pumped w) /\ (uploading (up w) = true -> quitting w = false).

Lemma alive_idle s awake : idle (Client.svc s) -> alive s awake.
Proof. intros Hi. split; [by apply going_idle|]. split; [intros _ _; by apply pumped_idle, Hi|]. destruct Hi as [_ Hu]. congruence. Qed.

(** While an upload is sent the connection is up and nothing is paused. *)
Lemma uploading_live s asked :
  clientInv fs s asked -> uploading (up (Client.svc s)) = true ->
  Client.paused s = None /\ sending fs asked (Client.rpc s) (Client.svc s) /\
  exists k, live (Client.svc s) k /\ timerQuiet (connectTimer (Client.svc s)).
Proof.
  intros (Hr & Hb & Hp) Hu. unfold phaseOk in Hp. destruct (Client.paused s) as [[[path name] size]|].
  { destruct Hp as (_ & _ & Hn & _). congruence. }
  destruct Hp as [Ha|(_ & _ & Hn & _)]; [|congruence]. pose proof (sending_of _ _ _ _ _ Ha Hu) as Hs. split; [done|].
  pose proof Hs as (_ & _ & _ & _ & _ & k & Hk & _). split; [done|]. exists k. split; [done|].
  destruct Hk as (Ek & _ & Er). by apply (b_sock _ _ _ _ _ _ _ Hb k Ek).
Qed.

(** An event that does not touch uploads, sockets and the reader. *)
Lemma alive_same s s' awake awake' :
  up (Client.svc s') = up (Client.svc s) -> socket (Client.svc s') = socket (Client.svc s) -> reader (Client.svc s') = reader (Client.svc s) ->
  quitting (Client.svc s') = quitting (Client.svc s) -> Client.rpc s' = Client.rpc s -> Client.paused s' = Client.paused s ->
  (awake' = false -> awake = false) -> alive s awake -> alive s' awake'.
Proof.
  intros Eu Es Er Eq Ec Ep Ha (Hg & Hp & Hq). unfold alive, going, flow, fed, ids, pumped, pumpedOut, settled in *.
  rewrite Eu, Es, Er, Eq, Ec, Ep. split; [done|]. split; [|done]. intros H1 H2. by apply Hp; [|apply Ha].
Qed.

Lemma same_going c w w' : up w' = up w -> socket w' = socket w -> reader w' = reader w -> going c w -> going c w'.
Proof. intros Eu Es Er Hg. unfold going, flow, fed, ids in *. by rewrite Eu, Es, Er. Qed.

(** An event that cannot happen during an upload. *)
Lemma alive_run s m s' awake' :
  Client.run s m = Ret (Some s') -> preserves idle m -> going (Client.rpc s) (Client.svc s) -> uploading (up (Client.svc s)) = false -> alive s' awake'.
Proof.
  unfold Client.run. intros E Hm Hg Hu. destruct (m (Client.svc s)) as [[w' []]| |] eqn:Em; try done. injection E as <-.
  apply alive_idle. cbn. eapply Hm; [exact Em|]. apply flow_idle; [apply Hg|done].
Qed.

Lemma async_alive s asked s' awake :
  clientInv fs s asked -> Client.paused s = None -> quitting (Client.svc s) = false -> Client.calm s Client.EvAsync -> alive s awake ->
  Client.runAsync s (onAsyncCb uv) = Ret (Some s') -> alive s' false.
Proof.
  intros (Hq & Hb & Hp) En Eq Hc (Hg & _) E. unfold phaseOk in Hp. rewrite En in Hp. destruct Hp as [Ha|(Ht & _)]; [|congruence].
  pose proof Hq as (_ & _ & H3 & H4 & _). rewrite Eq in Hb.
  assert (existsb Client.needsLink (commands (Client.svc s)) = true -> settledFor (commands (Client.svc s)) (Client.svc s)) as Hset.
  { intros Hn. specialize (Hc Hn). unfold Client.linkSettled in Hc. unfold settledFor, upOrDown. destruct (socket (Client.svc s)).
    - left. by apply orb_true_iff.
    - right. split; [done|]. by apply negb_true_iff. }
  destruct (truns_onAsyncCb uv fs Hwrite Hstop asked (Client.rpc s) (shown (Client.ui s)) _ _ Hb Ha H3 H4 Hset) as (w' & r & Ew & Hd).
  destruct (going_onAsyncCb asked _ _ _ _ _ _ Hb Ha H3 H4 Hset Hg Ew) as [Hg' Hp'].
  unfold Client.runAsync in E. rewrite Ew in E. injection E as <-. split; [done|]. split; [intros Hr _; by apply Hp'|]. cbn. intros Hu.
  destruct r as [[[path name] size]|].
  - destruct Hd as (cs & k & _ & _ & Hn & _). congruence.
  - destruct Hd as (qt & Hb' & [[-> _]|(_ & _ & Hn & _)] & _); [apply Hb'|congruence].
Qed.

Lemma begin_alive s asked path name size s' awake :
  clientInv fs s asked -> Client.paused s = Some (path, name, size) -> qempty (FileReader.ring (reader (Client.svc s))) = true -> alive s awake ->
  Client.runAsync s (do _ <- startUploadBegin uv fs path name size; onAsyncCb uv)%eff = Ret (Some s') -> alive s' awake.
Proof.
  intros (Hq & Hb & Hp) En Hem (Hg & _) E. unfold phaseOk in Hp. rewrite En in Hp. destruct Hp as (Eq & Ha & Hu & (k & Hk) & Hin).
  pose proof Hq as (H1 & _ & H3 & H4 & _). rewrite Eq in Hb.
  destruct (truns_startUploadBegin uv fs Hwrite asked _ _ _ _ path name size _ k Hb Ha Hu Hk eq_refl Hem Hin (fileSize_uint64 _ (proj2 (H1 _ _ _ Hin)))) as (w1 & [] & E1 & Hb1 & Ha1).
  assert (Hud : upOrDown (socket w1)).
  { eapply (keeps_startUploadBegin uv fs upOrDown (upOrDown_send uv) (upOrDown_close uv)); [exact E1|]. destruct Hk as (-> & _ & Hr). by left. }
  pose proof (going_begin _ _ _ _ _ _ _ _ _ _ _ Hb Hu Hk Hem Hg E1) as Hg1.
  destruct (truns_onAsyncCb uv fs Hwrite Hstop asked (Client.rpc s) (shown (Client.ui s)) _ _ Hb1 Ha1 H3 H4 ltac:(intros _; by left)) as (w' & r & Ew & Hd).
  destruct (going_onAsyncCb asked _ _ _ _ _ _ Hb1 Ha1 H3 H4 ltac:(intros _; by left) Hg1 Ew) as [Hg' Hp'].
  unfold Client.runAsync, sbind in E. rewrite E1 in E. cbn [obind fst snd] in E. rewrite Ew in E. injection E as <-.
  split; [done|]. split; [intros Hr _; by apply Hp'|]. cbn. intros Hu'. destruct r as [[[path' name'] size']|].
  - destruct Hd as (cs & k' & _ & _ & Hn & _). congruence.
  - destruct Hd as (qt & Hb' & [[-> _]|(_ & _ & Hn & _)] & _); [apply Hb'|congruence].
Qed.

Lemma loop_alive s asked ev s' awake :
  clientInv fs s asked -> Client.paused s = None -> alive s awake -> Client.loopEvent uv s ev = Ret (Some s') -> alive s' awake.
Proof.
  intros Hi En Hal E. pose proof Hal as (Hg & Hp & Hq).
  assert (forall k, socket (Client.svc s) = Some k -> uploading (up (Client.svc s)) = true ->
    TcpSocket.closing k = false /\ TcpSocket.reading k = true /\ timerQuiet (connectTimer (Client.svc s))) as Hlive.
  { intros k Ek Hu. destruct (uploading_live s asked Hi Hu) as (_ & _ & k' & (Ek' & ? & ?) & ?). rewrite Ek in Ek'. by injection Ek' as <-. }
  assert (forall m, Client.run s m = Ret (Some s') -> (forall u r, preserves (kept u r) m) -> (forall b, preserves (fun w => quitting w = b) m) -> alive s' awake) as Hrun.
  { intros m Em Hk Hb. unfold Client.run in Em. destruct (m (Client.svc s)) as [[w' []]| |] eqn:Ew; try done. injection Em as <-.
    destruct (going_kept m _ _ _ _ Hk Ew Hg) as (Hg' & Hp' & Hu'). split; [done|]. split; [intros _ Ha; by apply Hp', Hp|]. cbn. intros Hu.
    destruct (Hu' Hu) as [Eu _]. rewrite (Hb _ _ _ _ Ew eq_refl). apply Hq. congruence. }
  assert (forall m, Client.run s m = Ret (Some s') -> preserves idle m -> uploading (up (Client.svc s)) = false -> alive s' awake) as Hidle.
  { intros m Em Hm Hu. by eapply alive_run. }
  unfold Client.loopEvent in E. destruct ev as [| | | | | | | |status|nread data|request status| |]; try done.
  - destruct (socket (Client.svc s)) as [k|] eqn:Ek; [|done]. destruct (if TcpSocket.closing k then _ else _) eqn:Eg; [|done].
    apply Hidle in E; [done|apply idle_onConnect|]. destruct (uploading (up (Client.svc s))) eqn:Eu; [|done].
    destruct (Hlive k eq_refl eq_refl) as (Hc & Hr & _). by rewrite Hc, Hr in Eg.
  - destruct (socket (Client.svc s)) as [k|] eqn:Ek; [|done]. destruct (_ || _); [done|]. destruct (TcpSocket.onReadCb nread).
    + destruct (zlen data =? nread); [|done]. apply Hrun in E; [done|intros u r; apply kept_bytesLoop|intros b; apply stays_bytesLoop].
    + by injection E as <-.
    + unfold Client.run in E. destruct (onError _ _ _ _) as [[w' []]| |] eqn:Ew; try done. injection E as <-. apply alive_idle.
      eapply (onError_idle uv (up (Client.svc s)) (reader (Client.svc s))); [exact Ew|]. split; [apply Hg|done].
  - destruct (socket (Client.svc s)) as [k|] eqn:Ek; [|done]. destruct (existsb _ _) eqn:Ex; [|done].
    unfold Client.run in E. cbn [Client.svc Client.setSvc Client.rpc Client.ui Client.exiting] in E.
    set (m := sbind _ _) in E. destruct (m _) as [[w' x]| |] eqn:Ew; try done. injection E as <-.
    destruct (working_phase fs s asked Hi En) as [Hb Hw].
    destruct (going_written asked _ _ _ _ _ _ _ _ _ _ Hb Hw Hg Ek Ex Ew) as (Hg' & Hp' & Hu'). split; [done|]. split; [done|]. cbn. intros Hu.
    assert (quitting w' = quitting (Client.svc s)) as ->.
    { refine (stays_written uv (quitting (Client.svc s)) status _ _ _ Ew _). done. }
    apply Hq. destruct (uploading (up (Client.svc s))) eqn:Eu; [done|]. exfalso.
    assert (idle w') as [_ Hn]; [|congruence].
    assert (preserves idle m) as Hm.
    { apply preserves_bind; [apply idle_onSendComplete|intros []]. destruct (status =? 0); [apply preserves_ret|apply idle_onError]. }
    refine (Hm _ _ _ Ew _). split; [|done]. intros k0 [= <-]. by apply (written_ids k request (proj1 (proj1 Hg) k Ek) Ex).
  - destruct (connectTimer (Client.svc s)) as [tm|] eqn:Et; [|done]. destruct (Timer.isActive tm) eqn:Ea; [|done].
    destruct (Timer.onTimeoutCb tm) as [tm' armed]. destruct armed; [|injection E as <-; by apply (alive_same s _ awake)].
    eapply (alive_run (Client.setSvc s (setTimer (Client.svc s) (Some tm')))); [exact E|apply idle_onConnectTimeout|by apply (same_going _ (Client.svc s))|].
    cbn. destruct (uploading (up (Client.svc s))) eqn:Eu; [|done]. destruct (uploading_live s asked Hi Eu) as (_ & _ & k & _ & Ht).
    rewrite (Ht tm Et) in Ea. done.
  - destruct (socket (Client.svc s)) as [k|] eqn:Ek; [|done]. destruct (TcpSocket.closing k) eqn:Ec; [|done].
    apply Hidle in E; [done|apply idle_onClosed|]. destruct (uploading (up (Client.svc s))) eqn:Eu; [|done].
    destruct (Hlive k eq_refl eq_refl) as (Hc & _). congruence.
Qed.

Lemma fire_alive s asked ev s' awake :
  clientInv fs s asked -> alive s awake -> Client.calm s ev -> Client.fire uv fs s ev = Ret (Some s') -> alive s' (awakeAfter s ev awake).
Proof.
  intros Hi Ha Hc E. assert (Ha' : alive s (awakeAfter s ev awake) \/ ev = Client.EvAsync).
  { destruct ev; try (by right); left; (eapply alive_same; [..|exact Ha]; try done); cbn; by intros [? _]%orb_false_iff. }
  destruct ev as [stamp b|ip port|stamp| | |actual| | | | | | |]; cbn [Client.fire] in E.
  - destruct Ha' as [Ha'|]; [|done]. destruct (_ && _); [|done]. destruct (Screen.press _ _ _ _) as [u x]. injection E as <-.
    destruct x; (apply (alive_same s _ (awakeAfter s (Client.EvPress stamp b) awake)); [done..|exact Ha']).
  - destruct Ha' as [Ha'|]; [|done]. destruct (Client.exiting s); [done|]. injection E as <-. apply (alive_same s _ (awakeAfter s (Client.EvType ip port) awake)); [done..|exact Ha'].
  - destruct Ha' as [Ha'|]; [|done]. destruct (Client.exiting s); [done|]. injection E as <-. apply (alive_same s _ (awakeAfter s (Client.EvFrame stamp) awake)); [done..|exact Ha'].
  - destruct Ha' as [Ha'|]; [|done]. destruct (Client.exiting s); [done|]. injection E as <-. apply (alive_same s _ (awakeAfter s (Client.EvExit) awake)); [done..|exact Ha'].
  - destruct (quitting (Client.svc s)); [|done]. destruct (socket (Client.svc s)) as [k|] eqn:Ek; [done|]. destruct (Client.paused s); [done|].
    injection E as <-. apply alive_idle. destruct (uploading (up (Client.svc s))) eqn:Eu.
    + destruct (uploading_live s asked Hi Eu) as (_ & _ & k & (Ek' & _) & _). congruence.
    + split; [|done]. intros k Ek'. cbn in Ek'. congruence.
  - pose proof Hi as (_ & Hb & _). destruct Ha as (Hg & Hp & Hq).
    destruct (FileReader.step _ _ _) as [[[[rd c'] wake]|]| |] eqn:Es; cbn [obind] in E; try done. injection E as <-.
    destruct (going_reader asked _ _ _ _ _ _ _ _ _ Hb (fun Hu => proj1 (proj2 (uploading_live s asked Hi Hu))) Hg Es) as [Hg' Hp'].
    split; [exact Hg'|]. split; [|exact Hq]. cbn [awakeAfter wakes]. rewrite Es. intros Hn [H1 H2]%orb_false_iff. apply Hp'; [done|by apply Hp].
  - destruct (Client.paused s) eqn:En; [done|]. destruct (quitting (Client.svc s)) eqn:Eq; [done|]. by eapply async_alive.
  - destruct Ha' as [Ha'|]; [|done]. destruct (Client.paused s) as [[[path name] size]|] eqn:En; [|done]. by eapply begin_alive.
  - destruct Ha' as [Ha'|]; [|done]. destruct (Client.paused s) eqn:En; [done|]. by eapply loop_alive.
  - destruct Ha' as [Ha'|]; [|done]. destruct (Client.paused s) eqn:En; [done|]. by eapply loop_alive.
  - destruct Ha' as [Ha'|]; [|done]. destruct (Client.paused s) eqn:En; [done|]. by eapply loop_alive.
  - destruct Ha' as [Ha'|]; [|done]. destruct (Client.paused s) eqn:En; [done|]. by eapply loop_alive.
  - destruct Ha' as [Ha'|]; [|done]. destruct (Client.paused s) eqn:En; [done|]. by eapply loop_alive.
Qed.

Lemma woken_alive r s asked awake : queued r [] -> woken uv fs r s asked awake -> clientInv fs s asked /\ alive s awake.
Proof.
  intros Hr. induction 1 as [|s asked awake ev s' Hs [Hi Ha] Hf Hc Hw].
  - split; [by apply clientInv_init|]. apply alive_idle. by split.
  - split; [|by eapply fire_alive]. destruct (fire_inv uv fs Hwrite Hstop s asked ev Hi Hc) as (r' & E & Hi'). rewrite Hf in E. injection E as <-. by apply Hi'.
Qed.
End Fed.

(** ** Getting there *)

(** Whatever is scheduled, [P] is reached: it holds, or something can happen and
    after everything that can happen [P] is reached. *)
Inductive inevitable {X} (step : X -> X -> Prop) (P : X -> Prop) (x : X) : Prop :=
| inevitable_now : P x -> inevitable step P x
| inevitable_later : (exists y, step x y) -> (forall y, step x y -> inevitable step P y) -> inevitable step P x.

(** A measure that every step towards [P] decreases. *)
Lemma inevitable_measure {X} (step : X -> X -> Prop) (P J : X -> Prop) (mu : X -> Z -> Prop) :
  (forall x n, mu x n -> 0 <= n) -> (forall x, J x -> ~ P x -> exists n, mu x n) -> (forall x, J x -> P x \/ ~ P x) ->
  (forall x, J x -> ~ P x -> exists y, step x y) ->
  (forall x y, J x -> ~ P x -> step x y -> P y \/ J y /\ forall n n', mu x n -> mu y n' -> n' < n) ->
  forall x, J x -> inevitable step P x.
Proof.
  intros Hpos Hmu Hdec Hex Hstep. assert (forall k x, J x -> (P x \/ exists n, mu x n /\ n < Z.of_nat k) -> inevitable step P x) as H.
  { induction k as [|k IH]; intros x Hx [HP|(n & Hn & Hlt)]; [by constructor 1|pose proof (Hpos x n Hn); lia|by constructor 1|].
    destruct (Hdec x Hx) as [HP|HP]; [by constructor 1|]. constructor 2; [by apply Hex|]. intros y Hy.
    destruct (Hstep x y Hx HP Hy) as [HPy|[HJy Hless]]; [by constructor 1|].
    destruct (Hdec y HJy) as [HPy|HPy]; [by constructor 1|]. destruct (Hmu y HJy HPy) as [n' Hn']. apply IH; [done|]. right. exists n'. split; [done|].
    specialize (Hless n n' Hn Hn'). lia. }
  intros x Hx. destruct (Hdec x Hx) as [HP|HP]; [by constructor 1|]. destruct (Hmu x Hx HP) as [n Hn].
  apply (H (S (Z.to_nat n)) x Hx). right. exists n. split; [done|]. pose proof (Hpos x n Hn). lia.
Qed.

Section Progress.
Context (uv : Uv) (fs : Files) {Q : Type} `{HQ : ChunkQueue Q}.
Context (Hwrite : forall n d, uv_write uv n d <= 0) (Hstop : forall n, uv_timer_stop uv n = 0).
Import TransferService.
Implicit Types w : TransferService.t (Q := Q).
Implicit Types s : Client.t (Q := Q).

(** What the client does by itself: the reader's thread, the callback of the
    async handle when it was woken, the completions of writes.  [allowed]
    restricts what the environment answers. *)
Definition byItself (allowed : Client.t (Q := Q) -> Client.event -> Prop) (x y : Client.t (Q := Q) * bool) : Prop :=
  exists ev, match ev with Client.EvReader _ | Client.EvWritten _ _ => True | Client.EvAsync => x.2 = true | _ => False end /\
    allowed x.1 ev /\ Client.fire uv fs x.1 ev = Ret (Some y.1) /\ y.2 = awakeAfter x.1 ev x.2.

(** How far the reader is from the end of its file. *)
Definition rank (c : FileReader.pc) (rd : FileReader.t (Q := Q)) : Z :=
  match c with
  | FileReader.RWait => if FileReader.uploading rd then 9 else 0
  | FileReader.RTop => 8
  | FileReader.RAcquire => 7
  | FileReader.RFull => if qfull (FileReader.ring rd) then 6 else 9
  | FileReader.RRead => 6
  | FileReader.RCommit _ => 20
  | FileReader.RClose => 1
  | FileReader.RQuit => 0
  end.
Definition unread (c : FileReader.pc) (rd : FileReader.t (Q := Q)) : Z := if ended c rd then 0 else FileReader.remaining rd.

(** Every byte still to be read is worth more than a chunk in the ring, and
    that more than a write in flight. *)
Definition worth (c : FileReader.pc) w (awake : bool) (q : list bytes) : Z :=
  20 * unread c (reader w) + rank c (reader w) + 6 * Z.of_nat (length q) + Z.of_nat (pending w) + (if awake then 1 else 0).
Definition left_ (x : Client.t (Q := Q) * bool) (n : Z) : Prop :=
  0 <= unread (Client.rpc x.1) (reader (Client.svc x.1)) /\
  exists q, queued (FileReader.ring (reader (Client.svc x.1))) q /\ n = worth (Client.rpc x.1) (Client.svc x.1) x.2 q.

Lemma rank_pos c rd : 0 <= rank c rd.
Proof. destruct c; cbn; try case_match; lia. Qed.
Lemma left_pos x n : left_ x n -> 0 <= n.
Proof. intros [Hu (q & _ & ->)]. unfold worth. pose proof (rank_pos (Client.rpc x.1) (reader (Client.svc x.1))). destruct x.2; lia. Qed.

(** The slots of the ring that are still needed can be counted. *)
Definition need (c : FileReader.pc) (rd : FileReader.t (Q := Q)) : Z :=
  unread c rd + match c with FileReader.RCommit _ => 2 | _ => 1 end.

(** The reader's steps, [d] being what a commit adds. *)
Lemma reader_worth actual c rd rd' c' wake content n size q :
  FileReader.step actual rd c = Ret (Some (rd', c', wake)) -> readerOk c rd -> feeding c rd content n size ->
  queued (FileReader.ring rd) q -> qroom (FileReader.ring rd) (need c rd) ->
  exists q', queued (FileReader.ring rd') q' /\ qroom (FileReader.ring rd') (need c' rd') /\
    20 * unread c' rd' + rank c' rd' + 6 * Z.of_nat (length q') + (if wake then 1 else 0) <
    20 * unread c rd + rank c rd + 6 * Z.of_nat (length q).
Proof.
  intros E (Hrem & _ & Hc & Hup) (Hq & Ha & _) Hr Hroom. unfold is_uint in Hrem. unfold need, unread in *.
  assert (forall m, m <= unread c rd + match c with FileReader.RCommit _ => 2 | _ => 1 end -> qroom (FileReader.ring rd) m) as Hle
    by (intros m Hm; by eapply qroom_le).
  destruct c as [| | | | |d| |]; cbn [FileReader.step] in E; rewrite ?Hq, ?Ha in E; cbn [orb negb] in E; cbn [ended] in *.
  - destruct (FileReader.uploading rd) eqn:Eu; [|done]. injection E as <- <- <-. exists q. cbn. rewrite Eu. cbn in *. split_and!; [done|done|lia].
  - injection E as <- <- <-. exists q. cbn. split_and!; [done|done|lia].
  - injection E as <- <- <-. exists q. destruct (qfull (FileReader.ring rd)) eqn:Ef; cbn; rewrite ?Ef; (split_and!; [done|done|lia]).
  - destruct (qfull (FileReader.ring rd)) eqn:Ef; cbn [negb] in E; [done|]. injection E as <- <- <-. exists q. cbn. rewrite Ef. split_and!; [done|done|lia].
  - pose proof (qcapacity_pos _ _ Hr). destruct (Z.ltb_spec 0 (Z.min (FileReader.remaining rd) (chunkCapacity (FileReader.ring rd)))) as [Hl|Hl].
    + destruct Hc as [[left Ef] _]. rewrite Ef in E. destruct (_ || _) eqn:Eb; [done|]. apply orb_false_iff in Eb as [E1%Z.ltb_ge E2%Z.ltb_ge].
      destruct (Z.leb_spec actual 0); injection E as <- <- <-; exists q; cbn.
      * split_and!; [done| |lia]. apply Hle. cbn. lia.
      * assert (u64 (FileReader.remaining rd - actual) = FileReader.remaining rd - actual) as -> by (apply uwrap_small; unfold is_uint; lia).
        split_and!; [done| |lia]. apply Hle. cbn. lia.
    + injection E as <- <- <-. exists q. cbn. split_and!; [done| |lia]. apply Hle. cbn. lia.
  - destruct Hc as (_ & Hfull & Hz). pose proof (qpush_queued _ _ d Hr (Hle 1 ltac:(cbn; lia)) Hz) as Hp. rewrite Hfull in Hp.
    destruct Hp as (r & Ep & Hr' & _ & Hroom'). rewrite Ep in E. injection E as <- <- <-. exists (q ++ [d]). cbn.
    split_and!; [done| |rewrite length_app; cbn; lia]. apply Hroom', Hle. cbn. lia.
  - injection E as <- <- <-. exists q. cbn. split_and!; [done|done|lia].
  - done.
Qed.

(** The pump's. *)
Lemma moved_worth c w w' q q' awake :
  moved q w q' w' -> queued (FileReader.ring (reader w)) q -> qroom (FileReader.ring (reader w)) (need c (reader w)) ->
  worth c w' awake q' <= worth c w awake q /\ qroom (FileReader.ring (reader w')) (need c (reader w')).
Proof.
  intros [_ _ _ _ (taken & -> & Hp & Hsame & Hfree) _ Hr _ Hroom _] _ Hn.
  assert (unread c (reader w') = unread c (reader w)) as Eu by (rewrite Hr; by destruct c).
  assert (rank c (reader w') <= rank c (reader w) + 3 * Z.of_nat (length taken)) as Hk.
  { destruct taken as [|d taken].
    - assert (reader w' = reader w) as ->; [|cbn; lia]. rewrite Hr, Hsame by done. by destruct (reader w).
    - rewrite Hr. destruct c; cbn [rank FileReader.ring FileReader.setRing FileReader.uploading length]; try lia.
      rewrite Hfree by done. destruct (qfull (FileReader.ring (reader w))); lia. }
  split.
  - unfold worth. rewrite Eu, length_app. lia.
  - unfold need. rewrite Eu. by apply Hroom.
Qed.

#[local] Instance pc_eq_dec : EqDecision FileReader.pc.
Proof. solve_decision. Defined.

(** How much the reader can get at once. *)
Definition readable (rd : FileReader.t (Q := Q)) : Z :=
  Z.min (Z.min (FileReader.remaining rd) (chunkCapacity (FileReader.ring rd))) (from_option zlen 0 (FileReader.file rd)).

(** A reader that is not waiting for the ring can go on. *)
Lemma reader_can rd c q :
  readerOk c rd -> queued (FileReader.ring rd) q -> qroom (FileReader.ring rd) 1 -> FileReader.quit rd = false ->
  ended c rd = false \/ c = FileReader.RClose -> (c = FileReader.RFull -> qfull (FileReader.ring rd) = false) ->
  exists rd' c' wake, FileReader.step (readable rd) rd c = Ret (Some (rd', c', wake)).
Proof.
  intros (Hrem & _ & Hc & _) Hq Hroom Hquit He Hfull. unfold is_uint in Hrem. destruct c as [| | | | |d| |]; cbn [FileReader.step]; rewrite ?Hquit; cbn [orb].
  - destruct He as [He|]; [|done]. cbn in He. apply negb_false_iff in He. rewrite He. eauto.
  - eauto.
  - eauto.
  - rewrite Hfull by done. rewrite orb_true_r. eauto.
  - destruct (Z.ltb_spec 0 (Z.min (FileReader.remaining rd) (chunkCapacity (FileReader.ring rd)))); [|eauto].
    destruct Hc as [[left Ef] _]. unfold readable. rewrite Ef. cbn [from_option]. pose proof (zlen_nonneg left).
    destruct (_ || _) eqn:Eb; [apply orb_true_iff in Eb as [E%Z.ltb_lt|E%Z.ltb_lt]; lia|]. case_match; eauto.
  - destruct Hc as (_ & Hf & Hz). pose proof (qpush_queued _ _ d Hq Hroom Hz) as Hp. rewrite Hf in Hp. destruct Hp as (r & -> & _). cbn. eauto.
  - eauto.
  - congruence.
Qed.

(** An upload that is being sent, on its own. *)
Definition onItsOwn asked (x : Client.t (Q := Q) * bool) : Prop :=
  clientInv fs x.1 asked /\ alive x.1 x.2 /\ commands (Client.svc x.1) = [] /\
  qroom (FileReader.ring (reader (Client.svc x.1))) (need (Client.rpc x.1) (reader (Client.svc x.1))).

(** Something can always happen. *)
Lemma can_go_on asked s awake :
  onItsOwn asked (s, awake) -> uploading (up (Client.svc s)) = true ->
  (awake = true /\ exists s', Client.fire uv fs s Client.EvAsync = Ret (Some s')) \/
  (exists request s', Client.fire uv fs s (Client.EvWritten request 0) = Ret (Some s')) \/
  (exists s', Client.fire uv fs s (Client.EvReader (readable (reader (Client.svc s)))) = Ret (Some s')).
Proof.
  intros (Hi & Ha & Hc & Hroom) Hu. cbn [fst snd] in *. destruct (uploading_live fs s asked Hi Hu) as (En & Hs & k & (Ek & Hcl & _) & _).
  destruct Ha as ([[_ Hf] Hd] & Hp & Hq). specialize (Hq Hu). destruct awake.
  { left. split; [done|]. destruct (async_inv uv fs Hwrite Hstop s asked Hi En Hq) as (s' & E & _); [by rewrite Hc|].
    exists s'. cbn [Client.fire]. by rewrite En, Hq. }
  right. destruct (Hp En eq_refl Hu) as (q & Hrq & Hset & Hnf & Hend). destruct (Hd Hu) as [Hd1 Hd2].
  destruct (Hf Hu) as (k' & Ek' & _ & Hn). rewrite Ek in Ek'. injection Ek' as <-.
  pose proof Hi as (_ & Hb & _). pose proof (b_reader _ _ _ _ _ _ _ Hb) as Hok. pose proof Hok as (Hrem & _). unfold is_uint in Hrem.
  destruct Hs as (_ & _ & _ & _ & _ & k0 & _ & path & content & _ & _ & _ & _ & _ & (Hquit & _)).
  set (rd := reader (Client.svc s)) in *. set (c := Client.rpc s) in *.
  assert (q <> [] -> exists request s', Client.fire uv fs s (Client.EvWritten request 0) = Ret (Some s')) as Hwritten.
  { intros Hne. destruct Hset as [|Hset]; [done|]. unfold kMaxInFlightWrites in Hset.
    destruct (TcpSocket.pendingWrites k) as [|[request data] l] eqn:Ep; [cbn in Hn; lia|]. exists request.
    destruct (fire_inv uv fs Hwrite Hstop s asked (Client.EvWritten request 0) Hi I) as (r & E & _). cbn [Client.fire] in *.
    rewrite En in *. destruct r as [s'|]; [by exists s'|]. exfalso. unfold Client.loopEvent in E. rewrite Ek, Ep in E. cbn [existsb fst] in E.
    rewrite Nat.eqb_refl in E. cbn [orb] in E. unfold Client.run in E. by destruct (sbind _ _ _) as [?| |]. }
  destruct (decide (ended c rd = true /\ c <> FileReader.RClose \/ c = FileReader.RFull /\ qfull (FileReader.ring rd) = true)) as [Hstuck|Hgo].
  - left. apply Hwritten. intros ->. destruct Hstuck as [[He _]|[_ He]]; [|by rewrite (qfull_empty _ Hrq) in He].
    destruct (Hd1 He) as [Hrc|]; [|congruence]. destruct (Hd2 Hrc) as (_ & q0 & Hq0 & Es). rewrite <- (queued_unique _ _ _ Hrq Hq0) in Es.
    specialize (Hend Hrc eq_refl). change (zlen (concat [])) with 0 in Es. lia.
  - right. destruct (reader_can rd c q Hok Hrq) as (rd' & c' & wake & E); [|done|..].
    + eapply qroom_le; [exact Hroom|]. unfold need, unread. case_match; case_match; lia.
    + destruct (ended c rd) eqn:He; [|by left]. right. destruct (decide (c = FileReader.RClose)); [done|]. destruct Hgo. by left.
    + intros Hf'. destruct (qfull (FileReader.ring rd)) eqn:Ef; [|done]. destruct Hgo. by right.
    + eexists. cbn [Client.fire]. fold rd c. rewrite E. reflexivity.
Qed.

(** Nothing fails: reads return something as long as something is asked for,
    and writes complete. *)
Definition fine s (ev : Client.event) : Prop :=
  match ev with
  | Client.EvReader actual =>
      let rd := reader (Client.svc s) in
      Client.rpc s = FileReader.RRead -> 0 < Z.min (FileReader.remaining rd) (chunkCapacity (FileReader.ring rd)) -> 0 < actual
  | Client.EvWritten _ status => status = 0
  | _ => True
  end.

(** What became of an upload after an event. *)
Definition outcomeOf asked s awake ev s' : Prop :=
  let w := Client.svc s in let w' := Client.svc s' in
  (uploading (up w') = false /\
    (fine s ev -> FileReader.failed (reader w) = false -> (forall n d, uv_write uv n d = 0) -> expecting (down w') = Expecting.Ack)) \/
  (uploading (up w') = true /\ onItsOwn asked (s', awakeAfter s ev awake) /\
    (fine s ev -> FileReader.failed (reader w) = false -> FileReader.failed (reader w') = false) /\
    forall n n', left_ (s, awake) n -> left_ (s', awakeAfter s ev awake) n' -> n' < n).

(** A pump from a state [w0] that is not worth more than the one before. *)
Lemma pump_outcome asked s awake ev s' w0 q q' :
  clientInv fs s' asked -> alive s' (awakeAfter s ev awake) -> onItsOwn asked (s, awake) -> Client.rpc s' = Client.rpc s ->
  queued (FileReader.ring (reader (Client.svc s))) q -> reader w0 = reader (Client.svc s) -> commands w0 = [] ->
  moved q w0 q' (Client.svc s') ->
  worth (Client.rpc s) w0 (awakeAfter s ev awake) q < worth (Client.rpc s) (Client.svc s) awake q ->
  outcomeOf asked s awake ev s'.
Proof.
  intros Hi Ha (_ & _ & _ & Hroom) Ec Hq Er Ecs Hm Hlt. cbn [fst snd] in *. pose proof Hm as [Hu _ _ Hq' _ _ Hr _ _ Hcs].
  rewrite <- Er in Hroom, Hq. destruct (moved_worth (Client.rpc s) _ _ _ _ (awakeAfter s ev awake) Hm Hq Hroom) as [Hw Hroom'].
  right. split; [done|]. split; [|split].
  - split; [done|]. split; [done|]. cbn [fst snd]. split; [congruence|]. by rewrite Ec.
  - intros _ Hf. rewrite Hr, Er. done.
  - intros n n' (_ & q1 & Hq1 & ->) (_ & q2 & Hq2 & ->). cbn [fst snd] in *. rewrite Ec.
    rewrite Er in Hq. rewrite (queued_unique _ _ _ Hq1 Hq), (queued_unique _ _ _ Hq2 Hq'). lia.
Qed.

(** Why an upload that nothing fails ends. *)
Lemma endedBy_fine asked s w w' :
  clientInv fs s asked -> option_map TcpSocket.handle (socket w) = option_map TcpSocket.handle (socket (Client.svc s)) ->
  endedBy uv w w' -> FileReader.failed (reader w) = false -> (forall n d, uv_write uv n d = 0) -> expecting (down w') = Expecting.Ack.
Proof.
  intros (_ & Hb & _) Eh [He|[He|He]] Hf Hz; [done|congruence|]. destruct He as (n & d & Hne); [|by rewrite Hz in Hne].
  intros k Ek. rewrite Ek in Eh. destruct (socket (Client.svc s)) as [k0|] eqn:Ek0; [|done]. injection Eh as ->.
  by apply (b_sock _ _ _ _ _ _ _ Hb k0 Ek0).
Qed.

Lemma step_fine s actual rd c' wake :
  FileReader.step actual (reader (Client.svc s)) (Client.rpc s) = Ret (Some (rd, c', wake)) -> fine s (Client.EvReader actual) ->
  FileReader.failed (reader (Client.svc s)) = false -> FileReader.failed rd = false.
Proof.
  cbn [fine]. destruct (Client.rpc s) eqn:Ec; cbn [FileReader.step]; intros E Hfine Hf; try done; try (by injection E as <- _ _).
  - repeat case_match; try done; by injection E as <- _ _.
  - case_match; [|done]. by injection E as <- _ _.
  - destruct (Z.ltb_spec 0 (Z.min (FileReader.remaining (reader (Client.svc s))) (chunkCapacity (FileReader.ring (reader (Client.svc s)))))) as [Hl|Hl];
      [|by injection E as <- _ _]. specialize (Hfine eq_refl Hl). destruct (FileReader.file _); [|done]. destruct (_ || _); [done|].
    destruct (Z.leb_spec actual 0); [lia|]. by injection E as <- _ _.
  - destruct (qpush _ _) as [[r|]| |]; cbn in E; try done. by injection E as <- _ _.
Qed.

Lemma goes_on asked s awake ev s' :
  onItsOwn asked (s, awake) -> uploading (up (Client.svc s)) = true ->
  match ev with Client.EvReader _ | Client.EvWritten _ _ => True | Client.EvAsync => awake = true | _ => False end ->
  Client.fire uv fs s ev = Ret (Some s') -> outcomeOf asked s awake ev s'.
Proof.
  intros Hown Hu Hev E. pose proof Hown as (Hi & Ha & Hcs & Hroom). cbn [fst snd] in *.
  destruct (uploading_live fs s asked Hi Hu) as (En & Hs & k & (Ek & Hcl & _) & _). pose proof Hi as (_ & Hb & _).
  assert (Client.calm s ev) as Hcalm.
  { destruct ev; try done; cbn; [|by rewrite Hcs]. eapply qroom_le; [exact Hroom|]. pose proof (b_reader _ _ _ _ _ _ _ Hb) as (Hrem & _).
    unfold is_uint in Hrem. unfold need, unread. case_match; case_match; lia. }
  destruct (fire_inv uv fs Hwrite Hstop s asked ev Hi Hcalm) as (r & Er & Hi'). rewrite E in Er. injection Er as <-. specialize (Hi' s' eq_refl).
  pose proof (fire_alive uv fs Hwrite Hstop s asked ev s' awake Hi Ha Hcalm E) as Ha'.
  assert (clientInv fs s' asked) as Hi1 by (destruct ev; try done; cbn in Hi'; by rewrite app_nil_r in Hi'). clear Hi'.
  destruct (sending_bounds fs asked _ _ _ _ _ Hb Hs) as (H1 & H2 & H3 & q & Hq & H5). pose proof Ha as (Hg & _).
  destruct ev as [| | | | |actual| | | | |request status| |]; try done; cbn [Client.fire] in E; rewrite ?En in E.
  - pose proof Hs as (_ & _ & _ & _ & _ & k0 & _ & path & content & _ & _ & _ & _ & _ & Hfeed).
    destruct (FileReader.step _ _ _) as [[[[rd c'] wake]|]| |] eqn:Es; cbn [obind] in E; try done. injection E as <-.
    destruct (reader_worth _ _ _ _ _ _ _ _ _ _ Es (b_reader _ _ _ _ _ _ _ Hb) Hfeed Hq Hroom) as (q' & Hq' & Hroom' & Hlt).
    right. split; [done|]. split; [by split; [|split]|]. split.
    + intros Hfine Hf. cbn [Client.svc reader setReader]. by apply (step_fine s actual rd c' wake).
    + intros n n' (_ & q1 & Hq1 & ->) (_ & q2 & Hq2 & ->). cbn [fst snd] in *. rewrite (queued_unique _ _ _ Hq1 Hq), (queued_unique _ _ _ Hq2 Hq').
      unfold worth. cbn [Client.svc Client.rpc awakeAfter wakes]. rewrite Es. change (reader (setReader (Client.svc s) rd)) with rd.
      change (pending (setReader (Client.svc s) rd)) with (pending (Client.svc s)). destruct awake, wake; cbn [orb]; lia.
  - destruct (quitting (Client.svc s)) eqn:Eq; [done|]. unfold Client.runAsync in E. destruct (onAsyncCb uv (Client.svc s)) as [[w' r]| |] eqn:Ew; try done.
    injection E as <-. unfold onAsyncCb in Ew. first_step Ew. rewrite Hcs in Ew. cbn [length drainCommands] in Ew. first_step Ew.
    first_step E1. rewrite Hcs in E1. injection E1 as <- <-. first_step Ew. injection Ew as <- <-.
    destruct (going_pump uv Hwrite (Client.rpc s) _ q _ _ E1 Hg Hu H1 Hq H2 H3 H5) as (_ & _ & [[Hu' He]|(q' & Hm)]).
    + left. split; [done|]. intros _ Hf Hz. eapply (endedBy_fine asked s); [done|reflexivity|exact He|done|done].
    + eapply (pump_outcome asked s awake Client.EvAsync); try done. cbn [awakeAfter]. unfold worth. rewrite Hev. lia.
  - unfold Client.loopEvent in E. rewrite Ek in E. destruct (existsb _ _) eqn:Ex; [|done].
    unfold Client.run in E. cbn [Client.svc Client.setSvc Client.rpc Client.ui Client.exiting] in E.
    set (m := sbind _ _) in E. destruct (m _) as [[w' x]| |] eqn:Ew; try done. injection E as <-.
    destruct (working_phase fs s asked Hi En) as [_ Hw]. destruct (completed_going (Client.rpc s) _ k request Hg Ek Ex) as [_ Hpend].
    destruct (going_written uv fs Hwrite asked _ _ _ _ _ _ _ _ _ _ Hb Hw Hg Ek Ex Ew) as (_ & _ & Hout). specialize (Hout Hu). cbn [Client.svc] in Hout.
    set (w2 := completed (Client.svc s) (TcpSocket.onWriteCb k request)) in *.
    assert (reader w2 = reader (Client.svc s) /\ commands w2 = [] /\
      option_map TcpSocket.handle (socket w2) = option_map TcpSocket.handle (socket (Client.svc s))) as (Er & Ec & Eh) by (rewrite Ek; by split_and!).
    clearbody w2 m. destruct (uploading (up w')) eqn:Eu'.
    + destruct (Hout (or_introl eq_refl)) as (q1 & Hq1 & [[? _]|(q' & Hm)]); [done|]. rewrite (queued_unique _ _ _ Hq1 Hq) in Hm.
      apply (pump_outcome asked s awake (Client.EvWritten request status) _ w2 q q'); [done..|]. cbn [awakeAfter]. change (wakes s (Client.EvWritten request status)) with false. rewrite orb_false_r.
      unfold worth. rewrite Er. lia.
    + left. split; [done|]. intros Hfine Hf Hz. destruct (Hout (or_intror Hfine)) as (q1 & _ & [[_ He]|(q' & Hm)]).
      * eapply (endedBy_fine asked s); [done|exact Eh|exact He|by rewrite Er|done].
      * pose proof (mv_up _ _ _ _ Hm). congruence.
Qed.

Lemma left_exists asked s awake : onItsOwn asked (s, awake) -> exists n, left_ (s, awake) n.
Proof.
  intros ((_ & Hb & _) & _). pose proof (b_reader _ _ _ _ _ _ _ Hb) as (Hrem & (q & Hq) & _). unfold is_uint in Hrem. cbn [fst] in Hrem.
  eexists. split; [unfold unread; cbn [fst]; case_match; lia|]. exists q. split; [done|reflexivity].
Qed.

(** Every file that was asked for is as long as was said. *)
Definition longEnough (asked : list Command) : Prop :=
  forall path name size content, StartUploadCommand path name size ∈ asked -> fs path = Some content -> size <= zlen content.

Lemma readable_fine asked s awake :
  longEnough asked -> onItsOwn asked (s, awake) -> uploading (up (Client.svc s)) = true ->
  fine s (Client.EvReader (readable (reader (Client.svc s)))).
Proof.
  intros Hlong (Hi & _) Hu Hc Hpos. destruct (uploading_live fs s asked Hi Hu) as (_ & Hs & _).
  destruct Hs as (_ & _ & _ & _ & _ & k & _ & path & content & Hin & Hfile & _ & _ & _ & (_ & _ & H0 & q & _ & Hm & _ & Hleft)).
  cbn [fst] in *. rewrite Hc in *. destruct (Hleft eq_refl) as [Ef Er]. specialize (Hlong _ _ _ _ Hin Hfile). unfold readable. rewrite Ef. cbn [from_option].
  pose proof (zlen_nonneg (concat q ++ inHand FileReader.RRead)). rewrite zlen_zdrop by lia. lia.
Qed.

Lemma moves_on asked s awake :
  onItsOwn asked (s, awake) -> uploading (up (Client.svc s)) = true ->
  (exists y, byItself (fun _ _ => True) (s, awake) y) /\ (longEnough asked -> exists y, byItself fine (s, awake) y).
Proof.
  intros H Hu. assert (exists ev s2, match ev with Client.EvReader _ | Client.EvWritten _ _ => True | Client.EvAsync => awake = true | _ => False end /\
    (longEnough asked -> fine s ev) /\ Client.fire uv fs s ev = Ret (Some s2)) as (ev & s2 & Hev & Hf & E).
  { destruct (can_go_on asked s awake H Hu) as [[Ha [s2 E]]|[(req & s2 & E)|[s2 E]]]; do 2 eexists; (split; [|split; [|exact E]]); try done.
    intros Hlong. by eapply readable_fine. }
  split; [|intros Hlong]; exists (s2, awakeAfter s ev awake), ev; (split; [exact Hev|]); (split; [by try apply Hf|]); by split.
Qed.
End Progress.

(** ** A run to start from *)

Fixpoint wokenExec (uv : Uv) (fs : Files) (s : Client.t (Q := Ring.t)) (asked : list Command) (awake : bool) (evs : list Client.event)
    : option (Client.t (Q := Ring.t) * list Command * bool) :=
  match evs with
  | [] => Some (s, asked, awake)
  | ev :: evs =>
      match Client.fire uv fs s ev with
      | Ret (Some s') =>
          if calmb s ev && (awake || match ev with Client.EvAsync => false | _ => true end)
          then wokenExec uv fs s' (asked ++ Client.posts s ev) (awakeAfter s ev awake) evs else None
      | _ => None
      end
  end.
Lemma wokenExec_woken uv fs r evs : forall s asked awake s' asked' awake',
  woken uv fs r s asked awake -> wokenExec uv fs s asked awake evs = Some (s', asked', awake') -> woken uv fs r s' asked' awake'.
Proof.
  induction evs as [|ev evs IH]; intros s asked awake s' asked' awake' Hs; cbn [wokenExec]; [by intros [= <- <- <-]|].
  destruct (Client.fire uv fs s ev) as [[s1|]| |] eqn:E; try done. destruct (_ && _) eqn:Ec; [|done]. apply andb_true_iff in Ec as [Ec Ew].
  apply IH. eapply woken_step; [exact Hs|exact E|by apply calmb_calm|]. intros ->. by rewrite orb_false_r in Ew.
Qed.

(** ** The property *)
Import TransferService.


(** The upload of [sendEvents], its first chunk read and not yet sent. *)
Definition chunkWaiting : list Client.event := connectEvents ++ firstn 9 sendEvents.


(** The user closes the window while the reader holds a chunk: the worker closes
    every handle of its loop, the async handle too, and only then is the reader
    stopped, which before that commits its chunk and calls [uv_async_send] on the
    closed handle. *)
Definition exitWhileReading : list Client.event := connectEvents ++ firstn 8 sendEvents ++ [Client.EvExit; Client.EvAsync].
Lemma reader_wakes_closed_handle :
  match wokenExec uvFine demoFiles demoClient [] false exitWhileReading with
  | Some (s, _, _) => TransferService.quitting (Client.svc s) && wakes s (Client.EvReader 0)
  | None => false
  end = true.
Proof. vm_compute. reflexivity. Qed.
