(* ===== verification/ClientResult.v ===== *)
(** * The result arrives

    However the server's reply is cut into reads, the client ends with the
    result and confirms it when the CRC of what it has put together is the
    announced one, and keeps nothing otherwise. *)

From S2P Require Import Prelude StringView Crc32 Protocol Codec Framer Ring ResultSummary Net Exchange Effects FileReader ClientUi Window TransferService Client ClientInv ClientReceive.

Section Result.
Context (uv : Uv) {Q : Type} `{HQ : ChunkQueue Q}.
Context (Hwrite : forall n d, uv_write uv n d = 0).
Import TransferService.
Implicit Types w : TransferService.t (Q := Q).
Implicit Types P : TransferService.t (Q := Q) -> unit -> Prop.

(** The result the server announces, what the connection has carried and the
    result the client has. *)
Context (full : bytes) (crc : Z) (wire0 : list bytes) (res0 : bytes).
Context (Hsize : zlen full <= kMaxCsvSize) (Hcrc : is_uint 32 crc).

(** The connection is up and nothing was kept or said yet. *)
Definition waitingOn w : Prop :=
  uploading (up w) = false /\ resultCsv w = res0 /\
  exists k, socket w = Some k /\ TcpSocket.handle k = true /\ TcpSocket.closing k = false /\ TcpSocket.wire k = wire0.

(** The client still needs exactly [rest]. *)
Inductive awaits w : bytes -> Prop :=
| awaits_ack acc n rest :
    expecting (down w) = Expecting.Ack -> listening (framer (down w)) MessageType.Ack MessageType.Ack acc -> is_uint 64 n ->
    csv (down w) = [] -> acc ++ rest = ackMsg AckStatus.Ok n ++ headerMsg full crc ++ full -> awaits w rest
| awaits_header acc rest :
    expecting (down w) = Expecting.ResultHeader ->
    listening (framer (down w)) MessageType.ResultHeader MessageType.ResultHeader acc ->
    csv (down w) = [] -> acc ++ rest = headerMsg full crc ++ full -> awaits w rest
| awaits_reply acc tail rest :
    expecting (down w) = Expecting.ResumeReply -> listening (framer (down w)) MessageType.Ack MessageType.ResultHeader acc ->
    csv (down w) ++ tail = full -> acc ++ rest = headerMsg full crc ++ tail -> awaits w rest
| awaits_csv rest :
    expecting (down w) = Expecting.CsvPayload -> csvSize (down w) = zlen full -> csvExpectedCrc (down w) = crc ->
    csv (down w) ++ rest = full -> rest <> [] -> awaits w rest.

(** The last thing the screen was told. *)
Definition lastTold w (x : ClientState.t) : Prop := exists evs, events w = evs ++ [sessionEvent x].

(** The result is there and the server knows. *)
Definition delivered w : Prop :=
  resultCsv w = full /\ hasClaim w = false /\ sessionCompleted w = true /\
  lastTold w ClientState.Done /\
  exists k, socket w = Some k /\ TcpSocket.closing k = false /\ TcpSocket.wire k = wire0 ++ [encodeDownloadDone].

(** Nothing of it is kept; the next request starts over. *)
Definition rejected w : Prop :=
  resultCsv w = res0 /\ (hasClaim w = true -> cl_received (claim w) = 0) /\
  lastTold w ClientState.Idle /\
  exists k, socket w = Some k /\ TcpSocket.closing k = true /\ TcpSocket.wire k = wire0.

Definition finished w : Prop :=
  expecting (down w) = Expecting.Nothing /\ csv (down w) = [] /\
  if Crc32.crc32 0 full =? crc then delivered w else rejected w.

Lemma truns_sendOk data w k (P : TransferService.t (Q := Q) -> Z -> Prop) :
  socket w = Some k -> TcpSocket.handle k = true -> TcpSocket.closing k = false ->
  (forall k', TcpSocket.wire k' = TcpSocket.wire k ++ [data] -> TcpSocket.closing k' = false -> P (setSocket w (Some k')) 0) ->
  truns (send uv data) w P.
Proof.
  intros Ek Hh Hc HP. unfold truns, send, onSocket. rewrite Ek. unfold TcpSocket.send. rewrite Hh, Hc, Hwrite. cbn.
  eexists _, _. split; [done|]. by apply HP.
Qed.

Lemma truns_finish w :
  waitingOn w -> csv (down w) = full -> csvExpectedCrc (down w) = crc -> truns (finishDownload uv) w (fun w' _ => finished w').
Proof.
  intros (Hu & Hr & k & Ek & Hh & Hc & Hwi) Ecsv Ecrc. unfold finishDownload. do 2 tstep. rewrite Ecsv, Ecrc.
  unfold finished. destruct (Crc32.crc32 0 full =? crc) eqn:E; cbn [negb].
  - destruct (summarizeResultCsv_Ret full) as [sum Es]. tstep. eapply truns_lift; [exact Es|]. unfold dropResultClaim. repeat tstep.
    eapply truns_sendOk; [exact Ek|done|done|]. intros k' Ew Hc'. change (0 <? 0) with false. cbv iota. do 5 tstep.
    case_bool_decide; repeat tstep; do 5 (split; [done|]); (split; [by eexists|]); exists k'; by rewrite Ew, Hwi.
  - repeat tstep. match goal with |- truns _ ?W _ => set (w1 := W) end.
    assert (Hw1 : up w1 = up w /\ socket w1 = socket w /\ csv (down w1) = [] /\ resultCsv w1 = res0) by (unfold w1; cbn; destruct (hasClaim w); cbn; by split_and!).
    clearbody w1. destruct Hw1 as (Eu & Ek1 & Ec1 & Er1). unfold failSession. do 3 tstep. rewrite Eu, Hu. do 8 tstep. cbn [hasClaim down setDown].
    apply truns_mono with (P := fun w' _ => socket w' = socket w /\ resultCsv w' = res0 /\ expecting (down w') = Expecting.Nothing /\
      csv (down w') = [] /\ (hasClaim w' = true -> cl_received (claim w') = 0)).
    { destruct (hasClaim w1) eqn:Eh; tstep; cbn; split_and!; try done; [by rewrite Ec1|congruence]. }
    intros w2 _ (Ek2 & Er2 & Ee2 & Ec2 & Hcl2). do 3 tstep. apply truns_closeSocket. tstep. do 4 (split; [done|]). split; [by eexists|].
    cbn. rewrite Ek2, Ek. cbn. rewrite Hc. eexists. split; [done|]. split; [by apply close_closing|]. by rewrite close_wire.
Qed.

(** How far [data] gets the client when [rest] is still to come. *)
Definition goesOn w (rest : bytes) : Prop := rest = [] /\ finished w \/ waitingOn w /\ awaits w rest.

Lemma truns_begin h resuming tail w :
  waitingOn w -> rh_csvSize h = zlen full -> rh_crc32 h = crc -> csv (down w) ++ tail = full -> (resuming = false -> csv (down w) = []) ->
  truns (beginCsvReceive uv h resuming) w (fun w' ok => ok = true /\ goesOn w' tail).
Proof.
  intros Hw Es Ec Et Hres. pose proof (zlen_nonneg tail) as Ht. assert (Hz : zlen full = zlen (csv (down w)) + zlen tail) by (rewrite <- Et; apply zlen_app).
  unfold beginCsvReceive. rewrite Es, (proj2 (Z.ltb_ge _ _)) by done. do 2 tstep. rewrite (proj2 (Z.ltb_ge (zlen full) _)), andb_false_r by lia.
  repeat tstep. match goal with |- truns _ ?W _ => set (w1 := W) end.
  assert (Ecsv : csv (down w1) = csv (down w)) by (cbn; destruct resuming; [done|by rewrite Hres]).
  assert (Hw1 : waitingOn w1) by exact Hw.
  match goal with |- context [if ?b then finishDownload uv else _] => change b with (zlen (csv (down w1)) =? zlen full) end. rewrite Ecsv, Hz.
  destruct (Z.eqb_spec (zlen (csv (down w))) (zlen (csv (down w)) + zlen tail)) as [E|E].
  - assert (tail = []) as -> by (apply zlen_0_inv; lia). rewrite app_nil_r in Et.
    eapply truns_mono; [apply truns_finish; [exact Hw1|congruence|done]|]. intros w' ? Hf. tstep. split; [done|]. by left.
  - repeat tstep. split; [done|]. right. split; [done|]. apply awaits_csv; try done; [congruence|]. intros ->. change (zlen []) with 0 in E. lia.
Qed.

(** Feeding the beginning of a message that is expected: it goes on, or the
    message is complete. *)
Lemma truns_feedMessage data rest acc exp alt m tail w (P : TransferService.t (Q := Q) -> DecodeStatus.t * Z -> Prop) :
  listening (framer (down w)) exp alt acc -> validMessage m -> typeOf m = exp \/ typeOf m = alt ->
  acc ++ data ++ rest = encodeMessage m ++ tail ->
  (forall f, listening f exp alt (acc ++ data) -> P (setDown w (setFramer (down w) f)) (DecodeStatus.NeedMoreData, zlen data)) ->
  (forall f n, framerWf f -> Framer.message f = encodeMessage m -> 0 < n <= zlen data -> zdrop n data ++ rest = tail ->
     P (setDown w (setFramer (down w) f)) (DecodeStatus.Ok, n)) ->
  truns (feedFramer data) w P.
Proof.
  intros Hl Hv Ht E HP1 HP2. destruct (feed_listening _ _ _ _ data Hl) as (f & st & n & Ef & Hf & Hn & Hpost).
  unfold feedFramer. do 3 tstep. eapply truns_lift; [exact Ef|]. repeat tstep. cbn [fst snd]. case_bool_decide as Est.
  - destruct Hpost as [-> Hl']. subst st. by apply HP1.
  - destruct Hpost as (Hpos & Hm & _ & Hrun). specialize (Hrun (zdrop n data ++ rest)).
    rewrite (app_assoc (ztake n data)), ztake_zdrop, E, run_encoded in Hrun by done. injection Hrun as <- Hm'.
    apply HP2; [done|congruence|lia|]. rewrite <- (ztake_zdrop n data), <- !app_assoc in E. rewrite (app_assoc acc), <- Hm' in E. by apply app_inv_head in E.
Qed.

Lemma headerMsg_valid : validMessage (MsgResultHeader (mkResultHeader (zlen full) crc)).
Proof. split; [|done]. apply csvOffset_uint64. pose proof (zlen_nonneg full). cbn. lia. Qed.

Lemma waitingOn_framer w f : waitingOn w -> waitingOn (setDown w (setFramer (down w) f)).
Proof. done. Qed.

(** The header is complete. *)
Lemma truns_header n resuming tail w :
  waitingOn w -> Framer.message (framer (down w)) = headerMsg full crc -> csv (down w) ++ tail = full ->
  (resuming = false -> csv (down w) = []) -> 0 < n ->
  truns (handleHeader uv n resuming) w (fun w' k => k = n /\ goesOn w' tail).
Proof.
  intros Hw Em Et Hres Hn. unfold handleHeader. do 3 tstep. rewrite Em.
  assert (E : decodeResultHeader (headerMsg full crc) ResultHeader0 = Ret (DecodeStatus.Ok, mkResultHeader (zlen full) crc)).
  { pose proof (encodes_decode _ _ [] (encodes_encode _ headerMsg_valid)) as D. rewrite app_nil_r in D. cbn [typeOf encodeMessage] in D.
    unfold decodeMessage in D. unfold headerMsg. destruct (decodeResultHeader _ _) as [[st h]| |]; [|done..]. cbn in D. congruence. }
  eapply truns_lift; [exact E|]. cbv beta iota. rewrite bool_decide_eq_true_2 by done. cbn [negb]. tstep.
  eapply truns_mono; [by apply (truns_begin _ _ tail)|]. intros w' ok [-> Hg]. tstep. by split.
Qed.

(** Where a handler leaves the client that still needs [data ++ rest]. *)
Definition steps (data rest : bytes) w (n : Z) : Prop := 0 < n <= zlen data /\ goesOn w (zdrop n data ++ rest).

Lemma steps_all data rest w : data <> [] -> goesOn w rest -> steps data rest w (zlen data).
Proof.
  intros Hd Hg. split; [destruct data; [done|]; rewrite zlen_cons; pose proof (zlen_nonneg data); lia|].
  replace (zdrop (zlen data) data) with (@nil byte); [done|]. unfold zdrop, zlen. rewrite Nat2Z.id. by rewrite drop_all.
Qed.

Lemma truns_ack data rest acc m w :
  waitingOn w -> expecting (down w) = Expecting.Ack -> listening (framer (down w)) MessageType.Ack MessageType.Ack acc -> is_uint 64 m ->
  csv (down w) = [] -> acc ++ data ++ rest = ackMsg AckStatus.Ok m ++ headerMsg full crc ++ full -> data <> [] ->
  truns (handleAckBytes uv data) w (steps data rest).
Proof.
  intros Hw He Hl Hm Hc E Hd. unfold handleAckBytes. tstep.
  assert (Hv : validMessage (MsgAck (mkAck AckStatus.Ok m))) by exact Hm.
  eapply (truns_feedMessage _ _ _ _ _ (MsgAck (mkAck AckStatus.Ok m))); [exact Hl|done|by left|exact E|..].
  - intros f Hf. cbv beta iota. tstep. apply steps_all; [done|]. right. split; [done|].
    eapply awaits_ack; [done|exact Hf|exact Hm|done|]. by rewrite <- app_assoc.
  - intros f n Hf Emsg Hn Et. cbv beta iota. do 3 tstep. cbn [framer down setDown setFramer]. rewrite Emsg.
    assert (Ed : decodeAck (encodeMessage (MsgAck (mkAck AckStatus.Ok m))) Ack0 = Ret (DecodeStatus.Ok, mkAck AckStatus.Ok m)).
    { pose proof (encodes_decode _ _ [] (encodes_encode _ Hv)) as D. rewrite app_nil_r in D. cbn [typeOf] in D.
      unfold decodeMessage in D. destruct (decodeAck _ _) as [[st a]| |]; [|done..]. cbn in D. congruence. }
    eapply truns_lift; [exact Ed|]. cbv beta iota. rewrite !bool_decide_eq_true_2 by done. cbn [negb]. repeat tstep. split; [done|].
    right. split; [done|]. rewrite Et. eapply (awaits_header _ []); [done|by apply listening_reset|done|done].
Qed.

Lemma truns_resultHeader data rest acc w :
  waitingOn w -> expecting (down w) = Expecting.ResultHeader -> listening (framer (down w)) MessageType.ResultHeader MessageType.ResultHeader acc ->
  csv (down w) = [] -> acc ++ data ++ rest = headerMsg full crc ++ full -> data <> [] ->
  truns (handleResultHeaderBytes uv data) w (steps data rest).
Proof.
  intros Hw He Hl Hc E Hd. unfold handleResultHeaderBytes. tstep.
  eapply (truns_feedMessage _ _ _ _ _ (MsgResultHeader (mkResultHeader (zlen full) crc))); [exact Hl|apply headerMsg_valid|by left|exact E|..].
  - intros f Hf. cbv beta iota. tstep. apply steps_all; [done|]. right. split; [done|].
    eapply awaits_header; [done|exact Hf|done|]. by rewrite <- app_assoc.
  - intros f n Hf Emsg Hn Et. cbv beta iota. eapply truns_mono; [apply (truns_header n false full); [done|exact Emsg|cbn; by rewrite Hc|done|lia]|].
    intros w' k [-> Hg]. split; [done|]. by rewrite Et.
Qed.

Lemma truns_reply data rest acc tail w :
  waitingOn w -> expecting (down w) = Expecting.ResumeReply -> listening (framer (down w)) MessageType.Ack MessageType.ResultHeader acc ->
  csv (down w) ++ tail = full -> acc ++ data ++ rest = headerMsg full crc ++ tail -> data <> [] ->
  truns (handleResumeReplyBytes uv data) w (steps data rest).
Proof.
  intros Hw He Hl Hc E Hd. unfold handleResumeReplyBytes. tstep.
  eapply (truns_feedMessage _ _ _ _ _ (MsgResultHeader (mkResultHeader (zlen full) crc))); [exact Hl|apply headerMsg_valid|by right|exact E|..].
  - intros f Hf. cbv beta iota. tstep. apply steps_all; [done|]. right. split; [done|].
    eapply awaits_reply; [done|exact Hf|exact Hc|]. by rewrite <- app_assoc.
  - intros f n Hf Emsg Hn Et. cbv beta iota. do 3 tstep. cbn [framer down setDown setFramer].
    assert (Ety : Framer.messageType f = Ret (MessageType.to_u8 MessageType.ResultHeader)).
    { unfold Framer.messageType. rewrite byteAt_message, Emsg, encoded_type_byte; [done|done|].
      rewrite <- zlen_message, Emsg by done. pose proof (encoded_bounds _ headerMsg_valid). unfold kPreambleSize. lia. }
    eapply truns_lift; [exact Ety|]. cbn [MessageType.to_u8 Z.eqb Pos.eqb].
    eapply truns_mono; [apply (truns_header n true tail); [done|exact Emsg|exact Hc|done|lia]|].
    intros w' k [-> Hg]. split; [done|]. by rewrite Et.
Qed.

Lemma truns_csvBytes data rest w :
  waitingOn w -> expecting (down w) = Expecting.CsvPayload -> csvSize (down w) = zlen full -> csvExpectedCrc (down w) = crc ->
  csv (down w) ++ data ++ rest = full -> data <> [] -> truns (handleCsvBytes uv data) w (steps data rest).
Proof.
  intros Hw He Es Ec Et Hd. assert (Hz : zlen full = zlen (csv (down w)) + zlen data + zlen rest) by (rewrite <- Et, !zlen_app; lia).
  pose proof (zlen_nonneg data). pose proof (zlen_nonneg rest). pose proof (zlen_nonneg (csv (down w))).
  unfold handleCsvBytes. do 2 tstep. rewrite Es, (uwrap_small 64) by (apply csvOffset_uint64; lia).
  set (take := if _ <? _ then _ else _).
  assert (Ht : take = zlen data) by (unfold take; destruct (Z.ltb_spec (zlen data) (zlen full - zlen (csv (down w)))); lia).
  clearbody take. subst take. tstep. eapply truns_lift; [apply appendN_Ret; lia|]. rewrite ztake_all by lia. cbn [app]. do 5 tstep.
  set (d := setCsv (down w) (csv (down w) ++ data)). change (down (setDown w d)) with d.
  apply truns_mono with (P := fun w' _ => waitingOn w' /\ expecting (down w') = Expecting.CsvPayload /\ csv (down w') = csv d /\
    csvSize (down w') = zlen full /\ csvExpectedCrc (down w') = crc).
  { case_match; [|by tstep]. repeat tstep. by split_and!. }
  intros w2 _ (Hw2 & Ee2 & Ecsv2 & Es2 & Ec2). do 3 tstep. match goal with |- truns _ ?W _ => set (w3 := W) end.
  assert (Hw3 : waitingOn w3 /\ down w3 = down w2) by (unfold w3; by destruct (hasClaim w2)). destruct Hw3 as [Hw3 Ed3]. clearbody w3.
  change (csv d) with (csv (down w) ++ data) in *. change (csvSize d) with (csvSize (down w)). rewrite Es, zlen_app.
  destruct (Z.eqb_spec (zlen (csv (down w)) + zlen data) (zlen full)) as [E|E].
  - assert (rest = []) as -> by (apply zlen_0_inv; lia). rewrite app_nil_r in Et.
    eapply truns_mono; [apply truns_finish; [exact Hw3|rewrite Ed3; congruence|by rewrite Ed3]|]. intros w' ? Hf. tstep.
    apply steps_all; [done|]. by left.
  - repeat tstep. apply steps_all; [done|]. right. split; [done|]. apply awaits_csv; rewrite ?Ed3; try done; [by rewrite Ecsv2, <- app_assoc|].
    intros ->. change (zlen []) with 0 in Hz. lia.
Qed.

Lemma truns_loop fuel : forall data rest w,
  waitingOn w -> awaits w (data ++ rest) -> (length data < fuel)%nat -> truns (bytesLoop uv fuel data) w (fun w' _ => goesOn w' rest).
Proof.
  induction fuel as [|fuel IH]; intros data rest w Hw Ha Hf; [lia|]. cbn [bytesLoop]. case_bool_decide as Hd; [subst; tstep; by right|].
  do 3 tstep. eapply (truns_mono _ _ (steps data rest)).
  - inversion Ha as [acc n r He Hl Hn Hc E|acc r He Hl Hc E|acc tail r He Hl Hc E|r He Es Ec E Hr]; subst r; rewrite He;
      [by eapply truns_ack|by eapply truns_resultHeader|by eapply truns_reply|by eapply truns_csvBytes].
  - intros w' n [Hn Hg]. rewrite (proj2 (Z.eqb_neq n 0)) by lia. destruct Hg as [[E Hfin]|[Hw' Ha']].
    + apply app_eq_nil in E as [-> ->]. destruct fuel; [cbn in Hf; destruct data; [done|cbn in Hf; lia]|]. cbn [bytesLoop].
      rewrite bool_decide_eq_true_2 by done. tstep. by left.
    + apply IH; [done|done|]. pose proof (zlen_zdrop n data ltac:(lia)). unfold zlen in *. lia.
Qed.

(** The client needs something. *)
Lemma awaits_some w : ~ awaits w [].
Proof.
  intros Ha. inversion Ha as [acc n r He Hl Hn Hc E|acc r He Hl Hc E|acc tail r He Hl Hc E|r He Es Ec E Hr]; subst; [..|done]; rewrite app_nil_r in E; subst acc;
    destruct Hl as (_ & _ & _ & _ & _ & Hrun).
  - change (ackMsg AckStatus.Ok n) with (encodeMessage (MsgAck (mkAck AckStatus.Ok n))) in Hrun. rewrite run_encoded in Hrun; [done|done|by left].
  - change (headerMsg full crc) with (encodeMessage (MsgResultHeader (mkResultHeader (zlen full) crc))) in Hrun.
    rewrite run_encoded in Hrun; [done|apply headerMsg_valid|by left].
  - change (headerMsg full crc) with (encodeMessage (MsgResultHeader (mkResultHeader (zlen full) crc))) in Hrun.
    rewrite run_encoded in Hrun; [done|apply headerMsg_valid|by right].
Qed.
End Result.

(** ** Properties *)

(** The reads libuv brings, one after the other. *)
Fixpoint readAll (uv : Uv) {Q} `{ChunkQueue Q} (reads : list bytes) : SM (TransferService.t (Q := Q)) unit :=
  match reads with
  | [] => sret tt
  | data :: reads => (do _ <- TransferService.onBytes uv data; readAll uv reads)%eff
  end.

Lemma truns_readAll (uv : Uv) {Q} `{ChunkQueue Q} full crc wire0 res0 reads :
  (forall n d, uv_write uv n d = 0) -> zlen full <= kMaxCsvSize -> is_uint 32 crc -> forall w : TransferService.t (Q := Q),
  waitingOn wire0 res0 w -> awaits full crc w (concat reads) ->
  truns (readAll uv reads) w (fun w' _ => finished full crc wire0 res0 w').
Proof.
  intros Hw Hz Hc. induction reads as [|data reads IH]; intros w Hwait Ha; cbn [readAll concat] in *.
  - exfalso. by apply (awaits_some full crc Hz Hc w).
  - tstep. unfold TransferService.onBytes. eapply truns_mono; [apply (truns_loop uv Hw full crc wire0 res0 Hz Hc _ _ (concat reads)); [done|done|lia]|].
    intros w' ? [[E Hf]|[Hw' Ha']]; [|by apply IH].
    assert (Hnil : forall rs (w : TransferService.t (Q := Q)), concat rs = [] -> readAll uv rs w = Ret (w, tt)).
    { clear. induction rs as [|d rs IH]; intros w E; [done|]. cbn in E. apply app_eq_nil in E as [-> E]. cbn [readAll]. unfold sbind.
      unfold TransferService.onBytes. cbn. by apply IH. }
    exists w', tt. split; [by apply Hnil|done].
Qed.

(** C5: the result arrives.  A client that has sent an upload, or asked again
    for a result of which it has the beginning, and reads the server's reply,
    however it is cut, ends with exactly the announced result when its CRC is
    the announced one, having confirmed it and told the screen; when the CRC is
    another one it keeps nothing, closes the connection and would start over. *)
Theorem client_receives_result (uv : Uv) {Q} `{ChunkQueue Q} (w : TransferService.t (Q := Q)) full crc wire0 res0 reads :
  (forall n d, uv_write uv n d = 0) -> zlen full <= kMaxCsvSize -> is_uint 32 crc ->
  waitingOn wire0 res0 w -> awaits full crc w (concat reads) ->
  exists w', readAll uv reads w = Ret (w', tt) /\ finished full crc wire0 res0 w'.
Proof.
  intros Hw Hz Hc Hwait Ha. destruct (truns_readAll uv full crc wire0 res0 reads Hw Hz Hc w Hwait Ha) as (w' & [] & E & Hf). by exists w'.
Qed.

(** A client that waits for the acknowledgement of an upload. *)
Definition waitingWorker : TransferService.t (Q := Ring.t) :=
  let w := TransferService.init (Ring.make 4 16) in
  TransferService.setSocket
    (TransferService.setDown w (TransferService.setExpecting (TransferService.down w) Expecting.Ack))
    (Some (TcpSocket.mk true true [] true false false (0, 0)%nat [bs "upload"])).

Lemma client_receives_result_witness :
  exists w', readAll uvFine [ackMsg AckStatus.Ok 9; headerMsg (bs "a,b") 752423903 ++ bs "a,"; bs "b"] waitingWorker = Ret (w', tt) /\
    TransferService.resultCsv w' = bs "a,b".
Proof.
  destruct (client_receives_result uvFine waitingWorker (bs "a,b") (Crc32.crc32 0 (bs "a,b")) [bs "upload"] []
    [ackMsg AckStatus.Ok 9; headerMsg (bs "a,b") 752423903 ++ bs "a,"; bs "b"]) as (w' & E & Hf).
  - reflexivity.
  - vm_compute; discriminate.
  - vm_compute. split; [discriminate|reflexivity].
  - split; [reflexivity|]. split; [reflexivity|]. eexists. split; [reflexivity|]. split; [reflexivity|]. split; reflexivity.
  - eapply (awaits_ack _ _ _ [] 9); [reflexivity| |vm_compute; split; [discriminate|reflexivity]|reflexivity|vm_compute; reflexivity].
    apply (listening_reset (Framer.make MessageType.Ack)). split; vm_compute; [reflexivity|split; discriminate].
  - exists w'. split; [exact E|]. unfold finished in Hf. destruct Hf as (_ & _ & Hf). rewrite Z.eqb_refl in Hf. exact (proj1 Hf).
Defined.
