(* ===== verification/EndToEnd.v ===== *)
(** * Client and server together

    The client's theorems and the server's meet on the wire: the upload the
    client has sent is the one the server serves, and the result the server
    writes is the one the client keeps.  Both sides are the models of their own
    files; the network between them delivers what was written, in order, cut
    anywhere. *)

From S2P Require Import Prelude StringView Crc32 Protocol Codec Framer Ring Stats CsvBuilder Analysis ParserThread Net Session Exchange SessionInv Server ServerUploads Effects FileReader ClientUi Window TransferService Client ClientInv ClientRuns ClientResult.
Import TransferService.

(** The reply of a session that has served an upload. *)
Lemma served_reply data (s : Session.t) wire :
  served data s wire -> Session.state s = SessionState.SendingResult \/ Session.state s = SessionState.WaitDone ->
  exists res, uploadResult data res /\
    wire = [ackMsg AckStatus.Ok (zlen data); headerMsg (res_csv res) (Crc32.crc32 0 (res_csv res)); res_csv res] /\
    zlen (res_csv res) <= kMaxCsvSize.
Proof.
  intros [[E _]|[_ (res & Hr & ->)]] Hs; [destruct Hs; congruence|]. exists res. split; [done|].
  destruct Hr as (_ & p & accepted & skips & stats & reporter & _ & _ & _ & _ & _ & -> & _ & _ & Hz). split; [done|lia].
Qed.

(** There is always something to save. *)
Lemma result_nonempty data res : uploadResult data res -> res_csv res <> [].
Proof.
  intros (_ & p & accepted & skips & stats & reporter & _ & _ & _ & _ & E & _). unfold buildResultCsv in E.
  destruct (StatsCollector.forEachBucket stats) as [buckets| |]; try done. cbn [obind] in E.
  destruct (bucketRows buckets) as [rows| |]; try done. cbn [obind] in E. destruct (formatFixed6 _) as [avg| |]; try done. cbn [obind] in E.
  destruct (nonZeroReasons _ _); try done. cbn [obind] in E. injection E as <-. done.
Qed.


